(* ===== verification/_CoqProject ===== *)
-Q . S2P
Prelude.v
GoLib.v
Errors.v
Json.v
Kube.v
Resource.v
Module.v
Registry.v
Names.v
StoreSpec.v
Service.v
ServiceFacts.v
Scheduling.v
PendingSteps.v
ServiceProps.v
Worker.v
Sql.v
SqlLogic.v
SqlDemo.v
Postgres.v
PostgresFacts.v
PostgresRefine.v
SyncOne.v
ListQuery.v
PostgresProps.v
ListDemo.v
Pgq.v
PgqProps.v
Lease.v
Server.v
ServerProps.v
Gateway.v
GatewayProps.v
Cli.v
CliProps.v
StepMachine.v
Validator.v
Kubernetes.v
KafkaModule.v
Flink.v
Helm.v
Charts.v
GoText.v
ConsumerReset.v
FirehoseTypes.v
FirehoseConfig.v
Firehose.v
FirehoseProps.v
FirehoseRun.v
FirehoseSync.v
FirehoseModule.v
KubeJob.v
JobConfig.v
Job.v
JobProps.v
KubeCRD.v
DaggerTypes.v
DaggerConfig.v
Dagger.v
DaggerProps.v
DaggerRead.v
DaggerStored.v
DaggerRun.v
DaggerRelease.v
Calm.v
ClusterFrame.v
DriverLaws.v
FirehoseLaws.v
JobLaws.v
DaggerLaws.v
System.v
Progress.v
Completion.v
ClusterDemo.v
JobDemo.v
DaggerDemo.v
SystemDemo.v
