(* ===== verification/Prelude.v ===== *)
(** * Entropy: a verification of its core

    Entropy is a service that orchestrates infrastructure: clients create,
    update and delete resources, each of a kind for which a module is registered;
    a resource is planned when it is written and driven to its final state by
    syncers in the background.  This development models the Go sources under
    [src/] and proves the properties that make them correct.  It is written for a
    reader who has the repository beside it.

    ** The program and its parts

    A request reaches the gRPC handlers ([internal/server], Server.v), which map
    messages to domain values and call the resource service ([core], Service.v).
    The service resolves a resource's dependencies, asks the module service
    ([core/module], Module.v) to plan the change, and writes the resource to the
    store.  The module service finds the module of the resource's kind, gets its
    driver from the registry ([modules/registry.go], Registry.v), checks
    dependencies and parameters against the kind's descriptor, and calls the
    driver.  The store is PostgreSQL ([internal/store/postgres], Postgres.v).
    Syncers pick due resources from the store and hand them to the service.
    [pkg/worker] (Worker.v) is a job worker with a queue interface, [pkg/worker/pgq]
    (Pgq.v) its PostgreSQL queue.  [pkg/errors] (Errors.v) classifies errors for
    all of them, [modules/utils.go] (Names.v) makes deployment names.

    The drivers ([modules/*]) read a resource's config as a JSON document, plan
    an action by writing the config and the steps that are pending, and take a
    step per sync against the cluster, through the clients of Kubernetes
    ([pkg/kube], Kube.v and KubeJob.v), Helm ([pkg/helm], Helm.v) and Kafka
    ([pkg/kafka], ConsumerReset.v).

    ** How the code is modelled

    - Prelude.v (this file): outcomes of a call ([result]: a value, an error or a
      panic), the monad [M] of calls that read and write a world [W], loops over
      slices, recovery from errors, a preorder of effects with its automation.
    - GoLib.v: what the code uses of Go: wrap-around integers, times and
      durations as nanoseconds, nil and non-nil maps and byte slices, ranging over
      a map in any order ([MapRange]), strings, regular expressions.
    - Json.v: documents, decoding into an existing value as [json.Unmarshal] does
      it, encoding, [MustJSON]; the text of a document is the parameter [GoJSON].
    - Errors.v: the [Error] type, wrapped errors, [errors.Is] and [errors.As].
    - Resource.v: resources, states, validation, URNs, filters, and the [Store]
      interface as a record of operations.
    - Module.v, Registry.v, Names.v, Validator.v: as above.  JSON schemas,
      validation tags and digests are parameters ([JSONSchema], [TagValidator],
      [Digests]).
    - StoreSpec.v: the abstract store, a finite map of resources under a view of
      the world, and what each operation of a [Store] does to it.  This is the
      interface between the service and the store.
    - Service.v: the resource service and the syncer; ServiceFacts.v has its
      lemmas, ServiceProps.v its theorems, all proved against StoreSpec;
      Scheduling.v shows that it keeps every resource terminal or scheduled,
      PendingSteps.v that a sync takes one off what a resource has to do.
    - Sql.v: the statements the stores send, as data, the meaning of a statement
      on tables under a schema, and the laws of a connection ([Engine]:
      transactions, rollback, constraints, and a clock that does not go back).
      SqlLogic.v reasons about calls on a connection by triples; SqlDemo.v is an executable engine that satisfies the
      laws and runs the witnesses.
    - Postgres.v: every operation of the store as its statements; PostgresFacts.v
      and PostgresRefine.v prove that it implements StoreSpec; PostgresProps.v has
      the theorems.  ListQuery.v gives the hand-written list queries their meaning
      ([ListEngine]); ListDemo.v has an engine that answers them.  SyncOne.v gives
      a syncer's step as one step on the tables.
    - Worker.v, Pgq.v, PgqProps.v: the worker and its queue.
    - Lease.v: several workers on one table, interleaved statement by statement
      with row locks, as a step relation; the invariant of the leases as long as
      heartbeats are timely, what goes wrong when one is late, and that the
      statements of the queue and of the store take these steps.
    - Server.v, ServerProps.v: the handlers, the mappers, the middlewares.
      Protobuf's codecs are the parameter [ProtoJSON].
    - Gateway.v, GatewayProps.v: the HTTP API: the generated gateway's handlers as
      the server registers them, and the middlewares around them.  grpc-gateway's
      runtime is the parameter [GatewayRuntime].
    - Cli.v, CliProps.v: the client commands of [cli], over the handlers; files,
      terminal and encoders are the parameters [Terminal] and [Formats].
    - Kube.v, KubeJob.v, KubeCRD.v, Helm.v, ConsumerReset.v: the clients of the
      clusters.  client-go and the Helm SDK are the parameters [KubeAPI],
      [BatchAPI], [CRDAPI], [HelmAPI] and [VersionAPI].
    - Charts.v, GoText.v: what the drivers of Helm charts share: label templates
      (Go's templates are the parameter [Template]), tolerations and affinities;
      base64, quoted strings, numbers with leading zeros (the table of printable
      characters is the parameter [Unicode]).
    - Kubernetes.v, KafkaModule.v, Flink.v: the drivers that deploy nothing and
      describe what others depend on.
    - FirehoseTypes.v, FirehoseConfig.v, Firehose.v: the firehose driver;
      FirehoseProps.v, FirehoseRun.v, FirehoseSync.v: its configs, plans and
      syncs; FirehoseModule.v: the driver as its module makes it, what it releases
      (as an upsert of Helm.v) and how it resets offsets.
    - JobConfig.v, Job.v: the driver of Kubernetes jobs; JobProps.v.
    - DaggerTypes.v, DaggerConfig.v, Dagger.v: the driver of daggers, Flink jobs
      on a Flink cluster; DaggerProps.v (consumer groups), DaggerRead.v and
      DaggerStored.v (what reading a config guarantees, and that the stored
      document is read as the same config), DaggerRun.v (plans and syncs),
      DaggerRelease.v (releases and output).
    - StepMachine.v: what a sequence of syncs does, for every driver that takes
      one pending step per sync; the drivers' theorems are instances of it.
    - Calm.v: calls that end in a value or an error and keep what a relation on
      worlds keeps; ClusterFrame.v: the libraries of the clusters under such a
      relation; DriverLaws.v, FirehoseLaws.v, JobLaws.v, DaggerLaws.v: the six
      drivers obey the laws that the services rely on.
    - System.v: the program that [cli/serve.go] puts together, over the store and
      the modules of the files above; Progress.v and Completion.v: its syncs and
      calls together, and which resources the started syncers serve.
    - ClusterDemo.v, JobDemo.v, DaggerDemo.v: a cluster in memory that implements
      the parameters, on which the witnesses of the drivers' theorems run;
      SystemDemo.v: the whole program over a database and a cluster in memory.

    A definition has the name of the Go function it translates; a prefix
    ([pg_], [pgq_], [rpc_], [job_], [kube_], [firehose_], [dagger_]) or the file's stem keeps
    two functions of one name apart.

    ** What the theorems show

    - The assembled program satisfies what its layers ask of each other, and so
      the theorems about the service hold of the tables of the database
      (entropy_meets_contract); it plans only what the catalogue of the six kinds
      lists (entropy_accepts); every stored resource is terminal or waits for a
      sync that will find it (no_resource_left_behind), and syncs bring it to an
      end, whatever is called in between (syncing_terminates).
    - The store refines its specification (postgres_refines_store), a write or
      delete that fails changes nothing (mutations_are_atomic), what is created
      can be read back (create_get_roundtrip), listing is reading one by one, where
      it does not fail (list_equals_reads).
    - The service stores what it planned and validated (CreateResource_stores,
      ApplyAction_updates), resolves dependencies only to completed resources of
      the same project (generateModuleSpec_correct), keeps the dependency graph
      well founded (dependencies_well_founded of ServiceProps.v), so that its
      recursion terminates (GetResource_terminates), writes nothing in a dry run
      (dry_run_writes_nothing); a sync stores what the driver returned, or the
      failure, counted, with the time of the next attempt (handleSync_correct), and a
      syncer's step does this to one due resource of the database, held for the
      lease while it does (SyncOne_correct).
    - The module service reaches a driver only with satisfied dependencies, a
      known action and valid parameters (PlanAction_guarded); names
      (BuildResourceName_correct).
    - The worker's attempts and its queue (Attempt_correct,
      Dequeue_records_attempt); as long as heartbeats are timely a job is worked on
      by one worker at a time (queue_lease_exclusive), a resource need not be
      (sync_picks_twice).
    - The API passes requests on faithfully and maps errors to codes
      (rpc_CreateResource_correct, rpc_errors_are_status, spec_proto_roundtrip);
      it refuses what the client commands write (client_cannot_write).  Over HTTP
      a write is one call of its handler, on the resource of the path
      (http_writes_are_grpc_calls); what is refused there is http_refusals.
    - A firehose's config is completed and bounded when it is read
      (readConfig_correct); every action's plan (firehose_Plan_correct); the
      syncs that follow take the planned steps in order and complete the
      resource, stopping it when its time has come (syncs_run_the_steps); a
      release step is one upsert of what the config says (release_step_correct),
      which changes a release only when it is entropy's and of the same deployment,
      whatever the outcome (deploys_only_its_own); the offset reset and its errors
      (consumer_reset_correct).  That modules share their default maps is
      FirehoseModule.v's default_maps_are_shared.
    - An action on a job makes its one call to the cluster
      (job_action_reaches_cluster), for the request's or the stored config, which
      survives being stored (stored_config_is_stable of JobProps.v), with the
      object that the config describes (created_job_template of JobProps.v).
    - A dagger's config is settled by reading it and survives being stored
      (dagger_config_settles); every action reaches the cluster as one release
      of the config it asks for (dagger_action_deploys), which runs what the config
      says and changes only what is its own (dagger_release_correct); a reset moves
      to fresh consumer groups (consumer_reset_fresh); its output says what the
      cluster says, exceptions and errors included (dagger_output_correct).  That a dagger stops at its stop time is
      DaggerRelease.v's dagger_stops_on_time.
    - What the Kubernetes and Kafka modules write is what other drivers read
      (kube_Plan_correct); that waiting for a job ends when the job does is
      Kube.v's waitForJob_correct.

    ** Bounds

    [GetResource] recurses through dependencies without a bound of its own, so
    its model takes the depth of the stack; GetResource_terminates shows that a
    depth above the number of stored resources is enough in every reachable
    store.  [waitForJob] polls without a bound; its model takes the number of
    polls, and waitForJob_correct shows that the number after which the job
    settles is enough, and that no number is when it does not.  With a limit [M]
    on retries, syncing_terminates bounds the stored syncs of a pending resource
    by [4 * M]: a plan has three steps at most, the last sync completes the
    resource, and each of the four may be tried [M] times.  Loops over slices
    and maps are structural; loops over channels and timers take the events they
    see as a list.

    ** What is simplified

    Times are instants in nanoseconds; the zone a time was written in is lost.
    A query answers in the order of its table where it does not ask for one.
    Upper and lower case are those of ASCII, and the lengths of strings do not
    overflow.
    The logs of several pods are one stream, in the order in which the pods are
    read.  A slice has no spare capacity.  Calls and syncs of
    the assembled program follow each other as wholes; Lease.v interleaves the
    statements of several workers.  The labels that a dagger's plan writes
    into the map of the resource it was given are those of the planned resource
    only; the registry makes a driver for every call, so what a plan writes into
    the settings of its driver does not outlive it.  A factory whose decoding fails halfway
    leaves the shared default maps as they were.

    ** What is not modelled

    Logging, tracing, metrics beyond the counters of the service; flags, config
    files and migrations of the command line; the listening servers and the
    router in front of the gateway; the gateway's variants for a remote endpoint,
    which the program does not call, and the metadata of responses, which no
    handler sets; generated protobuf code beyond the messages and the validation
    that the client calls. *)

From stdpp Require Export base gmap strings list fin_maps sorting pretty.

(** ** Outcomes of a Go call

    A Go function that returns [(T, error)] either returns a value, returns a
    non-nil error, or panics (index out of range, write to a nil map, stack
    overflow of an unbounded recursion).  A panic unwinds through every caller
    that does not recover, so it is a third outcome and not an error value. *)

Inductive result (E A : Type) : Type :=
  | Ok (a : A)
  | Err (e : E)
  | Panic (msg : string).

Arguments Ok {E A} a.
Arguments Err {E A} e.
Arguments Panic {E A} msg.

#[export] Instance result_eq_dec {E A} `{EqDecision E, EqDecision A} :
  EqDecision (result E A).
Proof. solve_decision. Defined.

#[export] Instance result_ret E : MRet (result E) := λ A a, Ok a.

#[export] Instance result_bind E : MBind (result E) := λ A B f m,
  match m with
  | Ok a => f a
  | Err e => Err e
  | Panic s => Panic s
  end.

(** [if err != nil { return h(err) }]: the handler sees errors, not panics. *)
Definition on_err {E A} (m : result E A) (h : E → E) : result E A :=
  match m with
  | Err e => Err (h e)
  | r => r
  end.

Definition is_ok {E A} (r : result E A) : bool :=
  match r with Ok _ => true | _ => false end.

Definition is_panic {E A} (r : result E A) : bool :=
  match r with Panic _ => true | _ => false end.

(** ** Effectful Go calls

    A call that reads and writes the world [W] (the database, the cluster, the
    clock, the telemetry counters) is a function from the world to an outcome
    and the next world.  The effects of a call that fails are kept, as they are
    in Go; only a database transaction undoes them. *)

Definition M (E W A : Type) : Type := W → result E A * W.

#[export] Instance M_ret E W : MRet (M E W) := λ A a w, (Ok a, w).

#[export] Instance M_bind E W : MBind (M E W) := λ A B f m w,
  match m w with
  | (Ok a, w') => f a w'
  | (Err e, w') => (Err e, w')
  | (Panic s, w') => (Panic s, w')
  end.

Definition throw {E W A} (e : E) : M E W A := λ w, (Err e, w).
Definition panic {E W A} (s : string) : M E W A := λ w, (Panic s, w).

(** A pure outcome as a call without effect. *)
Definition lift {E W A} (r : result E A) : M E W A := λ w, (r, w).

(** [x, err := m; if err != nil { return h(err) }]. *)
Definition catch {E W A} (m : M E W A) (h : E → E) : M E W A := λ w,
  match m w with
  | (Err e, w') => (Err (h e), w')
  | r => r
  end.

(** [x, err := m] where the code goes on in both cases. *)
Definition attempt {E W A} (m : M E W A) : M E W (E + A) := λ w,
  match m w with
  | (Ok a, w') => (Ok (inr a), w')
  | (Err e, w') => (Ok (inl e), w')
  | (Panic s, w') => (Panic s, w')
  end.

(** [for _, a := range l { if err := f(a); err != nil { return err } }]. *)
Fixpoint for_each {E W A} (f : A → M E W ()) (l : list A) : M E W () :=
  match l with
  | [] => mret tt
  | a :: l => f a ≫= λ _, for_each f l
  end.

(** A loop that threads an accumulator and stops at the first error. *)
Fixpoint fold_each {E W A B} (f : B → A → M E W B) (b : B) (l : list A) : M E W B :=
  match l with
  | [] => mret b
  | a :: l => f b a ≫= λ b', fold_each f b' l
  end.

Fixpoint res_fold {E A B} (f : B → A → result E B) (b : B) (l : list A) : result E B :=
  match l with
  | [] => Ok b
  | a :: l => f b a ≫= λ b', res_fold f b' l
  end.

(** Running a bind, the equations every proof about a call starts from. *)
Section run.
Context {E W A B : Type}.
Implicit Types (m : M E W A) (f : A → M E W B) (w : W).

Lemma run_bind m f w :
  (m ≫= f) w =
  match m w with
  | (Ok a, w') => f a w'
  | (Err e, w') => (Err e, w')
  | (Panic s, w') => (Panic s, w')
  end.
Proof. done. Qed.

Lemma run_bind_ok m f w a w' : m w = (Ok a, w') → (m ≫= f) w = f a w'.
Proof. intros H. by rewrite run_bind, H. Qed.

Lemma run_bind_err m f w e w' : m w = (Err e, w') → (m ≫= f) w = (Err e, w').
Proof. intros H. by rewrite run_bind, H. Qed.

Lemma bind_ok_inv m f w b w2 :
  (m ≫= f) w = (Ok b, w2) → ∃ a w1, m w = (Ok a, w1) ∧ f a w1 = (Ok b, w2).
Proof. rewrite run_bind. destruct (m w) as [[a|e|s] w1]; naive_solver. Qed.

Lemma run_lift (r : result E A) w : lift r w = (r, w).
Proof. done. Qed.

Lemma run_catch_ok m h w a w' :
  catch m h w = (Ok a, w') ↔ m w = (Ok a, w').
Proof. unfold catch. destruct (m w) as [[?|?|?] ?]; naive_solver. Qed.
End run.

(** A call that was run on a concrete world and succeeded. *)
Lemma ok_run {E W A} (p : result E A * W) : is_ok p.1 = true → ∃ a w', p = (Ok a, w').
Proof. destruct p as [[a|e|s] w']; cbn; [eauto|discriminate..]. Qed.

Lemma ok_res {E A} (r : result E A) : is_ok r = true → ∃ a, r = Ok a.
Proof. destruct r as [a|e|s]; cbn; [eauto|discriminate..]. Qed.

Lemma res_bind_ok_inv {E A B} (r : result E A) (f : A → result E B) b :
  (r ≫= f) = Ok b → ∃ a, r = Ok a ∧ f a = Ok b.
Proof. destruct r; cbn; naive_solver. Qed.

Lemma res_on_err_ok {E A} (r : result E A) h a : on_err r h = Ok a ↔ r = Ok a.
Proof. destruct r; naive_solver. Qed.

(** An invariant of the loop body is an invariant of the loop. *)
Lemma res_fold_inv {E A B} (f : B → A → result E B) (P : B → Prop) l b b' :
  (∀ b a b', a ∈ l → P b → f b a = Ok b' → P b') →
  P b → res_fold f b l = Ok b' → P b'.
Proof.
  revert b. induction l as [|a l IH]; cbn; intros b Hf Hb H; [naive_solver|].
  apply res_bind_ok_inv in H as (b1 & H1 & H2).
  eapply IH; [|eapply (Hf b a); [set_solver|done|done]|done].
  intros b0 a0 b0' Ha0. apply (Hf b0 a0). set_solver.
Qed.

(** ** Effects

    [effects R m]: whatever the outcome of [m], the world before and the world
    after are related by [R].  For a preorder [R] the property is closed under
    the combinators above, which is how the frame conditions of the handlers are
    proved. *)

Create HintDb effects discriminated.

Section effects.
Context {E W : Type} (R : relation W) `{!PreOrder R}.

Definition effects {A} (m : M E W A) : Prop := ∀ w, R w (m w).2.

Lemma effects_run {A} (m : M E W A) w r w' : effects m → m w = (r, w') → R w w'.
Proof. intros Hm H. specialize (Hm w). by rewrite H in Hm. Qed.

Lemma effects_ret {A} (a : A) : effects (mret a).
Proof. intros w. cbn. reflexivity. Qed.

Lemma effects_throw {A} (e : E) : effects (throw (A := A) e).
Proof. intros w. cbn. reflexivity. Qed.

Lemma effects_panic {A} s : effects (panic (A := A) s).
Proof. intros w. cbn. reflexivity. Qed.

Lemma effects_lift {A} (r : result E A) : effects (lift r).
Proof. intros w. cbn. reflexivity. Qed.

Lemma effects_bind {A B} (m : M E W A) (f : A → M E W B) :
  effects m → (∀ a, effects (f a)) → effects (m ≫= f).
Proof.
  intros Hm Hf w. specialize (Hm w). rewrite run_bind.
  destruct (m w) as [[a|e|s] w1]; cbn in *; [|done..].
  etrans; [exact Hm|]. apply Hf.
Qed.

Lemma effects_catch {A} (m : M E W A) h : effects m → effects (catch m h).
Proof. intros Hm w. specialize (Hm w). unfold catch. by destruct (m w) as [[?|?|?] ?]. Qed.

Lemma effects_attempt {A} (m : M E W A) : effects m → effects (attempt m).
Proof. intros Hm w. specialize (Hm w). unfold attempt. by destruct (m w) as [[?|?|?] ?]. Qed.

Lemma effects_fold_each {A B} (f : B → A → M E W B) b l :
  (∀ b a, effects (f b a)) → effects (fold_each f b l).
Proof.
  intros Hf. revert b. induction l as [|a l IH]; cbn; intros b.
  - apply effects_ret.
  - apply effects_bind; [done|]. intros b'. apply IH.
Qed.
End effects.

#[export] Hint Resolve effects_ret effects_throw effects_panic effects_lift effects_bind
  effects_catch effects_attempt effects_fold_each : effects.
#[export] Hint Extern 0 (PreOrder _) => exact _ : effects.

(** Decompose a call into the calls it makes. *)
Ltac effects_step :=
  first [ solve [auto with effects] | case_match | apply effects_bind; [exact _| |intros ?] | apply effects_catch
        | apply effects_attempt ].
Ltac effects_tac := repeat effects_step.

(** ** Automation *)

Create HintDb go discriminated.

(** Invert the binds, matches and option equations of an executed call. *)
Ltac go_inv_step :=
  match goal with
  | H : ?x = ?x |- _ => clear H
  | H : (_, _) = (_, _) |- _ => simplify_eq H
  | H : Ok _ = Ok _ |- _ => injection H as H; subst
  | H : Err _ = Err _ |- _ => injection H as H; subst
  | H : Some _ = Some _ |- _ => injection H as H; subst
  | H : Ok _ = Err _ |- _ => discriminate H
  | H : Err _ = Ok _ |- _ => discriminate H
  | H : Panic _ = _ |- _ => discriminate H
  | H : _ = Panic _ |- _ => discriminate H
  | H : (_ ≫= _) _ = (Ok _, _) |- _ =>
      let a := fresh "a" in let w := fresh "w" in let H1 := fresh "Hrun" in
      apply bind_ok_inv in H as (a & w & H1 & H)
  | H : mret _ _ = (_, _) |- _ => unfold mret, M_ret in H
  | H : throw _ _ = (_, _) |- _ => unfold throw in H
  | H : panic _ _ = (_, _) |- _ => unfold panic in H
  | H : lift _ _ = (_, _) |- _ => rewrite run_lift in H
  | H : catch _ _ _ = (Ok _, _) |- _ => apply run_catch_ok in H
  end.

Ltac go_inv := repeat (go_inv_step; simplify_eq/=).

(** Run the monad of the goal down to the calls it makes. *)
Ltac go_run :=
  unfold mbind, mret, M_bind, M_ret, result_bind, result_ret, lift, throw, panic,
    catch, attempt, on_err in *; cbn in *.

(** Case analysis on the guards of the goal and the context. *)
Ltac go_cases := repeat (case_match; simplify_eq/=; try done).
