(* ===== verification/GoLib.v ===== *)
(** * GoLib: the parts of the Go language and standard library the program uses

    Machine integers with their wrap-around, times and durations, byte slices
    with a nil value, maps with a nil value and an unspecified iteration order,
    the [strings] functions, anchored regular expressions, and the [errors]
    package's view of error values.  Strings are byte sequences. *)

From S2P Require Import Prelude.
From Stdlib Require Import Ascii.

#[local] Open Scope Z_scope.

(** ** Integers *)

Definition wrap (bits z : Z) : Z :=
  (z + 2 ^ (bits - 1)) `mod` 2 ^ bits - 2 ^ (bits - 1).

(** [int] is 64 bits wide on every platform the program is built for. *)
Definition wrap64 : Z → Z := wrap 64.
Definition wrap32 : Z → Z := wrap 32.

Definition MaxInt : Z := 2 ^ 63 - 1.

Lemma wrap_id bits z : 0 < bits → - 2 ^ (bits - 1) ≤ z < 2 ^ (bits - 1) → wrap bits z = z.
Proof.
  intros Hb Hz. unfold wrap.
  assert (2 ^ bits = 2 * 2 ^ (bits - 1)) as Hp.
  { rewrite <- Z.pow_succ_r by lia. f_equal. lia. }
  rewrite Z.mod_small; lia.
Qed.

Lemma wrap_range bits z : 0 < bits → - 2 ^ (bits - 1) ≤ wrap bits z < 2 ^ (bits - 1).
Proof.
  intros Hb. unfold wrap.
  assert (2 ^ bits = 2 * 2 ^ (bits - 1)) as Hp.
  { rewrite <- Z.pow_succ_r by lia. f_equal. lia. }
  assert (0 < 2 ^ bits) by (apply Z.pow_pos_nonneg; lia).
  pose proof (Z.mod_pos_bound (z + 2 ^ (bits - 1)) (2 ^ bits)). lia.
Qed.

Lemma wrap64_id z : - 2 ^ 63 ≤ z < 2 ^ 63 → wrap64 z = z.
Proof. intros. by apply wrap_id. Qed.

Lemma wrap32_id z : - 2 ^ 31 ≤ z < 2 ^ 31 → wrap32 z = z.
Proof. intros. by apply wrap_id. Qed.

(** ** Time

    A [time.Time] is a number of nanoseconds since the zero time, which is what
    [IsZero] tests for; a [time.Duration] is a number of nanoseconds. *)

Abbreviation Time := Z (only parsing).
Abbreviation Duration := Z (only parsing).

Definition zero_time : Time := 0.
Definition Millisecond : Duration := 1000000.
Definition Second : Duration := 1000 * Millisecond.
Definition Minute : Duration := 60 * Second.

(** Databases keep whole microseconds; a time is rounded to the nearest. *)
Definition Microsecond : Duration := 1000.
Definition whole_us (t : Time) : bool := t `mod` Microsecond =? 0.
Definition rounds (t t' : Time) : Prop := whole_us t' = true ∧ 2 * Z.abs (t - t') ≤ Microsecond.
Definition round_us (t : Time) : Time := (t + 500) `div` Microsecond * Microsecond.

Lemma round_us_spec t : rounds t (round_us t).
Proof.
  unfold rounds, round_us, whole_us, Microsecond. split.
  - apply Z.eqb_eq. apply Z.mod_mul. lia.
  - pose proof (Z.div_mod (t + 500) 1000). pose proof (Z.mod_pos_bound (t + 500) 1000). lia.
Qed.

Lemma rounds_whole t t' : whole_us t = true → rounds t t' → t' = t.
Proof.
  unfold rounds, whole_us, Microsecond. intros Ht%Z.eqb_eq [Ht'%Z.eqb_eq Hd].
  apply Z.mod_divide in Ht as [a ->]; [|lia]. apply Z.mod_divide in Ht' as [c ->]; lia.
Qed.

(** ** Byte slices: [json.RawMessage] and [[]byte]; [None] is the nil slice. *)

Abbreviation RawMessage := (option string) (only parsing).

Definition raw_bytes (r : RawMessage) : string := default "" r.
Definition raw_len (r : RawMessage) : nat := String.length (raw_bytes r).

(** [bytes.Equal]: a nil slice equals an empty one. *)
Definition bytes_Equal (a b : RawMessage) : bool := bool_decide (raw_bytes a = raw_bytes b).

(** ** Maps

    A map-typed value is nil ([None]) or a map; reading a missing key of a
    [map[string]string] gives "", writing to a nil map panics. *)

Abbreviation gomap A := (option (gmap string A)) (only parsing).

Definition gm {A} (m : gomap A) : gmap string A := default ∅ m.
Definition gm_get (m : gomap string) (k : string) : string := default "" (gm m !! k).
Definition gm_len {A} (m : gomap A) : nat := size (gm m).

(** [for k, v := range m] visits every entry once, in an order that Go leaves
    unspecified.  Everything that iterates over a map is stated for any order. *)
Class MapRange : Type := {
  range : ∀ {A}, gmap string A → list (string * A);
  range_perm : ∀ {A} (m : gmap string A), range m ≡ₚ map_to_list m;
}.

(** One order, used by the witnesses. *)
Definition range_sorted : MapRange := {|
  range A m := map_to_list m;
  range_perm A m := Permutation_refl _;
|}.

Section range.
Context {MR : MapRange} {A : Type}.
Implicit Types m : gmap string A.

Lemma elem_of_range m k v : (k, v) ∈ range m ↔ m !! k = Some v.
Proof. rewrite range_perm. apply elem_of_map_to_list. Qed.

Lemma NoDup_range_keys m : NoDup (range m).*1.
Proof. rewrite range_perm. apply NoDup_fst_map_to_list. Qed.

Lemma range_to_map m : list_to_map (range m) = m.
Proof.
  rewrite (list_to_map_proper _ (map_to_list m)).
  - apply list_to_map_to_list.
  - apply NoDup_range_keys.
  - apply range_perm.
Qed.

Lemma range_empty : range (∅ : gmap string A) = [].
Proof. apply Permutation_nil_r. by rewrite range_perm, map_to_list_empty. Qed.

Lemma length_range m : length (range m) = size m.
Proof. by rewrite range_perm, length_map_to_list. Qed.
End range.

(** The loop [for k, v := range m { res[k] = v }]. *)
Definition copy_into {A} (l : list (string * A)) (res : gmap string A) : gmap string A :=
  foldl (λ acc kv, <[kv.1 := kv.2]> acc) res l.

Lemma copy_into_spec {A} (l : list (string * A)) res :
  NoDup l.*1 → copy_into l res = list_to_map l ∪ res.
Proof.
  unfold copy_into. revert res.
  induction l as [|[k v] l IH]; cbn; intros res Hl; [by rewrite (left_id_L ∅ (∪))|].
  apply NoDup_cons in Hl as [Hk Hl]. rewrite IH by done.
  rewrite <- insert_union_l, insert_union_r; [done|].
  by apply not_elem_of_list_to_map_1.
Qed.

Lemma copy_range_spec `{!MapRange} {A} (m res : gmap string A) :
  copy_into (range m) res = m ∪ res.
Proof. by rewrite copy_into_spec, range_to_map by apply NoDup_range_keys. Qed.

(** ** Strings *)

Abbreviation chars := String.list_ascii_of_string (only parsing).
Abbreviation str := String.string_of_list_ascii (only parsing).

Lemma str_chars s : str (chars s) = s.
Proof. apply String.string_of_list_ascii_of_string. Qed.

Lemma chars_str l : chars (str l) = l.
Proof. apply String.list_ascii_of_string_of_list_ascii. Qed.

Lemma chars_inj s t : chars s = chars t → s = t.
Proof. intros H. by rewrite <- (str_chars s), <- (str_chars t), H. Qed.

Lemma chars_app s t : chars (s +:+ t) = chars s ++ chars t.
Proof.
  induction s as [|c s IH]; [done|].
  change (String c s +:+ t) with (String c (s +:+ t)). cbn. by rewrite IH.
Qed.

Lemma str_app k l : str (k ++ l) = str k +:+ str l.
Proof. apply chars_inj. by rewrite chars_app, !chars_str. Qed.

Lemma length_chars s : length (chars s) = String.length s.
Proof. induction s; cbn; by f_equal. Qed.

Lemma strlen_app s t : String.length (s +:+ t) = (String.length s + String.length t)%nat.
Proof. by rewrite <- !length_chars, chars_app, length_app. Qed.

Lemma strlen_str l : String.length (str l) = length l.
Proof. by rewrite <- length_chars, chars_str. Qed.

Lemma sapp_assoc s t u : (s +:+ t) +:+ u = s +:+ t +:+ u.
Proof. apply chars_inj. by rewrite !chars_app, app_assoc. Qed.

Lemma sapp_nil_r s : s +:+ "" = s.
Proof. apply chars_inj. rewrite chars_app. apply app_nil_r. Qed.

Lemma sapp_inj_l s t u : s +:+ t = s +:+ u → t = u.
Proof. apply (inj (String.append s)). Qed.

(** Splitting at the first separator is injective. *)
Lemma app_sep_inj {A} (c : A) k1 l1 k2 l2 :
  c ∉ k1 → c ∉ k2 → k1 ++ c :: l1 = k2 ++ c :: l2 → k1 = k2 ∧ l1 = l2.
Proof.
  revert k2. induction k1 as [|x k1 IH]; intros [|y k2] H1 H2 H; simplify_eq/=;
    [done|set_solver|set_solver|].
  destruct (IH k2) as [-> ->]; set_solver.
Qed.

Lemma sapp_sep_inj c s1 t1 s2 t2 :
  c ∉ chars s1 → c ∉ chars s2 →
  s1 +:+ String c t1 = s2 +:+ String c t2 → s1 = s2 ∧ t1 = t2.
Proof.
  intros H1 H2 H. apply (f_equal chars) in H. rewrite !chars_app in H.
  apply app_sep_inj in H as [?%chars_inj ?%chars_inj]; done.
Qed.

Create Rewrite HintDb strings.
#[export] Hint Rewrite chars_app chars_str str_chars : strings.

(** *** Byte classes *)

Definition in_range (lo hi c : ascii) : bool :=
  (Ascii.nat_of_ascii lo <=? Ascii.nat_of_ascii c)%nat
  && (Ascii.nat_of_ascii c <=? Ascii.nat_of_ascii hi)%nat.

Definition is_lower (c : ascii) : bool := in_range "a" "z" c.
Definition is_upper (c : ascii) : bool := in_range "A" "Z" c.
Definition is_alpha (c : ascii) : bool := is_upper c || is_lower c.
Definition is_digit (c : ascii) : bool := in_range "0" "9" c.

(** *** [strings.ToLower], on the ASCII letters; the other bytes are kept *)

Definition lower_char (c : ascii) : ascii :=
  if is_upper c then Ascii.ascii_of_nat (Ascii.nat_of_ascii c + 32) else c.

Definition ToLower (s : string) : string := str (lower_char <$> chars s).

(** *** [utf8.ValidString] *)

Definition cont_byte (lo hi : nat) (c : ascii) : bool :=
  (lo <=? Ascii.nat_of_ascii c)%nat && (Ascii.nat_of_ascii c <=? hi)%nat.

Fixpoint valid_utf8_list (l : list ascii) : bool :=
  match l with
  | [] => true
  | c :: l =>
      let n := Ascii.nat_of_ascii c in
      let two lo hi :=
        match l with c1 :: l => cont_byte lo hi c1 && valid_utf8_list l | [] => false end in
      let three lo hi :=
        match l with
        | c1 :: c2 :: l => cont_byte lo hi c1 && cont_byte 128 191 c2 && valid_utf8_list l
        | _ => false
        end in
      let four lo hi :=
        match l with
        | c1 :: c2 :: c3 :: l =>
            cont_byte lo hi c1 && cont_byte 128 191 c2 && cont_byte 128 191 c3 && valid_utf8_list l
        | _ => false
        end in
      if (n <? 128)%nat then valid_utf8_list l
      else if (194 <=? n)%nat && (n <=? 223)%nat then two 128%nat 191%nat
      else if (n =? 224)%nat then three 160%nat 191%nat
      else if (n =? 237)%nat then three 128%nat 159%nat
      else if (225 <=? n)%nat && (n <=? 239)%nat then three 128%nat 191%nat
      else if (n =? 240)%nat then four 144%nat 191%nat
      else if (241 <=? n)%nat && (n <=? 243)%nat then four 128%nat 191%nat
      else if (n =? 244)%nat then four 128%nat 143%nat
      else false
  end.

Definition valid_utf8 (s : string) : bool := valid_utf8_list (chars s).

(** *** Prefixes, suffixes, separators *)

Definition HasPrefix (s p : string) : bool := String.prefix p s.
Definition HasSuffix (s p : string) : bool :=
  bool_decide (drop (String.length s - String.length p) (chars s) = chars p)
  && (String.length p <=? String.length s)%nat.

Definition TrimSuffix (s p : string) : string :=
  if HasSuffix s p then str (take (String.length s - String.length p) (chars s)) else s.

Definition TrimPrefix (s p : string) : string :=
  if HasPrefix s p then str (drop (String.length p) (chars s)) else s.

(** [strings.Split(s, sep)] for a one-byte separator. *)
Fixpoint split_list (c : ascii) (l : list ascii) : list (list ascii) :=
  match l with
  | [] => [[]]
  | x :: l =>
      if decide (x = c) then [] :: split_list c l
      else match split_list c l with
           | p :: ps => (x :: p) :: ps
           | [] => [[x]]
           end
  end.

Definition Split (s : string) (c : ascii) : list string := str <$> split_list c (chars s).

(** [strings.SplitN(s, sep, 2)]: the parts before and after the first
    separator, or the whole string when there is none. *)
Fixpoint cut_list (c : ascii) (l : list ascii) : option (list ascii * list ascii) :=
  match l with
  | [] => None
  | x :: l =>
      if decide (x = c) then Some ([], l)
      else prod_map (cons x) id <$> cut_list c l
  end.

Definition SplitN2 (s : string) (c : ascii) : list string :=
  match cut_list c (chars s) with
  | Some (a, b) => [str a; str b]
  | None => [s]
  end.

(** [strings.Contains(s, sep)] for a one-byte separator. *)
Definition Contains (s : string) (c : ascii) : bool := bool_decide (c ∈ chars s).

Definition Join (l : list string) (sep : string) : string := String.concat sep l.

Lemma HasSuffix_app s p : HasSuffix (s +:+ p) p = true.
Proof.
  unfold HasSuffix. apply andb_true_iff. split.
  - apply bool_decide_eq_true. rewrite strlen_app, Nat.add_sub, chars_app, <- length_chars.
    apply drop_app_length.
  - apply Nat.leb_le. rewrite strlen_app. lia.
Qed.

Lemma TrimSuffix_app s p : TrimSuffix (s +:+ p) p = s.
Proof.
  unfold TrimSuffix. rewrite HasSuffix_app, strlen_app, Nat.add_sub, chars_app, <- length_chars.
  by rewrite take_app_length, str_chars.
Qed.

Lemma TrimSuffix_cases s p :
  s = TrimSuffix s p +:+ p ∨ TrimSuffix s p = s.
Proof.
  unfold TrimSuffix. destruct (HasSuffix s p) eqn:H; [left|by right].
  unfold HasSuffix in H. apply andb_true_iff in H as [H _].
  apply bool_decide_eq_true in H. apply chars_inj.
  rewrite chars_app, chars_str, <- H. by rewrite take_drop.
Qed.

Lemma cut_list_app c k l : c ∉ k → cut_list c (k ++ c :: l) = Some (k, l).
Proof.
  induction k as [|x k IH]; intros Hk; cbn; [by rewrite decide_True|].
  rewrite decide_False by set_solver. by rewrite IH by set_solver.
Qed.

Lemma cut_list_None c l : c ∉ l → cut_list c l = None.
Proof.
  induction l as [|x l IH]; intros Hl; cbn; [done|].
  rewrite decide_False by set_solver. by rewrite IH by set_solver.
Qed.

Lemma SplitN2_app c s t : c ∉ chars s → SplitN2 (s +:+ String c t) c = [s; t].
Proof.
  intros Hs. unfold SplitN2. rewrite chars_app. cbn.
  by rewrite cut_list_app, !str_chars.
Qed.

(** *** Trimming

    [strings.TrimSpace] removes the runes of [unicode.IsSpace] from both ends.
    Their UTF-8 encodings are the tokens below; UTF-8 is self-synchronising, so
    a rune is a prefix (a suffix) exactly when its encoding is. *)

Fixpoint strip_tok (ts : list (list ascii)) (l : list ascii) : option (list ascii) :=
  match ts with
  | [] => None
  | t :: ts =>
      if decide (take (length t) l = t) then Some (drop (length t) l)
      else strip_tok ts l
  end.

Lemma strip_tok_Some ts l l' :
  strip_tok ts l = Some l' → ∃ t, t ∈ ts ∧ l = t ++ l'.
Proof.
  induction ts as [|t ts IH]; cbn; intros H; [done|].
  case_decide as Ht; simplify_eq.
  - exists t. split; [set_solver|]. by rewrite <- Ht at 1; rewrite take_drop.
  - destruct (IH H) as (t' & ? & ?). exists t'. set_solver.
Qed.

Lemma strip_tok_None ts l : strip_tok ts l = None ↔ ∀ t, t ∈ ts → ¬ t `prefix_of` l.
Proof.
  induction ts as [|t ts IH]; cbn; [set_solver|].
  case_decide as Ht.
  - split; [done|]. intros H. destruct (H t); [set_solver|].
    exists (drop (length t) l). by rewrite <- Ht at 1; rewrite take_drop.
  - rewrite IH. split.
    + intros H t' [->|?]%elem_of_cons; [|by apply H].
      intros [k ->]. apply Ht. apply take_app_length.
    + intros H t' ?. apply H. set_solver.
Qed.

Section trim.
Variable toks : list (list ascii).

(** The length of the input is enough fuel: every token is at least a byte. *)
Fixpoint ltrim_go (fuel : nat) (l : list ascii) : list ascii :=
  match fuel with
  | O => l
  | S n =>
      match strip_tok toks l with
      | Some l' => ltrim_go n l'
      | None => l
      end
  end.

Definition ltrim (l : list ascii) : list ascii := ltrim_go (length l) l.

Lemma ltrim_id l : strip_tok toks l = None → ltrim l = l.
Proof. intros H. unfold ltrim. destruct l as [|c l]; [done|]. cbn -[strip_tok]. by rewrite H. Qed.

Lemma ltrim_suffix l : ltrim l `suffix_of` l.
Proof.
  unfold ltrim. generalize (length l). intros fuel. revert l.
  induction fuel as [|n IH]; intros l; cbn; [done|].
  destruct (strip_tok toks l) as [l'|] eqn:E; [|done].
  apply strip_tok_Some in E as (t & _ & ->). etrans; [apply IH|]. by exists t.
Qed.

Hypothesis toks_nonempty : Forall (λ t, t ≠ []) toks.

Lemma ltrim_go_None fuel l :
  (length l ≤ fuel)%nat → strip_tok toks (ltrim_go fuel l) = None.
Proof.
  revert l. induction fuel as [|n IH]; intros l Hl; cbn.
  - assert (l = []) as -> by (destruct l; [done|cbn in Hl; lia]).
    apply strip_tok_None. intros t Ht [k Hk].
    rewrite Forall_forall in toks_nonempty.
    apply (toks_nonempty t Ht). destruct t; done.
  - destruct (strip_tok toks l) as [l'|] eqn:E; [|done].
    apply IH. apply strip_tok_Some in E as (t & Ht & ->).
    rewrite Forall_forall in toks_nonempty. specialize (toks_nonempty t Ht).
    rewrite length_app in Hl. destruct t; [done|]. cbn in Hl. lia.
Qed.

Lemma ltrim_None l : strip_tok toks (ltrim l) = None.
Proof. by apply ltrim_go_None. Qed.
End trim.

Definition b (n : nat) : ascii := Ascii.ascii_of_nat n.

Definition unicode_spaces : list (list ascii) :=
  [[b 9]; [b 10]; [b 11]; [b 12]; [b 13]; [b 32]; [b 194; b 133]; [b 194; b 160];
   [b 225; b 154; b 128]]
  ++ ((λ n, [b 226; b 128; b n]) <$> [128; 129; 130; 131; 132; 133; 134; 135; 136; 137; 138; 168; 169; 175]%nat)
  ++ [[b 226; b 129; b 159]; [b 227; b 128; b 128]].

Definition trim_both (toks : list (list ascii)) (l : list ascii) : list ascii :=
  reverse (ltrim (reverse <$> toks) (reverse (ltrim toks l))).

Definition TrimSpace (s : string) : string := str (trim_both unicode_spaces (chars s)).

(** [strings.Trim(s, cutset)] for a one-byte cutset. *)
Definition Trim (s : string) (c : ascii) : string := str (trim_both [[c]] (chars s)).

Lemma trim_both_id toks l :
  (∀ t, t ∈ toks → ¬ t `prefix_of` l) →
  (∀ t, t ∈ toks → ¬ t `suffix_of` l) → trim_both toks l = l.
Proof.
  intros Hp Hs. unfold trim_both.
  rewrite (ltrim_id toks l) by (apply (proj2 (strip_tok_None _ _)); done).
  rewrite ltrim_id, reverse_involutive; [done|].
  apply strip_tok_None. intros t Ht [k Hk].
  apply list_elem_of_fmap in Ht as (t' & -> & Ht').
  apply (Hs t' Ht'). exists (reverse k).
  rewrite <- (reverse_involutive l), Hk, reverse_app, reverse_involutive. done.
Qed.

Lemma trim_both_clean toks l :
  Forall (λ t, t ≠ []) toks →
  (∀ t, t ∈ toks → ¬ t `prefix_of` trim_both toks l) ∧
  (∀ t, t ∈ toks → ¬ t `suffix_of` trim_both toks l).
Proof.
  intros Ht. unfold trim_both. set (l1 := ltrim toks l).
  set (l2 := ltrim (reverse <$> toks) (reverse l1)).
  assert (reverse l2 `prefix_of` l1) as Hpre.
  { destruct (ltrim_suffix (reverse <$> toks) (reverse l1)) as [k Hk].
    exists (reverse k). rewrite <- (reverse_involutive l1), Hk, reverse_app. done. }
  split; intros t Hin H.
  - apply (proj1 (strip_tok_None toks l1)) with t; [by apply ltrim_None|done|].
    by etrans.
  - assert (strip_tok (reverse <$> toks) l2 = None) as Hn.
    { apply ltrim_None. apply Forall_fmap. eapply Forall_impl; [done|].
      intros x Hx Hr. apply Hx. by rewrite <- (reverse_involutive x), Hr. }
    apply (proj1 (strip_tok_None _ _) Hn (reverse t)).
    + apply list_elem_of_fmap. eauto.
    + destruct H as [k Hk]. exists (reverse k).
      by rewrite <- (reverse_involutive l2), Hk, reverse_app.
Qed.

Lemma trim_both_idemp toks l :
  Forall (λ t, t ≠ []) toks → trim_both toks (trim_both toks l) = trim_both toks l.
Proof. intros Ht. apply trim_both_id; by apply trim_both_clean. Qed.

Lemma unicode_spaces_nonempty : Forall (λ t, t ≠ []) unicode_spaces.
Proof. repeat constructor; done. Qed.

Lemma TrimSpace_idemp s : TrimSpace (TrimSpace s) = TrimSpace s.
Proof.
  unfold TrimSpace. rewrite chars_str. f_equal.
  apply trim_both_idemp, unicode_spaces_nonempty.
Qed.

Lemma length_trim_both toks l : (length (trim_both toks l) ≤ length l)%nat.
Proof.
  unfold trim_both. rewrite length_reverse.
  etrans; [apply suffix_length, ltrim_suffix|].
  rewrite length_reverse. apply suffix_length, ltrim_suffix.
Qed.

(** ** Anchored regular expressions

    [regexp.MustCompile("^...$").MatchString]: the whole string matches.  The
    matcher takes derivatives, so it is structural in the input. *)

Inductive regex :=
  | RNone
  | REps
  | RSet (p : ascii → bool)
  | RCat (r1 r2 : regex)
  | RAlt (r1 r2 : regex)
  | RStar (r : regex).

Definition RPlus (r : regex) : regex := RCat r (RStar r).

Fixpoint nullable (r : regex) : bool :=
  match r with
  | RNone => false
  | REps => true
  | RSet _ => false
  | RCat r1 r2 => nullable r1 && nullable r2
  | RAlt r1 r2 => nullable r1 || nullable r2
  | RStar _ => true
  end.

Fixpoint deriv (c : ascii) (r : regex) : regex :=
  match r with
  | RNone => RNone
  | REps => RNone
  | RSet p => if p c then REps else RNone
  | RCat r1 r2 =>
      if nullable r1 then RAlt (RCat (deriv c r1) r2) (deriv c r2)
      else RCat (deriv c r1) r2
  | RAlt r1 r2 => RAlt (deriv c r1) (deriv c r2)
  | RStar r => RCat (deriv c r) (RStar r)
  end.

Fixpoint rmatch (r : regex) (l : list ascii) : bool :=
  match l with
  | [] => nullable r
  | c :: l => rmatch (deriv c r) l
  end.

Definition MatchString (r : regex) (s : string) : bool := rmatch r (chars s).

(** The language of an expression, against which the matcher is proved. *)
Inductive matches : regex → list ascii → Prop :=
  | m_eps : matches REps []
  | m_set p c : p c = true → matches (RSet p) [c]
  | m_cat r1 r2 l1 l2 : matches r1 l1 → matches r2 l2 → matches (RCat r1 r2) (l1 ++ l2)
  | m_alt_l r1 r2 l : matches r1 l → matches (RAlt r1 r2) l
  | m_alt_r r1 r2 l : matches r2 l → matches (RAlt r1 r2) l
  | m_star_nil r : matches (RStar r) []
  | m_star_cons r l1 l2 : matches r l1 → matches (RStar r) l2 → matches (RStar r) (l1 ++ l2).

#[export] Hint Constructors matches : go.

Lemma nullable_spec r : nullable r = true ↔ matches r [].
Proof.
  induction r as [| |p|r1 IH1 r2 IH2|r1 IH1 r2 IH2|r IH]; cbn; split; intros H;
    try done; try (inversion H; fail); auto with go.
  - apply andb_true_iff in H as [H1 H2]. apply (m_cat _ _ [] []); naive_solver.
  - inversion H as [| |? ? l1 l2 H1 H2 E1 E2| | | |]; subst.
    apply app_eq_nil in E2 as [-> ->]. apply andb_true_iff. naive_solver.
  - apply orb_true_iff in H as [H|H]; [apply m_alt_l|apply m_alt_r]; naive_solver.
  - apply orb_true_iff. inversion H; naive_solver.
Qed.

Lemma star_cons_inv r c l :
  matches (RStar r) (c :: l) →
  ∃ l1 l2, l = l1 ++ l2 ∧ matches r (c :: l1) ∧ matches (RStar r) l2.
Proof.
  intros H. remember (RStar r) as e eqn:He. remember (c :: l) as k eqn:Hk.
  induction H; simplify_eq.
  destruct l1 as [|y l1]; cbn in *; simplify_eq; eauto.
Qed.

Lemma deriv_spec c r l : matches (deriv c r) l ↔ matches r (c :: l).
Proof.
  revert l. induction r as [| |p|r1 IH1 r2 IH2|r1 IH1 r2 IH2|r IH]; intros l; cbn.
  - split; inversion 1.
  - split; inversion 1.
  - destruct (p c) eqn:Hp; split; intros H; inversion H; subst; auto with go; congruence.
  - destruct (nullable r1) eqn:Hn.
    + apply nullable_spec in Hn. split; intros H.
      * inversion H as [| | |? ? ? H1|? ? ? H1| |]; subst.
        -- inversion H1 as [| |? ? l1 l2 ? ?| | | |]; subst.
           apply (m_cat _ _ (c :: l1)); naive_solver.
        -- apply (m_cat _ _ []); naive_solver.
      * inversion H as [| |? ? l1 l2 H1 H2 E1 E2| | | |]; subst.
        destruct l1 as [|x l1]; cbn in E2; simplify_eq.
        -- apply m_alt_r. naive_solver.
        -- apply m_alt_l, m_cat; naive_solver.
    + split; intros H.
      * inversion H as [| |? ? l1 l2 ? ?| | | |]; subst. apply (m_cat _ _ (c :: l1)); naive_solver.
      * inversion H as [| |? ? l1 l2 H1 H2 E1 E2| | | |]; subst.
        destruct l1 as [|x l1]; cbn in E2; simplify_eq.
        -- apply nullable_spec in H1. congruence.
        -- apply m_cat; naive_solver.
  - split; intros H; inversion H; subst; naive_solver eauto with go.
  - split; intros H.
    + inversion H as [| |? ? l1 l2 ? ?| | | |]; subst.
      apply (m_star_cons _ (c :: l1)); naive_solver.
    + apply star_cons_inv in H as (l1 & l2 & -> & ? & ?). apply m_cat; naive_solver.
Qed.

Lemma rmatch_spec r l : rmatch r l = true ↔ matches r l.
Proof.
  revert r. induction l as [|c l IH]; intros r; cbn; [apply nullable_spec|].
  by rewrite IH, deriv_spec.
Qed.

Lemma matches_star_set p l : matches (RStar (RSet p)) l ↔ Forall (λ c, p c = true) l.
Proof.
  induction l as [|c l IH]; split; intros H; auto with go.
  - apply star_cons_inv in H as (l1 & l2 & -> & H1 & H2).
    inversion H1; subst. constructor; [done|]. by apply IH.
  - apply Forall_cons in H as [Hc Hl].
    apply (m_star_cons _ [c]); [by constructor|by apply IH].
Qed.

Lemma matches_cat r1 r2 l :
  matches (RCat r1 r2) l ↔ ∃ l1 l2, l = l1 ++ l2 ∧ matches r1 l1 ∧ matches r2 l2.
Proof.
  split; [inversion 1; subst; eauto|]. intros (l1 & l2 & -> & ? & ?). by constructor.
Qed.

Lemma matches_set p l : matches (RSet p) l ↔ ∃ c, l = [c] ∧ p c = true.
Proof. split; [inversion 1; subst; eauto|]. intros (c & -> & ?). by constructor. Qed.
