(* ===== verification/Errors.v ===== *)
(** * Errors: [pkg/errors] and Go's error values

    Models [pkg/errors/errors.go]: the [Error] type with its categories, its
    [Is] method, [OneOf], [Errorf] and [E], together with the part of Go's
    [errors.Is] / [errors.As] that drives them. *)

From S2P Require Import Prelude GoLib.

(** ** [errors.Error] *)

Record Error := mkError {
  Code : string;
  Cause : string;
  Message : string;
}.

#[export] Instance Error_eq_dec : EqDecision Error.
Proof. solve_decision. Defined.

Definition ErrInvalid : Error := mkError "bad_request" "" "request is not valid".
Definition ErrNotFound : Error := mkError "not_found" "" "requested entity not found".
Definition ErrConflict : Error :=
  mkError "conflict" "" "an entity with conflicting identifier exists".
Definition ErrInternal : Error := mkError "internal_error" "" "some unexpected error occurred".
Definition ErrUnsupported : Error :=
  mkError "unsupported" "" "requested feature is not supported".

(** The formatted text is the argument: [fmt.Sprintf] of the source's format is
    written out with [+:+] at each call. *)
Definition WithCausef (err : Error) (cause : string) : Error :=
  mkError (Code err) cause (Message err).

Definition WithMsgf (err : Error) (msg : string) : Error :=
  mkError (Code err) (Cause err) msg.

Definition Error_Error (err : Error) : string :=
  let msg := Code err in
  let msg := if decide (Message err = "") then msg else msg +:+ ": " +:+ Message err in
  if decide (Cause err = "") then msg else msg +:+ ": " +:+ Cause err.

(** ** Error values

    What an [error] interface value can hold in the program: an [Error]; a
    package-level sentinel made by [errors.New] (pointer identity, the name is
    the pointer); any other [errors.New] / [fmt.Errorf] value, identical to
    nothing else; a [*pq.Error] with its condition name; a [fmt.Errorf] value
    with a "%w" verb, its text and the wrapped error; a
    [*worker.RetryableError], which has no [Unwrap] method (a nil [Cause] is
    any error whose text is "<nil>"); a gRPC status error with its code. *)
Inductive error : Type :=
  | EErr (e : Error)
  | ESentinel (name msg : string)
  | ENew (msg : string)
  | EPq (name msg : string)
  | EWrap (msg : string) (inner : error)
  | ERetryable (cause : error) (RetryAfter : Duration)
  | EStatus (code msg : string).

#[export] Instance error_eq_dec : EqDecision error.
Proof. unfold EqDecision, Decision. intros x y. decide equality; solve_decision. Defined.

Abbreviation go A := (result error A) (only parsing).
Abbreviation io W A := (M error W A) (only parsing).

(** [err.Error()]. *)
Fixpoint error_string (err : error) : string :=
  match err with
  | EErr e => Error_Error e
  | ESentinel _ msg => msg
  | ENew msg => msg
  | EPq _ msg => "pq: " +:+ msg
  | EWrap msg _ => msg
  | ERetryable cause _ => "retryable-error: " +:+ error_string cause
  | EStatus code msg => "rpc error: code = " +:+ code +:+ " desc = " +:+ msg
  end.

(** [Error.Is]: same code for an [Error], internal for anything else. *)
Definition Error_Is (err : Error) (other : error) : bool :=
  match other with
  | EErr oe => bool_decide (Code oe = Code err)
  | _ => bool_decide (Code err = Code ErrInternal)
  end.

(** [err == target] for two interface values: structural for the comparable
    [Error] values, pointer identity for sentinels, and false for pointers that
    were allocated apart. *)
Definition same_value (err target : error) : bool :=
  match err, target with
  | EErr e, EErr t => bool_decide (e = t)
  | ESentinel n _, ESentinel t _ => bool_decide (n = t)
  | _, _ => false
  end.

(** [errors.Is(err, target)]: along the chain of wrapped errors. *)
Fixpoint errors_Is (err target : error) : bool :=
  same_value err target
  || match err with
     | EErr e => Error_Is e target
     | EWrap _ inner => errors_Is inner target
     | _ => false
     end.

(** [errors.As(err, &e)] for the concrete types the program asks for. *)
Fixpoint As_Error (err : error) : option Error :=
  match err with
  | EErr e => Some e
  | EWrap _ inner => As_Error inner
  | _ => None
  end.

Fixpoint As_pq (err : error) : option (string * string) :=
  match err with
  | EPq name msg => Some (name, msg)
  | EWrap _ inner => As_pq inner
  | _ => None
  end.

Fixpoint As_Retryable (err : error) : option (error * Duration) :=
  match err with
  | ERetryable cause after => Some (cause, after)
  | EWrap _ inner => As_Retryable inner
  | _ => None
  end.

Definition Errorf (msg : string) : error := EErr (WithMsgf ErrInternal msg).

Definition OneOf (err : error) (others : list error) : bool :=
  existsb (errors_Is err) others.

Definition E (err : error) : Error :=
  match As_Error err with
  | Some e => e
  | None => WithCausef ErrInternal (error_string err)
  end.

(** [WithCausef("%s", err.Error())]. *)
Definition caused (e : Error) (err : error) : error := EErr (WithCausef e (error_string err)).

(** Sentinels of the standard library. *)
Definition ErrNoRows : error := ESentinel "sql.ErrNoRows" "sql: no rows in result set".
Definition Canceled : error := ESentinel "context.Canceled" "context canceled".
Definition DeadlineExceeded : error :=
  ESentinel "context.DeadlineExceeded" "context deadline exceeded".

(** ** Lemmas *)

(** The category of an [Error] survives [WithMsgf] and [WithCausef]. *)
Lemma errors_Is_code e t : errors_Is (EErr e) (EErr t) = bool_decide (Code e = Code t).
Proof.
  cbn. destruct (bool_decide (e = t)) eqn:H.
  - apply bool_decide_eq_true in H as ->. by rewrite bool_decide_true.
  - cbn. by rewrite (bool_decide_ext _ (Code e = Code t)) by (split; congruence).
Qed.

Lemma errors_Is_WithMsgf e m t :
  errors_Is (EErr (WithMsgf e m)) (EErr t) = errors_Is (EErr e) (EErr t).
Proof. by rewrite !errors_Is_code. Qed.

Lemma errors_Is_WithCausef e m t :
  errors_Is (EErr (WithCausef e m)) (EErr t) = errors_Is (EErr e) (EErr t).
Proof. by rewrite !errors_Is_code. Qed.

#[export] Hint Rewrite errors_Is_WithMsgf errors_Is_WithCausef errors_Is_code : strings.

Lemma errors_Is_refl e : errors_Is (EErr e) (EErr e) = true.
Proof. by rewrite errors_Is_code, bool_decide_true. Qed.

(** An error is in a category of the program exactly when an [Error] of that
    code is in its chain. *)
Lemma errors_Is_As err t :
  errors_Is err (EErr t) = true ↔ ∃ e, As_Error err = Some e ∧ Code e = Code t.
Proof.
  induction err as [e|n m|m|n m|m inner IH|c IH d|c m].
  - rewrite errors_Is_code, bool_decide_eq_true. cbn. naive_solver.
  - cbn. naive_solver.
  - cbn. naive_solver.
  - cbn. naive_solver.
  - cbn. by rewrite <- IH.
  - cbn. naive_solver.
  - cbn. naive_solver.
Qed.

Lemma E_code err t : errors_Is err (EErr t) = true → Code (E err) = Code t.
Proof. intros (e & He & Hc)%errors_Is_As. unfold E. by rewrite He. Qed.

Lemma E_Is err t :
  Code t ≠ Code ErrInternal → errors_Is (EErr (E err)) (EErr t) = errors_Is err (EErr t).
Proof.
  intros Ht. apply eq_true_iff_eq. rewrite errors_Is_code, bool_decide_eq_true.
  rewrite errors_Is_As. unfold E. destruct (As_Error err) as [e|]; [naive_solver|].
  split; [|naive_solver]. cbn. intros Hc. by destruct Ht.
Qed.
