(* ===== verification/Json.v ===== *)
(** * Json: what the drivers use of [encoding/json] and [strconv]

    Documents as data, decoding of a document into an existing Go value (the
    rules of [json.Unmarshal]: a null leaves scalars alone and clears pointers,
    maps and slices; members are matched to fields by name, then by folded
    case; unknown members are skipped; maps and structs are decoded in place),
    and encoding with [omitempty] and sorted map keys.  The text of a document,
    of a time and of a floating-point number is the parameter [GoJSON], with
    the round trips the encoder guarantees. *)

From S2P Require Import Prelude GoLib Errors.
From Stdlib Require Import Ascii.

#[local] Open Scope Z_scope.

(** ** Decimal integers: [strconv.ParseInt(s, 10, bits)], [fmt.Sprint] *)

Definition digit_val (c : ascii) : option Z :=
  if is_digit c then Some (Z.of_nat (Ascii.nat_of_ascii c) - 48) else None.

Fixpoint digits_val (acc : Z) (l : list ascii) : option Z :=
  match l with
  | [] => Some acc
  | c :: l => match digit_val c with Some d => digits_val (acc * 10 + d) l | None => None end
  end.

Definition unsigned (l : list ascii) : option Z :=
  match l with [] => None | _ => digits_val 0 l end.

Definition signed (l : list ascii) : option Z :=
  match l with
  | "-"%char :: l => Z.opp <$> unsigned l
  | "+"%char :: l => unsigned l
  | _ => unsigned l
  end.

Definition in_bits (bits z : Z) : bool := (- 2 ^ (bits - 1) <=? z) && (z <? 2 ^ (bits - 1)).

(** [strconv.Quote], on texts without characters to escape. *)
Definition quoted (s : string) : string := String (b 34) s +:+ String (b 34) "".

Definition ParseInt (s : string) (bits : Z) : go Z :=
  let failed why :=
    EWrap ("strconv.ParseInt: parsing " +:+ quoted s +:+ ": " +:+ why) (ENew why) in
  match signed (chars s) with
  | None => Err (failed "invalid syntax")
  | Some z => if in_bits bits z then Ok z else Err (failed "value out of range")
  end.

Definition Atoi (s : string) : go Z := ParseInt s 64.

(** [fmt.Sprint] and [%d] of an integer. *)
Definition Sprint (z : Z) : string := pretty z.

Lemma digit_val_pretty x : (x < 10)%N → digit_val (pretty_N_char x) = Some (Z.of_N x).
Proof.
  intros H.
  assert (x = 0 ∨ x = 1 ∨ x = 2 ∨ x = 3 ∨ x = 4 ∨ x = 5 ∨ x = 6 ∨ x = 7 ∨ x = 8 ∨ x = 9)%N
    as Hx by lia.
  naive_solver.
Qed.

Lemma digits_val_pretty_go x s :
  digits_val 0 (chars (pretty_N_go x s)) = digits_val (Z.of_N x) (chars s).
Proof.
  revert s. induction (N.lt_wf_0 x) as [x _ IH]; intros s.
  destruct (decide (x = 0%N)) as [->|Hx]; [by rewrite pretty_N_go_0|].
  rewrite pretty_N_go_step by lia. rewrite IH by (apply N.div_lt; lia). cbn [String.list_ascii_of_string digits_val].
  rewrite digit_val_pretty by (apply N.mod_lt; lia). f_equal.
  rewrite (N.div_mod x 10) at 3 by done. lia.
Qed.

Lemma pretty_go_head x s :
  (0 < x)%N → ∃ c l, chars (pretty_N_go x s) = c :: l ∧ is_digit c = true.
Proof.
  revert s. induction (N.lt_wf_0 x) as [x _ IH]; intros s Hx.
  rewrite pretty_N_go_step by lia.
  assert (is_digit (pretty_N_char (x `mod` 10)) = true) as Hd.
  { pose proof (digit_val_pretty (x `mod` 10)%N (N.mod_lt x 10 ltac:(lia))) as H.
    unfold digit_val in H. by destruct (is_digit _). }
  destruct (decide (x `div` 10 = 0)%N) as [->|Hn].
  - rewrite pretty_N_go_0. cbn. eauto.
  - apply IH; [apply N.div_lt; lia|by apply N.neq_0_lt_0].
Qed.

Lemma unsigned_pretty x : unsigned (chars (pretty (x : N))) = Some (Z.of_N x).
Proof.
  unfold pretty, pretty_N. case_decide as Hx; [by subst|].
  destruct (pretty_go_head x "") as (c & l & Hc & _); [lia|].
  unfold unsigned. rewrite Hc, <- Hc, digits_val_pretty_go. done.
Qed.

Lemma signed_unsigned c l : is_digit c = true → signed (c :: l) = unsigned (c :: l).
Proof. intros H. destruct c as [[] [] [] [] [] [] [] []]; first [discriminate H|reflexivity]. Qed.

Lemma pretty_N_head (x : N) : ∃ c l, chars (pretty x) = c :: l ∧ is_digit c = true.
Proof.
  unfold pretty, pretty_N. case_decide; [by exists "0"%char, []|]. apply pretty_go_head. lia.
Qed.

Lemma signed_Sprint z : signed (chars (Sprint z)) = Some z.
Proof.
  unfold Sprint. destruct z as [|p|p]; [done| |].
  - change (pretty (Z.pos p)) with (pretty (N.pos p)).
    destruct (pretty_N_head (N.pos p)) as (c & l & Hc & Hd).
    rewrite Hc, signed_unsigned, <- Hc by done. apply unsigned_pretty.
  - change (chars (pretty (Z.neg p))) with ("-"%char :: chars (pretty (N.pos p))).
    unfold signed. by rewrite unsigned_pretty.
Qed.

Lemma ParseInt_Sprint z bits : in_bits bits z = true → ParseInt (Sprint z) bits = Ok z.
Proof. intros H. unfold ParseInt. by rewrite signed_Sprint, H. Qed.

(** ** Documents *)

Inductive json : Type :=
  | JNull
  | JBool (x : bool)
  | JNum (lit : string)
  | JStr (s : string)
  | JArr (l : list json)
  | JObj (l : list (string * json)).

(** The number literals of JSON: sign, integer part without leading zeros,
    fraction, exponent. *)
Definition number_pattern : regex :=
  let lit c := RSet (λ d, bool_decide (d = c)) in
  let opt r := RAlt REps r in
  let digits := RPlus (RSet is_digit) in
  RCat (opt (lit "-"%char))
    (RCat (RAlt (lit "0"%char) (RCat (RSet (in_range "1" "9")) (RStar (RSet is_digit))))
      (RCat (opt (RCat (lit "."%char) digits))
        (opt (RCat (RAlt (lit "e"%char) (lit "E"%char))
                (RCat (opt (RAlt (lit "+"%char) (lit "-"%char))) digits))))).

Fixpoint json_depth (j : json) : nat :=
  match j with
  | JArr l => S (foldr (λ x n, max (json_depth x) n) 0 l)%nat
  | JObj l => S (foldr (λ x n, max (json_depth x.2) n) 0 l)%nat
  | _ => 0%nat
  end.

Fixpoint json_texts (j : json) : bool :=
  match j with
  | JNum lit => MatchString number_pattern lit
  | JStr s => valid_utf8 s
  | JArr l => forallb json_texts l
  | JObj l => forallb (λ x, valid_utf8 x.1 && json_texts x.2) l
  | _ => true
  end.

(** What the encoder prints and the decoder reads back unchanged: texts in
    UTF-8 and numbers of JSON, nested no deeper than the decoder's limit. *)
Definition json_wf (j : json) : bool := json_texts j && (Z.of_nat (json_depth j) <=? 10000).

(** Texts of documents, times (RFC 3339) and floats.  A float is kept as the
    literal it is printed as; [float_text bits lit] is that literal for the
    nearest float, [None] when [lit] is out of range. *)
Class GoJSON : Type := {
  json_parse : string → go json;
  json_print : json → string;
  type_error : json → string → error;
  time_parse : string → go Time;
  time_print : Time → string;
  time_wf : Time → bool;
  float_text : Z → string → option string;
  json_parse_print : ∀ j, json_wf j = true → json_parse (json_print j) = Ok j;
  json_parse_empty : json_parse "" = Err (ENew "unexpected end of JSON input");
  time_parse_print : ∀ t, time_wf t = true → time_parse (time_print t) = Ok t;
  float_text_digit : ∀ bits n, 0 ≤ n < 10 → float_text bits (Sprint n) = Some (Sprint n);
  float_text_idemp : ∀ bits lit lit', float_text bits lit = Some lit' →
    float_text bits lit' = Some lit' ∧ MatchString number_pattern lit' = true;
}.

(** ** Dynamic values: what an [any] holds in the program *)

Inductive any : Type :=
  | ANil
  | ABool (x : bool)
  | AInt (z : Z)
  | AFloat (lit : string)
  | AStr (s : string)
  | AStrs (l : option (list string))
  | AStrMap (m : gomap string)
  | AList (l : list any)
  | AMap (m : gmap string any).

(** ** Decoding into an existing value *)

Section decode.
Context {GJ : GoJSON}.

Definition dec (A : Type) : Type := json → A → go A.

Definition dec_string : dec string := λ j old,
  match j with
  | JNull => Ok old
  | JStr s => Ok s
  | _ => Err (type_error j "string")
  end.

Definition dec_bool : dec bool := λ j old,
  match j with
  | JNull => Ok old
  | JBool x => Ok x
  | _ => Err (type_error j "bool")
  end.

Definition dec_int_of (bits : Z) (ty : string) : dec Z := λ j old,
  match j with
  | JNull => Ok old
  | JNum lit =>
      match ParseInt lit bits with
      | Ok z => Ok z
      | _ => Err (type_error j ty)
      end
  | _ => Err (type_error j ty)
  end.

Definition dec_int : dec Z := dec_int_of 64 "int".
Definition dec_int32 : dec Z := dec_int_of 32 "int32".

Definition dec_float (bits : Z) : dec string := λ j old,
  match j with
  | JNull => Ok old
  | JNum lit =>
      match float_text bits lit with
      | Some f => Ok f
      | None => Err (type_error j "float")
      end
  | _ => Err (type_error j "float")
  end.

(** [time.Time.UnmarshalJSON]. *)
Definition dec_time : dec Time := λ j old,
  match j with
  | JNull => Ok old
  | JStr s => time_parse s
  | _ => Err (ENew "Time.UnmarshalJSON: input is not a JSON string")
  end.

(** A pointer is allocated when it is nil and decoded through otherwise. *)
Definition dec_ptr {A} (zero : A) (d : dec A) : dec (option A) := λ j old,
  match j with
  | JNull => Ok None
  | _ => x ← d j (default zero old); Ok (Some x)
  end.

(** Elements are decoded into the elements the slice already has. *)
Fixpoint dec_elems {A} (zero : A) (d : dec A) (l : list json) (old : list A) : go (list A) :=
  match l with
  | [] => Ok []
  | j :: l =>
      x ← d j (default zero (head old));
      xs ← dec_elems zero d l (tail old);
      Ok (x :: xs)
  end.

Definition dec_slice {A} (zero : A) (d : dec A) : dec (option (list A)) := λ j old,
  match j with
  | JNull => Ok None
  | JArr l => xs ← dec_elems zero d l (default [] old); Ok (Some xs)
  | _ => Err (type_error j "slice")
  end.

(** Entries are decoded from zero and put into the map, which is made when it
    is nil. *)
Definition dec_map {A} (zero : A) (d : dec A) : dec (gomap A) := λ j old,
  match j with
  | JNull => Ok None
  | JObj l =>
      m ← res_fold (λ m kv, x ← d kv.2 zero; Ok (<[kv.1 := x]> m)) (gm old) l;
      Ok (Some m)
  | _ => Err (type_error j "map")
  end.

(** Keys fold to the lower case of their letters; two non-ASCII runes fold to
    ASCII ones, the Kelvin sign and the long s. *)
Fixpoint fold_key (l : list ascii) : list ascii :=
  match l with
  | [] => []
  | c :: l =>
      match l with
      | c1 :: l1 =>
          if decide ((c, c1) = (b 197, b 191)) then "s"%char :: fold_key l1
          else match l1 with
               | c2 :: l2 =>
                   if decide ((c, c1, c2) = (b 226, b 132, b 170)) then "k"%char :: fold_key l2
                   else lower_char c :: fold_key l
               | [] => lower_char c :: fold_key l
               end
      | [] => [lower_char c]
      end
  end.

Definition fields (A : Type) : Type := list (string * dec A).

Fixpoint find_by {A} (p : string → bool) (fs : fields A) : option (dec A) :=
  match fs with
  | [] => None
  | (name, d) :: fs => if p name then Some d else find_by p fs
  end.

Definition find_field {A} (fs : fields A) (key : string) : option (dec A) :=
  match find_by (λ name, bool_decide (name = key)) fs with
  | Some d => Some d
  | None => find_by (λ name, bool_decide (fold_key (chars name) = fold_key (chars key))) fs
  end.

Definition dec_members {A} (fs : fields A) (l : list (string * json)) (old : A) : go A :=
  res_fold (λ a kv, match find_field fs kv.1 with Some d => d kv.2 a | None => Ok a end) old l.

Definition dec_struct {A} (ty : string) (fs : fields A) : dec A := λ j old,
  match j with
  | JNull => Ok old
  | JObj l => dec_members fs l old
  | _ => Err (type_error j ty)
  end.

(** The fields of a struct, over the tuple of their values in order. *)
Definition fnil : fields () := [].

Definition fcons {A B} (f : string * dec A) (rest : fields B) : fields (A * B) :=
  (f.1, λ j ab, x ← f.2 j ab.1; Ok (x, ab.2)) ::
  (prod_map id (λ (d : dec B) j ab, y ← d j ab.2; Ok (ab.1, y)) <$> rest).

(** A struct through its tuple. *)
Definition dec_record {A T} (ty : string) (tup : A → T) (untup : T → A) (fs : fields T) : dec A :=
  λ j old, t ← dec_struct ty fs j (tup old); Ok (untup t).

(** Into an empty interface. *)
Fixpoint dec_any_new (j : json) : go any :=
  match j with
  | JNull => Ok ANil
  | JBool x => Ok (ABool x)
  | JNum lit =>
      match float_text 64 lit with
      | Some f => Ok (AFloat f)
      | None => Err (type_error j "float64")
      end
  | JStr s => Ok (AStr s)
  | JArr l =>
      xs ← (fix go l := match l with
                        | [] => Ok []
                        | j :: l => x ← dec_any_new j; xs ← go l; Ok (x :: xs)
                        end) l;
      Ok (AList xs)
  | JObj l =>
      m ← (fix go l (m : gmap string any) :=
             match l with
             | [] => Ok m
             | (k, j) :: l => x ← dec_any_new j; go l (<[k := x]> m)
             end) l ∅;
      Ok (AMap m)
  end.

Definition dec_any : dec any := λ j _, dec_any_new j.

(** [json.Unmarshal(data, &v)] for a [v] that holds [old]. *)
Definition Unmarshal {A} (d : dec A) (data : RawMessage) (old : A) : go A :=
  j ← json_parse (raw_bytes data);
  d j old.
End decode.

#[global] Notation "[f x ; .. ; y ]" := (fcons x .. (fcons y fnil) ..)
  (format "[f  x ;  .. ;  y ]").

(** ** Encoding *)

Definition enc_int (z : Z) : json := JNum (Sprint z).
Definition enc_ptr {A} (e : A → json) (p : option A) : json :=
  match p with None => JNull | Some x => e x end.
Definition enc_slice {A} (e : A → json) (l : option (list A)) : json :=
  match l with None => JNull | Some l => JArr (e <$> l) end.

(** Map entries are printed in the order of their keys. *)
Definition key_le (x y : string * json) : Prop := String.le x.1 y.1.

#[export] Instance key_le_dec x y : Decision (key_le x y).
Proof. unfold key_le. apply _. Defined.

Definition sorted_members (l : list (string * json)) : list (string * json) :=
  merge_sort key_le l.

Definition enc_map {A} (e : A → json) (m : gomap A) : json :=
  match m with
  | None => JNull
  | Some m => JObj (sorted_members (map_fold (λ k x acc, (k, e x) :: acc) [] m))
  end.

Fixpoint enc_any (a : any) : json :=
  match a with
  | ANil => JNull
  | ABool x => JBool x
  | AInt z => enc_int z
  | AFloat lit => JNum lit
  | AStr s => JStr s
  | AStrs l => enc_slice JStr l
  | AStrMap m => enc_map JStr m
  | AList l => JArr (enc_any <$> l)
  | AMap m => JObj (sorted_members (map_fold (λ k x acc, (k, enc_any x) :: acc) [] m))
  end.

(** A member, and a member with [omitempty]. *)
Definition mem (name : string) (j : json) : list (string * json) := [(name, j)].
Definition omit (empty : bool) (name : string) (j : json) : list (string * json) :=
  if empty then [] else [(name, j)].

Definition obj (l : list (list (string * json))) : json := JObj (concat l).

Definition no_str (s : string) : bool := bool_decide (s = "").
Definition no_ptr {A} (p : option A) : bool := match p with None => true | _ => false end.
Definition no_list {A} (l : option (list A)) : bool :=
  match l with Some (_ :: _) => false | _ => true end.
Definition no_map {A} (m : gomap A) : bool := bool_decide (gm m = ∅).

(** [modules.MustJSON]; encoding the program's values does not fail. *)
Definition MustJSON {GJ : GoJSON} (j : json) : RawMessage := Some (json_print j).

(** ** Reading back what was written *)

Section roundtrip.
Context {GJ : GoJSON}.

Lemma Unmarshal_print {A} (d : dec A) j old :
  json_wf j = true → Unmarshal d (Some (json_print j)) old = d j old.
Proof. intros H. unfold Unmarshal. cbn. by rewrite json_parse_print. Qed.

Lemma Unmarshal_empty {A} (d : dec A) data old :
  raw_len data = 0%nat → Unmarshal d data old = Err (ENew "unexpected end of JSON input").
Proof.
  unfold Unmarshal, raw_len. intros H.
  destruct (raw_bytes data) as [|c s] eqn:E; [|done]. by rewrite json_parse_empty.
Qed.

(** The empty document is never the print of one. *)
Lemma json_print_nonempty j : json_wf j = true → raw_len (Some (json_print j)) ≠ 0%nat.
Proof.
  intros H H0. pose proof (Unmarshal_empty (A := ()) (λ _ _, Ok tt) _ tt H0) as E.
  rewrite Unmarshal_print in E by done. discriminate.
Qed.

Lemma dec_members_app {A} (fs : fields A) l1 l2 (a : A) :
  dec_members fs (l1 ++ l2) a = (a' ← dec_members fs l1 a; dec_members fs l2 a').
Proof.
  unfold dec_members. revert a. induction l1 as [|kv l1 IH]; intros a; [done|].
  cbn. destruct (find_field fs kv.1) as [d|]; [|apply IH].
  destruct (d kv.2 a); cbn; [apply IH|done..].
Qed.

(** One member of an object, when its field is known. *)
Lemma dec_members_mem {A} (fs : fields A) name j d a a' rest :
  find_field fs name = Some d → d j a = Ok a' →
  dec_members fs (mem name j ++ rest) a = dec_members fs rest a'.
Proof. intros Hf Hd. unfold dec_members. cbn. rewrite Hf, Hd. done. Qed.

Lemma dec_members_omit {A} (fs : fields A) (empty : bool) name j d a a' rest :
  find_field fs name = Some d → (empty = true → a' = a) → (empty = false → d j a = Ok a') →
  dec_members fs (omit empty name j ++ rest) a = dec_members fs rest a'.
Proof.
  intros Hf He Hd. destruct empty; cbn; [by rewrite He|].
  unfold dec_members. cbn. by rewrite Hf, Hd.
Qed.

(** The last member. *)
Lemma dec_members_nil {A} (fs : fields A) (a : A) : dec_members fs [] a = Ok a.
Proof. done. Qed.

Lemma dec_record_obj {A T} ty (tup : A → T) (untup : T → A) fs l old t :
  dec_members fs (concat l) (tup old) = Ok t →
  dec_record ty tup untup fs (obj l) old = Ok (untup t).
Proof. intros H. unfold dec_record, obj. cbn. by rewrite H. Qed.

(** A struct's members printed in the order of its fields, each one possibly
    left out, read the fields one by one. *)
Inductive aligned : ∀ {T}, fields T → list (list (string * json)) → T → T → Prop :=
  | aligned_nil : aligned fnil [] tt tt
  | aligned_cons {A T} name (d : dec A) (fs : fields T) (empty : bool) j l a a' t t' :
      (if empty then a' = a else d j a = Ok a') → aligned fs l t t' →
      aligned (fcons (name, d) fs) (omit empty name j :: l) (a, t) (a', t').

Lemma fcons_names {A B} (f : string * dec A) (fs : fields B) : (fcons f fs).*1 = f.1 :: fs.*1.
Proof.
  cbn. f_equal. rewrite <- list_fmap_compose. apply list_fmap_ext. by intros i [n d] _.
Qed.

Lemma aligned_keys {T} (fs : fields T) l t t' k j :
  aligned fs l t t' → (k, j) ∈ concat l → k ∈ fs.*1.
Proof.
  induction 1 as [|A T name d fs empty j' l a a' t t' _ _ IH]; cbn [concat]; [set_solver|].
  rewrite fcons_names, elem_of_app. destruct empty; cbn; set_solver.
Qed.

Lemma find_by_fmap {A B} p (g : dec A → dec B) (fs : list (string * dec A)) :
  find_by p (prod_map id g <$> fs) = g <$> find_by p fs.
Proof. induction fs as [|[m e] fs IH]; cbn; [done|]. by destruct (p m). Qed.

Lemma find_by_exact {A} (fs : fields A) k :
  k ∈ fs.*1 → ∃ d, find_by (λ n, bool_decide (n = k)) fs = Some d.
Proof.
  induction fs as [|[m e] fs IH]; cbn; [set_solver|]. intros Hk.
  destruct (bool_decide (m = k)) eqn:E; [eauto|]. apply bool_decide_eq_false in E.
  apply IH. set_solver.
Qed.

Lemma find_field_exact {A} (fs : fields A) k e :
  find_by (λ n, bool_decide (n = k)) fs = Some e → find_field fs k = Some e.
Proof. unfold find_field. by intros ->. Qed.

Lemma find_field_tail {A B} n (d : dec A) (fs : fields B) k e :
  find_by (λ n, bool_decide (n = k)) fs = Some e → n ≠ k →
  find_field (fcons (n, d) fs) k = Some (λ j ab, y ← e j ab.2; Ok (ab.1, y)).
Proof.
  intros He Hn. apply find_field_exact.
  pose proof (find_by_fmap (λ n, bool_decide (n = k))
    (λ (d : dec B) j (ab : A * B), y ← d j ab.2; Ok (ab.1, y)) fs) as Hf.
  rewrite He in Hf. unfold fcons. cbn [find_by fst]. by rewrite bool_decide_false.
Qed.

Lemma dec_members_cons {A} (fs : fields A) k j l (a : A) :
  dec_members fs ((k, j) :: l) a =
  ((match find_field fs k with Some d => d j a | None => Ok a end) ≫= λ a', dec_members fs l a').
Proof. done. Qed.

(** Members of the other fields leave the first field alone. *)
Lemma dec_members_tail {A B} n (d : dec A) (fs : fields B) l (a : A) (ab : B) :
  n ∉ fs.*1 → (∀ k j, (k, j) ∈ l → k ∈ fs.*1) →
  dec_members (fcons (n, d) fs) l (a, ab) = (ab' ← dec_members fs l ab; Ok (a, ab')).
Proof.
  intros Hn. revert ab. induction l as [|[k j] l IH]; intros ab Hl; [done|].
  destruct (find_by_exact fs k) as [e He]; [apply (Hl k j); set_solver|].
  assert (n ≠ k) as Hne.
  { intros ->. apply Hn, (Hl k j). set_solver. }
  rewrite !dec_members_cons, (find_field_tail _ _ _ _ _ He Hne), (find_field_exact _ _ _ He).
  cbn [fst snd]. destruct (e j ab) as [ab1|err|s]; [|done..].
  cbn [mbind result_bind]. apply IH. intros k' j' Hk'. apply (Hl k' j'). set_solver.
Qed.

Lemma aligned_members {T} (fs : fields T) l t t' :
  aligned fs l t t' → NoDup fs.*1 → dec_members fs (concat l) t = Ok t'.
Proof.
  induction 1 as [|A T name d fs empty j l a a' t t' Ha Hal IH]; intros Hnd; [done|].
  rewrite fcons_names in Hnd. apply NoDup_cons in Hnd as [Hn Hnd]. specialize (IH Hnd).
  assert (dec_members (fcons (name, d) fs) (concat l) (a', t) = Ok (a', t')) as Htail.
  { rewrite dec_members_tail, IH; [done|done|]. intros k j' Hk. by eapply aligned_keys. }
  cbn [concat]. destruct empty; cbn [omit app]; [by subst|].
  rewrite dec_members_cons, (find_field_exact _ _ (λ j ab, x ← d j ab.1; Ok (x, ab.2))).
  - cbn [fst snd]. rewrite Ha. exact Htail.
  - unfold fcons. cbn [find_by fst snd]. by rewrite bool_decide_true.
Qed.

Lemma aligned_mem {A T} name (d : dec A) (fs : fields T) j l a a' t t' :
  d j a = Ok a' → aligned fs l t t' → aligned (fcons (name, d) fs) (mem name j :: l) (a, t) (a', t').
Proof. intros Ha Hl. exact (aligned_cons name d fs false j l a a' t t' Ha Hl). Qed.

Lemma dec_record_aligned {A T} ty (tup : A → T) (untup : T → A) fs l old t :
  aligned fs l (tup old) t → NoDup fs.*1 →
  dec_record ty tup untup fs (obj l) old = Ok (untup t).
Proof. intros Hal Hnd. by apply dec_record_obj, aligned_members. Qed.

Lemma dec_int_enc bits ty z old :
  in_bits bits z = true → dec_int_of bits ty (enc_int z) old = Ok z.
Proof. intros H. cbn. by rewrite ParseInt_Sprint. Qed.

Lemma dec_elems_fmap {A} (zero : A) (d : dec A) (e : A → json) l :
  Forall (λ x, d (e x) zero = Ok x) l → dec_elems zero d (e <$> l) [] = Ok l.
Proof. induction 1 as [|x l Hx _ IH]; cbn; [done|]. rewrite Hx. cbn. by rewrite IH. Qed.

(** Elements with all their fields written replace what was there. *)
Lemma dec_elems_over {A} (zero : A) (d : dec A) (e : A → json) l old :
  (∀ x y, d (e x) y = Ok x) → dec_elems zero d (e <$> l) old = Ok l.
Proof. intros H. revert old. induction l as [|x l IH]; intros old; cbn; [done|]. by rewrite H, IH. Qed.

Lemma dec_slice_enc {A} (zero : A) (d : dec A) (e : A → json) l :
  Forall (λ x, d (e x) zero = Ok x) (default [] l) → dec_slice zero d (enc_slice e l) None = Ok l.
Proof. destruct l as [l|]; [|done]. intros H. cbn. by rewrite dec_elems_fmap. Qed.

Lemma dec_ptr_enc {A} (zero : A) (d : dec A) (e : A → json) p :
  (∀ x, p = Some x → e x ≠ JNull ∧ d (e x) zero = Ok x) → dec_ptr zero d (enc_ptr e p) None = Ok p.
Proof.
  destruct p as [x|]; [|done]. intros H. destruct (H x eq_refl) as [Hn Hd]. cbn.
  revert Hn Hd. destruct (e x); intros Hn Hd; cbn; [done|by rewrite Hd..].
Qed.

Lemma sorted_members_perm {A} (e : A → json) (m : gmap string A) :
  sorted_members (map_fold (λ k x acc, (k, e x) :: acc) [] m) ≡ₚ prod_map id e <$> map_to_list m.
Proof.
  unfold sorted_members. rewrite merge_sort_Permutation, map_fold_foldr.
  induction (map_to_list m) as [|[k x] l IH]; [done|]. cbn. by rewrite IH.
Qed.

(** [g] is what an entry is read back as. *)
Lemma dec_entries {A} (zero : A) (d : dec A) (e : A → json) (g : A → A) (l : list (string * A))
    (m : gmap string A) :
  NoDup l.*1 → Forall (λ kv, d (e kv.2) zero = Ok (g kv.2)) l →
  res_fold (λ m kv, x ← d kv.2 zero; Ok (<[kv.1 := x]> m)) m (prod_map id e <$> l) =
    Ok ((g <$> list_to_map l) ∪ m).
Proof.
  revert m. induction l as [|[k x] l IH]; intros m Hn Hl; cbn in *.
  { by rewrite fmap_empty, (left_id_L ∅ (∪)). }
  apply NoDup_cons in Hn as [Hk Hn]. apply Forall_cons in Hl as [Hx Hl]. cbn in Hx.
  rewrite Hx. cbn. rewrite (IH (<[k := g x]> m)) by done. f_equal.
  rewrite fmap_insert, <- insert_union_l, insert_union_r; [done|].
  rewrite lookup_fmap, fmap_None. by apply not_elem_of_list_to_map_1.
Qed.

Lemma dec_map_norm {A} (zero : A) (d : dec A) (e : A → json) (g : A → A) m old :
  (∀ k x, gm m !! k = Some x → d (e x) zero = Ok (g x)) →
  dec_map zero d (enc_map e m) old =
    Ok (match m with None => None | Some m => Some ((g <$> m) ∪ gm old) end).
Proof.
  destruct m as [m|]; [|done]. intros H. cbn.
  destruct (Permutation_map_inv _ _ (sorted_members_perm e m)) as (l & -> & Hl).
  assert (NoDup l.*1) as Hn by (rewrite <- Hl; apply NoDup_fst_map_to_list).
  change (map (prod_map id e) l) with (prod_map id e <$> l).
  rewrite (dec_entries _ _ _ g); [|done|].
  - cbn. do 4 f_equal. rewrite <- (list_to_map_to_list m). symmetry.
    apply list_to_map_proper; [|done]. apply NoDup_fst_map_to_list.
  - apply Forall_forall. intros [k x] Hin. rewrite <- Hl in Hin.
    apply (H k). by apply elem_of_map_to_list.
Qed.

Lemma dec_map_enc {A} (zero : A) (d : dec A) (e : A → json) m :
  (∀ k x, gm m !! k = Some x → d (e x) zero = Ok x) → dec_map zero d (enc_map e m) None = Ok m.
Proof.
  intros H. rewrite (dec_map_norm _ _ _ id) by done. destruct m as [m|]; [|done].
  cbn. by rewrite map_fmap_id, (right_id_L ∅ (∪)).
Qed.

(** A map written with [omitempty] is read back with the same entries. *)
Lemma no_map_true {A} (m : gomap A) : no_map m = true → gm m = ∅.
Proof. apply bool_decide_eq_true. Qed.

(** What the fields of a struct are read back as, [omitempty] or not.  A slice
    or a map that is left out comes back nil; [g] is for its elements. *)
Definition norm_slice {A} (g : A → A) (l : option (list A)) : option (list A) :=
  if no_list l then None else option_map (map g) l.
Definition norm_map {A} (g : A → A) (m : gomap A) : gomap A :=
  if no_map m then None else match m with Some m => Some (g <$> m) | None => None end.

Lemma dec_slice_norm {A} (zero : A) (d : dec A) (e : A → json) (g : A → A) l :
  Forall (λ x, d (e x) zero = Ok (g x)) (default [] l) →
  dec_slice zero d (enc_slice e l) None = Ok (option_map (map g) l).
Proof.
  destruct l as [l|]; [|done]. cbn. intros H.
  assert (dec_elems zero d (e <$> l) [] = Ok (map g l)) as ->; [|done].
  induction H as [|x l Hx _ IH]; [done|]. cbn. rewrite Hx. cbn.
  change (map e l) with (e <$> l). by rewrite IH.
Qed.

Lemma leaf_slice {A} (zero : A) (d : dec A) (e : A → json) (g : A → A) l :
  Forall (λ x, d (e x) zero = Ok (g x)) (default [] l) →
  if no_list l then norm_slice g l = None
  else dec_slice zero d (enc_slice e l) None = Ok (norm_slice g l).
Proof.
  intros H. apply dec_slice_norm in H. unfold norm_slice. by destruct (no_list l).
Qed.

Lemma leaf_map {A} (zero : A) (d : dec A) (e : A → json) (g : A → A) m :
  (∀ k x, gm m !! k = Some x → d (e x) zero = Ok (g x)) →
  if no_map m then norm_map g m = None
  else dec_map zero d (enc_map e m) None = Ok (norm_map g m).
Proof.
  intros H. unfold norm_map. destruct (no_map m); [done|]. rewrite (dec_map_norm _ _ _ g) by done.
  destruct m as [m|]; [|done]. cbn. by rewrite (right_id_L ∅ (∪)).
Qed.

Lemma leaf_str s : if no_str s then s = "" else dec_string (JStr s) "" = Ok s.
Proof. unfold no_str. by case_bool_decide. Qed.

Lemma leaf_bool x : if negb x then x = false else dec_bool (JBool x) false = Ok x.
Proof. by destruct x. Qed.

Lemma leaf_int bits ty z :
  in_bits bits z = true →
  if z =? 0 then z = 0 else dec_int_of bits ty (enc_int z) 0 = Ok z.
Proof. intros H. destruct (Z.eqb_spec z 0); [done|]. by apply dec_int_enc. Qed.

Lemma dec_ptr_norm {A} (zero : A) (d : dec A) (e : A → json) (g : A → A) p :
  (∀ x, p = Some x → e x ≠ JNull ∧ d (e x) zero = Ok (g x)) →
  dec_ptr zero d (enc_ptr e p) None = Ok (option_map g p).
Proof.
  destruct p as [x|]; [|done]. intros H. destruct (H x eq_refl) as [Hn Hd]. cbn.
  revert Hn Hd. destruct (e x); intros Hn Hd; cbn; [done|by rewrite Hd..].
Qed.

Lemma leaf_ptr {A} (zero : A) (d : dec A) (e : A → json) (g : A → A) p :
  (∀ x, p = Some x → e x ≠ JNull ∧ d (e x) zero = Ok (g x)) →
  if no_ptr p then option_map g p = None else dec_ptr zero d (enc_ptr e p) None = Ok (option_map g p).
Proof. intros H. apply dec_ptr_norm in H. by destruct p. Qed.

Lemma leaf_strings l : if no_list l then norm_slice id l = None
  else dec_slice "" dec_string (enc_slice JStr l) None = Ok (norm_slice id l).
Proof. apply leaf_slice. by apply Forall_true. Qed.

Lemma leaf_str_map m : if no_map m then norm_map id m = None
  else dec_map "" dec_string (enc_map JStr m) None = Ok (norm_map id m).
Proof. by apply leaf_map. Qed.

Lemma norm_slice_default {A} (g : A → A) l : default [] (norm_slice g l) = g <$> default [] l.
Proof. by destruct l as [[|x l]|]. Qed.

Lemma norm_map_gm {A} (g : A → A) m : gm (norm_map g m) = g <$> gm m.
Proof.
  unfold norm_map. destruct (no_map m) eqn:E.
  - apply no_map_true in E. rewrite E. symmetry. apply fmap_empty.
  - destruct m as [m|]; [done|]. symmetry. apply fmap_empty.
Qed.
(** A dynamic value that came out of a document is written and read back
    unchanged. *)
Definition born (a : any) : Prop := dec_any_new (enc_any a) = Ok a.

Lemma dec_any_arr l :
  dec_any_new (JArr l) = (xs ← dec_elems ANil dec_any l []; Ok (AList xs)).
Proof.
  cbn. assert (∀ old, (fix go l := match l with
    | [] => Ok []
    | j :: l => x ← dec_any_new j; xs ← go l; Ok (x :: xs)
    end) l = dec_elems ANil dec_any l old) as H; [|by rewrite (H [])].
  induction l as [|j l IH]; intros old; [done|].
  cbn [dec_elems]. change (dec_any j (default ANil (head old))) with (dec_any_new j).
  destruct (dec_any_new j); [|done..].
  cbn [mbind result_bind]. by rewrite (IH (tail old)).
Qed.

Lemma dec_any_obj l :
  dec_any_new (JObj l) =
    (m ← res_fold (λ m kv, x ← dec_any kv.2 ANil; Ok (<[kv.1 := x]> m)) ∅ l; Ok (AMap m)).
Proof.
  cbn. generalize (∅ : gmap string any) as m. induction l as [|[k j] l IH]; intros m; [done|].
  cbn [res_fold fst snd]. change (dec_any j ANil) with (dec_any_new j).
  destruct (dec_any_new j); [|done..].
  cbn [mbind result_bind]. apply IH.
Qed.

Lemma born_list xs : Forall born xs → born (AList xs).
Proof.
  intros H. unfold born. cbn [enc_any]. rewrite dec_any_arr, dec_elems_fmap; [done|].
  eapply Forall_impl; [exact H|]. done.
Qed.

Lemma born_map m : map_Forall (λ _, born) m → born (AMap m).
Proof.
  intros H. unfold born. cbn [enc_any]. rewrite dec_any_obj.
  pose proof (dec_map_enc ANil dec_any enc_any (Some m) H) as Hm. cbn in Hm.
  apply res_bind_ok_inv in Hm as (m' & Hm & [= ->]). unfold gm in Hm. cbn in Hm.
  by rewrite Hm.
Qed.

Lemma dec_any_born : ∀ j a, dec_any_new j = Ok a → born a.
Proof.
  fix IH 1. intros [|x|lit|s|l|l] a H.
  1,2,4: by injection H as <-.
  - cbn in H. destruct (float_text 64 lit) as [lit'|] eqn:E; [|done]. injection H as <-.
    apply float_text_idemp in E as [E _]. unfold born. cbn. by rewrite E.
  - rewrite dec_any_arr in H. apply res_bind_ok_inv in H as (xs & Hxs & [= <-]). apply born_list.
    revert xs Hxs. generalize (@nil any) as old.
    induction l as [|j l IHl]; intros old xs Hxs; cbn in Hxs; [by injection Hxs as <-|].
    apply res_bind_ok_inv in Hxs as (x & Hx & Hxs). apply res_bind_ok_inv in Hxs as (ys & Hys & [= <-]).
    constructor; [by apply (IH j)|by eapply IHl].
  - rewrite dec_any_obj in H. apply res_bind_ok_inv in H as (m & Hm & [= <-]). apply born_map.
    assert (map_Forall (λ _, born) (∅ : gmap string any)) as H0 by apply map_Forall_empty.
    revert m Hm H0. generalize (∅ : gmap string any) as m0.
    induction l as [|[k j] l IHl]; intros m0 m Hm H0; cbn in Hm; [by injection Hm as <-|].
    unfold dec_any at 1 in Hm. destruct (dec_any_new j) as [x| |] eqn:Ex; cbn in Hm; [|done..].
    eapply IHl; [exact Hm|]. apply map_Forall_insert_2; [by apply (IH j)|done].
Qed.
End roundtrip.

(** Every member of a document that can be printed has a text that can. *)
Lemma json_wf_text l k s :
  json_wf (obj l) = true → (k, JStr s) ∈ concat l → valid_utf8 s = true.
Proof.
  unfold json_wf, obj. cbn [json_texts]. intros [Hw _]%andb_true_iff Hin.
  rewrite forallb_forall in Hw. specialize (Hw (k, JStr s)). cbn in Hw.
  apply list_elem_of_In, Hw in Hin. by apply andb_true_iff in Hin as [_ Hin].
Qed.

Lemma json_wf_member l k s : json_wf (obj l) = true → mem k (JStr s) ∈ l → valid_utf8 s = true.
Proof.
  intros Hw Hin. apply (json_wf_text l k); [done|]. apply list_elem_of_In, in_concat.
  exists (mem k (JStr s)). split; [by apply list_elem_of_In|by left].
Qed.

(** Read back a whole object, whose fields become [t]: what is left are the
    fields that no lemma above is about. *)
Ltac dec_each :=
  first
    [ refine aligned_nil
    | first [ refine (aligned_mem _ _ _ _ _ _ _ _ _ _ _)
            | refine (aligned_cons _ _ _ _ _ _ _ _ _ _ _ _) ];
      [ first [ apply leaf_str | apply leaf_strings | apply leaf_str_map | apply leaf_bool
              | reflexivity | idtac ]
      | dec_each ] ].

Ltac dec_object t :=
  refine (eq_trans (dec_record_aligned _ _ _ _ _ _ t _ _) _);
    [ dec_each | apply (bool_decide_unpack _); vm_compute; exact I | try reflexivity ].

(** ** What decoding preserves

    [decodes P d]: decoding into a value with [P] leaves one with [P]. *)

Section decodes.
Context {GJ : GoJSON}.

Definition decodes {A} (P : A → Prop) (d : dec A) : Prop :=
  ∀ j old x, P old → d j old = Ok x → P x.

Lemma decodes_True {A} (d : dec A) : decodes (λ _, True) d.
Proof. done. Qed.

Lemma decodes_int bits ty : decodes (λ z, in_bits bits z = true) (dec_int_of bits ty).
Proof.
  intros [|t|lit|s|l|l] old res Hold H; cbn in H; simplify_eq; [done|].
  unfold ParseInt in H. repeat case_match; simplify_eq/=. done.
Qed.

Lemma decodes_any : decodes born dec_any.
Proof. intros j old x _. apply dec_any_born. Qed.

Lemma decodes_float bits : decodes (λ lit, float_text bits lit = Some lit) (dec_float bits).
Proof.
  intros [|t|lit|s|l|l] old res Hold H; cbn in H; simplify_eq; [done|].
  destruct (float_text bits lit) eqn:E; simplify_eq. by eapply float_text_idemp.
Qed.

Lemma decodes_elems {A} (P : A → Prop) zero d l old xs :
  decodes P d → P zero → Forall P old → dec_elems zero d l old = Ok xs → Forall P xs.
Proof.
  intros Hd Hz. revert old xs. induction l as [|j l IH]; intros old xs Hold H; cbn in H.
  { by simplify_eq. }
  apply res_bind_ok_inv in H as (x & Hx & H). apply res_bind_ok_inv in H as (ys & Hys & H).
  simplify_eq. constructor.
  - eapply Hd; [|done]. destruct Hold; done.
  - eapply IH; [|done]. destruct Hold; [constructor|done].
Qed.

Lemma decodes_slice {A} (P : A → Prop) zero d :
  decodes P d → P zero → decodes (λ l, Forall P (default [] l)) (dec_slice zero d).
Proof.
  intros Hd Hz [| | | |l|] old res Hold H; cbn in H; simplify_eq; [constructor|].
  apply res_bind_ok_inv in H as (xs & Hxs & H). simplify_eq. by eapply decodes_elems.
Qed.

Lemma decodes_map {A} (P : A → Prop) zero d :
  decodes P d → P zero → decodes (λ m, map_Forall (λ _ x, P x) (gm m)) (dec_map zero d).
Proof.
  intros Hd Hz [| | | | |l] old res Hold H; cbn in H; simplify_eq.
  { apply map_Forall_empty. }
  apply res_bind_ok_inv in H as (m & Hm & H). simplify_eq. cbn.
  eapply (res_fold_inv _ (λ m, map_Forall (λ _ x, P x) m)); [|exact Hold|exact Hm].
  cbn. intros m1 kv m2 _ Hm1 H'. apply res_bind_ok_inv in H' as (y & Hy & H'). simplify_eq.
  apply map_Forall_insert_2; [|done]. by eapply Hd.
Qed.

Definition fields_ok {A} (P : A → Prop) (fs : fields A) : Prop := Forall (λ f, decodes P f.2) fs.

Lemma fields_ok_nil : fields_ok (λ _, True) fnil.
Proof. constructor. Qed.

Lemma fields_ok_cons {A B} (P : A → Prop) (Q : B → Prop) name d fs :
  decodes P d → fields_ok Q fs → fields_ok (λ ab, P ab.1 ∧ Q ab.2) (fcons (name, d) fs).
Proof.
  intros Hd Hfs. constructor.
  - intros j [a c] x [Ha Hc] H. cbn in H. apply res_bind_ok_inv in H as (y & Hy & H).
    simplify_eq. split; [by eapply Hd|done].
  - apply Forall_fmap. eapply Forall_impl; [exact Hfs|]. intros [n e] He j [a c] x [Ha Hc] H.
    cbn in H. apply res_bind_ok_inv in H as (y & Hy & H). simplify_eq.
    split; [done|by eapply He].
Qed.

Lemma find_by_In {A} p (fs : fields A) d : find_by p fs = Some d → ∃ n, (n, d) ∈ fs.
Proof.
  induction fs as [|[n e] fs IH]; cbn; [done|].
  destruct (p n); intros H; [simplify_eq; exists n; set_solver|].
  destruct (IH H) as [n' ?]. exists n'. set_solver.
Qed.

Lemma decodes_struct {A} (P : A → Prop) ty fs : fields_ok P fs → decodes P (dec_struct ty fs).
Proof.
  intros Hfs [| | | | |l] old res Hold H; cbn in H; simplify_eq; [done|].
  eapply (res_fold_inv _ P); [|exact Hold|exact H].
  cbn. intros a kv a' _ Ha Hkv. unfold find_field in Hkv.
  destruct (find_by _ fs) as [d|] eqn:E1; [|destruct (find_by _ fs) as [d|] eqn:E2 in Hkv];
    [..|by simplify_eq].
  - apply find_by_In in E1 as [n Hn]. unfold fields_ok in Hfs. rewrite Forall_forall in Hfs.
    by eapply (Hfs _ Hn).
  - apply find_by_In in E2 as [n Hn]. unfold fields_ok in Hfs. rewrite Forall_forall in Hfs.
    by eapply (Hfs _ Hn).
Qed.

Lemma decodes_record {A T} (P : A → Prop) (Q : T → Prop) ty (tup : A → T) untup fs :
  fields_ok Q fs → (∀ a, P a → Q (tup a)) → (∀ t, Q t → P (untup t)) →
  decodes P (dec_record ty tup untup fs).
Proof.
  intros Hfs Ht Hu j old x Hold H. unfold dec_record in H.
  apply res_bind_ok_inv in H as (t & H & Hx). simplify_eq.
  eapply Hu, decodes_struct; [exact Hfs|by apply Ht|exact H].
Qed.

Lemma decodes_Unmarshal {A} (P : A → Prop) (d : dec A) data old x :
  decodes P d → P old → Unmarshal d data old = Ok x → P x.
Proof. intros Hd Hold H. apply res_bind_ok_inv in H as (j & _ & H). by eapply Hd. Qed.
End decodes.

(** ** Texts that are read

    The decoder replaces what is not UTF-8 in the texts of a document, so that
    what the program gets from one is UTF-8. *)

Class TextJSON {GJ : GoJSON} : Prop :=
  json_parse_texts : ∀ s j, json_parse s = Ok j → json_texts j = true.

Section texts.
Context {GJ : GoJSON}.

Definition decodes_texts {A} (P : A → Prop) (d : dec A) : Prop :=
  ∀ j old x, json_texts j = true → P old → d j old = Ok x → P x.

Lemma decodes_texts_string : decodes_texts (λ s, valid_utf8 s = true) dec_string.
Proof. intros j old res. destruct j; cbn; intros; by simplify_eq. Qed.

Lemma texts_cons {A B} (P : A → Prop) (Q : B → Prop) name d (fs : fields B) :
  decodes_texts P d → Forall (λ f, decodes_texts Q f.2) fs →
  Forall (λ f, decodes_texts (λ ab, P ab.1 ∧ Q ab.2) f.2) (fcons (name, d) fs).
Proof.
  intros Hd Hfs. constructor.
  - intros j [a c] x Hj [Ha Hc] H. cbn in H. apply res_bind_ok_inv in H as (z & Hz & H).
    simplify_eq. split; [by eapply Hd|done].
  - apply Forall_fmap. eapply Forall_impl; [exact Hfs|]. intros [n e] He j [a c] x Hj [Ha Hc] H.
    cbn in H. apply res_bind_ok_inv in H as (y & Hy & H). simplify_eq.
    split; [done|by eapply He].
Qed.

Lemma decodes_texts_record {A T} (P : A → Prop) (Q : T → Prop) ty (tup : A → T) untup fs :
  Forall (λ f, decodes_texts Q f.2) fs → (∀ a, P a → Q (tup a)) → (∀ t, Q t → P (untup t)) →
  decodes_texts P (dec_record ty tup untup fs).
Proof.
  intros Hfs Ht Hu j old x Hj Hold H. unfold dec_record in H.
  apply res_bind_ok_inv in H as (t & H & Hx). simplify_eq. apply Hu.
  destruct j as [|?|?|?|?|l]; cbn in H; simplify_eq; [auto|].
  eapply (res_fold_inv _ Q); [|by apply Ht|exact H].
  cbn. intros a kv a' Hin Ha Hkv. cbn [json_texts] in Hj. rewrite forallb_forall in Hj.
  apply list_elem_of_In, Hj, andb_prop in Hin as [_ Hin]. rewrite Forall_forall in Hfs.
  destruct (find_field fs kv.1) as [d|] eqn:Hf; [|by simplify_eq].
  unfold find_field in Hf. destruct (find_by _ fs) as [d'|] eqn:E1 in Hf; simplify_eq;
    apply find_by_In in E1 as [n Hn] || apply find_by_In in Hf as [n Hn];
    by eapply (Hfs _ Hn).
Qed.

Lemma decodes_texts_Unmarshal {TJ : TextJSON} {A} (P : A → Prop) (d : dec A) data old x :
  decodes_texts P d → P old → Unmarshal d data old = Ok x → P x.
Proof.
  intros Hd Hold H. apply res_bind_ok_inv in H as (j & Hj & H). apply json_parse_texts in Hj.
  by eapply Hd.
Qed.
End texts.

#[export] Hint Resolve decodes_True decodes_int decodes_float decodes_slice decodes_map
  fields_ok_nil fields_ok_cons decodes_struct : json.

(** Read back an object member by member.  Leaves compute, or are rewritten
    with the hypotheses and the [json] database. *)
Create Rewrite HintDb json.

Ltac dec_leaf :=
  cbn;
  repeat first
    [ match goal with H : ?l = _ |- context [?l] => rewrite H; cbn end
    | progress autorewrite with json using (solve [eauto]); cbn ];
  reflexivity.

Ltac dec_fields :=
  cbn [concat];
  repeat first
    [ rewrite dec_members_nil; reflexivity
    | erewrite dec_members_mem; [|reflexivity|dec_leaf] ].

(** ** An instance, for the witnesses

    A document is printed as the bits of its encoding as a tree. *)

Fixpoint json_tree (j : json) : gen_tree (nat * string) :=
  match j with
  | JNull => GenLeaf (0%nat, "")
  | JBool x => GenLeaf (if x then 1%nat else 2%nat, "")
  | JNum lit => GenLeaf (3%nat, lit)
  | JStr s => GenLeaf (4%nat, s)
  | JArr l => GenNode 0 (json_tree <$> l)
  | JObj l => GenNode 1 ((λ kv, GenNode 0 [GenLeaf (4%nat, kv.1); json_tree kv.2]) <$> l)
  end.

Fixpoint tree_json (t : gen_tree (nat * string)) : json :=
  match t with
  | GenLeaf (1%nat, _) => JBool true
  | GenLeaf (2%nat, _) => JBool false
  | GenLeaf (3%nat, lit) => JNum lit
  | GenLeaf (4%nat, s) => JStr s
  | GenLeaf _ => JNull
  | GenNode 0 l => JArr (tree_json <$> l)
  | GenNode _ l =>
      JObj ((λ t, match t with
                  | GenNode _ [GenLeaf (_, k); t] => (k, tree_json t)
                  | _ => ("", JNull)
                  end) <$> l)
  end.

Lemma json_tree_json : ∀ j, tree_json (json_tree j) = j.
Proof.
  fix IH 1. intros [|[]|lit|s|l|l]; [reflexivity..| |]; cbn; f_equal.
  - induction l as [|j l IHl]; [done|]. cbn. by rewrite IH, IHl.
  - induction l as [|[k j] l IHl]; [done|]. cbn. by rewrite IH, IHl.
Qed.

Fixpoint bits_of (p : positive) : string :=
  match p with
  | xH => "1"
  | xO p => String "0" (bits_of p)
  | xI p => String "1" (bits_of p)
  end.

Fixpoint of_bits (s : string) : positive :=
  match s with
  | String c "" => xH
  | String c s => if decide (c = "1"%char) then xI (of_bits s) else xO (of_bits s)
  | "" => xH
  end.

Lemma of_bits_of p : of_bits (bits_of p) = p.
Proof. induction p as [p IH|p IH|]; [..|done]; cbn; rewrite IH; by destruct p. Qed.

Definition demo_text_print (j : json) : string := bits_of (encode (json_tree j)).
Definition demo_text_parse (s : string) : go json :=
  if decide (s = "") then Err (ENew "unexpected end of JSON input")
  else match decode (of_bits s) with
       | Some t => if json_texts (tree_json t) then Ok (tree_json t) else Err (ENew "invalid character")
       | None => Err (ENew "invalid character")
       end.

Lemma demo_parse_print j : json_wf j = true → demo_text_parse (demo_text_print j) = Ok j.
Proof.
  intros [Hj _]%andb_prop. unfold demo_text_parse, demo_text_print.
  rewrite decide_False by by destruct (encode (json_tree j)).
  by rewrite of_bits_of, decode_encode, json_tree_json, Hj.
Qed.

Definition demo_gojson : GoJSON.
Proof.
  refine {|
    json_parse := demo_text_parse;
    json_print := demo_text_print;
    type_error j ty := ENew ("json: cannot unmarshal into Go value of type " +:+ ty);
    time_parse s := ParseInt s 64;
    time_print := Sprint;
    time_wf := in_bits 64;
    float_text bits lit := if MatchString number_pattern lit then Some lit else None;
  |}.
  - apply demo_parse_print.
  - done.
  - intros t. apply ParseInt_Sprint.
  - intros bits n Hn. assert (n = 0 ∨ n = 1 ∨ n = 2 ∨ n = 3 ∨ n = 4 ∨ n = 5 ∨ n = 6 ∨ n = 7 ∨
      n = 8 ∨ n = 9) as H by lia. naive_solver.
  - intros bits lit lit' H. case_match; simplify_eq. split; [by case_match|done].
Defined.

Lemma demo_gojson_texts : TextJSON (GJ := demo_gojson).
Proof.
  intros s j. unfold json_parse, demo_gojson, demo_text_parse. case_decide; [done|].
  destruct (decode _) as [t|]; [|done]. destruct (json_texts (tree_json t)) eqn:Ht; [|done].
  by intros [= <-].
Qed.
