(* ===== verification/Kube.v ===== *)
(** * Kube: [pkg/kube]

    The connection settings of a cluster ([config.go]) and the client
    ([client.go]): jobs that are run and waited for, pods, deployments, logs.
    client-go and the Google credentials are the parameter [KubeAPI]. *)

From S2P Require Import Prelude GoLib Errors Json.

#[local] Open Scope Z_scope.

(** ** [config.go] *)

Definition providerTypeGKE : string := "gke".

Record HelmConfig := mkHelmConfig { MaxHistory : Z }.

Record Config := mkConfig {
  Host : string;
  Timeout : Duration;
  Token : string;
  Insecure : bool;
  ClientKey : string;
  ClientCertificate : string;
  ClusterCACertificate : string;
  ProviderType : string;
  kc_Namespace : string;
  kc_HelmConfig : HelmConfig;
  Burst : Z;
  QPS : string;
}.

#[export] Instance HelmConfig_eq_dec : EqDecision HelmConfig.
Proof. solve_decision. Defined.
#[export] Instance Config_eq_dec : EqDecision Config.
Proof. solve_decision. Defined.

Definition Config_zero : Config := mkConfig "" 0 "" false "" "" "" "" "" (mkHelmConfig 0) 0 "0".

Definition set_Timeout (t : Duration) (c : Config) : Config :=
  mkConfig (Host c) t (Token c) (Insecure c) (ClientKey c) (ClientCertificate c)
    (ClusterCACertificate c) (ProviderType c) (kc_Namespace c) (kc_HelmConfig c) (Burst c) (QPS c).
Definition set_Token (t : string) (c : Config) : Config :=
  mkConfig (Host c) (Timeout c) t (Insecure c) (ClientKey c) (ClientCertificate c)
    (ClusterCACertificate c) (ProviderType c) (kc_Namespace c) (kc_HelmConfig c) (Burst c) (QPS c).

(** [DefaultClientConfig]: the values of the [default] tags. *)
Definition DefaultClientConfig : Config :=
  mkConfig "" (100 * Millisecond) "" false "" "" "" "" "" (mkHelmConfig 256) 10 "5".

(** The fields of client-go's [rest.Config] that the code sets. *)
Record rest_Config := mkRest {
  rc_Host : string;
  rc_Timeout : Duration;
  rc_Insecure : bool;
  CAData : string;
  KeyData : string;
  CertData : string;
  BearerToken : string;
  rc_Burst : Z;
  rc_QPS : string;
}.

Section codec.
Context {GJ : GoJSON}.

Definition HelmConfig_tup (c : HelmConfig) := (MaxHistory c, tt).
Definition HelmConfig_untup '((m, tt) : Z * ()) : HelmConfig := mkHelmConfig m.

Definition dec_HelmConfig : dec HelmConfig :=
  dec_record "kube.HelmConfig" HelmConfig_tup HelmConfig_untup [f ("max_history", dec_int)].

Definition enc_HelmConfig (c : HelmConfig) : json := obj [mem "max_history" (enc_int (MaxHistory c))].

Definition Config_tup (c : Config) :=
  (Host c, (Timeout c, (Token c, (Insecure c, (ClientKey c, (ClientCertificate c,
   (ClusterCACertificate c, (ProviderType c, (kc_Namespace c, (kc_HelmConfig c,
   (Burst c, (QPS c, tt)))))))))))).
Definition Config_untup t : Config :=
  let '(h, (ti, (to, (i, (ck, (cc, (ca, (p, (n, (hc, (bu, (q, tt)))))))))))) := t in
  mkConfig h ti to i ck cc ca p n hc bu q.

Definition dec_Config : dec Config :=
  dec_record "kube.Config" Config_tup Config_untup
    [f ("host", dec_string); ("timeout", dec_int_of 64 "time.Duration"); ("token", dec_string);
       ("insecure", dec_bool); ("client_key", dec_string); ("client_certificate", dec_string);
       ("cluster_ca_certificate", dec_string); ("provider_type", dec_string);
       ("namespace", dec_string); ("helm_config", dec_HelmConfig); ("burst", dec_int);
       ("qps", dec_float 32)].

Definition enc_Config (c : Config) : json :=
  obj [mem "host" (JStr (Host c)); mem "timeout" (enc_int (Timeout c)); mem "token" (JStr (Token c));
       mem "insecure" (JBool (Insecure c)); mem "client_key" (JStr (ClientKey c));
       mem "client_certificate" (JStr (ClientCertificate c));
       mem "cluster_ca_certificate" (JStr (ClusterCACertificate c));
       mem "provider_type" (JStr (ProviderType c)); mem "namespace" (JStr (kc_Namespace c));
       mem "helm_config" (enc_HelmConfig (kc_HelmConfig c)); mem "burst" (enc_int (Burst c));
       mem "qps" (JNum (QPS c))].

(** Configs as they come from the decoder. *)
Definition Config_wf (c : Config) : Prop :=
  in_bits 64 (Timeout c) = true ∧ in_bits 64 (MaxHistory (kc_HelmConfig c)) = true ∧
  in_bits 64 (Burst c) = true ∧ float_text 32 (QPS c) = Some (QPS c).

Lemma dec_enc_HelmConfig c old :
  in_bits 64 (MaxHistory c) = true → dec_HelmConfig (enc_HelmConfig c) old = Ok c.
Proof.
  intros Hm%ParseInt_Sprint. destruct old.
  unfold dec_HelmConfig, enc_HelmConfig. erewrite dec_record_obj; [|dec_fields]. by destruct c.
Qed.
#[local] Hint Rewrite dec_enc_HelmConfig : json.
#[local] Arguments dec_HelmConfig : simpl never.

Lemma dec_enc_Config c old : Config_wf c → dec_Config (enc_Config c) old = Ok c.
Proof.
  intros (Ht%ParseInt_Sprint & Hm & Hb%ParseInt_Sprint & Hq). destruct old.
  unfold dec_Config, enc_Config. erewrite dec_record_obj; [|dec_fields]. by destruct c.
Qed.
End codec.

(** ** client-go and the Google credentials

    A client set is its [rest.Config]; objects have the fields the code reads
    or writes.  [log_read] is one [Read] of a log stream. *)

Record job_spec := mkJobSpec {
  js_Name : string;
  js_Namespace : string;
  js_TTLSecondsAfterFinished : Z;
  js_Image : string;
  js_Command : list string;
  js_RestartPolicy : string;
  js_BackoffLimit : Z;
}.

Record job_status := mkJobStatus { Active : Z; Succeeded : Z; Failed : Z; status_text : string }.

Record k8s_pod := mkK8sPod {
  kp_Name : string;
  kp_Phase : string;
  kp_DeletionTimestamp : option Time;
  kp_InitContainers : list string;
  kp_Containers : list string;
}.

Record k8s_condition := mkCondition {
  cond_Type : string;
  cond_Status : string;
  cond_Reason : string;
  cond_Message : string;
}.

Record k8s_deployment := mkK8sDeployment {
  kd_Name : string;
  kd_Paused : bool;
  kd_Replicas : Z;
  kd_ReadyReplicas : Z;
  kd_AvailableReplicas : Z;
  kd_UnavailableReplicas : Z;
  kd_Conditions : option (list k8s_condition);
}.

Record PodLogOptions := mkPodLogOptions {
  plo_Container : string;
  plo_Follow : bool;
  plo_Previous : bool;
  plo_Timestamps : bool;
  plo_SinceSeconds : option Z;
  plo_TailLines : option Z;
}.

Inductive log_read := ReadBytes (data : string) | ReadErr (err : error).

Record LogOptions := mkLogOptions {
  lo_App : string;
  lo_Pod : string;
  lo_Container : string;
  lo_Follow : string;
  lo_Previous : string;
  lo_SinceSeconds : string;
  lo_Timestamps : string;
  lo_TailLines : string;
}.

Class KubeAPI (W : Type) : Type := {
  DefaultTokenSource : io W ();
  TokenSource_Token : io W string;
  NewForConfig : rest_Config → go ();
  jobs_Create : rest_Config → job_spec → io W ();
  jobs_Get : rest_Config → string → string → io W job_status;
  pods_List : rest_Config → string → string → string → io W (list k8s_pod);
  pods_Logs : rest_Config → string → string → PodLogOptions → io W (list log_read);
  deployments_Get : rest_Config → string → string → io W k8s_deployment;
  IsNotFound : error → bool;
  label_selector : string → string → go string;
  field_selector : string → string → string;
  decode_LogOptions : gomap string → go LogOptions;
}.

Definition ErrJobExecutionFailed : Error := WithMsgf ErrInternal "job execution failed".
Definition ErrJobCreationFailed : Error := WithMsgf ErrInternal "job creation failed".
Definition ErrJobNotFound : Error := WithMsgf ErrNotFound "job not found".

Section kube.
Context {W : Type} {KA : KubeAPI W}.

(** [RESTConfig] also stores a fetched token in the receiver. *)
Definition RESTConfig (conf : Config) : io W (rest_Config * Config) :=
  let rest token := mkRest (Host conf) (Timeout conf) (Insecure conf) (ClusterCACertificate conf)
    (ClientKey conf) (ClientCertificate conf) token (Burst conf) (QPS conf) in
  if decide (ProviderType conf = "") then mret (rest (Token conf), conf)
  else if decide (ProviderType conf = providerTypeGKE) then
    _ ← catch DefaultTokenSource (caused (WithMsgf ErrInvalid
          (ProviderType conf +:+ ": can't fetch credentials from service account json")));
    token ← catch TokenSource_Token (caused (WithMsgf ErrInternal
          (ProviderType conf +:+ ": can't get token from token source")));
    mret (rest token, set_Token token conf)
  else throw (EErr (WithMsgf ErrInternal (ProviderType conf +:+ ": unsupported provider type"))).

Definition StreamingConfig (conf : Config) : io W (rest_Config * Config) :=
  rcc ← RESTConfig conf;
  let '(rc, conf) := rcc in
  mret (mkRest (rc_Host rc) 0 (rc_Insecure rc) (CAData rc) (KeyData rc) (CertData rc)
          (BearerToken rc) (rc_Burst rc) (rc_QPS rc), conf).

Definition Sanitise (conf : Config) : go Config :=
  if decide (Host conf = "") then Err (EErr (WithMsgf ErrInvalid "host must be set"))
  else
    let conf := if Timeout conf =? 0 then set_Timeout (1 * Second) conf else conf in
    if decide (ProviderType conf = "") then
      if bool_decide (Token conf = "") &&
         (bool_decide (ClientKey conf = "") || bool_decide (ClientCertificate conf = "")) then
        Err (EErr (WithMsgf ErrInvalid
          "client_key and client_certificate must be set when token and service account is not set"))
      else if negb (Insecure conf) && (String.length (ClusterCACertificate conf) =? 0)%nat then
        Err (EErr (WithMsgf ErrInvalid "cluster_ca_certificate must be set when insecure=false"))
      else Ok conf
    else Ok conf.

(** ** [client.go] *)

Record Client := mkClient { restConfig : rest_Config; streamingConfig : rest_Config }.

Definition NewClient (config : Config) : io W Client :=
  rcc ← RESTConfig config;
  src ← StreamingConfig rcc.2;
  mret (mkClient rcc.1 src.1).

Definition defaultTTLSecondsAfterFinished : Z := 60.

Definition settled (s : job_status) : bool :=
  negb ((Active s =? 0) && (Succeeded s =? 0) && (Failed s =? 0)) && negb (0 <? Active s).

(** [waitForJob] polls without a bound; [polls] is the number of polls it is
    given to see the job settle. *)
Fixpoint waitForJob (polls : nat) (rc : rest_Config) (ns jobName : string) : io W () :=
  match polls with
  | O => panic "waitForJob: still polling"
  | S polls =>
      job ← catch (jobs_Get rc ns jobName) (caused ErrJobNotFound);
      if (Active job =? 0) && (Succeeded job =? 0) && (Failed job =? 0) then
        waitForJob polls rc ns jobName
      else if 0 <? Active job then waitForJob polls rc ns jobName
      else if 0 <? Succeeded job then mret tt
      else throw (EErr (WithCausef ErrJobExecutionFailed (status_text job)))
  end.

Definition RunJob (polls : nat) (c : Client) (namespace name image : string) (cmd : list string)
    (retries : Z) (wait : bool) : io W () :=
  _ ← lift (on_err (NewForConfig (restConfig c)) (caused ErrJobCreationFailed));
  _ ← catch (jobs_Create (restConfig c)
        (mkJobSpec name namespace defaultTTLSecondsAfterFinished image cmd "Never" retries))
        (caused ErrJobCreationFailed);
  if wait then waitForJob polls (restConfig c) namespace name else mret tt.
End kube.

(** ** Pods, deployments *)

Record Pod := mkPod {
  pod_Name : string;
  pod_Containers : option (list string);
  pod_Status : string;
}.

Record Deployment := mkDeployment {
  dep_Name : string;
  dep_Paused : bool;
  dep_Replicas : Z;
  dep_ReadyReplicas : Z;
  dep_AvailableReplicas : Z;
  dep_UnavailableReplicas : Z;
  dep_Conditions : option (list (gomap string));
}.

Definition Pod_zero : Pod := mkPod "" None "".
Definition Deployment_zero : Deployment := mkDeployment "" false 0 0 0 0 None.

Section pods.
Context {W : Type} {KA : KubeAPI W} {MR : MapRange}.

Definition GetPodDetails (c : Client) (namespace : string) (labelSelectors : gomap string)
    (allow : k8s_pod → bool) : io W (option (list Pod)) :=
  let selectors := (λ kv, kv.1 +:+ "=" +:+ kv.2) <$> range (gm labelSelectors) in
  let labelSelector := Join selectors "," in
  _ ← lift (NewForConfig (restConfig c));
  pods ← pods_List (restConfig c) namespace labelSelector "";
  let details := (λ p, mkPod (kp_Name p)
                         (match kp_Containers p with [] => None | l => Some l end) (kp_Phase p))
                   <$> filter (λ p, allow p = true) pods in
  mret (match details with [] => None | l => Some l end).

Definition condition_map (cond : k8s_condition) : gomap string :=
  Some (list_to_map [("type", cond_Type cond); ("status", cond_Status cond);
                     ("reason", cond_Reason cond); ("message", cond_Message cond)]).

Definition GetDeploymentDetails (c : Client) (namespace name : string) : io W Deployment :=
  _ ← lift (NewForConfig (restConfig c));
  out ← attempt (deployments_Get (restConfig c) namespace name);
  match out with
  | inl err => if IsNotFound err then mret Deployment_zero else throw err
  | inr d =>
      mret (mkDeployment (kd_Name d) (kd_Paused d) (kd_Replicas d) (kd_ReadyReplicas d)
        (kd_AvailableReplicas d) (kd_UnavailableReplicas d)
        (match kd_Conditions d with
         | None => None
         | Some conds => Some (condition_map <$>
             filter (λ x, cond_Status x ≠ "Unknown" ∧ cond_Status x ≠ "False") conds)
         end))
  end.

(** ** Logs *)

Definition trueString : string := "true".

(** The label selector and the field selector of the list options. *)
Definition getPodListOptions (l : LogOptions) : go (string * string) :=
  r ← label_selector "app" (lo_App l);
  Ok (r, if decide (lo_Pod l = "") then "" else field_selector "metadata.name" (lo_Pod l)).

Definition parse_opt (s : string) : go (option Z) :=
  if decide (s = "") then Ok None else z ← ParseInt s 64; Ok (Some z).

Definition getPodLogOptions (l : LogOptions) : go PodLogOptions :=
  since ← parse_opt (lo_SinceSeconds l);
  tail ← parse_opt (lo_TailLines l);
  Ok (mkPodLogOptions (lo_Container l) (bool_decide (lo_Follow l = trueString))
        (bool_decide (lo_Previous l = trueString)) (bool_decide (lo_Timestamps l = trueString))
        since tail).

Record LogChunk := mkChunk { chunk_Data : string; chunk_Labels : gomap string }.

(** The chunks sent for the reads of one stream: empty reads are retried, and
    the stream ends at the first error. *)
Fixpoint stream_chunks (podName container : string) (reads : list log_read) : list LogChunk :=
  match reads with
  | [] | ReadErr _ :: _ => []
  | ReadBytes "" :: reads => stream_chunks podName container reads
  | ReadBytes data :: reads =>
      mkChunk data (Some (list_to_map [("pod", podName); ("container", container)]))
        :: stream_chunks podName container reads
  end.

(** A stream that cannot be opened is logged and sends nothing. *)
Definition streamContainerLogs (rc : rest_Config) (ns podName : string) (opts : PodLogOptions) :
    io W (list LogChunk) :=
  out ← attempt (pods_Logs rc ns podName opts);
  match out with
  | inl _ => mret []
  | inr reads => mret (stream_chunks podName (plo_Container opts) reads)
  end.

(** The containers whose logs are streamed. *)
Definition log_targets (l : LogOptions) (pods : list k8s_pod) : list (string * string) :=
  pods ≫= λ p,
    pair (kp_Name p) <$>
      filter (λ c, lo_Container l = "" ∨ c = lo_Container l) (kp_InitContainers p ++ kp_Containers p).

Definition set_plo_Container (c : string) (o : PodLogOptions) : PodLogOptions :=
  mkPodLogOptions c (plo_Follow o) (plo_Previous o) (plo_Timestamps o) (plo_SinceSeconds o)
    (plo_TailLines o).

(** One goroutine per container sends to the channel; here each container's
    chunks come after those of the container before. *)
Definition streamFromPods (c : Client) (namespace : string) (logOptions : LogOptions) :
    io W (list LogChunk) :=
  _ ← lift (NewForConfig (restConfig c));
  sel ← lift (getPodListOptions logOptions);
  pods ← pods_List (restConfig c) namespace sel.1 sel.2;
  _ ← lift (NewForConfig (streamingConfig c));
  fold_each (λ acc t,
    plo ← lift (getPodLogOptions logOptions);
    chunks ← streamContainerLogs (streamingConfig c) namespace t.1 (set_plo_Container t.2 plo);
    mret (acc ++ chunks)) [] (log_targets logOptions pods).

Definition client_StreamLogs (c : Client) (namespace : string) (filter : gomap string) :
    io W (list LogChunk) :=
  logOptions ← lift (on_err (decode_LogOptions filter)
                 (λ err, EErr (WithMsgf ErrInvalid (error_string err))));
  streamFromPods c namespace logOptions.
End pods.

(** ** [pod/pod.go]: the types of the drivers' settings *)

Record Toleration := mkToleration {
  tol_Key : string;
  tol_Value : string;
  tol_Effect : string;
  tol_Operator : string;
}.

Record Preference := mkPreference {
  pref_Key : string;
  pref_Operator : string;
  pref_Values : option (list string);
}.

Record WeightedPreference := mkWeighted {
  wp_Weight : Z;
  wp_Preference : option (list Preference);
}.

Record NodeAffinityMatchExpressions := mkAffinity {
  RequiredDuringScheduling : option (list Preference);
  PreferredDuringScheduling : option (list WeightedPreference);
}.

Section codecs.
Context {GJ : GoJSON}.

Definition dec_strings : dec (option (list string)) := dec_slice "" dec_string.
Definition dec_str_map : dec (gomap string) := dec_map "" dec_string.

Definition dec_Toleration : dec Toleration :=
  dec_record "pod.Toleration" (λ t, (tol_Key t, (tol_Value t, (tol_Effect t, (tol_Operator t, tt)))))
    (λ '(k, (v, (e, (o, tt)))), mkToleration k v e o)
    [f ("key", dec_string); ("value", dec_string); ("effect", dec_string); ("operator", dec_string)].

Definition enc_Toleration (t : Toleration) : json :=
  obj [mem "key" (JStr (tol_Key t)); mem "value" (JStr (tol_Value t));
       mem "effect" (JStr (tol_Effect t)); mem "operator" (JStr (tol_Operator t))].

Definition dec_Preference : dec Preference :=
  dec_record "pod.Preference" (λ p, (pref_Key p, (pref_Operator p, (pref_Values p, tt))))
    (λ '(k, (o, (v, tt))), mkPreference k o v)
    [f ("key", dec_string); ("operator", dec_string); ("values", dec_strings)].

Definition enc_Preference (p : Preference) : json :=
  obj [mem "key" (JStr (pref_Key p)); mem "operator" (JStr (pref_Operator p));
       mem "values" (enc_slice JStr (pref_Values p))].

Definition Preference_zero : Preference := mkPreference "" "" None.

Definition dec_WeightedPreference : dec WeightedPreference :=
  dec_record "pod.WeightedPreference" (λ p, (wp_Weight p, (wp_Preference p, tt)))
    (λ '(w, (p, tt)), mkWeighted w p)
    [f ("weight", dec_int); ("preference", dec_slice Preference_zero dec_Preference)].

Definition enc_WeightedPreference (p : WeightedPreference) : json :=
  obj [mem "weight" (enc_int (wp_Weight p));
       mem "preference" (enc_slice enc_Preference (wp_Preference p))].

Definition dec_Affinity : dec NodeAffinityMatchExpressions :=
  dec_record "pod.NodeAffinityMatchExpressions"
    (λ a, (RequiredDuringScheduling a, (PreferredDuringScheduling a, tt)))
    (λ '(r, (p, tt)), mkAffinity r p)
    [f ("requiredDuringSchedulingIgnoredDuringExecution", dec_slice Preference_zero dec_Preference);
       ("preferredDuringSchedulingIgnoredDuringExecution",
        dec_slice (mkWeighted 0 None) dec_WeightedPreference)].

Definition enc_Affinity (a : NodeAffinityMatchExpressions) : json :=
  obj [omit (no_list (RequiredDuringScheduling a)) "requiredDuringSchedulingIgnoredDuringExecution"
         (enc_slice enc_Preference (RequiredDuringScheduling a));
       omit (no_list (PreferredDuringScheduling a)) "preferredDuringSchedulingIgnoredDuringExecution"
         (enc_slice enc_WeightedPreference (PreferredDuringScheduling a))].

Definition dec_Pod : dec Pod :=
  dec_record "kube.Pod" (λ p, (pod_Name p, (pod_Containers p, (pod_Status p, tt))))
    (λ '(n, (c, (s, tt))), mkPod n c s)
    [f ("name", dec_string); ("containers", dec_strings); ("status", dec_string)].

Definition enc_Pod (p : Pod) : json :=
  obj [mem "name" (JStr (pod_Name p)); mem "containers" (enc_slice JStr (pod_Containers p));
       mem "status" (JStr (pod_Status p))].

Definition dec_Deployment : dec Deployment :=
  dec_record "kube.Deployment"
    (λ d, (dep_Name d, (dep_Paused d, (dep_Replicas d, (dep_ReadyReplicas d,
           (dep_AvailableReplicas d, (dep_UnavailableReplicas d, (dep_Conditions d, tt))))))))
    (λ '(n, (p, (r, (rr, (a, (u, (c, tt))))))), mkDeployment n p r rr a u c)
    [f ("name", dec_string); ("paused", dec_bool); ("replicas", dec_int);
       ("ready_replicas", dec_int); ("available_replicas", dec_int);
       ("unavailable_replicas", dec_int); ("conditions", dec_slice None dec_str_map)].

Definition enc_Deployment (d : Deployment) : json :=
  obj [mem "name" (JStr (dep_Name d)); mem "paused" (JBool (dep_Paused d));
       mem "replicas" (enc_int (dep_Replicas d)); mem "ready_replicas" (enc_int (dep_ReadyReplicas d));
       mem "available_replicas" (enc_int (dep_AvailableReplicas d));
       mem "unavailable_replicas" (enc_int (dep_UnavailableReplicas d));
       mem "conditions" (enc_slice (enc_map JStr) (dep_Conditions d))].
End codecs.

(** ** Properties *)

Section wait.
Context {W : Type} {KA : KubeAPI W}.
Variables (rc : rest_Config) (ns name : string).
Implicit Types (w : W) (r : go ()).

(** What a settled job means to the caller. *)
Definition verdict (s : job_status) : go () :=
  if 0 <? Succeeded s then Ok tt else Err (EErr (WithCausef ErrJobExecutionFailed (status_text s))).

(** [polled n w r w']: the first [n - 1] polls from [w] find the job waiting or
    running, the [n]-th decides [r]. *)
Inductive polled : nat → W → go () → W → Prop :=
  | polled_settled w s w' :
      jobs_Get rc ns name w = (Ok s, w') → settled s = true → polled 1 w (verdict s) w'
  | polled_gone w err w' :
      jobs_Get rc ns name w = (Err err, w') → polled 1 w (Err (caused ErrJobNotFound err)) w'
  | polled_crash w msg w' :
      jobs_Get rc ns name w = (Panic msg, w') → polled 1 w (Panic msg) w'
  | polled_again w s w1 n r w' :
      jobs_Get rc ns name w = (Ok s, w1) → settled s = false → polled n w1 r w' →
      polled (S n) w r w'.

Lemma waitForJob_step polls w :
  waitForJob (S polls) rc ns name w =
  match jobs_Get rc ns name w with
  | (Ok s, w') => if settled s then (verdict s, w') else waitForJob polls rc ns name w'
  | (Err err, w') => (Err (caused ErrJobNotFound err), w')
  | (Panic msg, w') => (Panic msg, w')
  end.
Proof.
  cbn [waitForJob]. rewrite run_bind. unfold catch.
  destruct (jobs_Get rc ns name w) as [[s|err|msg] w']; [|done..].
  unfold settled, verdict, throw, mret, M_ret.
  destruct ((Active s =? 0) && (Succeeded s =? 0) && (Failed s =? 0)); [done|].
  destruct (0 <? Active s); [done|]. by destruct (0 <? Succeeded s).
Qed.

Lemma waitForJob_complete polls w r w' :
  waitForJob polls rc ns name w = (r, w') → is_panic r = false →
  ∃ n, (n ≤ polls)%nat ∧ polled n w r w'.
Proof.
  revert w. induction polls as [|polls IH]; intros w H Hr; [by injection H as <- <-|].
  rewrite waitForJob_step in H.
  destruct (jobs_Get rc ns name w) as [[s|err|msg] w1] eqn:Hg.
  - destruct (settled s) eqn:Hs.
    + injection H as <- <-. exists 1%nat. split; [lia|]. by econstructor.
    + destruct (IH _ H Hr) as (n & Hn & Hp). exists (S n). split; [lia|]. by econstructor.
  - injection H as <- <-. exists 1%nat. split; [lia|]. by constructor.
  - by injection H as <- <-.
Qed.

(** Waiting for a job ends with the first poll that finds it settled or
    gone, whatever the number of polls before, and with nothing else: success
    if a pod succeeded, an execution failure if none did, not-found if the job
    cannot be read.  The loop has no bound of its own: a job that never
    settles is polled for ever. *)
Theorem waitForJob_correct w r w' :
  is_panic r = false →
  (∀ n, polled n w r w' → ∀ polls, (n ≤ polls)%nat → waitForJob polls rc ns name w = (r, w')) ∧
  (∀ polls, waitForJob polls rc ns name w = (r, w') → ∃ n, (n ≤ polls)%nat ∧ polled n w r w') ∧
  (∀ polls, is_panic (waitForJob polls rc ns name w).1 = true →
     ∀ n, polled n w r w' → (polls < n)%nat).
Proof.
  intros Hr.
  assert (∀ n v r0 v', polled n v r0 v' → ∀ polls, (n ≤ polls)%nat →
    waitForJob polls rc ns name v = (r0, v')) as Hret.
  { induction 1 as [v s v' Hg Hs|v err v' Hg|v msg v' Hg|v s v1 n r0 v' Hg Hs _ IH];
      intros [|polls] Hn; try lia; rewrite waitForJob_step, Hg; [by rewrite Hs|done|done|].
    rewrite Hs. apply IH. lia. }
  split_and!; [by eauto|intros; by apply waitForJob_complete|].
  intros polls Hp n Hn. destruct (decide (polls < n)%nat) as [|Hge]; [done|].
  rewrite (Hret _ _ _ _ Hn polls) in Hp by lia. cbn in Hp. congruence.
Qed.
End wait.

(** Sanitising accepts exactly the settings that name a host and carry
    usable credentials (a provider; or a token or a key pair, with a CA unless
    insecure); it only fills in a missing timeout, and is idempotent. *)
Lemma Sanitise_correct conf :
  let usable :=
    Host conf ≠ "" ∧
    (ProviderType conf = "" →
     (Token conf ≠ "" ∨ (ClientKey conf ≠ "" ∧ ClientCertificate conf ≠ "")) ∧
     (Insecure conf = true ∨ ClusterCACertificate conf ≠ "")) in
  match Sanitise conf with
  | Ok conf' => usable ∧ Timeout conf' ≠ 0 ∧ set_Timeout (Timeout conf) conf' = conf ∧
                (Timeout conf ≠ 0 → conf' = conf) ∧ Sanitise conf' = Ok conf'
  | Err err => ¬ usable ∧ errors_Is err (EErr ErrInvalid) = true
  | Panic _ => False
  end.
Proof.
  cbv zeta. unfold Sanitise. case_decide as Hh; [split; [naive_solver|done]|].
  set (conf' := if Timeout conf =? 0 then _ else _).
  assert (Host conf' = Host conf ∧ Token conf' = Token conf ∧ ClientKey conf' = ClientKey conf ∧
    ClientCertificate conf' = ClientCertificate conf ∧ Insecure conf' = Insecure conf ∧
    ClusterCACertificate conf' = ClusterCACertificate conf ∧ ProviderType conf' = ProviderType conf)
    as (E1 & E2 & E3 & E4 & E5 & E6 & E7) by (subst conf'; by destruct (Timeout conf =? 0)).
  assert (Timeout conf' ≠ 0) as Ht.
  { subst conf'. destruct (Z.eqb_spec (Timeout conf) 0); cbn; [done|done]. }
  assert (set_Timeout (Timeout conf) conf' = conf) as Hs.
  { subst conf'. destruct conf, (_ =? 0); done. }
  assert (Timeout conf ≠ 0 → conf' = conf) as Hid.
  { intros Hn. subst conf'. by destruct (Z.eqb_spec (Timeout conf) 0). }
  rewrite E2, E3, E4, E5, E6, E7. clearbody conf'.
  apply Z.eqb_neq in Ht as Ht'.
  assert (String.length (ClusterCACertificate conf) = 0%nat ↔ ClusterCACertificate conf = "") as Hlen.
  { destruct (ClusterCACertificate conf); [done|]. split; [|done]. cbn. lia. }
  destruct (decide (ProviderType conf = "")) as [Hp|Hp].
  - destruct (bool_decide (Token conf = "") && _) eqn:Hc1.
    { apply andb_true_iff in Hc1 as [Hc1%bool_decide_eq_true Hc2].
      apply orb_true_iff in Hc2 as [Hc2%bool_decide_eq_true|Hc2%bool_decide_eq_true];
        (split; [naive_solver|done]). }
    destruct (negb (Insecure conf) && _) eqn:Hc2.
    { apply andb_true_iff in Hc2 as [Hi%negb_true_iff Hc2%Nat.eqb_eq].
      split; [|done]. intros [_ Hu]. destruct (Hu Hp) as [_ [Hu'|Hu']]; [congruence|].
      by apply Hu', Hlen. }
    split_and!; try done.
    + intros _. split.
      * apply andb_false_iff in Hc1 as [Hc1%bool_decide_eq_false|Hc1]; [by left|].
        apply orb_false_iff in Hc1 as [Ha%bool_decide_eq_false Hb%bool_decide_eq_false]. by right.
      * apply andb_false_iff in Hc2 as [Hi%negb_false_iff|Hc2%Nat.eqb_neq]; [by left|].
        right. intros He. by apply Hc2, Hlen.
    + rewrite E1, decide_False by done. rewrite Ht', E7, decide_True by done.
      by rewrite E2, E3, E4, Hc1, E5, E6, Hc2.
  - split_and!; try done. rewrite E1, decide_False by done. by rewrite Ht', E7, decide_False.
Qed.
