(* ===== verification/Resource.v ===== *)
(** * Resource: [core/resource]

    Models [core/resource/resource.go] and [core/resource/state.go]: the
    resource, its spec and state, validation and URN generation, list filters,
    and the [Store] interface that the service calls and the Postgres store
    implements. *)

From S2P Require Import Prelude GoLib Errors.
From Stdlib Require Import Ascii.

#[local] Open Scope Z_scope.

(** ** State *)

Definition StatusUnspecified : string := "STATUS_UNSPECIFIED".
Definition StatusPending : string := "STATUS_PENDING".
Definition StatusError : string := "STATUS_ERROR".
Definition StatusDeleted : string := "STATUS_DELETED".
Definition StatusCompleted : string := "STATUS_COMPLETED".

Record SyncResult := mkSyncResult {
  Retries : Z;
  LastError : string;
}.

Definition SyncResult_zero : SyncResult := mkSyncResult 0 "".

#[export] Instance SyncResult_eq_dec : EqDecision SyncResult.
Proof. solve_decision. Defined.

Record State := mkState {
  Status : string;
  Output : RawMessage;
  ModuleData : RawMessage;
  NextSyncAt : option Time;
  st_SyncResult : SyncResult;
}.

#[export] Instance State_eq_dec : EqDecision State.
Proof. solve_decision. Defined.

Definition State_zero : State := mkState "" None None None SyncResult_zero.

Definition set_Status (s : string) (st : State) : State :=
  mkState s (Output st) (ModuleData st) (NextSyncAt st) (st_SyncResult st).
Definition set_Output (o : RawMessage) (st : State) : State :=
  mkState (Status st) o (ModuleData st) (NextSyncAt st) (st_SyncResult st).
Definition set_NextSyncAt (t : option Time) (st : State) : State :=
  mkState (Status st) (Output st) (ModuleData st) t (st_SyncResult st).
Definition set_SyncResult (r : SyncResult) (st : State) : State :=
  mkState (Status st) (Output st) (ModuleData st) (NextSyncAt st) r.

Definition IsTerminal (s : State) : bool :=
  bool_decide (Status s = StatusCompleted) || bool_decide (Status s = StatusError).

Definition InDeletion (s : State) : bool := bool_decide (Status s = StatusDeleted).

(** [make([]byte, len(s))] and [copy]: the clone's slices are never nil; the
    next sync time and the sync result are left at their zero value. *)
Definition Clone (s : State) : State :=
  mkState (Status s) (Some (raw_bytes (Output s))) (Some (raw_bytes (ModuleData s)))
    None SyncResult_zero.

(** ** Resource *)

Record Spec := mkSpec {
  Configs : RawMessage;
  Dependencies : gomap string;
}.

#[export] Instance Spec_eq_dec : EqDecision Spec.
Proof. solve_decision. Defined.

Record Resource := mkResource {
  URN : string;
  Kind : string;
  Name : string;
  Project : string;
  Labels : gomap string;
  CreatedAt : Time;
  UpdatedAt : Time;
  UpdatedBy : string;
  CreatedBy : string;
  res_Spec : Spec;
  res_State : State;
}.

#[export] Instance Resource_eq_dec : EqDecision Resource.
Proof. solve_decision. Defined.

Definition set_identity (kind name project : string) (r : Resource) : Resource :=
  mkResource (URN r) kind name project (Labels r) (CreatedAt r) (UpdatedAt r)
    (UpdatedBy r) (CreatedBy r) (res_Spec r) (res_State r).
Definition set_URN (u : string) (r : Resource) : Resource :=
  mkResource u (Kind r) (Name r) (Project r) (Labels r) (CreatedAt r) (UpdatedAt r)
    (UpdatedBy r) (CreatedBy r) (res_Spec r) (res_State r).
Definition set_Labels (l : gomap string) (r : Resource) : Resource :=
  mkResource (URN r) (Kind r) (Name r) (Project r) l (CreatedAt r) (UpdatedAt r)
    (UpdatedBy r) (CreatedBy r) (res_Spec r) (res_State r).
Definition set_stamps (cat uat : Time) (cby uby : string) (r : Resource) : Resource :=
  mkResource (URN r) (Kind r) (Name r) (Project r) (Labels r) cat uat uby cby
    (res_Spec r) (res_State r).
Definition set_UpdatedAt (t : Time) (r : Resource) : Resource :=
  mkResource (URN r) (Kind r) (Name r) (Project r) (Labels r) (CreatedAt r) t
    (UpdatedBy r) (CreatedBy r) (res_Spec r) (res_State r).
Definition set_Spec (s : Spec) (r : Resource) : Resource :=
  mkResource (URN r) (Kind r) (Name r) (Project r) (Labels r) (CreatedAt r) (UpdatedAt r)
    (UpdatedBy r) (CreatedBy r) s (res_State r).
Definition set_State (s : State) (r : Resource) : Resource :=
  mkResource (URN r) (Kind r) (Name r) (Project r) (Labels r) (CreatedAt r) (UpdatedAt r)
    (UpdatedBy r) (CreatedBy r) (res_Spec r) s.
Definition set_Configs (c : RawMessage) (r : Resource) : Resource :=
  set_Spec (mkSpec c (Dependencies (res_Spec r))) r.

Record PagedResource := mkPaged { Count : Z; Resources : list Resource }.

Record Filter := mkFilter {
  flt_Kind : string;
  flt_Project : string;
  flt_Labels : gomap string;
  PageSize : Z;
  PageNum : Z;
}.

Record UpdateRequest := mkUpdateRequest {
  upd_Spec : Spec;
  upd_Labels : gomap string;
  upd_UserID : string;
}.

Record RevisionsSelector := mkSelector { sel_URN : string }.

Record Revision := mkRevision {
  rev_ID : Z;
  rev_URN : string;
  Reason : string;
  rev_Labels : gomap string;
  rev_CreatedAt : Time;
  rev_CreatedBy : string;
  rev_Spec : Spec;
}.

(** ** Naming *)

Definition name_char (c : ascii) : bool :=
  is_alpha c || is_digit c || bool_decide (c = "_"%char) || bool_decide (c = "-"%char).

(** [^[A-Za-z][A-Za-z0-9_-]+$] *)
Definition namingPattern : regex := RCat (RSet is_alpha) (RPlus (RSet name_char)).

(** [^\d*[A-Za-z0-9_-]+$] *)
Definition namingPatternStartingWithDigits : regex :=
  RCat (RStar (RSet is_digit)) (RPlus (RSet name_char)).

Definition namingPattern_src : string := "^[A-Za-z][A-Za-z0-9_-]+$".
Definition namingPatternStartingWithDigits_src : string := "^\d*[A-Za-z0-9_-]+$".

Definition urnSeparator : string := ":".

Definition GenerateURN (kind project name : string) : string :=
  Join ["orn"; "entropy"; kind; project; name] urnSeparator.

(** [Validate] trims the identity fields in place before it checks them, so a
    call that fails still leaves them trimmed: the outcome is the error (if
    any) and the resource after the call. *)
Definition Validate (isCreate : bool) (res : Resource) : option Error * Resource :=
  let res := set_identity (TrimSpace (Kind res)) (TrimSpace (Name res))
               (TrimSpace (Project res)) res in
  if negb (MatchString namingPattern (Kind res)) then
    (Some (WithMsgf ErrInvalid ("kind must match pattern '" +:+ namingPattern_src +:+ "'")), res)
  else if negb (MatchString namingPatternStartingWithDigits (Name res)) then
    (Some (WithMsgf ErrInvalid
       ("name must match pattern '" +:+ namingPatternStartingWithDigits_src +:+ "'")), res)
  else if negb (MatchString namingPattern (Project res)) then
    (Some (WithMsgf ErrInvalid ("project must match pattern '" +:+ namingPattern_src +:+ "'")), res)
  else
    let res :=
      if decide (Status (res_State res) = "")
      then set_State (set_Status StatusUnspecified (res_State res)) res else res in
    let res :=
      if isCreate
      then set_URN (GenerateURN (Kind res) (Project res) (Name res)) res else res in
    (None, res).

(** ** Filters *)

Section filter.
Context {MR : MapRange}.

Definition isMatch (f : Filter) (r : Resource) : bool :=
  let kindMatch := bool_decide (flt_Kind f = "") || bool_decide (flt_Kind f = Kind r) in
  let projectMatch :=
    bool_decide (flt_Project f = "") || bool_decide (flt_Project f = Project r) in
  if negb kindMatch || negb projectMatch then false
  else forallb (λ kv, bool_decide (gm_get (Labels r) kv.1 = kv.2)) (range (gm (flt_Labels f))).

Fixpoint Apply (f : Filter) (arr : list Resource) : list Resource :=
  match arr with
  | [] => []
  | r :: arr => if isMatch f r then r :: Apply f arr else Apply f arr
  end.
End filter.

(** ** The store interface

    [hooks] are run inside the transaction of a mutation; their outcome is all
    the store sees of them. *)

Abbreviation MutationHook := (go ()) (only parsing).
Abbreviation SyncFn W := (Resource → io W Resource) (only parsing).

Record Store (W : Type) := mkStore {
  GetByURN : string → io W Resource;
  List_ : Filter → bool → io W (list Resource);
  Create : Resource → list MutationHook → io W ();
  Update : Resource → bool → string → list MutationHook → io W ();
  Delete : string → list MutationHook → io W ();
  Revisions : RevisionsSelector → io W (list Revision);
  SyncOne : gmap string (list string) → SyncFn W → io W ();
}.

Arguments GetByURN {W}.
Arguments List_ {W}.
Arguments Create {W}.
Arguments Update {W}.
Arguments Delete {W}.
Arguments Revisions {W}.
Arguments SyncOne {W}.

(** ** Naming: what the patterns accept *)

Definition valid_name (s : string) : Prop :=
  chars s ≠ [] ∧ Forall (λ c, name_char c = true) (chars s).

Definition valid_ident (s : string) : Prop :=
  ∃ c l, chars s = c :: l ∧ is_alpha c = true ∧ l ≠ [] ∧ Forall (λ c, name_char c = true) l.

Lemma digit_name_char c : is_digit c = true → name_char c = true.
Proof. intros H. unfold name_char. rewrite H. by rewrite orb_true_r. Qed.

Lemma alpha_name_char c : is_alpha c = true → name_char c = true.
Proof. intros H. unfold name_char. by rewrite H. Qed.

Lemma matches_plus_set p l :
  matches (RPlus (RSet p)) l ↔ l ≠ [] ∧ Forall (λ c, p c = true) l.
Proof.
  unfold RPlus. rewrite matches_cat. split.
  - intros (l1 & l2 & -> & (c & -> & Hc)%matches_set & Hl2%matches_star_set).
    split; [done|]. by constructor.
  - intros [Hne Hall]. destruct l as [|c l]; [done|]. apply Forall_cons in Hall as [Hc Hl].
    exists [c], l. split_and!; [done|by constructor|by apply matches_star_set].
Qed.

Lemma namingPattern_spec s : MatchString namingPattern s = true ↔ valid_ident s.
Proof.
  unfold MatchString, valid_ident, namingPattern. rewrite rmatch_spec, matches_cat. split.
  - intros (l1 & l2 & -> & (c & -> & Hc)%matches_set & [Hne Hl]%matches_plus_set). naive_solver.
  - intros (c & l & -> & Hc & Hne & Hl). exists [c], l.
    split_and!; [done|by constructor|by apply matches_plus_set].
Qed.

Lemma namingPatternStartingWithDigits_spec s :
  MatchString namingPatternStartingWithDigits s = true ↔ valid_name s.
Proof.
  unfold MatchString, valid_name, namingPatternStartingWithDigits.
  rewrite rmatch_spec, matches_cat. split.
  - intros (l1 & l2 & -> & Hd%matches_star_set & [Hne Hl]%matches_plus_set). split.
    + destruct l1; [done|discriminate].
    + apply Forall_app. split; [|done].
      eapply Forall_impl; [done|]. intros c. apply digit_name_char.
  - intros [Hne Hl]. exists [], (chars s).
    split_and!; [done|constructor|by apply matches_plus_set].
Qed.

Lemma valid_ident_name s : valid_ident s → valid_name s.
Proof.
  intros (c & l & Hs & Hc & _ & Hl). unfold valid_name. rewrite Hs. split; [done|].
  constructor; [by apply alpha_name_char|done].
Qed.

(** The separator of a URN and every byte of an encoded space are outside the
    alphabet of names: finite checks over the 256 bytes. *)
Lemma name_char_ne c d : name_char c = true → name_char d = false → c ≠ d.
Proof. congruence. Qed.

Lemma valid_name_no_colon s : valid_name s → ":"%char ∉ chars s.
Proof.
  intros [_ Hl] Hin. rewrite Forall_forall in Hl. discriminate (Hl _ Hin).
Qed.

Lemma spaces_not_name_char :
  Forall (λ t, match t with c :: _ => name_char c = false | [] => False end) unicode_spaces ∧
  Forall (λ t, match last t with Some c => name_char c = false | None => False end) unicode_spaces.
Proof. split; repeat constructor. Qed.

Lemma TrimSpace_valid_name s : valid_name s → TrimSpace s = s.
Proof.
  intros [_ Hl]. unfold TrimSpace. rewrite trim_both_id; [apply str_chars| |].
  - intros t Ht [k Hk]. destruct spaces_not_name_char as [Hs _].
    rewrite Forall_forall in Hs. specialize (Hs t Ht). destruct t as [|c t]; [done|].
    rewrite Hk in Hl. apply Forall_cons in Hl as [Hc _]. congruence.
  - intros t Ht [k Hk]. destruct spaces_not_name_char as [_ Hs].
    rewrite Forall_forall in Hs. specialize (Hs t Ht).
    destruct (last t) as [c|] eqn:E; [|done]. apply last_Some in E as [t' ->].
    rewrite Hk, app_assoc, Forall_app, Forall_singleton in Hl. destruct Hl as [_ Hl]. congruence.
Qed.

(** ** Validation *)

(** What a validated resource looks like. *)
Record validated (r : Resource) : Prop := {
  validated_kind : valid_ident (Kind r);
  validated_name : valid_name (Name r);
  validated_project : valid_ident (Project r);
  validated_status : Status (res_State r) ≠ "";
}.

(** The accepted resource, and the guards as a whole. *)
Definition accepted (isCreate : bool) (k n p : string) (r : Resource) : Resource :=
  mkResource (if isCreate then GenerateURN k p n else URN r) k n p (Labels r) (CreatedAt r)
    (UpdatedAt r) (UpdatedBy r) (CreatedBy r) (res_Spec r)
    (if decide (Status (res_State r) = "")
     then set_Status StatusUnspecified (res_State r) else res_State r).

Lemma Validate_eq isCreate r :
  let k := TrimSpace (Kind r) in let n := TrimSpace (Name r) in
  let p := TrimSpace (Project r) in
  Validate isCreate r =
  if negb (MatchString namingPattern k) then
    (Some (WithMsgf ErrInvalid ("kind must match pattern '" +:+ namingPattern_src +:+ "'")),
     set_identity k n p r)
  else if negb (MatchString namingPatternStartingWithDigits n) then
    (Some (WithMsgf ErrInvalid
       ("name must match pattern '" +:+ namingPatternStartingWithDigits_src +:+ "'")),
     set_identity k n p r)
  else if negb (MatchString namingPattern p) then
    (Some (WithMsgf ErrInvalid ("project must match pattern '" +:+ namingPattern_src +:+ "'")),
     set_identity k n p r)
  else (None, accepted isCreate k n p r).
Proof.
  unfold Validate, accepted. cbn [Kind Name Project set_identity].
  repeat case_match; try done; by destruct isCreate.
Qed.

Lemma Validate_cases isCreate r :
  let k := TrimSpace (Kind r) in let n := TrimSpace (Name r) in
  let p := TrimSpace (Project r) in
  (valid_ident k ∧ valid_name n ∧ valid_ident p ∧
   Validate isCreate r = (None, accepted isCreate k n p r)) ∨
  (∃ e, Code e = Code ErrInvalid ∧ Validate isCreate r = (Some e, set_identity k n p r) ∧
        (¬ valid_ident k ∨ ¬ valid_name n ∨ ¬ valid_ident p)).
Proof.
  intros k n p. rewrite Validate_eq. fold k n p.
  pose proof (namingPattern_spec k) as Hk. pose proof (namingPattern_spec p) as Hp.
  pose proof (namingPatternStartingWithDigits_spec n) as Hn.
  destruct (MatchString namingPattern k); [|right; eexists; split_and!; [|done|]; naive_solver].
  destruct (MatchString namingPatternStartingWithDigits n);
    [|right; eexists; split_and!; [|done|]; naive_solver].
  destruct (MatchString namingPattern p); [|right; eexists; split_and!; [|done|]; naive_solver].
  left. naive_solver.
Qed.

Lemma accepted_validated isCreate k n p r :
  valid_ident k → valid_name n → valid_ident p → validated (accepted isCreate k n p r).
Proof. intros. split; try done. cbn. by case_decide. Qed.

Lemma Validate_None isCreate r r' :
  Validate isCreate r = (None, r') →
  validated r' ∧
  r' = accepted isCreate (TrimSpace (Kind r)) (TrimSpace (Name r)) (TrimSpace (Project r)) r.
Proof.
  intros H. destruct (Validate_cases isCreate r) as [(Hk & Hn & Hp & H')|(e & _ & H' & _)];
    rewrite H in H'; simplify_eq. split; [by apply accepted_validated|done].
Qed.

Lemma Validate_validated isCreate r :
  validated r → Validate isCreate r =
    (None, if isCreate then set_URN (GenerateURN (Kind r) (Project r) (Name r)) r else r).
Proof.
  intros [Hk Hn Hp Hs]. rewrite Validate_eq.
  rewrite !TrimSpace_valid_name by auto using valid_ident_name.
  rewrite (proj2 (namingPattern_spec _) Hk), (proj2 (namingPattern_spec _) Hp).
  rewrite (proj2 (namingPatternStartingWithDigits_spec _) Hn). cbn.
  unfold accepted. rewrite decide_False by done. by destruct r, isCreate.
Qed.

#[export] Hint Resolve valid_ident_name valid_name_no_colon : go.

Lemma URN_eq kind project name :
  GenerateURN kind project name =
  "orn:entropy:" +:+ kind +:+ ":" +:+ project +:+ ":" +:+ name.
Proof. done. Qed.

(** ** Properties *)

(** Validation accepts exactly the resources whose trimmed kind and project
    are identifiers of at least two bytes that start with a letter and whose
    trimmed name is a non-empty word over letters, digits, '_' and '-'; every
    rejection is an [ErrInvalid], and validating an accepted resource again
    changes nothing. *)
Theorem Validate_correct isCreate r :
  match Validate isCreate r with
  | (None, r') =>
      valid_ident (TrimSpace (Kind r)) ∧ valid_name (TrimSpace (Name r)) ∧
      valid_ident (TrimSpace (Project r)) ∧ validated r' ∧
      Validate isCreate r' = (None, r')
  | (Some e, _) =>
      Code e = Code ErrInvalid ∧
      (¬ valid_ident (TrimSpace (Kind r)) ∨ ¬ valid_name (TrimSpace (Name r)) ∨
       ¬ valid_ident (TrimSpace (Project r)))
  end.
Proof.
  destruct (Validate_cases isCreate r) as [(Hk & Hn & Hp & ->)|(e & He & -> & Hne)]; [|done].
  split_and!; try done; [by apply accepted_validated|].
  rewrite Validate_validated by by apply accepted_validated. by destruct isCreate.
Qed.

(** URNs identify resources: two validated resources with the same URN have
    the same kind, project and name, because the separator cannot occur in a
    validated kind or project. *)
Theorem GenerateURN_inj r1 r2 :
  validated r1 → validated r2 →
  GenerateURN (Kind r1) (Project r1) (Name r1) = GenerateURN (Kind r2) (Project r2) (Name r2) →
  Kind r1 = Kind r2 ∧ Project r1 = Project r2 ∧ Name r1 = Name r2.
Proof.
  intros [Hk1 Hn1 Hp1 _] [Hk2 Hn2 Hp2 _] H. rewrite !URN_eq in H.
  apply sapp_inj_l in H.
  apply sapp_sep_inj in H as [-> H]; [|by auto with go..].
  apply sapp_sep_inj in H as [-> ->]; by auto with go.
Qed.

Definition demo_resource (kind project name : string) : Resource :=
  mkResource "" kind name project None 0 0 "" "" (mkSpec None None) State_zero.

Lemma GenerateURN_inj_witness :
  let r := (Validate true (demo_resource " firehose" "goto" "12a ")).2 in
  validated r ∧ URN r = "orn:entropy:firehose:goto:12a" ∧
  Kind r = Kind r ∧ Project r = Project r ∧ Name r = Name r.
Proof.
  cbv zeta.
  assert (validated (Validate true (demo_resource " firehose" "goto" "12a ")).2) as Hv.
  { apply (Validate_None true (demo_resource " firehose" "goto" "12a ")). vm_compute. reflexivity. }
  split; [exact Hv|]. split; [vm_compute; reflexivity|].
  apply (GenerateURN_inj _ _ Hv Hv). reflexivity.
Defined.
