(* ===== verification/Module.v ===== *)
(** * Module: [core/module]

    Models [core/module/module.go], [action.go], [driver.go] and [service.go]:
    module definitions, the descriptors that say which actions and dependencies
    a kind supports, the [Driver], [Registry] and module [Store] interfaces, and
    the module service that checks a request before it reaches a driver. *)

From S2P Require Import Prelude GoLib Errors Resource.

#[local] Open Scope Z_scope.

Definition CreateAction : string := "create".
Definition UpdateAction : string := "update".
Definition DeleteAction : string := "delete".

Record ActionRequest := mkActionRequest {
  act_Name : string;
  Params : RawMessage;
  act_Labels : gomap string;
  act_UserID : string;
}.

Record ResolvedDependency := mkResolved {
  dep_Kind : string;
  dep_Output : RawMessage;
}.

Record ExpandedResource := mkExpanded {
  exr_Resource : Resource;
  exr_Dependencies : gomap ResolvedDependency;
}.

Record LogChunk := mkLogChunk {
  Data : string;
  chunk_Labels : gomap string;
}.

(** What a log channel delivers until it is closed. *)
Abbreviation LogStream := (list LogChunk) (only parsing).

(** [driver.(Loggable)] succeeds exactly when [Log] is there. *)
Record Driver (W : Type) := mkDriver {
  Plan : ExpandedResource → ActionRequest → io W Resource;
  Sync : ExpandedResource → io W State;
  drv_Output : ExpandedResource → io W RawMessage;
  Log : option (ExpandedResource → gomap string → io W LogStream);
}.

Arguments Plan {W}.
Arguments Sync {W}.
Arguments drv_Output {W}.
Arguments Log {W}.

Record Module := mkModule {
  mod_URN : string;
  mod_Name : string;
  mod_Project : string;
  mod_Configs : RawMessage;
  mod_CreatedAt : Time;
  mod_UpdatedAt : Time;
}.

#[export] Instance Module_eq_dec : EqDecision Module.
Proof. solve_decision. Defined.

(** [github.com/xeipuuv/gojsonschema]: compiling a schema and validating a
    document against it; a result is valid when it lists no error. *)
Class JSONSchema : Type := {
  schema : Type;
  NewSchema : string → go schema;
  schema_Validate : schema → RawMessage → go (list string);
}.

Section descriptor.
Context {JS : JSONSchema}.

Record ActionDesc := mkActionDesc {
  ad_Name : string;
  ad_Description : string;
  ParamSchema : string;
  ad_schema : option schema;
}.

(** The action (with its schema set) or the error. *)
Definition Sanitise (ad : ActionDesc) : go ActionDesc :=
  if decide (ParamSchema ad = "") then Ok ad
  else match NewSchema (ParamSchema ad) with
       | Ok s => Ok (mkActionDesc (ad_Name ad) (ad_Description ad) (ParamSchema ad) (Some s))
       | Err err =>
           Err (EErr (WithCausef
             (WithMsgf ErrInvalid
                ("parameter schema for action '" +:+ ad_Name ad +:+ "' is not valid"))
             (error_string err)))
       | Panic s => Panic s
       end.

Definition validateReq (ad : ActionDesc) (req : ActionRequest) : go () :=
  match ad_schema ad with
  | None => Ok tt
  | Some s =>
      match schema_Validate s (Params req) with
      | Err err => Err (EErr (WithCausef ErrInternal (error_string err)))
      | Ok [] => Ok tt
      | Ok errorStrings => Err (EErr (WithMsgf ErrInvalid (Join errorStrings (String (b 10) ""))))
      | Panic s => Panic s
      end
  end.

Record Descriptor (W : Type) := mkDescriptor {
  desc_Kind : string;
  Actions : list ActionDesc;
  desc_Dependencies : gomap string;
  DriverFactory : RawMessage → go (Driver W);
}.

Definition set_Actions {W} (l : list ActionDesc) (d : Descriptor W) : Descriptor W :=
  mkDescriptor W (desc_Kind W d) l (desc_Dependencies W d) (DriverFactory W d).
End descriptor.

Arguments desc_Kind {_ W}.
Arguments Actions {_ W}.
Arguments desc_Dependencies {_ W}.
Arguments DriverFactory {_ W}.
Arguments mkDescriptor {_ W}.

(** ** Interfaces *)

Record Registry `{!JSONSchema} (W : Type) := mkRegistry {
  GetDriver : Module → io W (Driver W * Descriptor W);
}.

Record ModStore (W : Type) := mkModStore {
  store_GetModule : string → io W Module;
  store_ListModules : string → io W (list Module);
  store_CreateModule : Module → io W ();
  store_UpdateModule : Module → io W ();
  store_DeleteModule : string → io W ();
}.

Arguments GetDriver {_ W}.
Arguments store_GetModule {W}.
Arguments store_ListModules {W}.
Arguments store_CreateModule {W}.
Arguments store_UpdateModule {W}.
Arguments store_DeleteModule {W}.

Definition generateURN (name project : string) : string :=
  "orn:entropy:module:" +:+ project +:+ ":" +:+ name.

(** [sanitise]; [now] is the reading of [time.Now]. *)
Definition sanitise (now : Time) (isCreate : bool) (md : Module) : go Module :=
  if decide (mod_Name md = "") then Err (EErr (WithMsgf ErrInvalid "name must be set"))
  else if decide (mod_Project md = "") then
    Err (EErr (WithMsgf ErrInvalid "project must be set"))
  else
    let md :=
      if isCreate
      then mkModule (generateURN (mod_Name md) (mod_Project md)) (mod_Name md)
             (mod_Project md) (mod_Configs md) now now
      else md in
    Ok (mkModule (TrimSpace (mod_URN md)) (mod_Name md) (mod_Project md)
          (mod_Configs md) (mod_CreatedAt md) (mod_UpdatedAt md)).

Section module.
Context {JS : JSONSchema} {MR : MapRange} {W : Type}.

(** The first missing or mistyped dependency, in the iteration's order. *)
Fixpoint validateDeps_loop (kind : string) (want : list (string * string))
    (deps : gomap ResolvedDependency) : go () :=
  match want with
  | [] => Ok tt
  | (key, wantKind) :: want =>
      match gm deps !! key with
      | None =>
          Err (EErr (WithMsgf ErrInvalid
            ("kind '" +:+ kind +:+ "' needs resource of kind '" +:+ wantKind +:+
             "' at key '" +:+ key +:+ "'")))
      | Some resolvedDep =>
          if decide (wantKind = dep_Kind resolvedDep)
          then validateDeps_loop kind want deps
          else Err (EErr (WithMsgf ErrInvalid
            ("value for '" +:+ key +:+ "' must be of kind '" +:+ wantKind +:+ "', not '" +:+
             dep_Kind resolvedDep +:+ "'")))
      end
  end.

Definition validateDependencies (desc : Descriptor W) (deps : gomap ResolvedDependency) : go () :=
  validateDeps_loop (desc_Kind desc) (range (gm (desc_Dependencies desc))) deps.

Definition findAction (desc : Descriptor W) (name : string) : option ActionDesc :=
  head (filter (λ a, ad_Name a = name) (Actions desc)).

Definition validateActionReq (desc : Descriptor W) (res : ExpandedResource)
    (req : ActionRequest) : go () :=
  match findAction desc (act_Name req) with
  | None =>
      Err (EErr (WithMsgf ErrInvalid
        ("action '" +:+ act_Name req +:+ "' is not valid on kind '" +:+
         Kind (exr_Resource res) +:+ "'")))
  | Some actDesc => validateReq actDesc req
  end.

(** ** The module service *)

Variables (registry : Registry W) (store : ModStore W) (now : W → Time).

Definition discoverModule (kind project : string) : io W Module :=
  let urn := generateURN kind project in
  catch (store_GetModule store urn) (λ err,
    if errors_Is err (EErr ErrNotFound) then
      EErr (WithCausef
        (WithMsgf ErrInvalid
           ("kind '" +:+ kind +:+ "' is not valid in project '" +:+ project +:+ "'"))
        ("failed to find module with urn '" +:+ urn +:+ "'"))
    else err).

Definition driver_error (md : Module) (err : error) : error :=
  if errors_Is err (EErr ErrNotFound) then
    EErr (WithMsgf ErrInvalid ("driver not found for kind '" +:+ mod_Name md +:+ "'"))
  else if errors_Is err (EErr ErrInvalid) then
    EErr (WithCausef (WithMsgf ErrInvalid "failed to init driver with given configs")
      (error_string err))
  else err.

Definition initDriver (md : Module) : io W (Driver W * Descriptor W) :=
  catch (GetDriver registry md) (driver_error md).

Definition PlanAction (res : ExpandedResource) (act : ActionRequest) : io W Resource :=
  md ← discoverModule (Kind (exr_Resource res)) (Project (exr_Resource res));
  dd ← initDriver md;
  _ ← lift (validateDependencies dd.2 (exr_Dependencies res));
  _ ← lift (validateActionReq dd.2 res act);
  Plan dd.1 res act.

Definition SyncState (res : ExpandedResource) : io W State :=
  md ← discoverModule (Kind (exr_Resource res)) (Project (exr_Resource res));
  dd ← initDriver md;
  _ ← lift (validateDependencies dd.2 (exr_Dependencies res));
  Sync dd.1 res.

Definition StreamLogs (res : ExpandedResource) (filter : gomap string) : io W LogStream :=
  md ← discoverModule (Kind (exr_Resource res)) (Project (exr_Resource res));
  dd ← initDriver md;
  match Log dd.1 with
  | None =>
      throw (EErr (WithMsgf ErrUnsupported
        ("log streaming not supported for kind '" +:+ Kind (exr_Resource res) +:+ "'")))
  | Some log => log res filter
  end.

Definition GetOutput (res : ExpandedResource) : io W RawMessage :=
  md ← discoverModule (Kind (exr_Resource res)) (Project (exr_Resource res));
  dd ← initDriver md;
  drv_Output dd.1 res.

Definition GetModule (urn : string) : io W Module := store_GetModule store urn.

Definition ListModules (project : string) : io W (list Module) :=
  store_ListModules store project.

Definition CreateModule (md : Module) : io W Module := λ w,
  (md ← lift (sanitise (now w) true md);
   _ ← catch (GetDriver registry md) (driver_error md);
   _ ← catch (store_CreateModule store md) (λ err,
     if errors_Is err (EErr ErrConflict) then
       EErr (WithCausef
         (WithMsgf ErrConflict "module with given name and project already exists")
         (error_string err))
     else err);
   mret md) w.

Definition UpdateModule (urn : string) (newConfigs : RawMessage) : io W Module := λ w,
  (md ← store_GetModule store urn;
   let md := mkModule (mod_URN md) (mod_Name md) (mod_Project md) newConfigs
                (mod_CreatedAt md) (mod_UpdatedAt md) in
   md ← lift (sanitise (now w) false md);
   _ ← store_UpdateModule store md;
   mret md) w.

Definition DeleteModule (urn : string) : io W () := store_DeleteModule store urn.
End module.

(** ** What the checks decide *)

Section module_facts.
Context {JS : JSONSchema} {MR : MapRange} {W : Type}.
Implicit Types (desc : Descriptor W) (deps : gomap ResolvedDependency).

Definition dependencies_ok desc deps : Prop :=
  ∀ key kind, gm (desc_Dependencies desc) !! key = Some kind →
  ∃ d, gm deps !! key = Some d ∧ dep_Kind d = kind.

Lemma validateDeps_loop_spec kind want deps :
  (validateDeps_loop kind want deps = Ok tt ∧
   ∀ k t, (k, t) ∈ want → ∃ d, gm deps !! k = Some d ∧ dep_Kind d = t) ∨
  (∃ e, validateDeps_loop kind want deps = Err (EErr e) ∧ Code e = Code ErrInvalid ∧
   ∃ k t, (k, t) ∈ want ∧ ∀ d, gm deps !! k = Some d → dep_Kind d ≠ t).
Proof.
  induction want as [|[k t] want IH]; cbn; [left; set_solver|].
  destruct (gm deps !! k) as [d|] eqn:Hd; [case_decide as Ht|].
  - destruct IH as [[-> IH]|(e & -> & He & k' & t' & Hin & Hbad)]; [left|right].
    + split; [done|]. intros k0 t0 [?|?]%elem_of_cons; simplify_eq; eauto.
    + exists e. split_and!; [done..|]. exists k', t'. set_solver.
  - right. eexists. split_and!; [done|done|]. exists k, t. split; [set_solver|naive_solver].
  - right. eexists. split_and!; [done|done|]. exists k, t. split; [set_solver|naive_solver].
Qed.

Lemma validateDependencies_spec desc deps :
  (validateDependencies desc deps = Ok tt ∧ dependencies_ok desc deps) ∨
  (∃ e, validateDependencies desc deps = Err (EErr e) ∧ Code e = Code ErrInvalid ∧
   ¬ dependencies_ok desc deps).
Proof.
  unfold validateDependencies, dependencies_ok.
  destruct (validateDeps_loop_spec (desc_Kind desc) (range (gm (desc_Dependencies desc))) deps)
    as [[-> H]|(e & -> & He & k & t & Hin & Hbad)]; [left|right].
  - split; [done|]. intros k t Hk. apply H. by apply elem_of_range.
  - exists e. split_and!; [done..|]. intros H. apply elem_of_range in Hin.
    destruct (H _ _ Hin) as (d & Hd & Hk). by eapply Hbad.
Qed.

(** The documents an action's schema accepts. *)
Definition params_ok (ad : ActionDesc) (p : RawMessage) : Prop :=
  match ad_schema ad with
  | None => True
  | Some s => schema_Validate s p = Ok []
  end.

Lemma validateReq_Ok ad req : validateReq ad req = Ok tt ↔ params_ok ad (Params req).
Proof.
  unfold validateReq, params_ok. destruct (ad_schema ad) as [s|]; [|done].
  destruct (schema_Validate s (Params req)) as [[|]| |]; naive_solver.
Qed.

Lemma findAction_Some desc name ad :
  findAction desc name = Some ad → ad ∈ Actions desc ∧ ad_Name ad = name.
Proof.
  unfold findAction. intros H.
  assert (ad ∈ filter (λ a, ad_Name a = name) (Actions desc)) as Hin.
  { destruct (filter _ _); [done|]. cbn in H. simplify_eq. set_solver. }
  apply list_elem_of_filter in Hin. naive_solver.
Qed.

Lemma findAction_None desc name :
  findAction desc name = None ↔ ∀ ad, ad ∈ Actions desc → ad_Name ad ≠ name.
Proof.
  unfold findAction. split.
  - intros H ad Hin Hn.
    assert (ad ∈ filter (λ a, ad_Name a = name) (Actions desc)) as Hf
      by by apply list_elem_of_filter.
    destruct (filter _ _); [set_solver|done].
  - intros H. destruct (filter _ _) as [|ad l] eqn:Hf; [done|].
    assert (ad ∈ filter (λ a, ad_Name a = name) (Actions desc)) as Hin
      by (rewrite Hf; set_solver).
    apply list_elem_of_filter in Hin. naive_solver.
Qed.

Definition action_ok desc (act : ActionRequest) : Prop :=
  ∃ ad, findAction desc (act_Name act) = Some ad ∧ params_ok ad (Params act).

Lemma validateActionReq_Ok desc res act :
  validateActionReq desc res act = Ok tt ↔ action_ok desc act.
Proof.
  unfold validateActionReq, action_ok.
  destruct (findAction desc (act_Name act)) as [ad|]; [|naive_solver].
  rewrite validateReq_Ok. naive_solver.
Qed.
End module_facts.

(** ** Properties *)

Section module_props.
Context {JS : JSONSchema} {MR : MapRange} {W : Type}.
Variables (registry : Registry W) (store : ModStore W) (now : W → Time).

(** C36. An action reaches a driver's [Plan] only when the module exists in the
    resource's project, its driver initialises, every dependency the kind
    declares is resolved with the declared kind, and the action is declared
    with parameters its schema accepts; in every other case the driver is not
    called and the world is left where the lookup of the driver left it. *)
Theorem PlanAction_guarded res act w :
  let kind := Kind (exr_Resource res) in
  let project := Project (exr_Resource res) in
  (∃ md drv desc w1 w2,
     discoverModule store kind project w = (Ok md, w1) ∧
     initDriver registry md w1 = (Ok (drv, desc), w2) ∧
     dependencies_ok desc (exr_Dependencies res) ∧ action_ok desc act ∧
     PlanAction registry store res act w = Plan drv res act w2) ∨
  (∃ w2, (PlanAction registry store res act w).2 = w2 ∧
     is_ok (PlanAction registry store res act w).1 = false ∧
     (w2 = (discoverModule store kind project w).2 ∨
      ∃ md w1, discoverModule store kind project w = (Ok md, w1) ∧
               w2 = (initDriver registry md w1).2)).
Proof.
  cbv zeta. unfold PlanAction. rewrite run_bind.
  destruct (discoverModule _ _ _ w) as [[md|e|s] w1] eqn:Hd; [|right; eauto..].
  rewrite run_bind.
  destruct (initDriver registry md w1) as [[[drv desc]|e|s] w2] eqn:Hi;
    [|right; eexists; split_and!; try done; right; exists md, w1; by rewrite Hi..].
  rewrite run_bind, run_lift. cbn [fst snd].
  destruct (validateDependencies_spec desc (exr_Dependencies res))
    as [[-> Hdeps]|(e & -> & _ & _)];
    [|right; eexists; split_and!; try done; right; exists md, w1; by rewrite Hi].
  rewrite run_bind, run_lift. pose proof (validateActionReq_Ok desc res act) as Hact.
  destruct (validateActionReq desc res act) as [[]|e|s];
    [|right; eexists; split_and!; try done; right; exists md, w1; by rewrite Hi..].
  left. exists md, drv, desc, w1, w2. naive_solver.
Qed.

(** A request for a kind that has no module in the project, or whose driver
    is not registered, is a bad request: [PlanAction], [SyncState],
    [GetOutput] and [StreamLogs] never answer it with [ErrNotFound]. *)
Theorem missing_module_is_invalid res act filter w err w1 :
  store_GetModule store
    (generateURN (Kind (exr_Resource res)) (Project (exr_Resource res))) w = (Err err, w1) →
  errors_Is err (EErr ErrNotFound) = true →
  ∃ e, Code e = Code ErrInvalid ∧
    PlanAction registry store res act w = (Err (EErr e), w1) ∧
    SyncState registry store res w = (Err (EErr e), w1) ∧
    GetOutput registry store res w = (Err (EErr e), w1) ∧
    StreamLogs registry store res filter w = (Err (EErr e), w1).
Proof.
  intros Hg He. eexists. split; [|].
  2:{ unfold PlanAction, SyncState, GetOutput, StreamLogs. rewrite !run_bind.
      unfold discoverModule, catch. rewrite Hg, He. split_and!; reflexivity. }
  done.
Qed.
End module_props.

(** A schema engine, a module store and a registry for the witnesses: schemas
    are the texts of the documents they accept, the store is a map. *)
Definition demo_schema : JSONSchema := {|
  schema := string;
  NewSchema s := if decide (s = "bad") then Err (ENew "invalid schema") else Ok s;
  schema_Validate s p := if decide (raw_bytes p = s) then Ok [] else Ok ["(root): no match"];
|}.

Definition demo_modstore : ModStore (gmap string Module) := {|
  store_GetModule urn w :=
    match w !! urn with Some m => (Ok m, w) | None => (Err (EErr ErrNotFound), w) end;
  store_ListModules project w :=
    (Ok (filter (λ m, project = "" ∨ mod_Project m = project) (map_to_list w).*2), w);
  store_CreateModule m w :=
    match w !! mod_URN m with
    | Some _ => (Err (EErr ErrConflict), w)
    | None => (Ok tt, <[mod_URN m := m]> w)
    end;
  store_UpdateModule m w := (Ok tt, <[mod_URN m := m]> w);
  store_DeleteModule urn w := (Ok tt, delete urn w);
|}.

Definition demo_registry (W : Type) : @Registry demo_schema W := {|
  GetDriver _ w := (Err (EErr ErrNotFound), w);
|}.

Lemma missing_module_is_invalid_witness :
  ∃ e, Code e = Code ErrInvalid ∧
    PlanAction (JS := demo_schema) (MR := range_sorted) (demo_registry _) demo_modstore
      (mkExpanded (demo_resource "firehose" "goto" "foo") None)
      (mkActionRequest CreateAction None None "u") ∅ = (Err (EErr e), ∅).
Proof.
  pose proof (missing_module_is_invalid (JS := demo_schema) (MR := range_sorted)
    (demo_registry _) demo_modstore
    (mkExpanded (demo_resource "firehose" "goto" "foo") None)
    (mkActionRequest CreateAction None None "u") None ∅ (EErr ErrNotFound) ∅) as H.
  destruct H as (e & He & Hp & _); [reflexivity|reflexivity|].
  exists e. split; [exact He|exact Hp].
Defined.
