(* ===== verification/Registry.v ===== *)
(** * Registry: [modules/registry.go]

    The in-memory registry of module descriptors: [Register] adds a kind once
    and compiles the parameter schemas of its actions, [GetDriver] builds the
    driver of a module from its configs. *)

From S2P Require Import Prelude GoLib Errors Resource Module.

Section registry.
Context {JS : JSONSchema} {W : Type}.

(** [Registry.modules]; the zero value of the struct holds a nil map. *)
Abbreviation Modules := (gomap (Descriptor W)) (only parsing).

(** The loop over [desc.Actions]: every action replaced by its sanitised
    version, up to the first that fails. *)
Fixpoint sanitise_actions (l : list ActionDesc) : go (list ActionDesc) :=
  match l with
  | [] => Ok []
  | action :: l =>
      action ← Sanitise action;
      l ← sanitise_actions l;
      Ok (action :: l)
  end.

Definition Register (desc : Descriptor W) (mr : Modules) : go () * Modules :=
  let modules := gm mr in
  match modules !! desc_Kind desc with
  | Some _ =>
      (Err (EErr (WithMsgf ErrConflict
         ("module 'module.Descriptor' is already registered for kind '" +:+
          desc_Kind desc +:+ "'"))), Some modules)
  | None =>
      match sanitise_actions (Actions desc) with
      | Ok actions => (Ok tt, Some (<[desc_Kind desc := set_Actions actions desc]> modules))
      | Err err => (Err err, Some modules)
      | Panic s => (Panic s, Some modules)
      end
  end.

Definition registry_GetDriver (mr : Modules) (md : Module) : go (Driver W * Descriptor W) :=
  match gm mr !! mod_Name md with
  | None => Err (EErr ErrNotFound)
  | Some desc =>
      match DriverFactory desc (mod_Configs md) with
      | Err err =>
          Err (EErr (WithCausef (WithMsgf ErrInvalid "failed to initialise module")
            (error_string err)))
      | Ok driver => Ok (driver, desc)
      | Panic s => Panic s
      end
  end.

(** The [Registry] interface over a fixed set of registered kinds. *)
Definition registry_of (mr : Modules) : Registry W := {|
  GetDriver md w := (registry_GetDriver mr md, w);
|}.
End registry.

Section registry_props.
Context {JS : JSONSchema} {W : Type}.
(** Compiling a schema reports an error, it does not panic. *)
Hypothesis NewSchema_total : ∀ s p, NewSchema s ≠ Panic p.
Implicit Types (mr : gomap (Descriptor W)) (desc : Descriptor W).

(** An action whose parameters are described by a schema has it compiled. *)
Definition compiled (ad : ActionDesc) : Prop :=
  ParamSchema ad ≠ "" → ∃ s, NewSchema (ParamSchema ad) = Ok s ∧ ad_schema ad = Some s.

Definition registry_wf mr : Prop :=
  ∀ kind desc, gm mr !! kind = Some desc →
  desc_Kind desc = kind ∧ Forall compiled (Actions desc).

Lemma Sanitise_cases (ad : ActionDesc) :
  (∃ ad', Sanitise ad = Ok ad' ∧ compiled ad' ∧ ad_Name ad' = ad_Name ad ∧
          ParamSchema ad' = ParamSchema ad) ∨
  (∃ err, Sanitise ad = Err (EErr err) ∧ Code err = Code ErrInvalid ∧ ParamSchema ad ≠ "").
Proof using NewSchema_total.
  unfold Sanitise, compiled. case_decide as Hp.
  - left. exists ad. naive_solver.
  - destruct (NewSchema (ParamSchema ad)) as [s|err|s] eqn:Hs.
    + left. eexists. split_and!; [done| |done..]. cbn. eauto.
    + right. eexists. split_and!; done.
    + by destruct (NewSchema_total (ParamSchema ad) s).
Qed.

Lemma sanitise_actions_cases l :
  (∃ l', sanitise_actions l = Ok l' ∧ Forall compiled l' ∧
         (ad_Name <$> l') = (ad_Name <$> l)) ∨
  (∃ err, sanitise_actions l = Err (EErr err) ∧ Code err = Code ErrInvalid).
Proof using NewSchema_total.
  induction l as [|ad l IH]; cbn.
  - left. exists []. split_and!; [done|constructor|done].
  - destruct (Sanitise_cases ad) as [(ad' & -> & Hc & Hn & _)|(err & -> & He & _)];
      [|right; eauto].
    destruct IH as [(l' & -> & Hl & Hns)|(err & -> & He)]; [left|right; eauto].
    exists (ad' :: l'). split_and!; [done|by constructor|cbn; by f_equal].
Qed.

(** Registration keeps the registry well formed - every kind is stored under
    its own name with every declared schema compiled, so that no parameter
    check is skipped for want of a schema - and is first-come: a kind that is
    taken is a conflict that leaves the registry as it was, a descriptor with
    a bad schema is rejected whole, and otherwise exactly the new kind is
    added, with the same actions. *)
Theorem Register_correct mr desc :
  registry_wf mr →
  let '(out, mr') := Register desc mr in
  registry_wf mr' ∧
  match gm mr !! desc_Kind desc with
  | Some _ => gm mr' = gm mr ∧ ∃ e, out = Err (EErr e) ∧ Code e = Code ErrConflict
  | None =>
      (gm mr' = gm mr ∧ ∃ e, out = Err (EErr e) ∧ Code e = Code ErrInvalid) ∨
      (out = Ok tt ∧ ∃ actions,
         gm mr' = <[desc_Kind desc := set_Actions actions desc]> (gm mr) ∧
         (ad_Name <$> actions) = (ad_Name <$> Actions desc))
  end.
Proof using NewSchema_total.
  intros Hwf. unfold Register.
  destruct (gm mr !! desc_Kind desc) as [old|] eqn:Hk; [cbn; naive_solver|].
  destruct (sanitise_actions_cases (Actions desc)) as [(l & -> & Hc & Hn)|(e & -> & He)];
    cbn; [|naive_solver].
  split; [|right; eauto].
  intros kind d. cbn. rewrite lookup_insert. case_decide; [|by apply Hwf].
  intros [= <-]. done.
Qed.

(** What was registered is what a driver lookup finds: after a successful
    registration [GetDriver] runs the new kind's factory on the module's
    configs, turns its failure into a bad request, and answers as before for
    every other kind. *)
Theorem Register_GetDriver mr desc md mr' :
  Register desc mr = (Ok tt, mr') →
  (mod_Name md = desc_Kind desc →
     match DriverFactory desc (mod_Configs md) with
     | Ok drv => ∃ d, registry_GetDriver mr' md = Ok (drv, d) ∧ desc_Kind d = desc_Kind desc
     | Err _ => ∃ e, registry_GetDriver mr' md = Err (EErr e) ∧ Code e = Code ErrInvalid
     | Panic _ => is_panic (registry_GetDriver mr' md) = true
     end) ∧
  (mod_Name md ≠ desc_Kind desc → registry_GetDriver mr' md = registry_GetDriver mr md).
Proof.
  unfold Register, registry_GetDriver. intros H.
  destruct (gm mr !! desc_Kind desc) eqn:Hk; [done|].
  destruct (sanitise_actions (Actions desc)) as [l|err|s]; simplify_eq/=. split.
  - intros ->. rewrite lookup_insert_eq.
    destruct (DriverFactory desc (mod_Configs md)) eqn:Hf; cbn; rewrite Hf; eauto.
  - intros Hne. by rewrite lookup_insert_ne by congruence.
Qed.
End registry_props.

Definition demo_desc (schema : string) : @Descriptor demo_schema () :=
  @mkDescriptor demo_schema () "kafka"
    [@mkActionDesc demo_schema CreateAction "" schema None] None
    (λ conf, match conf with
             | None => Err (ENew "no configs")
             | Some _ => Ok (mkDriver () (λ exr _ w, (Ok (exr_Resource exr), w))
                               (λ _ w, (Ok State_zero, w)) (λ _ w, (Ok None, w)) None)
             end).

Lemma demo_schema_total s p : NewSchema (JSONSchema := demo_schema) s ≠ Panic p.
Proof. cbn. by case_decide. Qed.

Lemma Register_correct_witness :
  registry_wf (JS := demo_schema) (Register (JS := demo_schema) (demo_desc "s") None).2.
Proof.
  pose proof (Register_correct (JS := demo_schema) demo_schema_total None (demo_desc "s")) as H.
  apply H. intros kind desc. cbn. rewrite lookup_empty. discriminate.
Defined.

Lemma Register_GetDriver_witness :
  registry_GetDriver (JS := demo_schema) (Register (JS := demo_schema) (demo_desc "s") None).2
    (mkModule "u" "other" "p" None 0 0) = Err (EErr ErrNotFound).
Proof.
  pose proof (Register_GetDriver (JS := demo_schema) None (demo_desc "s")
    (mkModule "u" "other" "p" None 0 0)
    (Register (JS := demo_schema) (demo_desc "s") None).2) as H.
  destruct H as [_ H]; [vm_compute; reflexivity|].
  rewrite H by (vm_compute; discriminate). reflexivity.
Defined.
