(* ===== verification/Names.v ===== *)
(** * Names: [modules/utils.go]

    Merging of string maps and the names given to Kubernetes objects: [SafeName]
    (bounded length, fixed suffix), [slug] and [BuildResourceName]. *)

From S2P Require Import Prelude GoLib Errors.
From Stdlib Require Import Ascii.

#[local] Open Scope Z_scope.

Definition MAX_NAME_LIMIT : Z := 63.
Definition RESOURCE_NAME_HASH_LEN : nat := 8.

Definition is_hex (c : ascii) : bool := is_digit c || in_range "a" "f" c.

(** [crypto/sha256] and [crypto/md5] with [encoding/hex]: digests of fixed
    length written as lower-case hexadecimal digits. *)
Class Digests : Type := {
  sha256_hex : string → string;
  md5_hex : string → string;
  sha256_length : ∀ s, String.length (sha256_hex s) = 64%nat;
  md5_length : ∀ s, String.length (md5_hex s) = 32%nat;
  md5_digits : ∀ s, Forall (λ c, is_hex c = true) (chars (md5_hex s));
}.

Definition CloneAndMergeMaps `{MR : MapRange} (m1 m2 : gomap string) : gomap string :=
  Some (copy_into (range (gm m2)) (copy_into (range (gm m1)) ∅)).

(** [s[0:n]], which panics for a negative or too large bound. *)
Definition slice_to (s : string) (n : Z) : go string :=
  if (0 <=? n) && (n <=? Z.of_nat (String.length s))
  then Ok (str (take (Z.to_nat n) (chars s)))
  else Panic "slice bounds out of range".

(** [regexp.MustCompile("c+").ReplaceAllString(s, "-")]: every maximal run of
    [c] becomes one hyphen. *)
Fixpoint collapse (c : ascii) (in_run : bool) (l : list ascii) : list ascii :=
  match l with
  | [] => []
  | x :: l =>
      if decide (x = c)
      then (if in_run then collapse c true l else "-"%char :: collapse c true l)
      else x :: collapse c false l
  end.

(** [\w], space and hyphen; every other byte belongs to a deleted run. *)
Definition slug_keep (c : ascii) : bool :=
  is_alpha c || is_digit c || bool_decide (c = "_"%char) || bool_decide (c = " "%char)
  || bool_decide (c = "-"%char).

Definition slug (input : string) : string :=
  ToLower (str (filter (λ c, slug_keep c = true)
    (collapse " " false (collapse "_" false (chars input))))).

Section names.
Context {DG : Digests}.

Definition SafeName (name suffix : string) (maxLen : Z) : go string :=
  let name := TrimSuffix name suffix in
  if Z.of_nat (String.length name) <=? maxLen - Z.of_nat (String.length suffix)
  then Ok (name +:+ suffix)
  else
    let hash := str (take 6 (chars (sha256_hex name))) in
    let suffix := "-" +:+ hash +:+ suffix in
    let truncLen := maxLen - Z.of_nat (String.length suffix) in
    truncated ← slice_to name truncLen;
    Ok (Trim truncated "-" +:+ suffix).

Definition BuildResourceName (kind name projectID : string) (limit : Z) : go string :=
  let limit := if limit =? 0 then MAX_NAME_LIMIT else limit in
  let sluggedName := slug name in
  let initialName := slug (Join [projectID; name; kind] "-") in
  let charSizeToRemove := limit - Z.of_nat (String.length initialName) in
  let hashStr := str (take RESOURCE_NAME_HASH_LEN (chars (md5_hex sluggedName))) in
  qualifiedName ←
    (if 0 <=? charSizeToRemove then Ok sluggedName
     else
       n ← slice_to sluggedName
             (Z.of_nat (String.length sluggedName)
              + (charSizeToRemove + - (Z.of_nat RESOURCE_NAME_HASH_LEN + 1)));
       Ok (n +:+ "-" +:+ hashStr));
  Ok (slug (Join [projectID; qualifiedName; kind] "-")).
End names.

(** ** Slugs *)

Definition slug_char (c : ascii) : bool :=
  is_lower c || is_digit c || bool_decide (c = "-"%char).

Definition slug_map (l : list ascii) : list ascii :=
  lower_char <$> filter (λ c, slug_keep c = true) (collapse " " false (collapse "_" false l)).

Lemma slug_eq s : slug s = str (slug_map (chars s)).
Proof. unfold slug, ToLower, slug_map. by rewrite chars_str. Qed.

Lemma collapse_sep c k l b :
  c ≠ "-"%char → collapse c b (k ++ "-"%char :: l) = collapse c b k ++ "-"%char :: collapse c false l.
Proof.
  intros Hc. revert b. induction k as [|x k IH]; intros b; cbn.
  - by rewrite decide_False by done.
  - case_decide; [destruct b|]; cbn; by rewrite IH.
Qed.

Lemma slug_map_sep k l : slug_map (k ++ "-"%char :: l) = slug_map k ++ "-"%char :: slug_map l.
Proof.
  unfold slug_map. rewrite !collapse_sep by done. rewrite filter_app, filter_cons_True by done.
  by rewrite fmap_app.
Qed.

Lemma slug_join s t : slug (s +:+ "-" +:+ t) = slug s +:+ "-" +:+ slug t.
Proof.
  rewrite !slug_eq, !chars_app. change (chars "-" ++ chars t) with ("-"%char :: chars t).
  by rewrite slug_map_sep, str_app.
Qed.

Lemma slug_join3 s t u : slug (Join [s; t; u] "-") = slug s +:+ "-" +:+ slug t +:+ "-" +:+ slug u.
Proof. change (Join [s; t; u] "-") with (s +:+ "-" +:+ t +:+ "-" +:+ u). by rewrite !slug_join. Qed.

Lemma collapse_In c b l x : x ∈ collapse c b l → x = "-"%char ∨ (x ∈ l ∧ x ≠ c).
Proof.
  revert b. induction l as [|y l IH]; intros b; cbn; [set_solver|].
  case_decide; [destruct b|]; rewrite ?elem_of_cons; intros H'; naive_solver.
Qed.

Lemma collapse_id c b l : c ∉ l → collapse c b l = l.
Proof.
  revert b. induction l as [|y l IH]; intros b Hc; cbn; [done|].
  rewrite decide_False by set_solver. f_equal. apply IH. set_solver.
Qed.

(** Finite facts about the 256 bytes. *)
Definition bytes256 : list ascii := b <$> seq 0 256.

Lemma bytes256_all c : c ∈ bytes256.
Proof.
  unfold bytes256. apply list_elem_of_fmap. exists (Ascii.nat_of_ascii c). split.
  - unfold b. by rewrite Ascii.ascii_nat_embedding.
  - apply elem_of_seq. pose proof (Ascii.nat_ascii_bounded c). lia.
Qed.

Lemma bytes_forall (P : ascii → bool) : forallb P bytes256 = true → ∀ c, P c = true.
Proof. intros H c. apply forallb_forall with bytes256; [done|]. apply list_elem_of_In, bytes256_all. Qed.

Lemma lower_slug_char c :
  (negb (slug_keep c) || bool_decide (c = "_"%char) || bool_decide (c = " "%char)
   || slug_char (lower_char c)) = true.
Proof. revert c. apply bytes_forall. vm_compute. reflexivity. Qed.

Lemma slug_char_fixed c :
  (negb (slug_char c)
   || slug_keep c && bool_decide (lower_char c = c)
      && negb (bool_decide (c = "_"%char)) && negb (bool_decide (c = " "%char))) = true.
Proof. revert c. apply bytes_forall. vm_compute. reflexivity. Qed.

Lemma hex_slug_char c : (negb (is_hex c) || slug_char c) = true.
Proof. revert c. apply bytes_forall. vm_compute. reflexivity. Qed.

Definition slugged (s : string) : Prop := Forall (λ c, slug_char c = true) (chars s).

Lemma slug_slugged s : slugged (slug s).
Proof.
  unfold slugged. rewrite slug_eq, chars_str. apply Forall_fmap, Forall_forall.
  intros c [Hk Hc]%list_elem_of_filter. cbn.
  assert (c ≠ "_"%char ∧ c ≠ " "%char) as [H1 H2].
  { apply collapse_In in Hc as [->|[Hc ?]]; [done|]. split; [|done].
    apply collapse_In in Hc as [->|[_ ?]]; done. }
  pose proof (lower_slug_char c) as H. rewrite Hk in H.
  by rewrite !bool_decide_false in H by done.
Qed.

Lemma slug_id s : slugged s → slug s = s.
Proof.
  intros Hs. rewrite slug_eq. rewrite <- (str_chars s) at 2. f_equal. unfold slug_map, slugged in *.
  assert (∀ c, c ∈ chars s → slug_keep c = true ∧ lower_char c = c ∧ c ≠ "_"%char ∧ c ≠ " "%char)
    as Hc.
  { intros c Hin. rewrite Forall_forall in Hs. pose proof (slug_char_fixed c) as H.
    rewrite (Hs c Hin) in H. cbn [negb orb] in H. rewrite !andb_true_iff, !negb_true_iff in H.
    rewrite bool_decide_eq_true, !bool_decide_eq_false in H. naive_solver. }
  rewrite !(collapse_id _ _ (chars s)) by (intros Hin; destruct (Hc _ Hin) as (? & ? & ? & ?); done).
  clear Hs. induction (chars s) as [|c l IH]; [done|].
  destruct (Hc c) as (Hk & Hl & _); [set_solver|].
  rewrite filter_cons_True by done. cbn. rewrite Hl. f_equal. apply IH. set_solver.
Qed.

Lemma slugged_app s t : slugged (s +:+ t) ↔ slugged s ∧ slugged t.
Proof. unfold slugged. by rewrite chars_app, Forall_app. Qed.

Lemma slugged_take s n : slugged s → slugged (str (take n (chars s))).
Proof. unfold slugged. rewrite chars_str. apply Forall_take. Qed.

(** ** Properties *)

Section names_props.
Context {DG : Digests}.

Lemma slice_to_cases s n :
  (slice_to s n = Ok (str (take (Z.to_nat n) (chars s))) ∧
   0 ≤ n ≤ Z.of_nat (String.length s)) ∨
  (is_panic (slice_to s n) = true ∧ (n < 0 ∨ Z.of_nat (String.length s) < n)).
Proof.
  unfold slice_to. destruct (Z.leb_spec 0 n), (Z.leb_spec n (Z.of_nat (String.length s)));
    cbn; (left; split; [done|lia]) || (right; split; [done|lia]).
Qed.

Lemma SafeName_short t suffix maxLen :
  Z.of_nat (String.length t) ≤ maxLen - Z.of_nat (String.length suffix) →
  SafeName (t +:+ suffix) suffix maxLen = Ok (t +:+ suffix).
Proof. intros H. unfold SafeName. rewrite TrimSuffix_app. by rewrite (proj2 (Z.leb_le _ _)). Qed.

Lemma Trim_length s c : (String.length (Trim s c) ≤ String.length s)%nat.
Proof.
  unfold Trim. rewrite strlen_str. etrans; [apply length_trim_both|]. by rewrite length_chars.
Qed.

Lemma length_hash6 s : String.length (str (take 6 (chars (sha256_hex s)))) = 6%nat.
Proof. rewrite strlen_str, length_take, length_chars, sha256_length. done. Qed.

Lemma SafeName_cases name suffix maxLen :
  match SafeName name suffix maxLen with
  | Ok s => Z.of_nat (String.length s) ≤ maxLen ∧ HasSuffix s suffix = true ∧
            SafeName s suffix maxLen = Ok s
  | Err _ => False
  | Panic _ => maxLen < Z.of_nat (String.length suffix) + 7
  end.
Proof.
  assert (∀ t, Z.of_nat (String.length t) ≤ maxLen - Z.of_nat (String.length suffix) →
    Z.of_nat (String.length (t +:+ suffix)) ≤ maxLen ∧ HasSuffix (t +:+ suffix) suffix = true ∧
    SafeName (t +:+ suffix) suffix maxLen = Ok (t +:+ suffix)) as Hshort.
  { intros t Ht. split_and!; [rewrite strlen_app; lia|apply HasSuffix_app|].
    by apply SafeName_short. }
  unfold SafeName at 1. set (nm := TrimSuffix name suffix).
  destruct (Z.leb_spec (Z.of_nat (String.length nm))
    (maxLen - Z.of_nat (String.length suffix))) as [Hle|Hgt]; [by apply Hshort|].
  set (h := str (take 6 (chars (sha256_hex nm)))).
  assert (String.length ("-" +:+ h +:+ suffix) = 7 + String.length suffix)%nat as Hlen.
  { rewrite !strlen_app. unfold h. rewrite length_hash6. cbn. lia. }
  rewrite Hlen.
  destruct (slice_to_cases nm (maxLen - Z.of_nat (7 + String.length suffix)))
    as [[-> Hb]|[Hp Hb]].
  - cbn [mbind result_bind].
    set (t := Trim (str (take (Z.to_nat (maxLen - Z.of_nat (7 + String.length suffix)))
                          (chars nm))) "-").
    rewrite <- !sapp_assoc, (sapp_assoc t "-" h), sapp_assoc. rewrite <- sapp_assoc.
    apply Hshort. rewrite !strlen_app. unfold h. rewrite length_hash6.
    assert (String.length t ≤ Z.to_nat (maxLen - Z.of_nat (7 + String.length suffix)))%nat.
    { etrans; [apply Trim_length|]. rewrite strlen_str, length_take. lia. }
    cbn. lia.
  - destruct (slice_to nm _); [done..|]. cbn. lia.
Qed.

(** A safe name ends in its suffix, is never longer than the limit, and is
    a fixed point (a name that was made safe is left alone); the only failure is
    the panic for a limit with no room for the hash and the suffix. *)
Theorem SafeName_correct name suffix maxLen :
  match SafeName name suffix maxLen with
  | Ok s => Z.of_nat (String.length s) ≤ maxLen ∧ HasSuffix s suffix = true ∧
            SafeName s suffix maxLen = Ok s
  | Err _ => False
  | Panic _ => maxLen < Z.of_nat (String.length suffix) + 7
  end.
Proof. exact (SafeName_cases name suffix maxLen). Qed.

Lemma slugged_hash s :
  slugged (str (take RESOURCE_NAME_HASH_LEN (chars (md5_hex s)))) ∧
  String.length (str (take RESOURCE_NAME_HASH_LEN (chars (md5_hex s)))) = 8%nat.
Proof.
  split.
  - apply slugged_take. eapply Forall_impl; [apply md5_digits|]. intros c Hc.
    pose proof (hex_slug_char c) as H. by rewrite Hc in H.
  - rewrite strlen_str, length_take, length_chars, md5_length. done.
Qed.

Lemma BuildResourceName_cases kind name projectID limit :
  let lim := if limit =? 0 then MAX_NAME_LIMIT else limit in
  let initial := slug (Join [projectID; name; kind] "-") in
  let fixed := Z.of_nat (String.length (slug projectID) + String.length (slug kind) + 11) in
  match BuildResourceName kind name projectID limit with
  | Ok s => slugged s ∧
            (if Z.of_nat (String.length initial) <=? lim then s = initial
             else Z.of_nat (String.length s) = lim ∧ fixed ≤ lim)
  | Err _ => False
  | Panic _ => lim < Z.of_nat (String.length initial) ∧ lim < fixed
  end.
Proof.
  cbv zeta. unfold BuildResourceName.
  set (lim := if limit =? 0 then MAX_NAME_LIMIT else limit).
  rewrite slug_join3. set (init := slug projectID +:+ "-" +:+ slug name +:+ "-" +:+ slug kind).
  assert (String.length init = String.length (slug projectID) + String.length (slug name)
          + String.length (slug kind) + 2)%nat as Hinit.
  { unfold init. rewrite !strlen_app. cbn. lia. }
  destruct (Z.leb_spec 0 (lim - Z.of_nat (String.length init))) as [Hfit|Hfit].
  - cbn [mbind result_bind]. split; [apply slug_slugged|].
    rewrite (proj2 (Z.leb_le _ _)) by lia.
    rewrite slug_join3, (slug_id (slug name)) by apply slug_slugged. done.
  - destruct (slice_to_cases (slug name)
      (Z.of_nat (String.length (slug name))
       + (lim - Z.of_nat (String.length init) + - (Z.of_nat RESOURCE_NAME_HASH_LEN + 1))))
      as [[-> Hb]|[Hp Hb]].
    + cbn [mbind result_bind]. split; [apply slug_slugged|].
      rewrite (proj2 (Z.leb_gt _ _)) by lia. rewrite slug_join3.
      destruct (slugged_hash (slug name)) as [Hh Hh8].
      rewrite (slug_id (str (take _ (chars (slug name))) +:+ _)).
      2:{ rewrite !slugged_app. split_and!; [apply slugged_take, slug_slugged| |done].
          by repeat constructor. }
      rewrite !strlen_app, strlen_str, length_take, length_chars.
      change (String.length "-") with 1%nat. change (Z.of_nat RESOURCE_NAME_HASH_LEN) with 8 in *.
      lia.
    + change (Z.of_nat RESOURCE_NAME_HASH_LEN) with 8 in *.
      destruct (slice_to (slug name) _); [done..|]. cbn [mbind result_bind]. lia.
Qed.

Lemma BuildResourceName_len kind name projectID limit s :
  0 < limit → BuildResourceName kind name projectID limit = Ok s →
  s ≠ "" ∧ Z.of_nat (String.length s) ≤ limit.
Proof.
  intros Hl H. pose proof (BuildResourceName_cases kind name projectID limit) as Hc. cbv zeta in Hc.
  rewrite H in Hc. destruct Hc as [_ Hc]. rewrite (proj2 (Z.eqb_neq limit 0)) in Hc by lia.
  destruct (Z.leb_spec (Z.of_nat (String.length (slug (Join [projectID; name; kind] "-")))) limit).
  - subst s. split; [|done]. rewrite slug_join3. intros E%(f_equal String.length).
    rewrite !strlen_app in E. cbn in E. lia.
  - destruct Hc as [Hc _]. split; [|lia]. intros ->. cbn in Hc. lia.
Qed.

(** C38. A resource name consists of lower-case letters, digits and hyphens; it
    is the slug of "project-name-kind" when that fits the limit, and otherwise
    exactly as long as the limit.  It panics (a negative slice bound) exactly
    when the slug does not fit and project, kind and hash alone exceed the
    limit. *)
Theorem BuildResourceName_correct kind name projectID limit :
  let lim := if limit =? 0 then MAX_NAME_LIMIT else limit in
  let initial := slug (Join [projectID; name; kind] "-") in
  let fixed := Z.of_nat (String.length (slug projectID) + String.length (slug kind) + 11) in
  match BuildResourceName kind name projectID limit with
  | Ok s => slugged s ∧
            (if Z.of_nat (String.length initial) <=? lim then s = initial
             else Z.of_nat (String.length s) = lim ∧ fixed ≤ lim)
  | Err _ => False
  | Panic _ => lim < Z.of_nat (String.length initial) ∧ lim < fixed
  end.
Proof. exact (BuildResourceName_cases kind name projectID limit). Qed.
End names_props.

(** Merging maps never yields nil, and a key of the second map wins. *)
Theorem CloneAndMergeMaps_spec `{MR : MapRange} m1 m2 :
  CloneAndMergeMaps m1 m2 = Some (gm m2 ∪ gm m1).
Proof. unfold CloneAndMergeMaps. by rewrite !copy_range_spec, (right_id_L ∅ (∪)). Qed.
