(* ===== verification/StoreSpec.v ===== *)
(** * StoreSpec: what the resource store promises to the service

    The contract of the [Store] interface of [core/resource/resource.go] in
    terms of an abstract view, a finite map from URNs to resources.  The service
    is proved against this class; the Postgres store implements it. *)

From S2P Require Import Prelude GoLib Errors Resource.
From Stdlib Require Import Ascii.

#[local] Open Scope Z_scope.

(** ** Resources up to nil

    The database does not distinguish a nil slice or map from an empty one, so
    what is read back is compared with what was written by this equivalence. *)

Definition norm_State (s : State) : State :=
  mkState (Status s) (Some (raw_bytes (Output s))) (Some (raw_bytes (ModuleData s)))
    (NextSyncAt s) (st_SyncResult s).

Definition norm (r : Resource) : Resource :=
  mkResource (URN r) (Kind r) (Name r) (Project r) (Some (gm (Labels r))) (CreatedAt r)
    (UpdatedAt r) (UpdatedBy r) (CreatedBy r)
    (mkSpec (Some (raw_bytes (Configs (res_Spec r)))) (Some (gm (Dependencies (res_Spec r)))))
    (norm_State (res_State r)).

#[export] Instance Resource_equiv : Equiv Resource := λ r1 r2, norm r1 = norm r2.

#[export] Instance Resource_equivalence : Equivalence (≡@{Resource}).
Proof.
  unfold equiv, Resource_equiv. split; [by intros ?|by intros ???|].
  intros ??? H1 H2. by rewrite H1.
Qed.

(** Two versions of a resource that differ at most in the refreshed output and
    the update time. *)
Definition forget_output (r : Resource) : Resource :=
  set_UpdatedAt 0 (set_State (set_Output None (res_State r)) r).

Definition refreshed (r1 r2 : Resource) : Prop := forget_output r1 ≡ forget_output r2.

#[export] Instance refreshed_equivalence : Equivalence refreshed.
Proof.
  unfold refreshed. split; [by intros ?|by intros ???|].
  intros r1 r2 r3 H1 H2. by transitivity (forget_output r2).
Qed.

#[export] Instance forget_output_proper : Proper ((≡) ==> (≡)) forget_output.
Proof.
  intros [] [] H. unfold equiv, Resource_equiv, norm, norm_State in *.
  cbn in *. unfold raw_bytes, gm in *. injection H. intros. congruence.
Qed.

#[export] Instance refreshed_proper : Proper ((≡) ==> (≡) ==> iff) refreshed.
Proof.
  intros r1 r2 H1%forget_output_proper r3 r4 H2%forget_output_proper. unfold refreshed.
  by rewrite H1, H2.
Qed.

(** The fields of a resource that a refresh keeps. *)
Lemma refreshed_fields r1 r2 :
  refreshed r1 r2 →
  URN r1 = URN r2 ∧ Kind r1 = Kind r2 ∧ Name r1 = Name r2 ∧ Project r1 = Project r2 ∧
  gm (Labels r1) = gm (Labels r2) ∧ CreatedAt r1 = CreatedAt r2 ∧
  CreatedBy r1 = CreatedBy r2 ∧ UpdatedBy r1 = UpdatedBy r2 ∧
  raw_bytes (Configs (res_Spec r1)) = raw_bytes (Configs (res_Spec r2)) ∧
  gm (Dependencies (res_Spec r1)) = gm (Dependencies (res_Spec r2)) ∧
  Status (res_State r1) = Status (res_State r2) ∧
  NextSyncAt (res_State r1) = NextSyncAt (res_State r2) ∧
  st_SyncResult (res_State r1) = st_SyncResult (res_State r2).
Proof.
  unfold refreshed, equiv, Resource_equiv, norm. cbn. unfold raw_bytes, gm.
  intros H. injection H. intros. split_and!; congruence.
Qed.

(** Two views with the same resources up to refreshed outputs. *)
Definition refreshes (m1 m2 : gmap string Resource) : Prop :=
  ∀ u, match m1 !! u, m2 !! u with
       | Some r1, Some r2 => refreshed r1 r2
       | None, None => True
       | _, _ => False
       end.

#[export] Instance refreshes_preorder : PreOrder refreshes.
Proof.
  split.
  - intros m u. by destruct (m !! u).
  - intros m1 m2 m3 H12 H23 u. specialize (H12 u). specialize (H23 u).
    destruct (m1 !! u), (m2 !! u), (m3 !! u); try done. by etrans.
Qed.

Lemma refreshes_lookup m1 m2 u r1 :
  refreshes m1 m2 → m1 !! u = Some r1 → ∃ r2, m2 !! u = Some r2 ∧ refreshed r1 r2.
Proof. intros H H1. specialize (H u). rewrite H1 in H. destruct (m2 !! u); naive_solver. Qed.

Lemma refreshes_lookup_None m1 m2 u : refreshes m1 m2 → m1 !! u = None ↔ m2 !! u = None.
Proof. intros H. specialize (H u). destruct (m1 !! u), (m2 !! u); naive_solver. Qed.

Lemma refreshes_insert m u r1 r2 :
  m !! u = Some r1 → refreshed r1 r2 → refreshes m (<[u:=r2]> m).
Proof.
  intros Hm Hr v. rewrite lookup_insert. case_decide as Hv; subst.
  - by rewrite Hm.
  - by destruct (m !! v).
Qed.

(** ** The contract *)

(** What a database row can hold exactly: labels are stored as "key=value" tags
    that are cut at the first '=', the sync result as JSON (valid UTF-8, 64-bit
    integers; of an error that is not UTF-8 the retries still count), times as
    whole microseconds. *)
Definition clean_labels (l : gomap string) : Prop :=
  ∀ k v, gm l !! k = Some v → "="%char ∉ chars k.

Definition clean_sync (r : SyncResult) : bool :=
  valid_utf8 (LastError r) && (- 2 ^ 63 <=? Retries r) && (Retries r <? 2 ^ 63).

Definition sync_kept (r r' : SyncResult) : Prop :=
  (clean_sync r = true → r' = r) ∧ (- 2 ^ 63 ≤ Retries r < 2 ^ 63 → Retries r' = Retries r).

Definition rounds_opt (t t' : option Time) : Prop :=
  match t, t' with
  | None, None => True
  | Some t, Some t' => rounds t t'
  | _, _ => False
  end.

Record clean (x : Resource) : Prop := {
  clean_Labels : clean_labels (Labels x);
  clean_SyncResult : clean_sync (st_SyncResult (res_State x)) = true;
  clean_CreatedAt : whole_us (CreatedAt x) = true;
  clean_UpdatedAt : whole_us (UpdatedAt x) = true;
  clean_NextSyncAt : ∀ t, NextSyncAt (res_State x) = Some t → whole_us t = true;
}.

(** For stores in witnesses: the text that is stored of an error. *)
Definition utf8_or_empty (s : string) : string := if valid_utf8 s then s else "".

Lemma utf8_or_empty_valid s : valid_utf8 (utf8_or_empty s) = true.
Proof. unfold utf8_or_empty. by destruct (valid_utf8 s) eqn:H. Qed.

(** [x'] stores [x]: everything up to nil, except what a row cannot hold. *)
Definition stored (x x' : Resource) : Prop :=
  ∃ ls sr ca ua ns,
    (clean_labels (Labels x) → gm ls = gm (Labels x)) ∧
    sync_kept (st_SyncResult (res_State x)) sr ∧
    rounds (CreatedAt x) ca ∧ rounds (UpdatedAt x) ua ∧
    rounds_opt (NextSyncAt (res_State x)) ns ∧
    x' ≡ set_stamps ca ua (CreatedBy x) (UpdatedBy x)
           (set_State (set_NextSyncAt ns (set_SyncResult sr (res_State x))) (set_Labels ls x)).

(** An update keeps the identity and the creation stamps of the old version and
    sets the update time to the database's. *)
Definition updated (old x x' : Resource) : Prop :=
  ∃ t, whole_us t = true ∧ stored
    (set_stamps (CreatedAt old) t (CreatedBy old) (UpdatedBy x)
       (set_identity (Kind old) (Name old) (Project old) x)) x'.

Class StoreSpec {W : Type} (st : Store W) : Type := {
  view : W → gmap string Resource;
  view_URN : ∀ w u x, view w !! u = Some x → URN x = u;
  view_clean : ∀ w u x, view w !! u = Some x → clean x;
  GetByURN_spec : ∀ u w,
    let '(out, w') := GetByURN st u w in
    view w' = view w ∧
    match out with
    | Ok x => view w !! u = Some x
    | Err err => errors_Is err (EErr ErrNotFound) = true → view w !! u = None
    | Panic s => s ≠ "stack overflow"
    end;
  Create_spec : ∀ x w,
    let '(out, w') := Create st x [] w in
    match out with
    | Ok _ => view w !! URN x = None ∧
              ∃ x', stored x x' ∧ view w' = <[URN x := x']> (view w)
    | Err err => view w' = view w
    | Panic _ => False
    end;
  Update_spec : ∀ x b reason w,
    let '(out, w') := Update st x b reason [] w in
    match out with
    | Ok _ => ∃ old x', view w !! URN x = Some old ∧ updated old x x' ∧
                        view w' = <[URN x := x']> (view w)
    | Err err => view w' = view w
    | Panic _ => False
    end;
  List_view : ∀ f b w, view (List_ st f b w).2 = view w;
  Revisions_view : ∀ sel w, view (Revisions st sel w).2 = view w;
}.

Lemma stored_clean x x' : clean x → stored x x' → x' ≡ x.
Proof.
  intros [Hl Hs Hc Hu Hn] (ls & sr & ca & ua & ns & Hls & Hsr & Hca & Hua & Hns & Hx).
  rewrite Hx. specialize (Hls Hl). destruct Hsr as [Hsr _]. specialize (Hsr Hs). subst sr.
  apply rounds_whole in Hca as ->; [|done]. apply rounds_whole in Hua as ->; [|done].
  assert (ns = NextSyncAt (res_State x)) as ->.
  { destruct (NextSyncAt (res_State x)) as [t|], ns as [t'|]; try done.
    f_equal. apply rounds_whole; [by apply Hn|done]. }
  unfold equiv, Resource_equiv, norm, norm_State, set_stamps, set_State, set_Labels,
    set_SyncResult, set_NextSyncAt.
  cbn [URN Kind Name Project Labels CreatedAt UpdatedAt UpdatedBy CreatedBy res_Spec res_State
    Status Output ModuleData NextSyncAt st_SyncResult]. by rewrite Hls.
Qed.

(** Writing back a stored resource with a new output refreshes it. *)
Lemma updated_refreshed old res out x' :
  clean res → refreshed res old →
  updated old (set_State (set_Output out (res_State res)) res) x' → refreshed old x'.
Proof.
  intros Hc Hr (t & Ht & Hs).
  pose proof (refreshed_fields _ _ Hr) as (_ & Hk & Hn & Hp & _ & Hca & Hcb & _).
  rewrite <- Hk, <- Hn, <- Hp, <- Hca, <- Hcb in Hs.
  apply stored_clean in Hs; [|by destruct Hc].
  rewrite Hs. symmetry in Hr. etrans; [exact Hr|]. reflexivity.
Qed.
