(* ===== verification/Service.v ===== *)
(** * Service: [core]

    Models [core/core.go], [core/read.go], [core/write.go] and [core/sync.go]:
    the resource service that resolves dependencies, plans actions through the
    module service, writes the store and synchronises pending resources. *)

From S2P Require Import Prelude GoLib Errors Resource Module.

#[local] Open Scope Z_scope.

(** [ModuleService], implemented by the module service of Module.v. *)
Record ModuleService (W : Type) := mkModuleService {
  ms_PlanAction : ExpandedResource → ActionRequest → io W Resource;
  ms_SyncState : ExpandedResource → io W State;
  ms_StreamLogs : ExpandedResource → gomap string → io W LogStream;
  ms_GetOutput : ExpandedResource → io W RawMessage;
}.

Arguments ms_PlanAction {W}.
Arguments ms_SyncState {W}.
Arguments ms_StreamLogs {W}.
Arguments ms_GetOutput {W}.

(** The OpenTelemetry meter of the service: making a counter can fail, adding
    to one cannot. *)
Record Meter (W : Type) := mkMeter {
  Int64Counter : string → io W ();
  counter_Add : string → string → W → W;
}.

Arguments Int64Counter {W}.
Arguments counter_Add {W}.

Record Service (W : Type) := mkService {
  clock : W → Time * W;
  store : Store W;
  moduleSvc : ModuleService W;
  syncBackoff : Duration;
  maxSyncRetries : Z;
  meter : Meter W;
}.

Arguments clock {W}.
Arguments store {W}.
Arguments moduleSvc {W}.
Arguments syncBackoff {W}.
Arguments maxSyncRetries {W}.
Arguments meter {W}.

Definition PendingCounter : string := "pending".
Definition CompletedCounter : string := "completed".
Definition ErrorCounter : string := "error".
Definition RetryCounter : string := "retry".

Record Options := mkOptions { DryRun : bool }.

Definition WithDryRun (dryRun : bool) : Options := mkOptions dryRun.

Definition isCreate (actionName : string) : bool := bool_decide (actionName = CreateAction).

Section service.
Context {MR : MapRange} {W : Type}.
Variable svc : Service W.

(** [depth] bounds the recursion of [GetResource] through dependencies, as the
    goroutine's stack does. *)
Variable depth : nat.

Definition read_clock : io W Time := λ w, let '(t, w') := clock svc w in (Ok t, w').

Definition setupCounter (countername : string) : io W () :=
  Int64Counter (meter svc) (countername +:+ "_counter").

Definition incr (countername urn : string) : io W () := λ w,
  (Ok tt, counter_Add (meter svc) countername urn w).

(** ** core.go *)

Section resolve.
(** [svc.GetResource] *)
Variable get : string → io W Resource.

Definition resolve_dep (res : Resource) (acc : gmap string ResolvedDependency)
    (kv : string * string) : io W (gmap string ResolvedDependency) :=
  let '(key, resURN) := kv in
  d ← catch (get resURN) (λ err,
        if errors_Is err (EErr ErrNotFound)
        then EErr (WithMsgf ErrInvalid ("dependency '" +:+ resURN +:+ "' not found"))
        else err);
  if negb (bool_decide (Status (res_State d) = StatusCompleted)) then
    throw (EErr (WithMsgf ErrInvalid
      ("dependency '" +:+ resURN +:+ "' is in incomplete state (" +:+
       Status (res_State d) +:+ ")")))
  else if negb (bool_decide (Project d = Project res)) then
    throw (EErr (WithCausef
      (WithMsgf ErrInvalid ("dependency '" +:+ resURN +:+ "' not found"))
      "cross-project references not allowed"))
  else mret (<[key := mkResolved (Kind d) (Output (res_State d))]> acc).

Definition resolve_deps (res : Resource) : io W ExpandedResource :=
  deps ← fold_each (resolve_dep res) ∅ (range (gm (Dependencies (res_Spec res))));
  mret (mkExpanded res (Some deps)).
End resolve.

(** ** read.go *)

Definition GetResource_body (get : string → io W Resource) (urn : string) : io W Resource :=
  res ← catch (GetByURN (store svc) urn) (λ err,
          if errors_Is err (EErr ErrNotFound)
          then EErr (WithMsgf ErrNotFound ("resource with urn '" +:+ urn +:+ "' not found"))
          else EErr (WithCausef ErrInternal (error_string err)));
  modSpec ← resolve_deps get res;
  output ← ms_GetOutput (moduleSvc svc) modSpec;
  if bytes_Equal (Output (res_State res)) output then mret res
  else
    let res := set_State (set_Output output (res_State res)) res in
    _ ← Update (store svc) res false "" [];
    mret res.

Fixpoint GetResource_at (n : nat) (urn : string) : io W Resource :=
  match n with
  | O => panic "stack overflow"
  | S n => GetResource_body (GetResource_at n) urn
  end.

Definition GetResource (urn : string) : io W Resource := GetResource_at depth urn.

Definition generateModuleSpec (res : Resource) : io W ExpandedResource :=
  resolve_deps GetResource res.

Definition ListResources (filter : Filter) (withSpecConfigs : bool) : io W PagedResource :=
  resources ← catch (List_ (store svc) filter withSpecConfigs)
    (λ err, EErr (WithCausef ErrInternal (error_string err)));
  let resources := Apply filter resources in
  mret (mkPaged (wrap32 (Z.of_nat (length resources))) resources).

Definition GetLog (urn : string) (filter : gomap string) : io W LogStream :=
  res ← GetResource urn;
  modSpec ← generateModuleSpec res;
  catch (ms_StreamLogs (moduleSvc svc) modSpec filter) (λ err,
    if errors_Is err (EErr ErrUnsupported)
    then EErr (WithMsgf ErrUnsupported
           ("log streaming not supported for kind '" +:+ Kind res +:+ "'"))
    else err).

Definition GetRevisions (selector : RevisionsSelector) : io W (list Revision) :=
  catch (Revisions (store svc) selector)
    (λ err, EErr (WithCausef ErrInternal (error_string err))).

(** ** write.go *)

(** The two copying loops, then the loop that deletes the empty values. *)
Definition mergeLabels (m1 m2 : gomap string) : gomap string :=
  match m1, m2 with
  | None, None => None
  | _, _ =>
      let res := copy_into (range (gm m1)) ∅ in
      let res := copy_into (range (gm m2)) res in
      Some (foldl (λ acc kv, if decide (kv.2 = "") then delete kv.1 acc else acc) res (range res))
  end.

Definition planChange (res : Resource) (act : ActionRequest) : io W Resource :=
  modSpec ← generateModuleSpec res;
  planned ← catch (ms_PlanAction (moduleSvc svc) modSpec act) (λ err,
    if errors_Is err (EErr ErrInvalid) then err
    else EErr (WithCausef (WithMsgf ErrInternal "plan() failed") (error_string err)));
  let planned := set_Labels (mergeLabels (Labels res) (act_Labels act)) planned in
  match Validate (isCreate (act_Name act)) planned with
  | (Some err, _) => throw (EErr err)
  | (None, planned) => mret planned
  end.

Definition upsert (res : Resource) (is_create saveRevision : bool) (reason : string) : io W () :=
  catch
    (if is_create then Create (store svc) res []
     else Update (store svc) res saveRevision reason [])
    (λ err,
       if is_create && errors_Is err (EErr ErrConflict) then
         EErr (WithMsgf ErrConflict
           ("resource with urn '" +:+ URN res +:+ "' already exists"))
       else if negb is_create && errors_Is err (EErr ErrNotFound) then
         EErr (WithMsgf ErrNotFound
           ("resource with urn '" +:+ URN res +:+ "' does not exist"))
       else EErr (WithCausef ErrInternal (error_string err))).

Definition stamp (res : Resource) (act : ActionRequest) (t : Time) (planned : Resource) :
    Resource :=
  if isCreate (act_Name act)
  then set_stamps t t (act_UserID act) (act_UserID act) planned
  else set_stamps (CreatedAt res) t (CreatedBy planned) (act_UserID act) planned.

Definition execAction (res : Resource) (act : ActionRequest) (dryRun : bool) : io W Resource :=
  planned ← planChange res act;
  t ← read_clock;
  let planned := stamp res act t planned in
  let reason := "action:" +:+ act_Name act in
  _ ← (if dryRun then mret tt
       else upsert planned (isCreate (act_Name act)) true reason);
  _ ← setupCounter PendingCounter;
  _ ← incr PendingCounter (URN res);
  mret planned.

(** [for _, opt := range resourceOpts { dryRun = opt.DryRun }] *)
Definition dry_run (opts : list Options) : bool := foldl (λ _ opt, DryRun opt) false opts.

Definition ApplyAction (urn : string) (act : ActionRequest) (opts : list Options) :
    io W Resource :=
  res ← GetResource urn;
  if negb (IsTerminal (res_State res)) then
    throw (EErr (WithMsgf ErrInvalid
      ("cannot perform '" +:+ act_Name act +:+ "' on resource in '" +:+
       Status (res_State res) +:+ "'")))
  else execAction res act (dry_run opts).

Definition CreateResource (res : Resource) (opts : list Options) : io W Resource :=
  match Validate true res with
  | (Some err, _) => throw (EErr err)
  | (None, res) =>
      let act := mkActionRequest CreateAction (Configs (res_Spec res)) (Labels res)
                   (CreatedBy res) in
      execAction (set_Configs None res) act (dry_run opts)
  end.

Definition UpdateResource (urn : string) (req : UpdateRequest) (opts : list Options) :
    io W Resource :=
  if negb (bool_decide (gm_len (Dependencies (upd_Spec req)) = 0%nat)) then
    throw (EErr (WithMsgf ErrUnsupported "updating dependencies is not supported"))
  else if bool_decide (raw_len (Configs (upd_Spec req)) = 0%nat) then
    throw (EErr (WithMsgf ErrInvalid "no config is being updated, nothing to do"))
  else
    ApplyAction urn
      (mkActionRequest UpdateAction (Configs (upd_Spec req)) (upd_Labels req) (upd_UserID req))
      opts.

Definition DeleteResource (urn : string) : io W () :=
  _ ← ApplyAction urn (mkActionRequest DeleteAction None None "") [WithDryRun false];
  mret tt.

(** ** sync.go *)

Definition sync_failed (res : Resource) (err : error) : io W Resource :=
  let sr := st_SyncResult (res_State res) in
  let retries := wrap64 (Retries sr + 1) in
  let st := set_SyncResult (mkSyncResult retries (error_string err)) (res_State res) in
  _ ← incr RetryCounter (URN res);
  if errors_Is err (EErr ErrInvalid) then
    _ ← incr ErrorCounter (URN res);
    mret (set_State (set_NextSyncAt None (set_Status StatusError st)) res)
  else if (0 <? maxSyncRetries svc) && (maxSyncRetries svc <=? retries) then
    _ ← incr ErrorCounter (URN res);
    mret (set_State (set_NextSyncAt None (set_Status StatusError st)) res)
  else
    t ← read_clock;
    mret (set_State (set_NextSyncAt (Some (t + syncBackoff svc)) st) res).

Definition handleSync (res : Resource) : io W Resource :=
  _ ← setupCounter RetryCounter;
  _ ← setupCounter ErrorCounter;
  _ ← setupCounter CompletedCounter;
  modSpec ← generateModuleSpec res;
  out ← attempt (ms_SyncState (moduleSvc svc) modSpec);
  match out with
  | inl err => sync_failed res err
  | inr newState =>
      t ← read_clock;
      _ ← incr CompletedCounter (URN res);
      mret (set_State newState (set_UpdatedAt t res))
  end.

(** One worker of [RunSyncer]: what its [select] sees, until the context is
    done.  A failed [SyncOne] is only logged. *)
Inductive syncer_event := CtxDone (err : error) | Tick.

Fixpoint run_syncer (scope : gmap string (list string)) (evs : list syncer_event) :
    io W () :=
  match evs with
  | [] => mret tt
  | CtxDone err :: _ => throw err
  | Tick :: evs =>
      _ ← attempt (SyncOne (store svc) scope handleSync);
      run_syncer scope evs
  end.
End service.

(** The module service as the [ModuleService] of the resource service. *)
Definition module_service {JS : JSONSchema} {MR : MapRange} {W}
    (registry : Registry W) (mstore : ModStore W) : ModuleService W := {|
  ms_PlanAction := Module.PlanAction registry mstore;
  ms_SyncState := Module.SyncState registry mstore;
  ms_StreamLogs := Module.StreamLogs registry mstore;
  ms_GetOutput := Module.GetOutput registry mstore;
|}.
