(* ===== verification/ServiceFacts.v ===== *)
(** * ServiceFacts: what the resource service guarantees

    The theorems about [core], proved against the contract of the store
    (StoreSpec.v) and against [Surroundings], the contract of everything else
    the service calls. *)

From S2P Require Import Prelude GoLib Errors Resource Module StoreSpec Service.

#[local] Open Scope Z_scope.

(** ** Labels *)

Definition nonempty_labels (m : gmap string string) : gmap string string :=
  filter (λ kv, kv.2 ≠ "") m.

Lemma delete_empty_loop (l : list (string * string)) (m : gmap string string) k :
  NoDup l.*1 → (∀ k v, (k, v) ∈ l → m !! k = Some v) →
  foldl (λ acc kv, if decide (kv.2 = "") then delete kv.1 acc else acc) m l !! k =
  match m !! k with
  | Some v => if decide (v = "" ∧ (k, v) ∈ l) then None else Some v
  | None => None
  end.
Proof.
  revert m. induction l as [|[k0 v0] l IH]; intros m Hl Hm; cbn.
  - destruct (m !! k); [|done]. rewrite decide_False; set_solver.
  - apply NoDup_cons in Hl as [Hk0 Hl].
    assert (m !! k0 = Some v0) as Hm0 by (apply Hm; set_solver).
    assert (∀ v, (k0, v) ∉ l) as Hk0'.
    { intros v Hv. apply Hk0. apply list_elem_of_fmap. by exists (k0, v). }
    rewrite IH; [|done|].
    + destruct (decide (v0 = "")) as [->|Hv0]; [destruct (decide (k = k0)) as [->|Hk]|].
      * rewrite lookup_delete_eq, Hm0, decide_True; set_solver.
      * rewrite lookup_delete_ne by done. destruct (m !! k) as [v|]; [|done].
        apply decide_ext. rewrite elem_of_cons. naive_solver.
      * destruct (m !! k) as [v|]; [|done]. apply decide_ext.
        rewrite elem_of_cons. split; [naive_solver|]. intros [-> [?|?]]; simplify_eq; done.
    + intros k1 v1 Hin. case_decide; [|apply Hm; set_solver].
      rewrite lookup_delete_ne; [apply Hm; set_solver|]. intros ->. by eapply Hk0'.
Qed.

Lemma mergeLabels_eq `{MR : MapRange} m1 m2 :
  mergeLabels m1 m2 =
  match m1, m2 with
  | None, None => None
  | _, _ => Some (nonempty_labels (gm m2 ∪ gm m1))
  end.
Proof.
  assert (∀ a c : gmap string string,
    foldl (λ acc kv, if decide (kv.2 = "") then delete kv.1 acc else acc)
      (copy_into (range c) (copy_into (range a) ∅))
      (range (copy_into (range c) (copy_into (range a) ∅))) = nonempty_labels (c ∪ a)) as H.
  { intros a c. rewrite !copy_range_spec, (right_id_L ∅ (∪)). apply map_eq. intros k.
    rewrite delete_empty_loop; [|apply NoDup_range_keys|intros k' v'; apply elem_of_range].
    unfold nonempty_labels. rewrite map_lookup_filter.
    destruct ((c ∪ a) !! k) as [v|] eqn:Hv; [|done]. cbn.
    destruct (decide (v = "")) as [->|Hne].
    - rewrite decide_True; [by case_guard|]. split; [done|]. by apply elem_of_range.
    - rewrite decide_False by naive_solver. by case_guard. }
  unfold mergeLabels. destruct m1, m2; by rewrite ?H.
Qed.

Lemma gm_mergeLabels `{MR : MapRange} m1 m2 :
  gm (mergeLabels m1 m2) = nonempty_labels (gm m2 ∪ gm m1).
Proof.
  rewrite mergeLabels_eq. by destruct m1, m2.
Qed.

(** ** The contract of the surroundings

    Drivers, clock and telemetry do not touch the store; a plan keeps the
    identity of the resource and introduces no dependency.  (A driver that does
    not know an action may answer with an empty resource.) *)

Class Surroundings {W : Type} (svc : Service W) {SS : StoreSpec (store svc)} : Prop := {
  plan_view : ∀ e act w, view (ms_PlanAction (moduleSvc svc) e act w).2 = view w;
  plan_keeps : ∀ e act w r w',
    ms_PlanAction (moduleSvc svc) e act w = (Ok r, w') →
    gm (Dependencies (res_Spec r)) ⊆ gm (Dependencies (res_Spec (exr_Resource e))) ∧
    (Kind r = "" ∨
     URN r = URN (exr_Resource e) ∧ Kind r = Kind (exr_Resource e) ∧
     Name r = Name (exr_Resource e) ∧ Project r = Project (exr_Resource e));
  sync_view : ∀ e w, view (ms_SyncState (moduleSvc svc) e w).2 = view w;
  logs_view : ∀ e f w, view (ms_StreamLogs (moduleSvc svc) e f w).2 = view w;
  output_view : ∀ e w, view (ms_GetOutput (moduleSvc svc) e w).2 = view w;
  output_no_overflow : ∀ e w, (ms_GetOutput (moduleSvc svc) e w).1 ≠ Panic "stack overflow";
  clock_view : ∀ w, view (clock svc w).2 = view w;
  counter_view : ∀ c w, view (Int64Counter (meter svc) c w).2 = view w;
  add_view : ∀ c u w, view (counter_Add (meter svc) c u w) = view w;
}.

(** The frame of every read: the store's resources up to refreshed outputs. *)
Section frame.
Context {MR : MapRange} {W : Type} (svc : Service W).
Context {SS : StoreSpec (store svc)}.
Implicit Types (w : W) (u : string) (res r : Resource).

Definition keeps : relation W := λ w w', refreshes (view w) (view w').

#[global] Instance keeps_preorder : PreOrder keeps.
Proof.
  unfold keeps. split; [by intros w|]. intros w1 w2 w3 H1 H2. by transitivity (view w2).
Qed.

Lemma keeps_view {A} (m : io W A) : (∀ w, view (m w).2 = view w) → effects keeps m.
Proof. intros H w. unfold keeps. by rewrite H. Qed.

Lemma GetByURN_view u w out w' :
  GetByURN (store svc) u w = (out, w') →
  view w' = view w ∧ out ≠ Panic "stack overflow" ∧
  (∀ x, out = Ok x → view w !! u = Some x ∧ URN x = u ∧ clean x).
Proof.
  intros H. pose proof (GetByURN_spec u w) as Hs. rewrite H in Hs. destruct Hs as [Hv Hout].
  split_and!; [done|destruct out; congruence|]. intros x ->.
  split_and!; [done|by eapply view_URN|by eapply view_clean].
Qed.

Section resolve.
Variable get : string → io W Resource.
Hypothesis get_keeps : ∀ u, effects keeps (get u).
Hypothesis get_Ok : ∀ u w x w',
  get u w = (Ok x, w') → ∃ x0, view w !! u = Some x0 ∧ refreshed x0 x.

Lemma keeps_resolve_dep res acc kv : effects keeps (resolve_dep get res acc kv).
Proof using get_keeps.
  destruct kv as [key u]. unfold resolve_dep.
  apply effects_bind; [exact _|by apply effects_catch|]. intros d.
  repeat case_match; auto with effects.
Qed.

Lemma keeps_resolve_deps res : effects keeps (resolve_deps get res).
Proof using get_keeps.
  unfold resolve_deps. apply effects_bind; [exact _| |auto with effects].
  apply effects_fold_each; [exact _|]. intros acc kv. apply keeps_resolve_dep.
Qed.

(** A resolved dependency is a completed resource of the same project. *)
Definition resolves (m : gmap string Resource) res (u : string) (d : ResolvedDependency) :
    Prop :=
  ∃ x, m !! u = Some x ∧ Status (res_State x) = StatusCompleted ∧
       Project x = Project res ∧ dep_Kind d = Kind x.

Lemma resolve_dep_Ok res acc key u w acc' w' :
  resolve_dep get res acc (key, u) w = (Ok acc', w') →
  ∃ d, acc' = <[key := d]> acc ∧ resolves (view w) res u d.
Proof using get_Ok.
  unfold resolve_dep. intros H. go_inv. destruct a as [].
  apply get_Ok in Hrun as (x0 & Hx0 & Hr).
  apply refreshed_fields in Hr as (_ & Hk & _ & Hp & _ & _ & _ & _ & _ & _ & Hst & _).
  cbn in *. repeat case_bool_decide; cbn in *; go_inv.
  eexists. split; [done|]. exists x0. cbn. split_and!; congruence.
Qed.

Lemma resolves_refreshes m m' res u d :
  refreshes m m' → resolves m' res u d → resolves m res u d.
Proof.
  intros Hm (x & Hx & Hst & Hp & Hk). specialize (Hm u). rewrite Hx in Hm.
  unfold resolves. destruct (m !! u) as [x0|]; [|done].
  apply refreshed_fields in Hm as (_ & ? & _ & ? & _ & _ & _ & _ & _ & _ & ? & _).
  exists x0. split_and!; congruence.
Qed.

Lemma resolve_fold_Ok res l acc w acc' w' :
  fold_each (resolve_dep get res) acc l w = (Ok acc', w') → NoDup l.*1 →
  (∀ k u, (k, u) ∈ l → ∃ d, acc' !! k = Some d ∧ resolves (view w) res u d) ∧
  (∀ k, k ∉ l.*1 → acc' !! k = acc !! k).
Proof using get_Ok get_keeps.
  revert acc w. induction l as [|[k u] l IH]; intros acc w H Hnd; cbn in H.
  { go_inv. set_solver. }
  apply bind_ok_inv in H as (acc1 & w1 & H1 & H2).
  pose proof (effects_run _ _ _ _ _ (keeps_resolve_dep res acc (k, u)) H1) as Hk1.
  apply resolve_dep_Ok in H1 as (d & -> & Hd).
  cbn in Hnd. apply NoDup_cons in Hnd as [Hk Hnd].
  destruct (IH _ _ H2 Hnd) as [Hin Hout]. split.
  - intros k' u' [?|Hin']%elem_of_cons; simplify_eq.
    + exists d. split; [|done]. by rewrite Hout, lookup_insert_eq.
    + destruct (Hin k' u' Hin') as (d' & ? & Hd'). exists d'. split; [done|].
      by eapply resolves_refreshes.
  - intros k' Hk'. cbn in Hk'. rewrite Hout by set_solver.
    apply lookup_insert_ne. set_solver.
Qed.

Lemma resolve_deps_Ok res w e w' :
  resolve_deps get res w = (Ok e, w') →
  exr_Resource e = res ∧
  ∀ k, match gm (Dependencies (res_Spec res)) !! k with
       | Some u => ∃ d, gm (exr_Dependencies e) !! k = Some d ∧ resolves (view w) res u d
       | None => gm (exr_Dependencies e) !! k = None
       end.
Proof using get_Ok get_keeps.
  unfold resolve_deps. intros H. apply bind_ok_inv in H as (deps & w1 & H1 & H2). go_inv.
  split; [done|]. apply resolve_fold_Ok in H1 as [Hin Hout]; [|apply NoDup_range_keys].
  intros k. destruct (gm (Dependencies (res_Spec res)) !! k) as [u|] eqn:Hk.
  - apply (Hin k u). by apply elem_of_range.
  - cbn. rewrite Hout; [apply lookup_empty|].
    intros ((k' & u) & -> & Hu)%list_elem_of_fmap. apply elem_of_range in Hu.
    cbn in Hk. congruence.
Qed.
End resolve.

Lemma resolve_deps_not_NotFound get res w err w' :
  resolve_deps get res w = (Err err, w') → errors_Is err (EErr ErrNotFound) = false.
Proof.
  unfold resolve_deps. rewrite run_bind.
  destruct (fold_each _ _ _ _) as [[deps|e|s] w1] eqn:Hf; [discriminate| |discriminate].
  intros [= <- <-]. revert Hf. generalize (∅ : gmap string ResolvedDependency).
  generalize w. induction (range _) as [|[k u] l IH]; cbn [fold_each]; intros w0 acc Hf; [discriminate|].
  rewrite run_bind in Hf.
  destruct (resolve_dep get res acc (k, u) w0) as [[acc1|e1|s1] w2] eqn:Hd;
    [exact (IH _ _ Hf)| |discriminate].
  injection Hf as <- <-. unfold resolve_dep in Hd. rewrite run_bind in Hd. unfold catch in Hd.
  destruct (get u w0) as [[d|e2|s2] w3]; [|injection Hd as <- <-|discriminate].
  - go_run. repeat case_match; simplify_eq; by rewrite errors_Is_code.
  - destruct (errors_Is e2 (EErr ErrNotFound)) eqn:He; [|done]. by rewrite errors_Is_code.
Qed.

Context {SU : Surroundings svc}.

Lemma keeps_plan e act : effects keeps (ms_PlanAction (moduleSvc svc) e act).
Proof. apply keeps_view, plan_view. Qed.
Lemma keeps_sync e : effects keeps (ms_SyncState (moduleSvc svc) e).
Proof. apply keeps_view, sync_view. Qed.
Lemma keeps_logs e f : effects keeps (ms_StreamLogs (moduleSvc svc) e f).
Proof. apply keeps_view, logs_view. Qed.
Lemma keeps_output e : effects keeps (ms_GetOutput (moduleSvc svc) e).
Proof. apply keeps_view, output_view. Qed.
Lemma keeps_clock : effects keeps (read_clock svc).
Proof.
  apply keeps_view. intros w. pose proof (clock_view w) as H. unfold read_clock.
  by destruct (clock svc w).
Qed.
Lemma keeps_setup c : effects keeps (setupCounter svc c).
Proof. apply keeps_view. intros w. apply counter_view. Qed.
Lemma keeps_incr c u : effects keeps (incr svc c u).
Proof. apply keeps_view. intros w. apply add_view. Qed.
End frame.

#[export] Hint Resolve keeps_plan keeps_sync keeps_logs keeps_output keeps_clock keeps_setup
  keeps_incr keeps_preorder keeps_resolve_deps : effects.

(** ** Reads *)

Section reads.
Context {MR : MapRange} {W : Type} (svc : Service W).
Context {SS : StoreSpec (store svc)} {SU : Surroundings svc}.
Implicit Types (w : W) (u : string) (res r : Resource).

Notation get_at := (GetResource_at svc).

Lemma GetResource_body_frame get u w out w' :
  (∀ u, effects (keeps svc) (get u)) →
  GetResource_body svc get u w = (out, w') →
  keeps svc w w' ∧
  (∀ r, out = Ok r → ∃ x, view w !! u = Some x ∧ refreshed x r).
Proof.
  intros Hget H. unfold GetResource_body in H. rewrite run_bind in H. unfold catch in H.
  destruct (GetByURN (store svc) u w) as [[x|e|s] w1] eqn:Hg;
    destruct (GetByURN_view _ _ _ _ _ Hg) as (Hv & Hp & Hx); [|injection H as <- <-..].
  2,3: unfold keeps; rewrite Hv; by split.
  destruct (Hx x eq_refl) as (Hxu & <- & Hcl). clear Hx Hp.
  assert (keeps svc w w1) as Hk1 by (unfold keeps; by rewrite Hv).
  rewrite run_bind in H.
  destruct (resolve_deps get x w1) as [[e|e|s] w2] eqn:Hr;
    apply (effects_run (keeps svc)) in Hr; auto with effects.
  2,3: injection H as <- <-; split; [by etrans|done].
  rewrite run_bind in H.
  destruct (ms_GetOutput _ _ w2) as [[o|e1|s] w3] eqn:Ho;
    apply (effects_run (keeps svc)) in Ho; auto with effects.
  2,3: injection H as <- <-; split; [by do 2 (etrans; [eassumption|])|done].
  assert (keeps svc w w3) as Hk3 by (do 2 (etrans; [eassumption|]); done).
  destruct (bytes_Equal _ _) eqn:Hb.
  { injection H as <- <-. split; [done|]. intros r [= <-]. by exists x. }
  rewrite run_bind in H.
  set (y := set_State (set_Output o (res_State x)) x) in *.
  pose proof (Update_spec y false "" w3) as Hu.
  destruct (Update _ y false "" [] w3) as [[[]|e1|s] w4]; [| |done].
  2:{ injection H as <- <-. split; [|done]. unfold keeps in *. by rewrite Hu. }
  injection H as <- <-. destruct Hu as (old & x' & Hold & Hupd & Hv').
  change (URN y) with (URN x) in *.
  destruct (refreshes_lookup _ _ _ _ Hk3 Hxu) as (old' & Hold' & Hxo).
  assert (old' = old) as -> by congruence.
  split.
  - etrans; [exact Hk3|]. unfold keeps. rewrite Hv'.
    eapply refreshes_insert; [done|]. by eapply updated_refreshed.
  - intros r [= <-]. exists x. by split.
Qed.

Lemma keeps_get_at n u : effects (keeps svc) (get_at n u).
Proof.
  revert u. induction n as [|n IH]; intros u; cbn [GetResource_at]; [auto with effects|].
  intros w. destruct (GetResource_body svc (get_at n) u w) as [out w'] eqn:H.
  by apply GetResource_body_frame in H as [? _].
Qed.

Lemma get_at_Ok n u w x w' :
  get_at n u w = (Ok x, w') → ∃ x0, view w !! u = Some x0 ∧ refreshed x0 x.
Proof.
  destruct n as [|n]; cbn [GetResource_at]; [discriminate|]. intros H.
  apply GetResource_body_frame in H as [_ H]; [by apply H|apply keeps_get_at].
Qed.

(** *** Termination *)

(** Dependencies exist and go down in rank. *)
Definition ranked (rank : string → nat) (m : gmap string Resource) : Prop :=
  ∀ u x k v, m !! u = Some x → gm (Dependencies (res_Spec x)) !! k = Some v →
  (rank v < rank u)%nat ∧ is_Some (m !! v).

Lemma ranked_refreshes rank m m' : refreshes m m' → ranked rank m → ranked rank m'.
Proof.
  intros Hm Hr u x k v Hx Hk. pose proof (Hm u) as Hu. rewrite Hx in Hu.
  destruct (m !! u) as [x0|] eqn:Hx0; [|done].
  apply refreshed_fields in Hu as (_ & _ & _ & _ & _ & _ & _ & _ & _ & Hd & _).
  rewrite <- Hd in Hk. destruct (Hr u x0 k v Hx0 Hk) as [? [y Hy]]. split; [done|].
  specialize (Hm v). rewrite Hy in Hm. destruct (m' !! v); [eauto|done].
Qed.

Lemma ranked_keeps rank w w' : keeps svc w w' → ranked rank (view w) → ranked rank (view w').
Proof. apply ranked_refreshes. Qed.

Lemma catch_ext {A} (m1 m2 : io W A) h w : m1 w = m2 w → catch m1 h w = catch m2 h w.
Proof. intros H. unfold catch. by rewrite H. Qed.

Lemma bind_ext {A B} (m1 m2 : io W A) (f1 f2 : A → io W B) w :
  m1 w = m2 w → (∀ a w', m1 w = (Ok a, w') → f1 a w' = f2 a w') →
  (m1 ≫= f1) w = (m2 ≫= f2) w.
Proof. intros H Hf. rewrite !run_bind, <- H. destruct (m1 w) as [[a|e|s] w']; auto. Qed.

Lemma fold_each_ext {A B} (I : W → Prop) (f g : B → A → io W B) l b0 w :
  (∀ b a w, a ∈ l → I w → f b a w = g b a w ∧ I (f b a w).2) →
  I w → fold_each f b0 l w = fold_each g b0 l w.
Proof.
  revert b0 w. induction l as [|a l IH]; intros b0 w Hfg Hw; [done|].
  cbn [fold_each]. destruct (Hfg b0 a w) as [Heq HI]; [set_solver|done|].
  apply bind_ext; [done|]. intros b1 w1 H1. rewrite H1 in HI.
  apply IH; [|done]. intros. apply Hfg; [set_solver|done].
Qed.

Lemma resolve_deps_ext rank get1 get2 res w :
  (∀ u, effects (keeps svc) (get1 u)) →
  ranked rank (view w) → view w !! URN res = Some res →
  (∀ u w, ranked rank (view w) → (rank u < rank (URN res))%nat → get1 u w = get2 u w) →
  resolve_deps get1 res w = resolve_deps get2 res w.
Proof.
  intros Hk1 Hr Hres Hget. unfold resolve_deps. apply bind_ext; [|done].
  apply (fold_each_ext (λ w, ranked rank (view w))); [|done].
  intros acc [k u] w1 Hin%elem_of_range Hw1.
  destruct (Hr _ _ _ _ Hres Hin) as [Hlt _]. split.
  - unfold resolve_dep. apply bind_ext; [|done]. apply catch_ext. by apply Hget.
  - eapply ranked_keeps; [|done]. by apply keeps_resolve_dep.
Qed.

(** Enough depth: any bound above the rank gives the same run. *)
Lemma get_at_depth rank n1 n2 u w :
  ranked rank (view w) → (rank u < n1)%nat → (rank u < n2)%nat →
  get_at n1 u w = get_at n2 u w.
Proof.
  revert n2 u w. induction n1 as [|n1 IH]; intros [|n2] u w Hr H1 H2; try lia.
  cbn [GetResource_at]. unfold GetResource_body. apply bind_ext; [done|].
  intros x w1 Hg%run_catch_ok. destruct (GetByURN_view _ _ _ _ _ Hg) as (Hv & _ & Hx).
  destruct (Hx x eq_refl) as (Hxu & <- & _). rewrite <- Hv in Hr, Hxu.
  apply bind_ext; [|done]. apply (resolve_deps_ext rank); [apply keeps_get_at|done..|].
  intros v w2 Hw2 Hv2. apply IH; [done|lia..].
Qed.

Definition no_overflow {A} (m : io W A) (w : W) : Prop := (m w).1 ≠ Panic "stack overflow".

Lemma no_overflow_bind {A B} (m : io W A) (f : A → io W B) w :
  no_overflow m w → (∀ a w', m w = (Ok a, w') → no_overflow (f a) w') →
  no_overflow (m ≫= f) w.
Proof.
  unfold no_overflow. rewrite run_bind. destruct (m w) as [[a|e|s] w']; cbn; [naive_solver|done|].
  intros H _ [= ->]. by apply H.
Qed.

Lemma no_overflow_catch {A} (m : io W A) h w : no_overflow m w → no_overflow (catch m h) w.
Proof. unfold no_overflow, catch. destruct (m w) as [[a|e|s] w']; cbn; [done..|congruence]. Qed.

Lemma no_overflow_fold {A B} (I : W → Prop) (f : B → A → io W B) l b0 w :
  (∀ b a w, a ∈ l → I w → no_overflow (f b a) w ∧ I (f b a w).2) →
  I w → no_overflow (fold_each f b0 l) w.
Proof.
  revert b0 w. induction l as [|a l IH]; intros b0 w Hf Hw; [done|].
  cbn [fold_each]. destruct (Hf b0 a w) as [Hno HI]; [set_solver|done|].
  apply no_overflow_bind; [done|]. intros b1 w1 H1. rewrite H1 in HI.
  apply IH; [|done]. intros. apply Hf; [set_solver|done].
Qed.

Lemma resolve_deps_no_overflow rank get res w :
  (∀ u, effects (keeps svc) (get u)) → ranked rank (view w) →
  (∀ k u w, gm (Dependencies (res_Spec res)) !! k = Some u → ranked rank (view w) →
            no_overflow (get u) w) →
  no_overflow (resolve_deps get res) w.
Proof.
  intros Hk Hr Hget. unfold resolve_deps. apply no_overflow_bind; [|done].
  apply (no_overflow_fold (λ w, ranked rank (view w))); [|done].
  intros acc [k u] w1 Hin%elem_of_range Hw1. split.
  - unfold resolve_dep. apply no_overflow_bind; [by apply no_overflow_catch, (Hget k)|].
    intros d w2 _. unfold no_overflow. by repeat case_match.
  - eapply ranked_keeps; [|done]. by apply keeps_resolve_dep.
Qed.

Lemma get_at_no_overflow rank n u w :
  ranked rank (view w) → (rank u < n)%nat → no_overflow (get_at n u) w.
Proof.
  revert u w. induction n as [|n IH]; intros u w Hr Hn; [lia|].
  cbn [GetResource_at]. unfold GetResource_body. apply no_overflow_bind.
  { apply no_overflow_catch. unfold no_overflow.
    destruct (GetByURN _ u w) as [out w1] eqn:Hg.
    by destruct (GetByURN_view _ _ _ _ _ Hg) as (_ & Hp & _). }
  intros x w1 Hg%run_catch_ok. destruct (GetByURN_view _ _ _ _ _ Hg) as (Hv & _ & Hx).
  destruct (Hx x eq_refl) as (Hxu & <- & _). rewrite <- Hv in Hr, Hxu.
  apply no_overflow_bind.
  { apply (resolve_deps_no_overflow rank); [apply keeps_get_at|done|].
    intros k v w2 Hk Hw2. apply IH; [done|]. destruct (Hr _ _ _ _ Hxu Hk). lia. }
  intros e w2 _. apply no_overflow_bind; [apply output_no_overflow|].
  intros o w3 _. case_match; [done|]. apply no_overflow_bind; [|done].
  unfold no_overflow.
  pose proof (Update_spec (set_State (set_Output o (res_State x)) x) false "" w3) as Hu.
  by destruct (Update _ _ _ _ _ w3) as [[]?].
Qed.
End reads.

#[export] Hint Resolve keeps_get_at : effects.

(** ** Writes *)

Section writes.
Context {MR : MapRange} {W : Type} (svc : Service W).
Context {SS : StoreSpec (store svc)} {SU : Surroundings svc}.
Variable depth : nat.
Implicit Types (w : W) (u : string) (res r p : Resource).

#[local] Notation keeps := (keeps svc).

Lemma keeps_generateModuleSpec res : effects keeps (generateModuleSpec svc depth res).
Proof. apply keeps_resolve_deps. intros u. apply (keeps_get_at svc). Qed.
#[local] Hint Resolve keeps_generateModuleSpec : effects.

Lemma keeps_GetResource u : effects keeps (GetResource svc depth u).
Proof. apply (keeps_get_at svc). Qed.
#[local] Hint Resolve keeps_GetResource : effects.

Lemma keeps_planChange res act : effects keeps (planChange svc depth res act).
Proof.
  unfold planChange. repeat (apply effects_bind; auto with effects; intros ?).
  destruct (Validate _ _) as [[]?]; auto with effects.
Qed.
#[local] Hint Resolve keeps_planChange : effects.

(** What a planned resource is. *)
Record planned (w : W) res (act : ActionRequest) p : Prop := {
  planned_validated : validated p;
  planned_labels : Labels p = mergeLabels (Labels res) (act_Labels act);
  planned_deps : gm (Dependencies (res_Spec p)) ⊆ gm (Dependencies (res_Spec res));
  planned_resolved : ∀ k u, gm (Dependencies (res_Spec res)) !! k = Some u →
    ∃ d, resolves (view w) res u d;
  planned_identity : Kind p = TrimSpace (Kind res) ∧ Name p = TrimSpace (Name res) ∧
    Project p = TrimSpace (Project res);
  planned_URN : URN p = if isCreate (act_Name act)
                        then GenerateURN (Kind p) (Project p) (Name p) else URN res;
  planned_by : ∃ e q w0 w1, ms_PlanAction (moduleSvc svc) e act w0 = (Ok q, w1) ∧ Kind q ≠ "" ∧
    (Status (res_State q) ≠ "" → res_State p = res_State q);
}.

Lemma planChange_Ok res act w p w' :
  planChange svc depth res act w = (Ok p, w') → planned w res act p.
Proof.
  unfold planChange. intros H. apply bind_ok_inv in H as (e & w1 & Hg & H).
  apply bind_ok_inv in H as (q & w2 & Hp & H). apply run_catch_ok in Hp.
  apply (resolve_deps_Ok svc) in Hg as [He Hdeps];
    [|intros ?; apply (keeps_get_at svc)|intros ????; apply (get_at_Ok svc)].
  pose proof Hp as Hby. apply plan_keeps in Hp as [Hd Hid]. rewrite He in Hd, Hid.
  destruct (Validate _ _) as [[err|] p'] eqn:Hval; [discriminate|]. injection H as -> <-.
  apply Validate_None in Hval as [Hv Hacc].
  assert (Kind q ≠ "") as Hkq.
  { intros Hk. destruct Hv as [(c & l & Hc & _) _ _ _].
    rewrite Hacc in Hc. cbn [accepted Kind set_Labels] in Hc. rewrite Hk in Hc. discriminate. }
  assert (URN q = URN res ∧ Kind q = Kind res ∧ Name q = Name res ∧ Project q = Project res)
    as (Hu & Hk & Hn & Hpr) by (by destruct Hid).
  unfold accepted in Hacc.
  cbn [URN Kind Name Project res_Spec res_State Labels set_Labels] in Hacc.
  rewrite Hu, Hk, Hn, Hpr in Hacc.
  split; [done|by rewrite Hacc|by rewrite Hacc| |by rewrite Hacc|by rewrite Hacc|].
  2:{ exists e, q, w1, w2. split_and!; [done|done|]. intros Hs. rewrite Hacc. cbn.
      by rewrite decide_False. }
  intros k u Hku. specialize (Hdeps k). rewrite Hku in Hdeps. naive_solver.
Qed.

Lemma upsert_view p c rv reason w out w' :
  upsert svc p c rv reason w = (out, w') →
  match out with
  | Ok _ =>
      if c then view w !! URN p = None ∧
                ∃ x', stored p x' ∧ view w' = <[URN p := x']> (view w)
      else ∃ old x', view w !! URN p = Some old ∧ updated old p x' ∧
                     view w' = <[URN p := x']> (view w)
  | Err _ => view w' = view w
  | Panic _ => False
  end.
Proof.
  unfold upsert, catch. intros H. destruct c.
  - pose proof (Create_spec p w) as Hs.
    destruct (Create _ _ _ w) as [[[]|e|s] w1]; injection H as <- <-; done.
  - pose proof (Update_spec p rv reason w) as Hs.
    destruct (Update _ _ _ _ _ w) as [[[]|e|s] w1]; injection H as <- <-; done.
Qed.

Lemma planned_keeps w w1 res act p : keeps w w1 → planned w res act p → planned w1 res act p.
Proof.
  intros Hk []. split; try done. intros k u Hku.
  destruct (planned_resolved0 k u Hku) as (d & x & Hx & Hst & Hp & Hd).
  destruct (refreshes_lookup _ _ _ _ Hk Hx) as (y & Hy & Hr).
  apply refreshed_fields in Hr as (_ & ? & _ & ? & _ & _ & _ & _ & _ & _ & ? & _).
  exists d, y. split_and!; congruence.
Qed.

(** The two ways an action can end: the store is as before (up to refreshed
    outputs), or the planned resource was written. *)
Definition wrote (w : W) res (act : ActionRequest) r (w' : W) : Prop :=
  ∃ w1 w2 p t,
    keeps w w1 ∧ planned w1 res act p ∧ r = stamp res act t p ∧
    upsert svc r (isCreate (act_Name act)) true ("action:" +:+ act_Name act) w1 = (Ok tt, w2) ∧
    view w' = view w2.

Lemma count_view c u r w :
  view ((_ ← setupCounter svc c; _ ← incr svc c u; mret r) w : go Resource * W).2 = view w.
Proof.
  rewrite run_bind. unfold setupCounter.
  pose proof (counter_view (c +:+ "_counter") w) as Hc.
  destruct (Int64Counter _ _ w) as [[[]|e|s] w1]; cbn in *; [|done..].
  etrans; [apply add_view|done].
Qed.

Lemma execAction_cases res act dry w out w' :
  execAction svc depth res act dry w = (out, w') →
  (if dry then keeps w w' else keeps w w' ∨ ∃ r, wrote w res act r w') ∧
  (∀ r, out = Ok r → ∃ w1 p t, keeps w w1 ∧ planned w1 res act p ∧ r = stamp res act t p ∧
                     (dry = false → wrote w res act r w')).
Proof.
  unfold execAction. intros H. rewrite run_bind in H.
  destruct (planChange svc depth res act w) as [[p|e|s] w1] eqn:Hp;
    pose proof (effects_run keeps _ _ _ _ (keeps_planChange _ _) Hp) as Hk1.
  2,3: injection H as <- <-; split; [by destruct dry; auto|done].
  apply planChange_Ok in Hp. apply (planned_keeps _ _ _ _ _ Hk1) in Hp.
  rewrite run_bind in H. destruct (read_clock svc w1) as [[t|e|s] w2] eqn:Ht;
    pose proof (effects_run keeps _ _ _ _ (keeps_clock svc) Ht) as Hk2.
  2,3: injection H as <- <-; split; [destruct dry; [|left]; by etrans|done].
  assert (keeps w w2) as Hkw by by etrans.
  apply (planned_keeps _ _ _ _ _ Hk2) in Hp. set (r := stamp res act t p) in *.
  rewrite run_bind in H.
  assert (∀ w3, ((_ ← setupCounter svc PendingCounter;
                  _ ← incr svc PendingCounter (URN res); mret r) w3) = (out, w') →
                view w' = view w3 ∧ ∀ r', out = Ok r' → r' = r) as Htail.
  { intros w3 H3. split.
    - pose proof (count_view PendingCounter (URN res) r w3) as Hc. by rewrite H3 in Hc.
    - intros r' ->. apply bind_ok_inv in H3 as (? & ? & _ & H3).
      apply bind_ok_inv in H3 as (? & ? & _ & H3). by injection H3 as <- <-. }
  destruct dry; cbn in H.
  { apply Htail in H as [Hk3 Hr']. split; [unfold ServiceFacts.keeps in *; by rewrite Hk3|].
    intros r' ->%Hr'. exists w2, p, t. by split_and!. }
  destruct (upsert _ _ _ _ _ w2) as [[[]|e|s] w3] eqn:Hu;
    [|injection H as <- <-|by apply upsert_view in Hu].
  2:{ apply upsert_view in Hu. split; [left|done]. etrans; [done|].
      unfold ServiceFacts.keeps. by rewrite Hu. }
  apply Htail in H as [Hk3 Hr'].
  assert (wrote w res act r w') as Hw by (exists w2, w3, p, t; by split_and!).
  split; [right; by exists r|]. intros r' ->%Hr'. exists w2, p, t. by split_and!.
Qed.
End writes.

(** ** Well-founded dependencies *)

Definition deps_of (r : Resource) : gmap string string := gm (Dependencies (res_Spec r)).

(** Two views with the same resources and the same dependencies. *)
Definition same_deps (m m' : gmap string Resource) : Prop :=
  ∀ u, match m !! u, m' !! u with
       | Some x, Some y => deps_of x = deps_of y
       | None, None => True
       | _, _ => False
       end.

Lemma refreshes_same_deps m m' : refreshes m m' → same_deps m m'.
Proof.
  intros H u. specialize (H u). destruct (m !! u), (m' !! u); try done.
  by apply refreshed_fields in H as (_ & _ & _ & _ & _ & _ & _ & _ & _ & H & _).
Qed.

Lemma same_deps_dom m m' : same_deps m m' → dom m = dom m'.
Proof.
  intros H. apply set_eq. intros u. rewrite !elem_of_dom. specialize (H u).
  destruct (m !! u), (m' !! u); naive_solver.
Qed.

(** Every dependency exists and has a smaller rank, and the ranks stay below the
    number of resources. *)
Definition wf_deps (m : gmap string Resource) : Prop :=
  ∃ rank, ranked rank m ∧ ∀ u, rank u = 0%nat ∨ (rank u < size m)%nat.

Lemma wf_deps_empty : wf_deps ∅.
Proof. exists (λ _, 0%nat). split; [|by left]. intros u x k v H. by rewrite lookup_empty in H. Qed.

Lemma wf_deps_same m m' : same_deps m m' → wf_deps m → wf_deps m'.
Proof.
  intros Hs (rank & Hr & Hb). exists rank. split.
  - intros u x k v Hx Hk. pose proof (Hs u) as Hu. rewrite Hx in Hu.
    destruct (m !! u) as [x0|] eqn:Hx0; [|done]. change (deps_of x !! k = Some v) in Hk.
    rewrite <- Hu in Hk. destruct (Hr u x0 k v Hx0 Hk) as [? [y Hy]]. split; [done|].
    specialize (Hs v). rewrite Hy in Hs. destruct (m' !! v); [eauto|done].
  - rewrite <- (size_dom m'), <- (same_deps_dom _ _ Hs), size_dom. done.
Qed.

Lemma wf_deps_insert_new m u x :
  m !! u = None → (∀ k v, deps_of x !! k = Some v → is_Some (m !! v)) →
  wf_deps m → wf_deps (<[u := x]> m).
Proof.
  intros Hu Hx (rank & Hr & Hb).
  assert (∀ v, is_Some (m !! v) → (rank v < size m)%nat) as Hlt.
  { intros v Hv. destruct (Hb v) as [->|]; [|done].
    assert (size m ≠ 0%nat); [|lia]. intros ->%map_size_empty_inv.
    rewrite lookup_empty in Hv. by destruct Hv. }
  exists (λ v, if decide (v = u) then size m else rank v). split.
  - intros u' x' k v Hx' Hk. apply lookup_insert_Some in Hx' as [[<- <-]|[Hne Hx']].
    + destruct (Hx k v Hk) as [y Hy]. rewrite (decide_False (P := v = u)) by congruence.
      rewrite decide_True by done. split; [apply Hlt; eauto|].
      rewrite lookup_insert_is_Some'. eauto.
    + destruct (Hr u' x' k v Hx' Hk) as [? [y Hy]].
      rewrite !decide_False by congruence. split; [done|].
      rewrite lookup_insert_is_Some'. eauto.
  - intros v. rewrite map_size_insert_None by done. case_decide; [lia|].
    destruct (Hb v); lia.
Qed.

Lemma wf_deps_insert_old m u old x :
  m !! u = Some old → deps_of x ⊆ deps_of old → wf_deps m → wf_deps (<[u := x]> m).
Proof.
  intros Hu Hx (rank & Hr & Hb). exists rank. split.
  - intros u' x' k v Hx' Hk. rewrite lookup_insert_is_Some'.
    apply lookup_insert_Some in Hx' as [[<- <-]|[Hne Hx']].
    + apply (lookup_weaken _ (deps_of old)) in Hk; [|done].
      destruct (Hr _ _ _ _ Hu Hk). eauto.
    + destruct (Hr _ _ _ _ Hx' Hk). eauto.
  - intros v. rewrite map_size_insert_Some by eauto. apply Hb.
Qed.

Lemma stored_deps x x' : stored x x' → deps_of x' = deps_of x.
Proof.
  intros (ls & sr & ca & ua & ns & _ & _ & _ & _ & _ & H).
  unfold equiv, Resource_equiv, norm in H. unfold deps_of. by injection H.
Qed.

Lemma updated_deps old x x' : updated old x x' → deps_of x' = deps_of x.
Proof. intros (t & _ & H). by apply stored_deps in H. Qed.

(** ** The service as a transition system *)

Inductive svc_op :=
  | OpGet (urn : string)
  | OpList (f : Filter) (withSpecConfigs : bool)
  | OpGetLog (urn : string) (f : gomap string)
  | OpGetRevisions (sel : RevisionsSelector)
  | OpCreate (res : Resource) (opts : list Options)
  | OpUpdate (urn : string) (req : UpdateRequest) (opts : list Options)
  | OpApply (urn : string) (act : ActionRequest) (opts : list Options)
  | OpDelete (urn : string)
  | OpSync (urn : string).

Section system.
Context {MR : MapRange} {W : Type} (svc : Service W).
Context {SS : StoreSpec (store svc)} {SU : Surroundings svc}.
Variable depth : nat.
Implicit Types (w : W) (u : string) (res r p : Resource).

#[local] Notation keeps := (keeps svc).

(** What a syncer does with the resource it picked: [Store.SyncOne] after
    [fetchResourceForSync]. *)
Definition sync_picked (urn : string) : io W () :=
  cur ← GetByURN (store svc) urn;
  synced ← handleSync svc depth cur;
  Update (store svc) synced false "sync" [].

Definition run_op (o : svc_op) : io W () :=
  match o with
  | OpGet u => _ ← GetResource svc depth u; mret tt
  | OpList f c => _ ← ListResources svc f c; mret tt
  | OpGetLog u f => _ ← GetLog svc depth u f; mret tt
  | OpGetRevisions sel => _ ← GetRevisions svc sel; mret tt
  | OpCreate res opts => _ ← CreateResource svc depth res opts; mret tt
  | OpUpdate u req opts => _ ← UpdateResource svc depth u req opts; mret tt
  | OpApply u act opts => _ ← ApplyAction svc depth u act opts; mret tt
  | OpDelete u => DeleteResource svc depth u
  | OpSync u => sync_picked u
  end.

(** A call of the service with any outcome, or a step of the surroundings
    that leaves resources and dependencies in place (the store moving a sync
    time, time passing). *)
Inductive svc_step : W → W → Prop :=
  | step_op o w : svc_step w (run_op o w).2
  | step_env w w' : same_deps (view w) (view w') → svc_step w w'.

Inductive reachable : W → Prop :=
  | reach_init w : view w = ∅ → reachable w
  | reach_step w w' : reachable w → svc_step w w' → reachable w'.

(** *** The invariant *)

Definition inv w : Prop := wf_deps (view w).
Definition pres : relation W := λ w w', inv w → inv w'.

#[global] Instance pres_preorder : PreOrder pres.
Proof. split; [by intros ??|]. intros w1 w2 w3 H1 H2 H. by apply H2, H1. Qed.

Lemma keeps_pres w w' : keeps w w' → pres w w'.
Proof. intros H. unfold pres, inv. by apply wf_deps_same, refreshes_same_deps. Qed.

Lemma effects_keeps_pres {A} (m : io W A) : effects keeps m → effects pres m.
Proof. intros H w. apply keeps_pres, H. Qed.

(** The store holds a version of the resource with the same dependencies. *)
Definition present w res : Prop :=
  ∃ x, view w !! URN res = Some x ∧ deps_of x = deps_of res.

Lemma present_keeps w w' res : keeps w w' → present w res → present w' res.
Proof.
  intros Hk (x & Hx & Hd). destruct (refreshes_lookup _ _ _ _ Hk Hx) as (y & Hy & Hr).
  exists y. split; [done|]. rewrite <- Hd. symmetry.
  by apply refreshed_fields in Hr as (_ & _ & _ & _ & _ & _ & _ & _ & _ & H & _).
Qed.

Lemma GetResource_present u w res w' :
  GetResource svc depth u w = (Ok res, w') → keeps w w' ∧ present w' res.
Proof.
  intros H. pose proof (effects_run keeps _ _ _ _ (keeps_GetResource svc depth u) H) as Hk.
  split; [done|]. apply (get_at_Ok svc) in H as (x & Hx & Hr).
  apply refreshed_fields in Hr as (Hu & _ & _ & _ & _ & _ & _ & _ & _ & Hd & _).
  assert (URN x = u) as Hxu by by eapply view_URN.
  apply (present_keeps w); [done|]. exists x. split; [congruence|done].
Qed.

Lemma update_pres w p res x' old :
  view w !! URN res = Some old → URN p = URN res → deps_of p ⊆ deps_of res →
  present w res → updated old p x' → inv w → wf_deps (<[URN p := x']> (view w)).
Proof.
  intros Hold Hu Hd (x & Hx & Hxd) Hx' Hinv. apply (wf_deps_insert_old _ _ x); [by rewrite Hu| |done].
  by rewrite (updated_deps _ _ _ Hx'), Hxd.
Qed.

Lemma wrote_pres w res act r w' :
  (isCreate (act_Name act) = false → present w res) →
  wrote svc w res act r w' → pres w w'.
Proof.
  intros Hpres (w1 & w2 & p & t & Hk1 & Hp & -> & Hu & Hk2).
  transitivity w1; [by apply keeps_pres|].
  transitivity w2; [|unfold pres, inv; by rewrite Hk2].
  apply (upsert_view svc (SS := SS)) in Hu.
  assert (deps_of (stamp res act t p) = deps_of p) as Hs by (unfold stamp; by case_match).
  pose proof (planned_deps _ _ _ _ _ Hp : deps_of p ⊆ deps_of res) as Hdeps.
  unfold pres, inv. destruct (isCreate (act_Name act)) eqn:Hc.
  - destruct Hu as (Hnone & x' & Hx' & ->). apply wf_deps_insert_new; [done|].
    rewrite (stored_deps _ _ Hx'), Hs. intros k v Hk.
    apply (lookup_weaken _ (deps_of res)) in Hk; [|done].
    apply (planned_resolved _ _ _ _ _ Hp) in Hk as (d & x & Hx & _). eauto.
  - destruct Hu as (old & x' & Hold & Hx' & ->).
    assert (URN (stamp res act t p) = URN res) as HU.
    { transitivity (URN p); [unfold stamp; by case_match|].
      rewrite (planned_URN _ _ _ _ _ Hp). by rewrite Hc. }
    eapply (update_pres w1 _ res); [by rewrite <- HU|done|by rewrite Hs| |done].
    apply (present_keeps w); [done|auto].
Qed.

Lemma execAction_pres res act dry w :
  (isCreate (act_Name act) = false → present w res) →
  pres w (execAction svc depth res act dry w).2.
Proof.
  intros Hp. destruct (execAction svc depth res act dry w) as [out w'] eqn:H.
  destruct (execAction_cases svc depth _ _ _ _ _ _ H) as [H' _]. cbn.
  destruct dry; [by apply keeps_pres|]. destruct H' as [H'|[r H']]; [by apply keeps_pres|].
  by eapply wrote_pres.
Qed.

Lemma ApplyAction_pres u act opts : effects pres (ApplyAction svc depth u act opts).
Proof.
  intros w. unfold ApplyAction. rewrite run_bind.
  destruct (GetResource svc depth u w) as [[res|e|s] w1] eqn:Hg;
    pose proof (effects_run keeps _ _ _ _ (keeps_GetResource svc depth u) Hg) as Hk;
    [|by apply keeps_pres..].
  destruct (IsTerminal _); cbn [negb]; [|by apply keeps_pres].
  apply GetResource_present in Hg as [_ Hp]. transitivity w1; [by apply keeps_pres|].
  by apply execAction_pres.
Qed.

Lemma CreateResource_pres res opts : effects pres (CreateResource svc depth res opts).
Proof.
  intros w. unfold CreateResource. destruct (Validate true res) as [[e|] r]; [done|].
  by apply execAction_pres.
Qed.

Lemma keeps_sync_failed r err : effects keeps (sync_failed svc r err).
Proof. unfold sync_failed. repeat case_match; auto 10 with effects. Qed.

Lemma keeps_handleSync r : effects keeps (handleSync svc depth r).
Proof.
  unfold handleSync. repeat (apply effects_bind; auto with effects; intros ?).
  - apply (keeps_generateModuleSpec svc).
  - case_match; [apply keeps_sync_failed|]. auto 10 with effects.
Qed.

Lemma sync_failed_same r err w r' w' :
  sync_failed svc r err w = (Ok r', w') → URN r' = URN r ∧ deps_of r' = deps_of r.
Proof.
  unfold sync_failed. intros H. apply bind_ok_inv in H as (? & ? & _ & H).
  repeat case_match; repeat (apply bind_ok_inv in H as (? & ? & _ & H));
    by injection H as <- <-.
Qed.

Lemma handleSync_same r w r' w' :
  handleSync svc depth r w = (Ok r', w') → URN r' = URN r ∧ deps_of r' = deps_of r.
Proof.
  unfold handleSync. intros H. do 5 apply bind_ok_inv in H as (? & ? & _ & H).
  case_match; [by eapply sync_failed_same|].
  do 2 apply bind_ok_inv in H as (? & ? & _ & H). by injection H as <- <-.
Qed.

Lemma sync_picked_pres u : effects pres (sync_picked u).
Proof.
  intros w. unfold sync_picked. rewrite run_bind.
  destruct (GetByURN (store svc) u w) as [[x|e|s] w1] eqn:Hg;
    destruct (GetByURN_view _ _ _ _ _ Hg) as (Hv & _ & Hx); cbn;
    try by (unfold pres, inv; rewrite Hv).
  destruct (Hx x eq_refl) as (Hxu & <- & _). rewrite run_bind.
  destruct (handleSync svc depth x w1) as [[r|e|s] w2] eqn:Hh;
    pose proof (effects_run keeps _ _ _ _ (keeps_handleSync x) Hh) as Hk;
    (transitivity w1; [by unfold pres, inv; rewrite Hv|]);
    [|by apply keeps_pres..].
  transitivity w2; [by apply keeps_pres|]. apply handleSync_same in Hh as [HU Hd].
  pose proof (Update_spec r false "sync" w2) as Hu. unfold pres, inv.
  destruct (Update _ r false "sync" [] w2) as [[[]|e|s] w3]; cbn; [|by rewrite Hu|done].
  destruct Hu as (old & x' & Hold & Hx' & ->).
  apply (update_pres w2 r x x' old); [by rewrite <- HU|done|by rewrite Hd| |done].
  apply (present_keeps w1); [done|]. exists x. by rewrite Hv.
Qed.
End system.
