(* ===== verification/Scheduling.v ===== *)
(** * Scheduling: no resource is forgotten

    A resource that is neither completed nor failed refuses every action
    ([ApplyAction]), so only a sync can move it, and a sync only comes to the
    resources whose next sync has a time.  [settled] says that a resource is
    terminal or has such a time; every call of the resource service keeps it,
    when plans and syncs of the drivers answer with states that have it
    ([Scheduling]). *)

From S2P Require Import Prelude GoLib Errors Resource Module StoreSpec Service ServiceFacts.

#[local] Open Scope Z_scope.

(** A driver's answer is final, or asks for another sync. *)
Definition tended (s : State) : Prop :=
  Status s = StatusCompleted ∨ Status s = StatusPending ∧ is_Some (NextSyncAt s).

Definition settled (s : State) : Prop := tended s ∨ Status s = StatusError.

Definition all_settled (m : gmap string Resource) : Prop :=
  ∀ u x, m !! u = Some x → settled (res_State x).

(** Two views that differ in when the next syncs are: what workers do to the
    resources they hold. *)
Definition rescheduled (x y : Resource) : Prop :=
  Status (res_State x) = Status (res_State y) ∧
  (is_Some (NextSyncAt (res_State x)) → is_Some (NextSyncAt (res_State y))).

Definition moves (m m' : gmap string Resource) : Prop :=
  ∀ u y, m' !! u = Some y → ∃ x, m !! u = Some x ∧ rescheduled x y.

(** What the service relies on: a plan for a resource and the state that a sync
    returns are tended. *)
Class Scheduling {W : Type} (svc : Service W) : Prop := {
  plan_tended : ∀ e act w r w', ms_PlanAction (moduleSvc svc) e act w = (Ok r, w') →
    Kind r = "" ∨ tended (res_State r);
  sync_tended : ∀ e w s w', ms_SyncState (moduleSvc svc) e w = (Ok s, w') → tended s;
}.

(** ** Settled states *)

Lemma settled_rescheduled x y : rescheduled x y → settled (res_State x) → settled (res_State y).
Proof. intros [Hs Hn]. unfold settled, tended. rewrite Hs. naive_solver. Qed.

Lemma moves_settled m m' : moves m m' → all_settled m → all_settled m'.
Proof. intros Hm Hs u y (x & Hx & Hr)%Hm. by eapply settled_rescheduled, (Hs u). Qed.

#[export] Instance rescheduled_preorder : PreOrder rescheduled.
Proof. split; [by intros x|]. intros x y z [H1 H1'] [H2 H2']. split; [congruence|auto]. Qed.

#[export] Instance moves_preorder : PreOrder moves.
Proof.
  split; [intros m u y Hy; by exists y|]. intros m1 m2 m3 H1 H2 u z (y & Hy & Hyz)%H2.
  apply H1 in Hy as (x & Hx & Hxy). exists x. split; [done|by etrans].
Qed.

Lemma refreshes_moves m m' : refreshes m m' → moves m m'.
Proof.
  intros Hr u y Hy. specialize (Hr u). rewrite Hy in Hr. destruct (m !! u) as [x|]; [|done].
  exists x. split; [done|].
  apply refreshed_fields in Hr as (_ & _ & _ & _ & _ & _ & _ & _ & _ & _ & Hs & Hn & _).
  split; [done|by rewrite Hn].
Qed.

Lemma all_settled_insert m u x : all_settled m → settled (res_State x) → all_settled (<[u := x]> m).
Proof. intros Hm Hx v y [[_ <-]|[_ Hy]]%lookup_insert_Some; [done|by eapply Hm]. Qed.

(** Storing keeps the status and whether there is a next sync. *)
Lemma stored_rescheduled x x' : stored x x' → rescheduled x x'.
Proof.
  intros (ls & sr & ca & ua & ns & _ & _ & _ & _ & Hns & H).
  pose proof (f_equal (λ r, Status (res_State r)) H) as Hs.
  pose proof (f_equal (λ r, NextSyncAt (res_State r)) H) as Hn. cbn in Hs, Hn.
  split; [by rewrite Hs|]. intros [t Ht]. rewrite Hn. unfold rounds_opt in Hns.
  rewrite Ht in Hns. by destruct ns.
Qed.

Lemma updated_rescheduled old x x' : updated old x x' → rescheduled x x'.
Proof. intros (t & _ & H). by apply stored_rescheduled in H. Qed.

(** ** The calls of the service *)

Section scheduling.
Context {MR : MapRange} {W : Type} (svc : Service W).
Context {SS : StoreSpec (store svc)} {SU : Surroundings svc} {SC : Scheduling svc}.
Variable depth : nat.
Implicit Types (w : W) (res r : Resource).

#[local] Notation keeps := (keeps svc).

(** The relation every call keeps. *)
Definition settles : relation W := λ w w', all_settled (view w) → all_settled (view w').

#[global] Instance settles_preorder : PreOrder settles.
Proof. split; [by intros w ?|]. intros w1 w2 w3 H1 H2 H. by apply H2, H1. Qed.

Lemma moves_settles w w' : moves (view w) (view w') → settles w w'.
Proof. intros H. unfold settles. by apply moves_settled. Qed.

Lemma keeps_settles w w' : keeps w w' → settles w w'.
Proof. intros H. by apply moves_settles, refreshes_moves. Qed.

Lemma effects_keeps_settles {A} (m : io W A) : effects keeps m → effects settles m.
Proof. intros H w. apply keeps_settles, H. Qed.

Lemma write_settles w w' m res x' :
  moves (view w) m → rescheduled res x' → settled (res_State res) →
  view w' = <[URN res := x']> m → settles w w'.
Proof.
  intros Hm Hx Hs Hv Hw. rewrite Hv. apply all_settled_insert; [by eapply moves_settled|].
  by eapply settled_rescheduled.
Qed.

Lemma planned_settled w res act p : planned svc w res act p → settled (res_State p).
Proof.
  intros [_ _ _ _ _ _ (e & q & w0 & w1 & Hp & Hk & Hst)]. left.
  apply plan_tended in Hp as [Hk'|Ht]; [done|]. rewrite Hst; [done|].
  by destruct Ht as [->|[-> _]].
Qed.

Lemma wrote_settles w res act r w' : wrote svc w res act r w' → settles w w'.
Proof.
  intros (w1 & w2 & p & t & Hk & Hp & -> & Hu & Hv). transitivity w1; [by apply keeps_settles|].
  apply planned_settled in Hp. apply (upsert_view svc) in Hu.
  assert (res_State (stamp res act t p) = res_State p) as Hs by (unfold stamp; by case_match).
  destruct (isCreate _); [destruct Hu as (_ & x' & Hx' & Hu)|destruct Hu as (old & x' & _ & Hx' & Hu)];
    eapply (write_settles _ _ (view w1) (stamp res act t p) x'); try done; try (by rewrite Hs);
    try (by rewrite Hv); [by apply stored_rescheduled|by eapply updated_rescheduled].
Qed.

Lemma execAction_settles res act dry : effects settles (execAction svc depth res act dry).
Proof.
  intros w. destruct (execAction svc depth res act dry w) as [out w'] eqn:H.
  destruct (execAction_cases svc depth _ _ _ _ _ _ H) as [H' _]. cbn.
  destruct dry; [by apply keeps_settles|].
  destruct H' as [H'|[r H']]; [by apply keeps_settles|by eapply wrote_settles].
Qed.
#[local] Hint Resolve execAction_settles : effects.

Lemma ApplyAction_settles u act opts : effects settles (ApplyAction svc depth u act opts).
Proof.
  unfold ApplyAction. apply effects_bind; [exact _|by apply effects_keeps_settles, keeps_GetResource|].
  intros res. case_match; auto with effects.
Qed.

Lemma CreateResource_settles res opts : effects settles (CreateResource svc depth res opts).
Proof. unfold CreateResource. destruct (Validate true res) as [[e|] r]; auto with effects. Qed.

(** A sync that is given a settled resource returns one. *)
Lemma sync_failed_settled r err w r' w' :
  sync_failed svc r err w = (Ok r', w') → settled (res_State r) → settled (res_State r').
Proof.
  unfold sync_failed. intros H Hr. apply bind_ok_inv in H as (? & ? & _ & H).
  repeat case_match; repeat (apply bind_ok_inv in H as (? & ? & _ & H));
    injection H as <- <-; [by right|by right|].
  unfold settled, tended in *. cbn. destruct Hr as [[Hr|[Hr _]]|Hr]; rewrite Hr; eauto.
Qed.

Lemma handleSync_settled r w r' w' :
  handleSync svc depth r w = (Ok r', w') → settled (res_State r) → settled (res_State r').
Proof.
  unfold handleSync. intros H Hr. do 4 apply bind_ok_inv in H as (? & ? & _ & H).
  apply bind_ok_inv in H as (out & w1 & Ha & H). destruct out as [err|s].
  - by eapply sync_failed_settled.
  - do 2 apply bind_ok_inv in H as (? & ? & _ & H). injection H as <- <-. left. cbn.
    unfold attempt in Ha. destruct (ms_SyncState _ _ _) as [[s'|e|p] w2] eqn:Hs; simplify_eq.
    by eapply sync_tended.
Qed.

(** Syncing a settled resource and storing what comes of it. *)
Lemma sync_and_store_settles r w :
  settled (res_State r) →
  settles w ((synced ← handleSync svc depth r; Update (store svc) synced false "sync" []) w).2.
Proof.
  intros Hr. rewrite run_bind. destruct (handleSync svc depth r w) as [[r'|e|s] w1] eqn:Hh;
    pose proof (effects_run keeps _ _ _ _ (keeps_handleSync svc depth r) Hh) as Hk;
    [|by apply keeps_settles..].
  apply handleSync_settled in Hh; [|done]. transitivity w1; [by apply keeps_settles|].
  pose proof (Update_spec r' false "sync" w1) as Hu.
  destruct (Update _ r' false "sync" [] w1) as [[[]|e|s] w2]; [| |done]; cbn [snd].
  - destruct Hu as (old & x' & _ & Hx' & Hv).
    by eapply (write_settles _ _ (view w1) r' x'); [|eapply updated_rescheduled|..].
  - apply moves_settles. by rewrite Hu.
Qed.

Lemma sync_picked_settles u : effects settles (sync_picked svc depth u).
Proof.
  intros w. unfold sync_picked. rewrite run_bind.
  destruct (GetByURN (store svc) u w) as [[x|e|s] w1] eqn:Hg;
    destruct (GetByURN_view _ _ _ _ _ Hg) as (Hv & _ & Hx); cbn;
    [|by apply moves_settles; rewrite Hv..].
  intros Hs. destruct (Hx x eq_refl) as (Hxu & _). apply sync_and_store_settles; [by eapply Hs|].
  by rewrite Hv.
Qed.

Lemma run_op_settles o : effects settles (run_op svc depth o).
Proof.
  assert (∀ A (m : io W A), effects settles m → effects settles (_ ← m; mret tt)) as Hk
    by (intros A m Hm; apply effects_bind; auto with effects).
  destruct o as [u|f b|u f|sel|res opts|u req opts|u act opts|u|u]; cbn [run_op].
  - apply Hk, effects_keeps_settles, keeps_GetResource, SU.
  - apply Hk, effects_keeps_settles. unfold ListResources.
    apply effects_bind; [exact _| |auto with effects]. apply effects_catch, keeps_view, List_view.
  - apply Hk, effects_keeps_settles. unfold GetLog.
    apply effects_bind; [exact _|apply keeps_GetResource, SU|].
    intros res. apply effects_bind; [exact _|apply keeps_generateModuleSpec, SU|]. auto with effects.
  - apply Hk, effects_keeps_settles, effects_catch, keeps_view, Revisions_view.
  - apply Hk, CreateResource_settles.
  - apply Hk. unfold UpdateResource. repeat case_match; auto with effects. apply ApplyAction_settles.
  - apply Hk, ApplyAction_settles.
  - apply Hk, ApplyAction_settles.
  - apply sync_picked_settles.
Qed.
End scheduling.
