(* ===== verification/PendingSteps.v ===== *)
(** * PendingSteps: a bound on the work of a sync

    What a resource still has to do is in its state: the module data hold the
    steps that are pending, the sync result the retries of the one at hand.
    [within M k] bounds both by [k] syncs.  A sync that answers takes one off
    the bound, and no call of the service touches what a pending resource still
    has to do. *)

From S2P Require Import Prelude GoLib Errors Resource Module Json StoreSpec Service ServiceFacts.

#[local] Open Scope Z_scope.

(** ** What is left to do *)

(** The module data of firehoses, daggers and, without the second field, jobs. *)
Definition transient_doc (steps : list string) (reset : string) : json :=
  obj [mem "pending_steps" (enc_slice JStr (Some steps));
       omit (no_str reset) "reset_offset_to" (JStr reset)].

Lemma transient_doc_wf steps reset :
  Forall (λ s, valid_utf8 s = true) steps → valid_utf8 reset = true →
  json_wf (transient_doc steps reset) = true.
Proof.
  intros Hs Hr.
  assert (forallb json_texts (JStr <$> steps) = true ∧
    foldr (λ x n, max (json_depth x) n) 0%nat (JStr <$> steps) = 0%nat) as [H1 H2].
  { induction Hs as [|s l Hs _ [I1 I2]]; [done|].
    cbn. rewrite Hs. split; [exact I1|]. by rewrite I2. }
  unfold json_wf, transient_doc, obj. cbn [enc_slice].
  destruct (no_str reset); cbn [concat app omit mem json_texts json_depth forallb foldr fst snd];
    rewrite H1, H2, ?Hr; reflexivity.
Qed.

Definition holds_steps {GJ : GoJSON} (data : RawMessage) (steps : list string) : Prop :=
  raw_bytes data = "" ∧ steps = [] ∨
  ∃ reset, valid_utf8 reset = true ∧ Forall (λ s, valid_utf8 s = true) steps ∧
    raw_bytes data = json_print (transient_doc steps reset).

Section bound.
Context {GJ : GoJSON}.

(** What a driver reads of them. *)
Lemma holds_steps_read data steps :
  holds_steps data steps →
  (raw_len data =? 0)%nat = true ∧ steps = [] ∨
  ∃ reset, valid_utf8 reset = true ∧ Forall (λ s, valid_utf8 s = true) steps ∧
    (raw_len data =? 0)%nat = false ∧
    ∀ A (d : dec A) old, Unmarshal d data old = d (transient_doc steps reset) old.
Proof.
  intros [[Hd ->]|(reset & Hr & Hs & Hd)]; [left; unfold raw_len; by rewrite Hd|right].
  pose proof (transient_doc_wf steps reset Hs Hr) as Hw. exists reset. split_and!; [done..| |].
  - unfold raw_len. rewrite Hd. apply Nat.eqb_neq. exact (json_print_nonempty _ Hw).
  - intros A d old. unfold Unmarshal. rewrite Hd, json_parse_print; done.
Qed.

Lemma holds_steps_print steps reset :
  valid_utf8 reset = true → Forall (λ s, valid_utf8 s = true) steps →
  holds_steps (MustJSON (transient_doc steps reset)) steps.
Proof. intros Hr Hs. right. by exists reset. Qed.

(** A state a driver answers with: completed, or pending with less than [n]
    steps to go and no retry. *)
Definition fresh (n : nat) (s : State) : Prop :=
  ∃ steps, holds_steps (ModuleData s) steps ∧
    (Status s = StatusCompleted ∧ steps = [] ∨
     Status s = StatusPending ∧ st_SyncResult s = SyncResult_zero ∧ (length steps < n)%nat).

(** No more than [k] syncs to go, of which each step takes [M] at most. *)
Definition within (M k : Z) (s : State) : Prop :=
  ∃ steps, holds_steps (ModuleData s) steps ∧ (length steps ≤ 3)%nat ∧
    (Status s = StatusCompleted ∨ Status s = StatusError ∨
     Status s = StatusPending ∧ 0 ≤ Retries (st_SyncResult s) < M ∧
     Z.of_nat (length steps) * M + (M - Retries (st_SyncResult s)) ≤ k).

Lemma fresh_within M n s : 0 < M → (n ≤ 4)%nat → fresh n s → within M (Z.of_nat n * M) s.
Proof.
  intros HM Hn (steps & Hd & [[Hs ->]|(Hs & Hr & Hl)]); [exists []; cbn; auto with lia|].
  exists steps. rewrite Hr. cbn. split_and!; [done|lia|]. right; right. split_and!; [done|lia..|nia].
Qed.

Lemma within_le M k k' s : k ≤ k' → within M k s → within M k' s.
Proof.
  intros Hk (steps & Hd & Hl & Hs). exists steps. split_and!; [done..|].
  destruct Hs as [|[|(? & ? & ?)]]; auto. right; right. split_and!; [done|lia..].
Qed.

Lemma within_pending M k s : within M k s → Status s = StatusPending → 0 < k.
Proof. intros (steps & _ & _ & [->|[->|(_ & H1 & H2)]]); [done|done|]. intros _. nia. Qed.

(** The part of the state that says so. *)
Definition same_work (s s' : State) : Prop :=
  Status s' = Status s ∧ raw_bytes (ModuleData s') = raw_bytes (ModuleData s) ∧
  Retries (st_SyncResult s') = Retries (st_SyncResult s).

#[export] Instance same_work_preorder : PreOrder same_work.
Proof. split; [by intros s|]. intros s1 s2 s3 (? & ? & ?) (? & ? & ?). unfold same_work. by split_and!; etrans. Qed.

Lemma same_work_within M k s s' : same_work s s' → within M k s → within M k s'.
Proof.
  intros (Hs & Hd & Hr) (steps & Hh & Hl & H). exists steps. unfold holds_steps in *.
  rewrite Hs, Hd, Hr. by split_and!.
Qed.
End bound.

(** ** What the store keeps of it *)

Lemma equiv_same_work (x y : Resource) : x ≡ y → same_work (res_State x) (res_State y).
Proof.
  unfold equiv, Resource_equiv, norm. intros H.
  pose proof (f_equal res_State H) as Hs. cbn in Hs. unfold norm_State in Hs.
  split_and!; [exact (f_equal Status (eq_sym Hs))| |].
  - pose proof (f_equal ModuleData Hs) as Hm. cbn in Hm. by injection Hm.
  - exact (f_equal (λ s, Retries (st_SyncResult s)) (eq_sym Hs)).
Qed.

Lemma refreshed_same_work x y : refreshed x y → same_work (res_State x) (res_State y).
Proof. intros H. exact (equiv_same_work _ _ H). Qed.

(** Only the retries of a pending resource are bounded, and only bounded
    retries are stored as they are. *)
Section stored_bound.
Context {GJ : GoJSON}.

Lemma stored_within M k x x' : M < 2 ^ 63 →
  stored x x' → within M k (res_State x) → within M k (res_State x').
Proof.
  intros HM (ls & sr & ca & ua & ns & _ & [_ Hsr] & _ & _ & _ & H) (steps & Hh & Hl & Hs).
  symmetry in H. apply equiv_same_work in H as (Hst & Hd & Hr). cbn in Hst, Hd, Hr.
  exists steps. unfold holds_steps in *. rewrite Hst, Hd, Hr. split_and!; [done..|].
  destruct Hs as [|[|(? & ? & ?)]]; auto. right; right. rewrite Hsr by lia. auto.
Qed.

Lemma updated_within M k old x x' : M < 2 ^ 63 →
  updated old x x' → within M k (res_State x) → within M k (res_State x').
Proof. intros HM (t & _ & H) Hw. eapply stored_within in H; [exact H|done|exact Hw]. Qed.
End stored_bound.

(** ** The calls of the service *)

(** What the service relies on: a plan has three steps at most, and a sync takes
    the first of the steps that its resource holds. *)
Class Stepping {GJ : GoJSON} {W : Type} (svc : Service W) : Prop := {
  plan_fresh : ∀ e act w r w', ms_PlanAction (moduleSvc svc) e act w = (Ok r, w') →
    Kind r = "" ∨ fresh 4 (res_State r);
  sync_fresh : ∀ e w s w' steps, ms_SyncState (moduleSvc svc) e w = (Ok s, w') →
    holds_steps (ModuleData (res_State (exr_Resource e))) steps → fresh (length steps) s;
}.

Definition is_pending (x : Resource) : Prop := Status (res_State x) = StatusPending.

#[export] Instance is_pending_dec x : Decision (is_pending x).
Proof. unfold is_pending. apply _. Defined.

(** [m'] has what [m] has, pending resources with the same work to do. *)
Definition waits (m m' : gmap string Resource) : Prop :=
  ∀ u x, m !! u = Some x → is_pending x →
    ∃ y, m' !! u = Some y ∧ same_work (res_State x) (res_State y).

#[export] Instance waits_preorder : PreOrder waits.
Proof.
  split; [by intros m u x Hx _; exists x|]. intros m1 m2 m3 H1 H2 u x Hx Hp.
  destruct (H1 u x Hx Hp) as (y & Hy & Hxy).
  destruct (H2 u y Hy) as (z & Hz & Hyz); [unfold is_pending; by rewrite (proj1 Hxy)|].
  exists z. split; [done|by etrans].
Qed.

Lemma waits_insert m u x : (∀ y, m !! u = Some y → ¬ is_pending y) → waits m (<[u := x]> m).
Proof.
  intros Hu v y Hy Hp. exists y. split; [|done]. rewrite lookup_insert_ne; [done|].
  intros ->. by apply (Hu y).
Qed.

Section service.
Context {GJ : GoJSON} {MR : MapRange} {W : Type} (svc : Service W).
Context {SS : StoreSpec (store svc)} {SU : Surroundings svc} {SP : Stepping svc}.
Variable depth : nat.
Implicit Types (w : W) (res r : Resource).

#[local] Notation M := (maxSyncRetries svc).
#[local] Notation keeps := (keeps svc).
Hypothesis HM : 0 < M < 2 ^ 63.

Definition all_within (m : gmap string Resource) : Prop :=
  ∀ u x, m !! u = Some x → within M (4 * M) (res_State x).

(** The relation every call but a sync keeps. *)
Definition goes_on : relation W := λ w w',
  waits (view w) (view w') ∧ (all_within (view w) → all_within (view w')).

#[global] Instance goes_on_preorder : PreOrder goes_on.
Proof. split; [by intros w|]. intros w1 w2 w3 [H1 H1'] [H2 H2']. split; [by etrans|auto]. Qed.

Lemma refreshes_waits m m' : refreshes m m' → waits m m'.
Proof.
  intros Hk u x Hx _. destruct (refreshes_lookup _ _ _ _ Hk Hx) as (y & Hy & Hr).
  exists y. split; [done|by apply refreshed_same_work].
Qed.

Lemma refreshes_within m m' : refreshes m m' → all_within m → all_within m'.
Proof.
  intros Hk Hw u y Hy. specialize (Hk u). rewrite Hy in Hk. destruct (m !! u) as [x|] eqn:Hx; [|done].
  eapply same_work_within; [by apply refreshed_same_work|by eapply Hw].
Qed.

Lemma keeps_goes_on w w' : keeps w w' → goes_on w w'.
Proof. intros Hk. split; [by apply refreshes_waits|by apply refreshes_within]. Qed.

Lemma effects_keeps_goes_on {A} (m : io W A) : effects keeps m → effects goes_on m.
Proof. intros H w. apply keeps_goes_on, H. Qed.

Lemma all_within_insert m u x :
  all_within m → within M (4 * M) (res_State x) → all_within (<[u := x]> m).
Proof. intros Hm Hx v y [[_ <-]|[_ Hy]]%lookup_insert_Some; [done|by eapply Hm]. Qed.

Lemma planned_within w res act p : planned svc w res act p → within M (4 * M) (res_State p).
Proof using SP HM.
  intros [_ _ _ _ _ _ (e & q & w0 & w1 & Hp & Hk & Hst)].
  apply plan_fresh in Hp as [Hk'|Hf]; [done|]. rewrite Hst.
  - apply (fresh_within M 4); [lia..|done].
  - by destruct Hf as (steps & _ & [[-> _]|[-> _]]).
Qed.

(** The stored version of a resource on which an action may run is not pending. *)
Definition actionable w res : Prop := ∀ x, view w !! URN res = Some x → ¬ is_pending x.

Lemma actionable_keeps w w' res : keeps w w' → actionable w res → actionable w' res.
Proof.
  intros Hk Ha y Hy. specialize (Hk (URN res)). rewrite Hy in Hk.
  destruct (view w !! URN res) as [x|] eqn:Hx; [|done]. unfold is_pending.
  rewrite (proj1 (refreshed_same_work _ _ Hk)). by apply Ha.
Qed.

Lemma wrote_goes_on w res act r w' :
  (isCreate (act_Name act) = false → actionable w res) → wrote svc w res act r w' → goes_on w w'.
Proof using SU SP HM.
  intros Ha (w1 & w2 & p & t & Hk & Hp & -> & Hu & Hv). transitivity w1; [by apply keeps_goes_on|].
  pose proof (planned_within _ _ _ _ Hp) as Hw. pose proof (planned_URN _ _ _ _ _ Hp) as HU.
  apply (upsert_view svc) in Hu. unfold goes_on. rewrite Hv.
  assert (res_State (stamp res act t p) = res_State p ∧ URN (stamp res act t p) = URN p) as [Hs Hus]
    by (unfold stamp; by case_match).
  rewrite <- Hs in Hw. destruct (isCreate _) eqn:Hc.
  - destruct Hu as (Hn & x' & Hx' & ->). split.
    + apply waits_insert. by rewrite Hn.
    + intros Hall. apply all_within_insert; [done|]. eapply stored_within; [apply HM|done..].
  - destruct Hu as (old & x' & Hold & Hx' & ->). split.
    + apply waits_insert. rewrite Hus, HU. apply (actionable_keeps w); [done|auto].
    + intros Hall. apply all_within_insert; [done|]. eapply updated_within; [apply HM|done..].
Qed.

Lemma execAction_goes_on res act dry w :
  (isCreate (act_Name act) = false → actionable w res) →
  goes_on w (execAction svc depth res act dry w).2.
Proof using SU SP HM.
  intros Ha. destruct (execAction svc depth res act dry w) as [out w'] eqn:H.
  destruct (execAction_cases svc depth _ _ _ _ _ _ H) as [H' _]. cbn.
  destruct dry; [by apply keeps_goes_on|].
  destruct H' as [H'|[r H']]; [by apply keeps_goes_on|by eapply wrote_goes_on].
Qed.

Lemma ApplyAction_goes_on u act opts : effects goes_on (ApplyAction svc depth u act opts).
Proof using SU SP HM.
  intros w. unfold ApplyAction. rewrite run_bind.
  destruct (GetResource svc depth u w) as [[res|e|s] w1] eqn:Hg;
    pose proof (effects_run keeps _ _ _ _ (keeps_GetResource svc depth u) Hg) as Hk;
    [|by apply keeps_goes_on..].
  destruct (IsTerminal _) eqn:Ht; cbn [negb]; [|by apply keeps_goes_on].
  transitivity w1; [by apply keeps_goes_on|]. apply execAction_goes_on. intros _.
  apply (get_at_Ok svc) in Hg as (x & Hx & Hr).
  apply (actionable_keeps w); [done|]. intros y Hy Hp.
  pose proof (refreshed_fields _ _ Hr) as (Hu & _).
  assert (URN x = u) as Hxu by by eapply view_URN.
  assert (y = x) as -> by congruence.
  unfold is_pending in Hp. rewrite <- (proj1 (refreshed_same_work _ _ Hr)) in Hp.
  unfold IsTerminal in Ht. by rewrite Hp in Ht.
Qed.

Lemma CreateResource_goes_on res opts : effects goes_on (CreateResource svc depth res opts).
Proof using SU SP HM.
  intros w. unfold CreateResource. destruct (Validate true res) as [[e|] r]; [done|].
  by apply execAction_goes_on.
Qed.

(** A call is any operation but a sync. *)
Definition is_call (o : svc_op) : Prop := match o with OpSync _ => False | _ => True end.

Lemma run_op_goes_on o w : is_call o → goes_on w (run_op svc depth o w).2.
Proof using SU SP HM.
  assert (∀ A (m : io W A), effects goes_on m → effects goes_on (_ ← m; mret tt)) as Hm
    by (intros A m Hm; apply effects_bind; auto with effects).
  destruct o as [u|f b|u f|sel|res opts|u req opts|u act opts|u|u]; cbn [run_op is_call]; [..|done];
    intros _; revert w.
  - apply Hm, effects_keeps_goes_on, keeps_GetResource, SU.
  - apply Hm, effects_keeps_goes_on. unfold ListResources.
    apply effects_bind; [exact _| |auto with effects]. apply effects_catch, keeps_view, List_view.
  - apply Hm, effects_keeps_goes_on. unfold GetLog.
    apply effects_bind; [exact _|apply keeps_GetResource, SU|].
    intros res. apply effects_bind; [exact _|apply keeps_generateModuleSpec, SU|]. auto with effects.
  - apply Hm, effects_keeps_goes_on, effects_catch, keeps_view, Revisions_view.
  - apply Hm, CreateResource_goes_on.
  - apply Hm. unfold UpdateResource. repeat case_match; auto with effects. apply ApplyAction_goes_on.
  - apply Hm, ApplyAction_goes_on.
  - apply Hm, ApplyAction_goes_on.
Qed.

(** ** Syncing *)

Lemma sync_failed_within r err w r' w' k :
  sync_failed svc r err w = (Ok r', w') → within M k (res_State r) →
  within M (if decide (is_pending r) then k - 1 else k) (res_State r').
Proof using HM.
  unfold sync_failed. intros H (steps & Hh & Hl & Hs). apply bind_ok_inv in H as (? & ? & _ & H).
  exists steps. assert (ModuleData (res_State r') = ModuleData (res_State r)) as Hd.
  { repeat case_match; repeat (apply bind_ok_inv in H as (? & ? & _ & H)); by injection H as <- <-. }
  rewrite Hd. split_and!; [done..|].
  destruct (errors_Is err (EErr ErrInvalid)).
  { apply bind_ok_inv in H as (? & ? & _ & H). injection H as <- <-. auto. }
  destruct (_ && _) eqn:Hmax; apply bind_ok_inv in H as (? & ? & _ & H);
    injection H as <- <-; [by auto|]. cbn.
  destruct Hs as [|[|(Hp & Hr & Hk)]]; [auto..|]. right; right.
  rewrite wrap64_id in * by lia. rewrite decide_True by done.
  split_and!; [done|lia..].
Qed.

(** A sync of a pending resource takes one off its bound. *)
Lemma handleSync_within r w r' w' k :
  handleSync svc depth r w = (Ok r', w') → k ≤ 4 * M → within M k (res_State r) →
  within M (if decide (is_pending r) then k - 1 else 4 * M) (res_State r').
Proof using SU SP HM.
  unfold handleSync. intros H Hk Hw. do 3 apply bind_ok_inv in H as (? & ? & _ & H).
  apply bind_ok_inv in H as (e & w0 & He & H).
  apply (resolve_deps_Ok svc) in He as [He _];
    [|intros ?; apply (keeps_get_at svc)|intros ????; apply (get_at_Ok svc)].
  apply bind_ok_inv in H as (out & w1 & Ha & H). destruct out as [err|s].
  - eapply sync_failed_within in H; [|done]. case_decide; [done|by eapply within_le].
  - do 2 apply bind_ok_inv in H as (? & ? & _ & H). injection H as <- <-. cbn.
    unfold attempt in Ha. destruct (ms_SyncState _ _ _) as [[s'|e'|p] w2] eqn:Hs; simplify_eq.
    destruct Hw as (steps & Hh & Hl & Hst).
    eapply sync_fresh in Hs; [|exact Hh].
    apply (fresh_within M) in Hs; [|lia..]. eapply within_le; [|exact Hs].
    case_decide as Hp; [|nia]. unfold is_pending in Hp. rewrite Hp in Hst.
    destruct Hst as [[=]|[[=]|(_ & ? & ?)]]. nia.
Qed.
End service.
