(* ===== verification/ServiceProps.v ===== *)
(** * ServiceProps: the theorems about [core]

    The properties of the resource service, from the lemmas of ServiceFacts.v,
    and the in-memory service on which their witnesses run. *)

From S2P Require Import Prelude GoLib Errors Resource Module StoreSpec Service ServiceFacts.
From Stdlib Require Import Ascii.

#[local] Open Scope Z_scope.

(** ** An in-memory store and service *)

Definition clean_key (k : string) : Prop := "="%char ∉ chars k.

Definition demo_sync (r : SyncResult) : SyncResult :=
  mkSyncResult (if (- 2 ^ 63 <=? Retries r) && (Retries r <? 2 ^ 63) then Retries r else 0) (utf8_or_empty (LastError r)).

Lemma demo_sync_clean r : clean_sync (demo_sync r) = true.
Proof.
  unfold clean_sync, demo_sync. cbn [LastError Retries]. rewrite utf8_or_empty_valid. cbn [andb].
  destruct ((- 2 ^ 63 <=? Retries r) && (Retries r <? 2 ^ 63)) eqn:H; [exact H|done].
Qed.

Lemma demo_sync_kept r : sync_kept r (demo_sync r).
Proof.
  assert (- 2 ^ 63 ≤ Retries r < 2 ^ 63 → Retries (demo_sync r) = Retries r) as Hr.
  { intros H. unfold demo_sync. cbn [Retries]. case_match; lia. }
  split; [|done]. destruct r as [n e]. unfold clean_sync. cbn [Retries LastError].
  intros [[Hu H1]%andb_prop H2]%andb_prop. unfold demo_sync in *. cbn [Retries LastError] in *.
  rewrite Hr by lia. unfold utf8_or_empty. by rewrite Hu.
Qed.

(** A row keeps what a database keeps. *)
Definition demo_row (u : string) (x : Resource) : Resource :=
  set_stamps (round_us (CreatedAt x)) (round_us (UpdatedAt x)) (CreatedBy x) (UpdatedBy x)
    (set_State
       (set_NextSyncAt (round_us <$> NextSyncAt (res_State x))
          (set_SyncResult
             (demo_sync (st_SyncResult (res_State x))) (res_State x)))
       (set_Labels (Some (filter (λ kv, clean_key kv.1) (gm (Labels x)))) (set_URN u x))).

Definition demo_view (w : gmap string Resource) : gmap string Resource :=
  map_imap (λ u x, Some (demo_row u x)) w.

Lemma demo_view_lookup w u : demo_view w !! u = demo_row u <$> w !! u.
Proof. unfold demo_view. rewrite map_lookup_imap. by destruct (w !! u). Qed.

Lemma demo_view_insert w u x : demo_view (<[u := x]> w) = <[u := demo_row u x]> (demo_view w).
Proof.
  apply map_eq. intros v. rewrite demo_view_lookup, !lookup_insert.
  case_decide; [by subst|]. by rewrite demo_view_lookup.
Qed.

Definition demo_store : Store (gmap string Resource) := {|
  GetByURN u w :=
    match demo_view w !! u with
    | Some x => (Ok x, w)
    | None => (Err (EErr ErrNotFound), w)
    end;
  List_ f _ w := (Ok (map_to_list (demo_view w)).*2, w);
  Create x _ w :=
    match w !! URN x with
    | Some _ => (Err (EErr ErrConflict), w)
    | None => (Ok tt, <[URN x := x]> w)
    end;
  Update x _ _ _ w :=
    match w !! URN x with
    | None => (Err (EErr ErrNotFound), w)
    | Some old =>
        (Ok tt, <[URN x := set_stamps (round_us (CreatedAt old)) 7000 (CreatedBy old) (UpdatedBy x)
                             (set_identity (Kind old) (Name old) (Project old) x)]> w)
    end;
  Delete u _ w := (Ok tt, w);
  Revisions _ w := (Ok [], w);
  SyncOne _ _ w := (Ok tt, w);
|}.

Lemma demo_stored x : stored x (demo_row (URN x) x).
Proof.
  eexists (Some _), _, _, _, _. split_and!; cycle 2.
  1,2: apply round_us_spec.
  1: instantiate (1 := round_us <$> NextSyncAt (res_State x));
    destruct (NextSyncAt (res_State x)); [apply round_us_spec|done].
  1: unfold demo_row; destruct x; reflexivity.
  - intros Hc. cbn. apply map_filter_id. intros k v Hk. by eapply Hc.
  - apply demo_sync_kept.
Qed.

Lemma demo_clean u x : clean (demo_row u x).
Proof.
  split; cbn.
  - intros k v. cbn. by intros [_ ?]%map_lookup_filter_Some.
  - apply demo_sync_clean.
  - apply round_us_spec.
  - apply round_us_spec.
  - intros t. destruct (NextSyncAt (res_State x)); cbn; [|done]. intros [= <-]. apply round_us_spec.
Qed.

#[export] Instance demo_store_spec : StoreSpec demo_store.
Proof.
  refine {| view := demo_view |}.
  - intros w u x. rewrite demo_view_lookup. destruct (w !! u); [|done]. by intros [= <-].
  - intros w u x. rewrite demo_view_lookup. destruct (w !! u); [|done]. intros [= <-].
    apply demo_clean.
  - intros u w. cbn. destruct (demo_view w !! u); by split.
  - intros x w. cbn. destruct (w !! URN x) eqn:Hx; [done|]. rewrite demo_view_lookup, Hx.
    split; [done|]. exists (demo_row (URN x) x). split; [apply demo_stored|].
    apply demo_view_insert.
  - intros x b reason w. cbn. destruct (w !! URN x) as [old|] eqn:Hx; [|done].
    rewrite demo_view_lookup, Hx. eexists _, _. split_and!; [done| |apply demo_view_insert].
    exists 7000. split; [done|]. cbn.
    set (y := set_stamps _ _ _ _ _). change (URN x) with (URN y). apply demo_stored.
  - done.
  - done.
Defined.

(** A driver that completes every action at once; [fail] makes its syncs fail. *)
Definition demo_service (fail : option error) : Service (gmap string Resource) := {|
  clock w := (5, w);
  store := demo_store;
  moduleSvc := {|
    ms_PlanAction e act w :=
      (Ok (set_State (mkState StatusCompleted (Params act) None None SyncResult_zero)
             (set_Configs (Params act) (exr_Resource e))), w);
    ms_SyncState e w :=
      match fail with
      | Some err => (Err err, w)
      | None => (Ok (mkState StatusCompleted (Some "out") None None SyncResult_zero), w)
      end;
    ms_StreamLogs _ _ w := (Ok [], w);
    ms_GetOutput e w := (Ok (Output (res_State (exr_Resource e))), w);
  |};
  syncBackoff := 10;
  maxSyncRetries := 2;
  meter := {| Int64Counter _ w := (Ok tt, w); counter_Add _ _ w := w |};
|}.

#[export] Instance demo_service_store fail : StoreSpec (store (demo_service fail)) :=
  demo_store_spec.

#[export] Instance demo_surroundings fail : Surroundings (demo_service fail).
Proof.
  split; try done; cbn.
  - intros e act w r w' [= <- <-]. cbn. split; [done|by right].
  - intros e w. by destruct fail.
Qed.

Definition demo_pending : Resource :=
  set_URN "orn:entropy:firehose:goto:a"
    (set_State (mkState StatusPending None None (Some 1) SyncResult_zero)
       (demo_resource "firehose" "goto" "a")).

(** ** Labels *)

(** Merging labels is the right-biased union of the two maps without the keys
    whose resulting value is empty, whatever the iteration order of the maps; the
    result is nil exactly when both maps are nil. *)
Theorem mergeLabels_spec `{MR : MapRange} m1 m2 :
  mergeLabels m1 m2 =
  match m1, m2 with
  | None, None => None
  | _, _ => Some (nonempty_labels (gm m2 ∪ gm m1))
  end.
Proof. apply mergeLabels_eq. Qed.

Section props.
Context {MR : MapRange} {W : Type} (svc : Service W).
Context {SS : StoreSpec (store svc)} {SU : Surroundings svc}.
Variable depth : nat.
Implicit Types (w : W) (u : string) (res r : Resource).

#[local] Notation keeps := (keeps svc).

(** ** Dependencies *)

(** C27. Resolving the dependencies of a resource succeeds only when every one of
    them exists, is completed and belongs to the resource's project, and then
    yields exactly one entry per dependency key; a failure is never reported as
    [ErrNotFound], and the stored resources change at most in their outputs. *)
Theorem generateModuleSpec_correct res w :
  let '(out, w') := generateModuleSpec svc depth res w in
  refreshes (view w) (view w') ∧
  match out with
  | Ok e =>
      exr_Resource e = res ∧
      ∀ k, match gm (Dependencies (res_Spec res)) !! k with
           | Some u => ∃ d, gm (exr_Dependencies e) !! k = Some d ∧ resolves (view w) res u d
           | None => gm (exr_Dependencies e) !! k = None
           end
  | Err err => errors_Is err (EErr ErrNotFound) = false
  | Panic _ => True
  end.
Proof.
  destruct (generateModuleSpec svc depth res w) as [out w'] eqn:H.
  split; [exact (effects_run keeps _ _ _ _ (keeps_generateModuleSpec svc depth res) H)|].
  destruct out as [e|err|s]; [| |done].
  - apply (resolve_deps_Ok svc) in H; [done|intros v; apply (keeps_get_at svc)|].
    intros v w0 x w1. apply (get_at_Ok svc).
  - by eapply resolve_deps_not_NotFound.
Qed.

(** Every call and every step of the surroundings keeps the dependencies well
    founded. *)
Lemma step_wf_deps w w' : svc_step svc depth w w' → wf_deps (view w) → wf_deps (view w').
Proof.
  intros Hstep IH.
  destruct Hstep as [o w|w w' Hs]; [|by eapply wf_deps_same].
  revert w IH. change (effects (pres svc) (run_op svc depth o)).
  assert (∀ A (m : io W A), effects keeps m → effects (pres svc) (_ ← m; mret tt)) as Hk.
  { intros A m Hm. apply effects_bind; [exact _|by apply effects_keeps_pres|].
    intros a. apply effects_ret. exact _. }
  destruct o as [u|f b|u f|sel|res opts|u req opts|u act opts|u|u]; cbn [run_op].
  - apply Hk, keeps_GetResource, SU.
  - apply Hk. unfold ListResources. auto with effects.
    apply effects_bind; [exact _| |auto with effects].
    apply effects_catch, keeps_view, List_view.
  - apply Hk. unfold GetLog. apply effects_bind; [exact _|apply keeps_GetResource, SU|].
    intros res. apply effects_bind; [exact _|apply keeps_generateModuleSpec, SU|].
    auto with effects.
  - apply Hk. apply effects_catch, keeps_view, Revisions_view.
  - apply effects_bind; [exact _|apply CreateResource_pres, SU|]. auto with effects.
  - apply effects_bind; [exact _| |auto with effects]. unfold UpdateResource.
    repeat case_match; auto with effects. apply ApplyAction_pres, SU.
  - apply effects_bind; [exact _|apply ApplyAction_pres, SU|]. auto with effects.
  - apply effects_bind; [exact _|apply ApplyAction_pres, SU|]. auto with effects.
  - apply sync_picked_pres, SU.
Qed.

Lemma reachable_wf_deps w : reachable svc depth w → wf_deps (view w).
Proof.
  induction 1 as [w Hw|w w' _ IH Hstep]; [rewrite Hw; apply wf_deps_empty|by eapply step_wf_deps].
Qed.

(** In every reachable state the dependencies between stored resources are
    closed (each one exists) and acyclic: no sequence of calls to the service,
    whatever their outcomes, can create a dangling or a circular dependency. *)
Theorem dependencies_well_founded w :
  reachable svc depth w →
  (∀ u x k v, view w !! u = Some x → gm (Dependencies (res_Spec x)) !! k = Some v →
     is_Some (view w !! v)) ∧
  ∃ rank, ranked rank (view w) ∧ ∀ u, rank u = 0%nat ∨ (rank u < size (view w))%nat.
Proof.
  intros (rank & Hr & Hb)%reachable_wf_deps. split; [|by exists rank].
  intros u x k v Hx Hk. by destruct (Hr u x k v Hx Hk).
Qed.

(** C20. Reading a resource terminates: in every reachable state any stack depth
    above the number of stored resources gives the same outcome, and that
    outcome is never a stack overflow. *)
Theorem GetResource_terminates w u d1 d2 :
  reachable svc depth w → (size (view w) < d1)%nat → (size (view w) < d2)%nat →
  GetResource svc d1 u w = GetResource svc d2 u w ∧
  (GetResource svc d1 u w).1 ≠ Panic "stack overflow".
Proof.
  intros (rank & Hr & Hb)%reachable_wf_deps H1 H2.
  assert (rank u < d1 ∧ rank u < d2)%nat as [? ?] by (destruct (Hb u); lia).
  split; [by eapply (get_at_depth svc)|by eapply (get_at_no_overflow svc)].
Qed.

(** ** Actions *)

(** C28. A dry run writes nothing: after a dry-run create or action, whatever its
    outcome, the stored resources differ from before at most in refreshed
    outputs. *)
Theorem dry_run_writes_nothing res u act opts w :
  dry_run opts = true →
  refreshes (view w) (view (CreateResource svc depth res opts w).2) ∧
  refreshes (view w) (view (ApplyAction svc depth u act opts w).2).
Proof.
  intros Hd. split.
  - unfold CreateResource. destruct (Validate true res) as [[e|] r]; [done|]. rewrite Hd.
    destruct (execAction _ _ _ _ true w) as [out w'] eqn:H.
    by destruct (execAction_cases svc depth _ _ _ _ _ _ H).
  - unfold ApplyAction. rewrite run_bind.
    destruct (GetResource svc depth u w) as [[r|e|s] w1] eqn:Hg;
      pose proof (effects_run keeps _ _ _ _ (keeps_GetResource svc depth u) Hg) as Hk;
      [|done..].
    destruct (IsTerminal _); [|done]. cbn [negb]. rewrite Hd.
    destruct (execAction _ _ _ _ true w1) as [out w'] eqn:H.
    destruct (execAction_cases svc depth _ _ _ _ _ _ H) as [Hk' _]. cbn.
    unfold ServiceFacts.keeps in *. by transitivity (view w1).
Qed.

(** C5. A successful create stores exactly one new resource under the URN of its
    kind, project and name, stamped with its creator, and with the labels of the
    request without the empty ones; the URN was free before. *)
Theorem CreateResource_stores res opts w r w' :
  dry_run opts = false → CreateResource svc depth res opts w = (Ok r, w') →
  validated r ∧ URN r = GenerateURN (Kind r) (Project r) (Name r) ∧
  Kind r = TrimSpace (Kind res) ∧ Name r = TrimSpace (Name res) ∧
  Project r = TrimSpace (Project res) ∧
  CreatedBy r = CreatedBy res ∧ UpdatedBy r = CreatedBy res ∧ CreatedAt r = UpdatedAt r ∧
  Labels r = mergeLabels (Labels res) (Labels res) ∧
  ∃ m x', refreshes (view w) m ∧ m !! URN r = None ∧ stored r x' ∧
          view w' = <[URN r := x']> m.
Proof.
  unfold CreateResource. destruct (Validate true res) as [[e|] v] eqn:Hv; [discriminate|].
  apply Validate_None in Hv as [Hval Hacc]. intros Hd H. rewrite Hd in H.
  destruct (execAction_cases svc depth _ _ _ _ _ _ H) as [_ Hr].
  destruct (Hr r eq_refl) as (_ & _ & _ & _ & _ & _ & Hw).
  destruct (Hw eq_refl) as (w1 & w2 & p & t & Hk & Hp & -> & Hu & Hv2).
  apply (upsert_view svc (SS := SS)) in Hu as (Hnone & x' & Hx' & Hview).
  destruct Hp as [Hpv Hpl _ _ (Hpk & Hpn & Hpp) HpU].
  assert (TrimSpace (Kind v) = Kind v ∧ TrimSpace (Name v) = Name v ∧
          TrimSpace (Project v) = Project v) as (Hk1 & Hn1 & Hp1)
    by (destruct Hval; split_and!; apply TrimSpace_valid_name; auto using valid_ident_name).
  cbn [Kind Name Project set_Configs set_Spec] in *.
  rewrite Hk1 in Hpk. rewrite Hn1 in Hpn. rewrite Hp1 in Hpp. rewrite Hacc in Hpk, Hpn, Hpp, Hpl.
  destruct Hpv. split_and!; try done; [by rewrite Hacc..|].
  exists (view w1), x'. split_and!; [done|done|done|]. by rewrite Hv2.
Qed.

(** C4. A successful action on an existing resource (update, delete or any
    other but create) replaces that one resource, which was in a terminal
    state: its identity and creation stamps are those of the old version, the
    labels are merged, and the user of the request is recorded. *)
Theorem ApplyAction_updates u act opts w r w' :
  dry_run opts = false → isCreate (act_Name act) = false →
  ApplyAction svc depth u act opts w = (Ok r, w') →
  ∃ m old x', refreshes (view w) m ∧ m !! u = Some old ∧ URN r = u ∧
    IsTerminal (res_State old) = true ∧
    view w' = <[u := x']> m ∧ updated old r x' ∧
    gm (Labels r) = nonempty_labels (gm (act_Labels act) ∪ gm (Labels old)) ∧
    CreatedAt r = CreatedAt old ∧ UpdatedBy r = act_UserID act.
Proof.
  intros Hd Hc H. unfold ApplyAction in H. apply bind_ok_inv in H as (res & w1 & Hg & H).
  destruct (IsTerminal (res_State res)) eqn:Ht; [|discriminate]. cbn [negb] in H. rewrite Hd in H.
  pose proof (GetResource_present svc depth _ _ _ _ Hg) as [Hk1 _].
  apply (get_at_Ok svc) in Hg as (x0 & Hx0 & Hr0).
  assert (URN x0 = u) as Hxu by by eapply view_URN.
  destruct (execAction_cases svc depth _ _ _ _ _ _ H) as [_ Hr].
  destruct (Hr r eq_refl) as (_ & _ & _ & _ & _ & _ & Hw).
  destruct (Hw eq_refl) as (w2 & w3 & p & t & Hk2 & Hp & Hst & Hu & Hv3).
  apply (upsert_view svc (SS := SS)) in Hu. rewrite Hc in Hu.
  destruct Hu as (old & x' & Hold & Hupd & Hview).
  assert (keeps w w2) as Hk by by etrans.
  destruct (refreshes_lookup _ _ _ _ Hk Hx0) as (y & Hy & Hry).
  apply refreshed_fields in Hr0 as (HU & _ & _ & _ & HLr & HC & _ & _ & _ & _ & HS & _).
  assert (URN r = u) as HrU.
  { transitivity (URN p); [rewrite Hst; unfold stamp; by case_match|].
    rewrite (planned_URN _ _ _ _ _ Hp), Hc. congruence. }
  rewrite HrU in *. assert (old = y) as -> by congruence.
  pose proof (refreshed_fields _ _ Hry) as (_ & _ & _ & _ & HL & HC' & _ & _ & _ & _ & HS' & _).
  exists (view w2), y, x'. split_and!; try done.
  - revert Ht. unfold IsTerminal. by rewrite <- HS, HS'.
  - by rewrite Hv3.
  - transitivity (gm (Labels p)); [rewrite Hst; unfold stamp; by case_match|].
    by rewrite (planned_labels _ _ _ _ _ Hp), gm_mergeLabels, <- HLr, HL.
  - rewrite Hst. unfold stamp. rewrite Hc. cbn. congruence.
  - rewrite Hst. unfold stamp. by case_match.
Qed.
End props.

Section sync.
Context {MR : MapRange} {W : Type} (svc : Service W).
Implicit Types (w : W) (u : string) (res r : Resource).

(** An action on a resource that is not in a terminal state. *)
Lemma ApplyAction_gate `{SS : !StoreSpec (store svc), SU : !Surroundings svc}
    depth u x act opts w :
  view w !! u = Some x → IsTerminal (res_State x) = false →
  is_ok (ApplyAction svc depth u act opts w).1 = false ∧
  refreshes (view w) (view (ApplyAction svc depth u act opts w).2).
Proof.
  intros Hx Ht. unfold ApplyAction. rewrite run_bind.
  destruct (GetResource svc depth u w) as [[r|e|s] w1] eqn:Hg;
    pose proof (effects_run (keeps svc) _ _ _ _ (keeps_GetResource svc depth u) Hg) as Hk;
    [|done..].
  apply (get_at_Ok svc) in Hg as (x0 & Hx0 & Hr). assert (x0 = x) as -> by congruence.
  apply refreshed_fields in Hr as (_ & _ & _ & _ & _ & _ & _ & _ & _ & _ & HS & _).
  assert (IsTerminal (res_State r) = false) as -> by (unfold IsTerminal in *; by rewrite <- HS).
  by split.
Qed.

(** While a resource is not in a terminal state (its last change is still
    being synchronised) every action, update and delete of it is refused and
    writes nothing. *)
Theorem non_terminal_refused `{SS : !StoreSpec (store svc), SU : !Surroundings svc}
    depth u x act req opts w :
  view w !! u = Some x → IsTerminal (res_State x) = false →
  (is_ok (ApplyAction svc depth u act opts w).1 = false ∧
   refreshes (view w) (view (ApplyAction svc depth u act opts w).2)) ∧
  (is_ok (UpdateResource svc depth u req opts w).1 = false ∧
   refreshes (view w) (view (UpdateResource svc depth u req opts w).2)) ∧
  (is_ok (DeleteResource svc depth u w).1 = false ∧
   refreshes (view w) (view (DeleteResource svc depth u w).2)).
Proof.
  intros Hx Ht. split; [by eapply ApplyAction_gate|split].
  - unfold UpdateResource. repeat case_match; try by split.
    by eapply ApplyAction_gate.
  - unfold DeleteResource. rewrite run_bind.
    destruct (ApplyAction_gate depth u x (mkActionRequest DeleteAction None None "")
      [WithDryRun false] w Hx Ht) as [Hno Hk].
    by destruct (ApplyAction _ _ _ _ _ w) as [[r|e|s] w1].
Qed.

(** What a failed synchronisation decides. *)
Definition gives_up (err : error) (retries : Z) : bool :=
  errors_Is err (EErr ErrInvalid)
  || ((0 <? maxSyncRetries svc) && (maxSyncRetries svc <=? retries)).

Lemma sync_failed_eq res err w :
  let sr := mkSyncResult (wrap64 (Retries (st_SyncResult (res_State res)) + 1))
              (error_string err) in
  let st := set_SyncResult sr (res_State res) in
  let w1 := counter_Add (meter svc) RetryCounter (URN res) w in
  sync_failed svc res err w =
  if gives_up err (Retries sr)
  then (Ok (set_State (set_NextSyncAt None (set_Status StatusError st)) res),
        counter_Add (meter svc) ErrorCounter (URN res) w1)
  else let '(t, w2) := clock svc w1 in
       (Ok (set_State (set_NextSyncAt (Some (t + syncBackoff svc)) st) res), w2).
Proof.
  cbv zeta. unfold sync_failed, gives_up, incr, read_clock. rewrite run_bind.
  cbn [Retries]. destruct (errors_Is err (EErr ErrInvalid)); [done|].
  cbn [orb]. destruct (_ && _); [done|]. rewrite run_bind. by destruct (clock svc _).
Qed.

(** A failed synchronisation counts one retry and records the error; it
    moves the resource to the error state and stops synchronising it exactly
    when the error is a bad request or the configured number of retries is
    reached, and otherwise leaves its status and schedules the next attempt
    one backoff later.  Spec, output and module data are kept. *)
Theorem sync_failed_correct res err w :
  ∃ r w', sync_failed svc res err w = (Ok r, w') ∧
    URN r = URN res ∧ res_Spec r = res_Spec res ∧
    Output (res_State r) = Output (res_State res) ∧
    ModuleData (res_State r) = ModuleData (res_State res) ∧
    Retries (st_SyncResult (res_State r)) =
      wrap64 (Retries (st_SyncResult (res_State res)) + 1) ∧
    LastError (st_SyncResult (res_State r)) = error_string err ∧
    if gives_up err (Retries (st_SyncResult (res_State r)))
    then Status (res_State r) = StatusError ∧ NextSyncAt (res_State r) = None
    else Status (res_State r) = Status (res_State res) ∧
         ∃ w1, NextSyncAt (res_State r) = Some ((clock svc w1).1 + syncBackoff svc) ∧
               w' = (clock svc w1).2.
Proof.
  rewrite sync_failed_eq. destruct (gives_up _ _) eqn:Hg.
  - eexists _, _. split; [done|]. cbn. cbn in Hg. rewrite Hg. done.
  - destruct (clock svc _) as [t w2] eqn:Hc. eexists _, _. split; [done|]. cbn. cbn in Hg.
    rewrite Hg. split_and!; try done. eexists. by rewrite Hc.
Qed.

(** A resource whose synchronisation keeps failing. *)
Fixpoint sync_failures (errs : list error) (res : Resource) (w : W) : go Resource * W :=
  match errs with
  | [] => (Ok res, w)
  | err :: errs =>
      match sync_failed svc res err w with
      | (Ok r, w') => sync_failures errs r w'
      | out => out
      end
  end.

Lemma sync_failures_run errs res w :
  0 < maxSyncRetries svc < 2 ^ 63 → 0 ≤ Retries (st_SyncResult (res_State res)) →
  (∀ err, err ∈ errs → errors_Is err (EErr ErrInvalid) = false) →
  Retries (st_SyncResult (res_State res)) + Z.of_nat (length errs) ≤ maxSyncRetries svc →
  errs ≠ [] →
  ∃ r w', sync_failures errs res w = (Ok r, w') ∧
    Retries (st_SyncResult (res_State r)) =
      Retries (st_SyncResult (res_State res)) + Z.of_nat (length errs) ∧
    if Retries (st_SyncResult (res_State r)) =? maxSyncRetries svc
    then Status (res_State r) = StatusError ∧ NextSyncAt (res_State r) = None
    else Status (res_State r) = Status (res_State res) ∧ is_Some (NextSyncAt (res_State r)).
Proof.
  intros Hmax. revert res w. induction errs as [|err errs IH]; intros res w Hpos Herr Hlen Hne;
    [done|].
  cbn [sync_failures]. rewrite sync_failed_eq.
  cbn [length] in Hlen. rewrite Nat2Z.inj_succ in Hlen.
  set (k := Retries (st_SyncResult (res_State res))) in *.
  assert (gives_up err (Retries (mkSyncResult (wrap64 (k + 1)) (error_string err))) =
          (maxSyncRetries svc <=? k + 1)) as ->.
  { unfold gives_up. rewrite Herr by set_solver. cbn [Retries orb].
    rewrite wrap64_id by lia. by rewrite (proj2 (Z.ltb_lt 0 _)) by lia. }
  destruct errs as [|err' errs].
  - destruct (maxSyncRetries svc <=? k + 1) eqn:Hge; [|destruct (clock svc _) as [t w2]];
      eexists _, _; (split; [done|]); cbn; (rewrite wrap64_id by lia); (split; [lia|]).
    + by rewrite (proj2 (Z.eqb_eq _ _)) by lia.
    + rewrite (proj2 (Z.eqb_neq _ _)) by lia. eauto.
  - cbn [length] in Hlen. rewrite (proj2 (Z.leb_gt _ _)) by lia.
    destruct (clock svc _) as [t w2].
    set (res1 := set_State _ res).
    assert (Retries (st_SyncResult (res_State res1)) = k + 1) as Hk1
      by (cbn; by rewrite wrap64_id by lia).
    destruct (IH res1 w2) as (r & w' & Hrun & Hr & Hst); [lia|set_solver|cbn [length]; lia|done|].
    exists r, w'. split; [done|]. split; [cbn [length] in *; lia|done].
Qed.

(** Retries are exhausted after exactly [maxSyncRetries] failures: a fresh
    resource stays scheduled with its status through fewer failures than that,
    and the last allowed failure puts it in the error state. *)
Theorem retries_exhausted res errs w :
  0 < maxSyncRetries svc < 2 ^ 63 →
  Retries (st_SyncResult (res_State res)) = 0 →
  (∀ err, err ∈ errs → errors_Is err (EErr ErrInvalid) = false) →
  Z.of_nat (length errs) ≤ maxSyncRetries svc → errs ≠ [] →
  ∃ r w', sync_failures errs res w = (Ok r, w') ∧
    Retries (st_SyncResult (res_State r)) = Z.of_nat (length errs) ∧
    if Z.of_nat (length errs) =? maxSyncRetries svc
    then Status (res_State r) = StatusError ∧ NextSyncAt (res_State r) = None
    else Status (res_State r) = Status (res_State res) ∧ is_Some (NextSyncAt (res_State r)).
Proof.
  intros Hmax H0 Herr Hlen Hne.
  destruct (sync_failures_run errs res w) as (r & w' & Hrun & Hr & Hst); try done; [lia..|].
  exists r, w'. rewrite Hr, H0 in *. by rewrite Z.add_0_l in *.
Qed.

(** Running the counters' set-up changes the world only; what follows. *)
Lemma handleSync_steps depth res w out w' :
  handleSync svc depth res w = (out, w') →
  (∃ c w0 err, (setupCounter svc c w0).1 = Err err ∧ out = Err err) ∨
  (∃ s, out = Panic s) ∨
  ∃ w0, (e ← generateModuleSpec svc depth res;
         out ← attempt (ms_SyncState (moduleSvc svc) e);
         match out with
         | inl err => sync_failed svc res err
         | inr st =>
             t ← read_clock svc;
             _ ← incr svc CompletedCounter (URN res);
             mret (set_State st (set_UpdatedAt t res))
         end) w0 = (out, w').
Proof.
  unfold handleSync. intros H. rewrite run_bind in H.
  destruct (setupCounter svc RetryCounter w) as [[[]|e|s] w1] eqn:H1;
    [|left; exists RetryCounter, w, e; by rewrite H1; injection H as <- <-
     |right; left; injection H as <- _; eauto].
  rewrite run_bind in H. destruct (setupCounter svc ErrorCounter w1) as [[[]|e|s] w2] eqn:H2;
    [|left; exists ErrorCounter, w1, e; by rewrite H2; injection H as <- <-
     |right; left; injection H as <- _; eauto].
  rewrite run_bind in H. destruct (setupCounter svc CompletedCounter w2) as [[[]|e|s] w3] eqn:H3;
    [|left; exists CompletedCounter, w2, e; by rewrite H3; injection H as <- <-
     |right; left; injection H as <- _; eauto].
  right. right. by exists w3.
Qed.

(** C9. A synchronisation runs the driver on the resource with its dependencies
    resolved.  When the driver succeeds its state is taken whole (so the retry
    count starts afresh), with the clock's time as the update time.  When it
    fails, one more retry is counted and the error's text is kept; a bad request,
    or as many retries as the configured limit, moves the resource to the error
    state with no next sync, and otherwise the status stays and the next attempt
    is one backoff after the clock's time; output, module data and update time
    stay.  Identity, labels, creation stamps and spec never change.  Only a
    counter that cannot be set up, or a dependency that cannot be resolved,
    makes the synchronisation itself fail. *)
Theorem handleSync_correct depth res w out w' :
  handleSync svc depth res w = (out, w') →
  match out with
  | Ok r =>
      (URN r = URN res ∧ Kind r = Kind res ∧ Name r = Name res ∧ Project r = Project res ∧
       Labels r = Labels res ∧ CreatedAt r = CreatedAt res ∧ CreatedBy r = CreatedBy res ∧
       UpdatedBy r = UpdatedBy res ∧ res_Spec r = res_Spec res) ∧
      ∃ w0 e w1, generateModuleSpec svc depth res w0 = (Ok e, w1) ∧
      match ms_SyncState (moduleSvc svc) e w1 with
      | (Ok st, w2) => res_State r = st ∧ UpdatedAt r = (clock svc w2).1
      | (Err err, w2) =>
          let retries := wrap64 (Retries (st_SyncResult (res_State res)) + 1) in
          st_SyncResult (res_State r) = mkSyncResult retries (error_string err) ∧
          Output (res_State r) = Output (res_State res) ∧
          ModuleData (res_State r) = ModuleData (res_State res) ∧ UpdatedAt r = UpdatedAt res ∧
          ((errors_Is err (EErr ErrInvalid) = true ∨ 0 < maxSyncRetries svc ≤ retries) →
             Status (res_State r) = StatusError ∧ NextSyncAt (res_State r) = None) ∧
          (errors_Is err (EErr ErrInvalid) = false → ¬ 0 < maxSyncRetries svc ≤ retries →
             Status (res_State r) = Status (res_State res) ∧
             ∃ w3, NextSyncAt (res_State r) = Some ((clock svc w3).1 + syncBackoff svc))
      | (Panic _, _) => False
      end
  | Err err =>
      (∃ c w0, (setupCounter svc c w0).1 = Err err) ∨
      ∃ w0, (generateModuleSpec svc depth res w0).1 = Err err
  | Panic _ => True
  end.
Proof.
  intros [(c & w0 & err & Hc & ->)|[[s ->]|[w0 H]]]%handleSync_steps; [left; eauto|done|].
  rewrite run_bind in H. destruct (generateModuleSpec svc depth res w0) as [[e|err|s] w1] eqn:Hg;
    [|injection H as <- <-; right; exists w0; by rewrite Hg|by injection H as <- <-].
  rewrite run_bind in H. unfold attempt in H.
  destruct (ms_SyncState (moduleSvc svc) e w1) as [[st|err|s] w2] eqn:Hs; [| |by injection H as <- <-].
  - rewrite run_bind in H. unfold read_clock in H. destruct (clock svc w2) as [t w3] eqn:Ht.
    injection H as <- _. split; [done|]. exists w0, e, w1. split; [done|]. rewrite Hs, Ht. done.
  - rewrite sync_failed_eq in H. unfold gives_up in H. cbn [Retries] in H.
    set (n := wrap64 _) in *.
    destruct (errors_Is err (EErr ErrInvalid)) eqn:Hi; cbn [orb] in H;
      [|destruct ((0 <? maxSyncRetries svc) && (maxSyncRetries svc <=? n)) eqn:Hm;
        [|destruct (clock svc _) as [t w3] eqn:Ht]];
      injection H as <- _; (split; [done|]); exists w0, e, w1; (split; [done|]); rewrite Hs;
      rewrite ?Hi; (split_and!; [done..| |]); try done.
    + intros _ Hn. exfalso. apply Hn. lia.
    + intros [?|Hn]; [done|]. lia.
    + intros _ _. split; [done|]. eexists. cbn. by rewrite Ht.
Qed.
End sync.

(** ** Witnesses, on the in-memory service *)

#[local] Notation demo := (demo_service None).
#[local] Notation dview := (view (st := store demo)).
#[local] Instance demo_range : MapRange := range_sorted.

Definition demo_urn : string := "orn:entropy:firehose:goto:a".
Definition demo_done : Resource :=
  set_State (mkState StatusCompleted None None None SyncResult_zero) demo_pending.
Definition demo_world (r : Resource) : gmap string Resource := {[ demo_urn := r ]}.

(** A resource that depends on the stored one. *)
Definition demo_client : Resource :=
  set_Spec (mkSpec (Some "{}") (Some {[ "dep" := demo_urn ]}))
    (demo_resource "dagger" "goto" "b").

Lemma generateModuleSpec_correct_witness :
  ∃ e w', generateModuleSpec demo 2 demo_client (demo_world demo_done) = (Ok e, w') ∧
    refreshes (dview (demo_world demo_done)) (dview w') ∧ exr_Resource e = demo_client.
Proof.
  destruct (ok_run (generateModuleSpec demo 2 demo_client (demo_world demo_done)))
    as (e & w' & He); [vm_compute; reflexivity|].
  pose proof (generateModuleSpec_correct demo 2 demo_client (demo_world demo_done)) as H.
  rewrite He in H. destruct H as [H1 [H2 _]]. exists e, w'.
  split; [exact He|]. split; [exact H1|exact H2].
Defined.

Lemma demo_reachable : reachable demo 2 (run_op demo 2 (OpCreate demo_client []) ∅).2.
Proof. apply (reach_step demo 2 ∅); [apply reach_init; reflexivity|apply step_op]. Qed.

Lemma dependencies_well_founded_witness :
  wf_deps (dview (run_op demo 2 (OpCreate demo_client []) ∅).2).
Proof. exact (proj2 (dependencies_well_founded demo 2 _ demo_reachable)). Defined.

Lemma GetResource_terminates_witness :
  let w := (run_op demo 2 (OpCreate demo_pending []) ∅).2 in
  size (dview w) = 1%nat ∧
  GetResource demo 2 demo_urn w = GetResource demo 9 demo_urn w ∧
  (GetResource demo 2 demo_urn w).1 ≠ Panic "stack overflow".
Proof.
  cbv zeta. split; [vm_compute; reflexivity|].
  apply (GetResource_terminates demo 2).
  - apply (reach_step demo 2 ∅); [apply reach_init; reflexivity|apply step_op].
  - apply Nat.ltb_lt. vm_compute. reflexivity.
  - apply Nat.ltb_lt. vm_compute. reflexivity.
Defined.

Definition demo_update : ActionRequest := mkActionRequest UpdateAction (Some "{}") None "alice".

Lemma dry_run_writes_nothing_witness :
  is_ok (CreateResource demo 2 demo_pending [WithDryRun true] ∅).1 = true ∧
  refreshes (dview (demo_world demo_done))
    (dview (ApplyAction demo 2 demo_urn demo_update [WithDryRun true]
                  (demo_world demo_done)).2).
Proof.
  split; [vm_compute; reflexivity|].
  exact (proj2 (dry_run_writes_nothing demo 2 demo_pending demo_urn demo_update [WithDryRun true]
    (demo_world demo_done) eq_refl)).
Defined.

Lemma CreateResource_stores_witness :
  ∃ r w', CreateResource demo 2 demo_pending [] ∅ = (Ok r, w') ∧ validated r ∧
    ∃ m x', m !! URN r = None ∧ dview w' = <[URN r := x']> m.
Proof.
  destruct (ok_run (CreateResource demo 2 demo_pending [] ∅)) as (r & w' & He);
    [vm_compute; reflexivity|].
  pose proof (CreateResource_stores demo 2 demo_pending [] ∅ _ _ eq_refl He) as H.
  destruct H as (Hv & _ & _ & _ & _ & _ & _ & _ & _ & m & x' & _ & Hm & _ & Hw).
  exists r, w'. split; [exact He|]. split; [exact Hv|]. exists m, x'. split; [exact Hm|exact Hw].
Defined.

Lemma ApplyAction_updates_witness :
  ∃ r w', ApplyAction demo 2 demo_urn demo_update [] (demo_world demo_done) = (Ok r, w') ∧
    URN r = demo_urn ∧ UpdatedBy r = "alice".
Proof.
  destruct (ok_run (ApplyAction demo 2 demo_urn demo_update [] (demo_world demo_done)))
    as (r & w' & He); [vm_compute; reflexivity|].
  pose proof (ApplyAction_updates demo 2 demo_urn demo_update [] (demo_world demo_done) _ _
    eq_refl eq_refl He) as H.
  destruct H as (m & old & x' & _ & _ & Hu & _ & _ & _ & _ & _ & Hby).
  exists r, w'. split; [exact He|]. split; [exact Hu|exact Hby].
Defined.

Lemma non_terminal_refused_witness :
  is_ok (ApplyAction demo 2 demo_urn demo_update [] (demo_world demo_pending)).1 = false ∧
  is_ok (DeleteResource demo 2 demo_urn (demo_world demo_pending)).1 = false.
Proof.
  destruct (non_terminal_refused demo 2 demo_urn (demo_row demo_urn demo_pending) demo_update
    (mkUpdateRequest (mkSpec (Some "{}") None) None "") [] (demo_world demo_pending))
    as ([H1 _] & _ & [H2 _]); [vm_compute; reflexivity|reflexivity|].
  split; [exact H1|exact H2].
Defined.

Lemma retries_exhausted_witness :
  ∃ r w', sync_failures demo [ENew "boom"; ENew "boom"] demo_pending ∅ = (Ok r, w') ∧
    Status (res_State r) = StatusError.
Proof.
  destruct (retries_exhausted demo demo_pending [ENew "boom"; ENew "boom"] ∅)
    as (r & w' & Hrun & _ & Hst); [by split|reflexivity| |by vm_compute|done|].
  - intros err Hin. apply elem_of_cons in Hin as [->|Hin]; [reflexivity|].
    apply list_elem_of_singleton in Hin as ->. reflexivity.
  - exists r, w'. split; [exact Hrun|]. exact (proj1 Hst).
Defined.

Lemma handleSync_correct_witness :
  ∃ r w', handleSync demo 2 demo_pending ∅ = (Ok r, w') ∧ res_Spec r = res_Spec demo_pending ∧
    ∃ w0 e w1, generateModuleSpec demo 2 demo_pending w0 = (Ok e, w1).
Proof.
  destruct (ok_run (handleSync demo 2 demo_pending ∅)) as (r & w' & He);
    [vm_compute; reflexivity|].
  destruct (handleSync_correct demo 2 demo_pending ∅ (Ok r) w' He) as ((_ & _ & _ & _ & _ & _ & _ & _ & Hs) & w0 & e & w1 & Hg & _).
  exists r, w'. split; [exact He|]. split; [exact Hs|]. exists w0, e, w1. exact Hg.
Defined.
