(* ===== verification/Worker.v ===== *)
(** * Worker: [pkg/worker]

    Models [pkg/worker/job.go], [worker.go] and [worker_option.go]: jobs and
    their attempts, the [JobQueue] interface, and the worker that enqueues jobs
    and handles the ready ones. *)

From S2P Require Import Prelude GoLib Errors.

#[local] Open Scope Z_scope.

Definition minRetryBackoff : Duration := 5 * Second.

Definition StatusDone : string := "DONE".
Definition StatusPanic : string := "PANIC".
Definition StatusFailed : string := "FAILED".
Definition job_StatusPending : string := "PENDING".

Definition ErrJobExists : error := ESentinel "worker.ErrJobExists" "job with id exists".
Definition ErrInvalidJob : error := ESentinel "worker.ErrInvalidJob" "job is not valid".
Definition ErrKindExists : error :=
  ESentinel "worker.ErrKindExists" "handler for given kind exists".
Definition ErrUnknownKind : error := ESentinel "worker.ErrUnknownKind" "job kind is invalid".

Record Job := mkJob {
  job_ID : string;
  job_Kind : string;
  RunAt : Time;
  Payload : RawMessage;
  job_Status : string;
  job_CreatedAt : Time;
  job_UpdatedAt : Time;
  Result : RawMessage;
  AttemptsDone : Z;
  LastAttemptAt : Time;
  job_LastError : string;
}.

#[export] Instance Job_eq_dec : EqDecision Job.
Proof. solve_decision. Defined.

(** The outcome of an attempt, written into the job in place. *)
Definition set_outcome (status : string) (run_at : Time) (res : RawMessage) (last_error : string)
    (j : Job) : Job :=
  mkJob (job_ID j) (job_Kind j) run_at (Payload j) status (job_CreatedAt j) (job_UpdatedAt j)
    res (AttemptsDone j) (LastAttemptAt j) last_error.

Definition set_attempted (now : Time) (j : Job) : Job :=
  mkJob (job_ID j) (job_Kind j) (RunAt j) (Payload j) (job_Status j) (job_CreatedAt j) now
    (Result j) (wrap64 (AttemptsDone j + 1)) now (job_LastError j).

(** [Job.Sanitise]: identity fields are normalised before they are checked, so
    they are also when it fails. *)
Definition Job_Sanitise (now : Time) (j : Job) : option error * Job :=
  let j := mkJob (TrimSpace (job_ID j)) (TrimSpace (ToLower (job_Kind j))) (RunAt j) (Payload j)
             (job_Status j) (job_CreatedAt j) (job_UpdatedAt j) (Result j) (AttemptsDone j)
             (LastAttemptAt j) (job_LastError j) in
  if decide (job_ID j = "") then
    (Some (EWrap "job is not valid: job id must be set" ErrInvalidJob), j)
  else if decide (job_Kind j = "") then
    (Some (EWrap "job is not valid: job kind must be set" ErrInvalidJob), j)
  else
    (None, mkJob (job_ID j) (job_Kind j) (if decide (RunAt j = zero_time) then now else RunAt j)
             (Payload j) job_StatusPending now now (Result j) 0 zero_time "").

(** [RetryableError]: the error value is [ERetryable cause after]. *)
Definition WithCause (after : Duration) (cause : error) : error := ERetryable cause after.

Definition backoff (RetryAfter : Duration) : Duration :=
  if RetryAfter <=? minRetryBackoff then minRetryBackoff else RetryAfter.

Section worker.
Context {W : Type}.

Definition JobFn : Type := Job → io W RawMessage.

(** [Job.Attempt]; [ctx] is [ctx.Err()], [None] while the context is alive.
    The deferred function runs in every case and recovers panics of [fn]. *)
Definition Attempt (ctx : option error) (now : Time) (fn : JobFn) (j : Job) : W → Job * W :=
  λ w,
  let '(j, w) :=
    match ctx with
    | Some err =>
        (set_outcome job_StatusPending (now + minRetryBackoff) (Result j)
           ("cancelled: " +:+ error_string err) j, w)
    | None =>
        match fn j w with
        | (Ok res, w) => (set_outcome StatusDone (RunAt j) res (job_LastError j) j, w)
        | (Err err, w) =>
            match As_Retryable err with
            | Some (cause, after) =>
                (set_outcome job_StatusPending (now + backoff after) (Result j)
                   (error_string (ERetryable cause after)) j, w)
            | None =>
                (set_outcome StatusFailed (RunAt j) (Result j) (error_string err) j, w)
            end
        | (Panic v, w) =>
            (set_outcome StatusPanic (RunAt j) (Result j) ("panic: " +:+ v) j, w)
        end
    end in
  (set_attempted now j, w).

(** [DequeueFn]: the context is [None] or the reason it is done. *)
Definition DequeueFn : Type := option error → Job → io W Job.

Record JobQueue := mkJobQueue {
  jq_Enqueue : list Job → io W ();
  jq_Dequeue : option error → list string → DequeueFn → io W ();
}.

Record Worker := mkWorker {
  workers : Z;
  pollInt : Duration;
  queue : option JobQueue;
  handlers : gomap JobFn;
}.

Definition set_handlers (h : gomap JobFn) (w : Worker) : Worker :=
  mkWorker (workers w) (pollInt w) (queue w) h.

(** [Register]; the worker after the call, also when it fails. *)
Definition worker_Register (kind : string) (h : JobFn) (wk : Worker) : go () * Worker :=
  let hs := gm (handlers wk) in
  match hs !! kind with
  | Some _ =>
      (Err (EWrap ("handler for given kind exists: kind '" +:+ kind +:+ "'") ErrKindExists),
       set_handlers (Some hs) wk)
  | None => (Ok tt, set_handlers (Some (<[kind := h]> hs)) wk)
  end.

(** *** Options *)

Definition WorkerOption : Type := Worker → go () * Worker.

Definition WithJobKind (kind : string) (fn : JobFn) : WorkerOption := worker_Register kind fn.

(** The logger is not part of the model's state. *)
Definition WithLogger : WorkerOption := λ wk, (Ok tt, wk).

Definition minPollInterval : Duration := 100 * Millisecond.

Definition WithRunConfig (nworkers : Z) (pollInterval : Duration) : WorkerOption := λ wk,
  let nworkers := if nworkers =? 0 then 1 else nworkers in
  let pollInterval := if pollInterval <? minPollInterval then minPollInterval else pollInterval in
  (Ok tt, mkWorker nworkers pollInterval (queue wk) (handlers wk)).

Definition withDefaults (opts : list WorkerOption) : list WorkerOption :=
  [WithLogger; WithRunConfig 1 (1 * Second)] ++ opts.

Fixpoint apply_options (opts : list WorkerOption) (wk : Worker) : go Worker :=
  match opts with
  | [] => Ok wk
  | opt :: opts =>
      match opt wk with
      | (Ok _, wk) => apply_options opts wk
      | (Err err, _) => Err err
      | (Panic s, _) => Panic s
      end
  end.

Definition New (q : JobQueue) (opts : list WorkerOption) : go Worker :=
  apply_options (withDefaults opts) (mkWorker 0 0 (Some q) None).

(** *** Enqueue and handling *)

Variable clock : W → Time * W.

(** The loop of [Enqueue]: the jobs that replace the caller's, up to the first
    that is invalid or of an unknown kind. *)
Fixpoint sanitise_jobs (hs : gmap string JobFn) (jobs : list Job) : io W (list Job) :=
  match jobs with
  | [] => mret []
  | job :: jobs => λ w,
      let '(now, w) := clock w in
      match Job_Sanitise now job with
      | (Some err, _) => (Err err, w)
      | (None, job) =>
          match hs !! job_Kind job with
          | None =>
              (Err (EWrap ("job kind is invalid: kind '" +:+ job_Kind job +:+ "'")
                 ErrUnknownKind), w)
          | Some _ => (jobs ← sanitise_jobs hs jobs; mret (job :: jobs)) w
          end
      end
  end.

Definition Enqueue (wk : Worker) (jobs : list Job) : io W () :=
  jobs ← sanitise_jobs (gm (handlers wk)) jobs;
  match queue wk with
  | Some q => jq_Enqueue q jobs
  | None => panic "invalid memory address or nil pointer dereference"
  end.

Definition invalidKindBackoff : Duration := 5 * Minute.

Definition handleJob (wk : Worker) : DequeueFn := λ ctx job w,
  match gm (handlers wk) !! job_Kind job with
  | None => (Err (ERetryable (ENew "job kind is invalid") invalidKindBackoff), w)
  | Some fn =>
      let '(now, w) := clock w in
      let '(job, w) := Attempt ctx now fn job w in
      (Ok job, w)
  end.

Definition getKinds `{MR : MapRange} (wk : Worker) : list string :=
  (range (gm (handlers wk))).*1.

Definition cleanupCtxErr (err : option error) : option error :=
  match err with
  | Some e => if errors_Is e Canceled || errors_Is e DeadlineExceeded then None else Some e
  | None => None
  end.

(** One worker thread of [Run]: what its [select] sees until the context is
    done; a failed [Dequeue] is only logged. *)
Inductive worker_event := WDone | WTimer.

Fixpoint runWorker `{MR : MapRange} (wk : Worker) (evs : list worker_event) : io W () :=
  match evs with
  | [] | WDone :: _ => mret tt
  | WTimer :: evs =>
      _ ← (match getKinds wk, queue wk with
           | [], _ => mret tt
           | kinds, Some q =>
               _ ← attempt (jq_Dequeue q None kinds (handleJob wk)); mret tt
           | _, None => panic "invalid memory address or nil pointer dereference"
           end);
      runWorker wk evs
  end.
End worker.

Arguments JobFn : clear implicits.
Arguments JobQueue : clear implicits.
Arguments Worker : clear implicits.
Arguments WorkerOption : clear implicits.
Arguments DequeueFn : clear implicits.

(** ** Properties *)

Lemma backoff_min d : minRetryBackoff ≤ backoff d ∧ d ≤ backoff d.
Proof. unfold backoff. destruct (Z.leb_spec d minRetryBackoff); lia. Qed.

Section worker_props.
Context {W : Type}.
Implicit Types (w : W) (j : Job) (fn : JobFn W).

(** C29. An attempt always produces an updated job: it is done with the result
    on success, pending again and due no sooner than five seconds later when
    the context is cancelled or the handler asks for a retry (and no sooner
    than it asked), failed on any other error and in the panic state when the
    handler panics; it is counted exactly once, and a panic never escapes. *)
Theorem Attempt_correct ctx now fn j w :
  let '(j', w') := Attempt ctx now fn j w in
  AttemptsDone j' = wrap64 (AttemptsDone j + 1) ∧ LastAttemptAt j' = now ∧
  job_UpdatedAt j' = now ∧
  job_ID j' = job_ID j ∧ job_Kind j' = job_Kind j ∧ Payload j' = Payload j ∧
  match ctx with
  | Some _ => w' = w ∧ job_Status j' = job_StatusPending ∧ RunAt j' = now + minRetryBackoff
  | None =>
      w' = (fn j w).2 ∧
      match (fn j w).1 with
      | Ok res => job_Status j' = StatusDone ∧ Result j' = res
      | Err err =>
          Result j' = Result j ∧
          match As_Retryable err with
          | Some (_, after) => job_Status j' = job_StatusPending ∧
              now + minRetryBackoff ≤ RunAt j' ∧ now + after ≤ RunAt j'
          | None => job_Status j' = StatusFailed ∧ RunAt j' = RunAt j
          end
      | Panic v => job_Status j' = StatusPanic ∧ job_LastError j' = "panic: " +:+ v
      end
  end.
Proof.
  unfold Attempt. destruct ctx as [err|]; [cbn; done|].
  destruct (fn j w) as [[res|err|v] w1]; cbn; [done| |done].
  destruct (As_Retryable err) as [[cause after]|]; cbn; [|done].
  pose proof (backoff_min after). split_and!; try done; lia.
Qed.

(** What a sanitised job looks like. *)
Definition ready_job (hs : gmap string (JobFn W)) j : Prop :=
  job_ID j ≠ "" ∧ TrimSpace (job_ID j) = job_ID j ∧ is_Some (hs !! job_Kind j) ∧
  job_Status j = job_StatusPending ∧ AttemptsDone j = 0 ∧ job_LastError j = "" ∧
  LastAttemptAt j = zero_time.

Lemma Sanitise_ready now j j' hs :
  Job_Sanitise now j = (None, j') → is_Some (hs !! job_Kind j') → ready_job hs j'.
Proof.
  unfold Job_Sanitise. cbn [job_ID job_Kind RunAt]. repeat case_decide; try done.
  all: intros [= <-] Hk; unfold ready_job; cbn [job_ID job_Kind job_Status AttemptsDone
    job_LastError LastAttemptAt] in *; split_and!; try done; apply TrimSpace_idemp.
Qed.

Lemma sanitise_jobs_Ok clock hs jobs w out w' :
  sanitise_jobs clock hs jobs w = (out, w') →
  match out with
  | Ok jobs' => length jobs' = length jobs ∧ Forall (ready_job hs) jobs'
  | Err err => errors_Is err ErrInvalidJob = true ∨ errors_Is err ErrUnknownKind = true
  | Panic _ => False
  end.
Proof.
  revert w out w'. induction jobs as [|job jobs IH]; intros w out w' H.
  - injection H as <- <-. by split.
  - cbn [sanitise_jobs] in H. destruct (clock w) as [now w1].
    destruct (Job_Sanitise now job) as [[err|] job'] eqn:Hs.
    + injection H as <- <-. left. unfold Job_Sanitise in Hs. by repeat case_decide; simplify_eq.
    + destruct (hs !! job_Kind job') as [h|] eqn:Hk; [|injection H as <- <-; by right].
      rewrite run_bind in H.
      destruct (sanitise_jobs clock hs jobs w1) as [[jobs'|err|s] w2] eqn:Hr;
        apply IH in Hr; injection H as <- <-; [|done..].
      destruct Hr as [Hlen Hall]. split; [cbn; by f_equal|]. constructor; [|done].
      eapply Sanitise_ready; eauto.
Qed.

(** Enqueueing is all-or-nothing: either every job is sanitised and of a
    registered kind and the queue receives all of them in one call, as pending
    jobs with no attempt, or the call fails with an invalid-job or
    unknown-kind error and the queue is not called. *)
Theorem Enqueue_all_or_nothing clock (wk : Worker W) (q : JobQueue W) jobs w :
  queue wk = Some q →
  (∃ jobs' w1, length jobs' = length jobs ∧
     Forall (ready_job (gm (handlers wk))) jobs' ∧
     sanitise_jobs clock (gm (handlers wk)) jobs w = (Ok jobs', w1) ∧
     Enqueue clock wk jobs w = jq_Enqueue q jobs' w1) ∨
  (∃ err w1, Enqueue clock wk jobs w = (Err err, w1) ∧
     (errors_Is err ErrInvalidJob = true ∨ errors_Is err ErrUnknownKind = true) ∧
     sanitise_jobs clock (gm (handlers wk)) jobs w = (Err err, w1)).
Proof.
  intros Hq. unfold Enqueue. rewrite run_bind, Hq.
  destruct (sanitise_jobs _ _ jobs w) as [[jobs'|err|s] w1] eqn:Hs;
    pose proof (sanitise_jobs_Ok _ _ _ _ _ _ Hs) as H; [left|right|done].
  - exists jobs', w1. naive_solver.
  - by exists err, w1.
Qed.

Lemma option_pollInt (opt : WorkerOption W) wk wk' :
  (∃ k fn, opt = WithJobKind k fn) ∨ opt = WithLogger ∨ (∃ n d, opt = WithRunConfig n d) →
  minPollInterval ≤ pollInt wk → opt wk = (Ok tt, wk') →
  minPollInterval ≤ pollInt wk' ∧ queue wk' = queue wk ∧
  gm (handlers wk) ⊆ gm (handlers wk').
Proof.
  intros [(k & fn & ->)|[->|(n & d & ->)]] Hp H.
  - unfold WithJobKind, worker_Register in H.
    destruct (gm (handlers wk) !! k) eqn:Hk; simplify_eq. cbn. split_and!; [done|done|].
    by apply insert_subseteq.
  - injection H as <-. done.
  - injection H as <-. cbn. split_and!; [|done|done].
    destruct (Z.ltb_spec d minPollInterval); lia.
Qed.
End worker_props.

(** A new worker keeps its queue, polls at most ten times a second whatever
    interval is asked for, and registering a kind twice is refused. *)
Theorem New_correct {W} (q : JobQueue W) (opts : list (WorkerOption W)) wk k h :
  (∀ opt, opt ∈ opts → (∃ k fn, opt = WithJobKind k fn) ∨ opt = WithLogger ∨
                        ∃ n d, opt = WithRunConfig n d) →
  New q opts = Ok wk →
  minPollInterval ≤ pollInt wk ∧ queue wk = Some q ∧
  (is_Some (gm (handlers wk) !! k) →
   ∃ err, (worker_Register k h wk).1 = Err err ∧ errors_Is err ErrKindExists = true).
Proof.
  intros Hopts H. unfold New, withDefaults in H. cbn in H.
  set (wk0 := mkWorker 1 _ _ _) in H.
  assert (minPollInterval ≤ pollInt wk0) as Hp by (vm_compute; discriminate).
  assert (queue wk0 = Some q) as Hq by done. clearbody wk0.
  assert (minPollInterval ≤ pollInt wk ∧ queue wk = Some q) as [? ?].
  { revert wk0 Hp Hq H. induction opts as [|opt opts IH]; intros wk0 Hp Hq H; cbn in H;
      [by simplify_eq|].
    destruct (opt wk0) as [[[]|err|s] wk1] eqn:Ho; [|done..].
    apply option_pollInt in Ho as (Hp1 & Hq1 & _); [|apply Hopts; set_solver|done].
    eapply IH; [set_solver|exact Hp1|congruence|done]. }
  split_and!; [done..|]. intros [fn Hk]. unfold worker_Register. rewrite Hk. eauto.
Qed.

(** ** Witnesses *)

Definition demo_queue : JobQueue (list Job) := {|
  jq_Enqueue jobs w := (Ok tt, w ++ jobs);
  jq_Dequeue _ _ _ w := (Ok tt, w);
|}.

Definition demo_fn : JobFn (list Job) := λ j w, (Ok (Some "ok"), w).

Definition demo_worker : Worker (list Job) :=
  mkWorker 1 Second (Some demo_queue) (Some {[ "echo" := demo_fn ]}).

Definition demo_job : Job :=
  mkJob " j1" "Echo " 0 None "" 0 0 None 7 3 "old".

Lemma Enqueue_all_or_nothing_witness :
  (Enqueue (λ w, (9, w)) demo_worker [demo_job] []).2 =
    [mkJob "j1" "echo" 9 None "PENDING" 9 9 None 0 0 ""] ∧
  queue demo_worker = Some demo_queue ∧
  (∀ err w1, Enqueue (λ w, (9, w)) demo_worker [demo_job] [] ≠ (Err err, w1)).
Proof.
  split; [vm_compute; reflexivity|]. split; [reflexivity|]. intros err w1.
  destruct (Enqueue_all_or_nothing (λ w, (9, w)) demo_worker demo_queue [demo_job] [] eq_refl)
    as [(jobs' & w2 & _ & _ & _ & H)|(e & w2 & H & _)].
  - rewrite H. discriminate.
  - vm_compute in H. discriminate H.
Defined.

Lemma New_correct_witness :
  ∃ wk, New demo_queue [WithJobKind "echo" demo_fn; WithRunConfig 4 1] = Ok wk ∧
    minPollInterval ≤ pollInt wk ∧
    ∃ err, (worker_Register "echo" demo_fn wk).1 = Err err.
Proof.
  destruct (ok_res (New demo_queue [WithJobKind "echo" demo_fn; WithRunConfig 4 1])) as [wk Hn];
    [reflexivity|].
  exists wk. split; [exact Hn|].
  destruct (New_correct demo_queue [WithJobKind "echo" demo_fn; WithRunConfig 4 1] wk "echo" demo_fn)
    as (H1 & _ & H2); [|exact Hn|].
  - intros opt Hin. apply elem_of_cons in Hin as [->|Hin]; [left; eauto|].
    apply list_elem_of_singleton in Hin as ->. right. right. eauto.
  - split; [exact H1|]. destruct H2 as (err & He & _); [|exists err; exact He].
    vm_compute in Hn. injection Hn as <-. vm_compute. eauto.
Defined.
