(* ===== verification/Sql.v ===== *)
(** * Sql: the statements the program sends to PostgreSQL

    The stores build their statements with the squirrel builder and run them
    through database/sql.  A statement is data here; the connection that runs
    it is a parameter ([Conn]).  [sem] is the documented meaning of the
    statements on tables under a schema, and [Engine] says what the program
    relies on of a connection: a statement that succeeds means [sem], one that
    fails changes nothing, a transaction that is rolled back is undone, and the
    constraints of the schema hold. *)

From S2P Require Import Prelude GoLib Errors.

#[local] Open Scope Z_scope.

(** ** Values and rows *)

Inductive value :=
  | VNull
  | VInt (z : Z)
  | VText (s : string)
  | VBytes (s : string)
  | VTime (t : Time)
  (** text[], whose elements can be NULL *)
  | VTexts (l : list (option string)).

#[export] Instance value_eq_dec : EqDecision value.
Proof. solve_decision. Defined.

Abbreviation row := (list (string * value)) (only parsing).
Abbreviation tables := (gmap string (list row)) (only parsing).

Fixpoint assoc {A} (l : list (string * A)) (c : string) : option A :=
  match l with
  | [] => None
  | (k, v) :: l => if decide (k = c) then Some v else assoc l c
  end.

Definition col (r : row) (c : string) : value := default VNull (assoc r c).

(** ** Statements *)

Inductive sql_expr :=
  | EVal (v : value)
  | ENow
  | ENowPlus (d : Duration)
  | EColPlus (c : string) (n : Z).

Inductive cond :=
  | CEq (c : string) (v : value)
  | CIn (c : string) (vs : list value)
  | CLeNow (c : string)
  | CLtNow (c : string).

(** The clauses after WHERE: nothing, ORDER BY c DESC, or [LIMIT n] FOR UPDATE
    SKIP LOCKED. *)
Inductive suffix :=
  | NoSuffix
  | OrderByDesc (c : string)
  | ForUpdateSkipLocked (limit : option nat).

Inductive stmt :=
  | SSelect (cols : list string) (table : string) (wh : list cond) (sfx : suffix)
  (** SELECT a.c AS x, b.d AS y FROM ta a JOIN tb b ON b.bk = a.ak WHERE wh(a) *)
  | SSelectJoin (lcols rcols : list (string * string)) (ta tb ak bk : string) (wh : list cond)
  | SInsert (table : string) (cols : list string) (rows : list (list value))
      (returning : list string)
  | SUpdate (table : string) (sets : list (string * sql_expr)) (wh : list cond)
  | SDelete (table : string) (wh : list cond)
  | SRaw (query : string) (args : list value).

Definition is_read (s : stmt) : bool :=
  match s with
  | SSelect _ _ _ _ | SSelectJoin _ _ _ _ _ _ _ | SRaw _ _ => true
  | _ => false
  end.

(** ** Schemas *)

(** [TTime] is timestamptz, which keeps whole microseconds. *)
Inductive col_type := TInt | TText | TBytes | TTime.
Inductive col_default := NoDefault | DSerial | DNow | DVal (v : value).

Record column := mkColumn {
  col_name : string;
  col_ty : col_type;
  col_notnull : bool;
  col_dflt : col_default;
}.

(** [uniques]: PRIMARY KEY and UNIQUE constraints; [refs]: column, table and
    column it REFERENCES. *)
Record table_def := mkTableDef {
  columns : list column;
  uniques : list (list string);
  refs : list (string * (string * string));
}.

Abbreviation schema_def := (gmap string table_def) (only parsing).

Definition has_type (c : column) (v : value) : bool :=
  match v, col_ty c with
  | VNull, _ => negb (col_notnull c)
  | VInt _, TInt | VText _, TText | VBytes _, TBytes => true
  | VTime t, TTime => whole_us t
  | _, _ => false
  end.

(** What the declared constraints say of a table. *)
Record table_ok (td : table_def) (T : tables) (rows : list row) : Prop := {
  rows_shape : ∀ r, r ∈ rows → r.*1 = col_name <$> columns td;
  rows_typed : ∀ r c, r ∈ rows → c ∈ columns td → has_type c (col r (col_name c)) = true;
  rows_unique : ∀ u, u ∈ uniques td → NoDup ((λ r : row, col r <$> u) <$> rows);
  rows_refs : ∀ c t k r, (c, (t, k)) ∈ refs td → r ∈ rows →
    ∃ r', r' ∈ default [] (T !! t) ∧ col r' k = col r c;
}.

Definition db_ok (sch : schema_def) (T : tables) : Prop :=
  ∀ t td, sch !! t = Some td → ∃ rows, T !! t = Some rows ∧ table_ok td T rows.

(** ** Meaning *)

Definition eval_expr (now : Time) (r : row) (e : sql_expr) : value :=
  match e with
  | EVal v => v
  | ENow => VTime now
  | ENowPlus d => VTime (now + d)
  | EColPlus c n => match col r c with VInt z => VInt (z + n) | v => v end
  end.

Definition eval_cond (now : Time) (r : row) (c : cond) : bool :=
  match c with
  | CEq c v => bool_decide (col r c = v)
  | CIn c vs => bool_decide (col r c ∈ vs)
  | CLeNow c => match col r c with VTime t => t <=? now | _ => false end
  | CLtNow c => match col r c with VTime t => t <? now | _ => false end
  end.

Definition where_ (now : Time) (wh : list cond) (r : row) : bool :=
  forallb (eval_cond now r) wh.

Definition select_rows (now : Time) (wh : list cond) (rows : list row) : list row :=
  filter (λ r, where_ now wh r = true) rows.

Definition project (cols : list string) (r : row) : row := (λ c, (c, col r c)) <$> cols.

Definition project_as (cols : list (string * string)) (r : row) : row :=
  (λ ca, (ca.2, col r ca.1)) <$> cols.

Definition set_cols (now : Time) (sets : list (string * sql_expr)) (r : row) : row :=
  (λ cv, (cv.1, match assoc sets cv.1 with Some e => eval_expr now r e | None => cv.2 end)) <$> r.

(** A new row: the given columns, the defaults for the others. *)
Definition new_row (td : table_def) (now : Time) (id : Z) (cols : list string) (vals : list value) :
    row :=
  (λ c, (col_name c,
         match assoc (zip cols vals) (col_name c) with
         | Some v => v
         | None => match col_dflt c with
                   | NoDefault => VNull
                   | DSerial => VInt id
                   | DNow => VTime now
                   | DVal v => v
                   end
         end)) <$> columns td.

Section meaning.
Variable sch : schema_def.

Inductive sem (now : Time) : stmt → tables → list row → tables → Prop :=
  (** rows come in the order of the table *)
  | sem_select cols t wh T rows :
      T !! t = Some rows →
      sem now (SSelect cols t wh NoSuffix) T (project cols <$> select_rows now wh rows) T
  | sem_select_order cols t wh c T rows rows' :
      T !! t = Some rows → rows' ≡ₚ select_rows now wh rows →
      (∀ i j ri rj ti tj, rows' !! i = Some ri → rows' !! j = Some rj → (i ≤ j)%nat →
         col ri c = VTime ti → col rj c = VTime tj → tj ≤ ti) →
      sem now (SSelect cols t wh (OrderByDesc c)) T (project cols <$> rows') T
  (** rows locked by another transaction are skipped *)
  | sem_select_lock cols t wh l T rows rows' :
      T !! t = Some rows → rows' `sublist_of` select_rows now wh rows →
      (∀ n, l = Some n → (length rows' ≤ n)%nat) →
      sem now (SSelect cols t wh (ForUpdateSkipLocked l)) T (project cols <$> rows') T
  | sem_join lcols rcols ta tb ak bk wh T rowsa rowsb :
      T !! ta = Some rowsa → T !! tb = Some rowsb →
      sem now (SSelectJoin lcols rcols ta tb ak bk wh) T
        (ra ← select_rows now wh rowsa;
         rb ← filter (λ rb, col rb bk = col ra ak) rowsb;
         [project_as lcols ra ++ project_as rcols rb]) T
  | sem_insert t cols vals ret td T rows new :
      sch !! t = Some td → T !! t = Some rows →
      Forall2 (λ vs r, ∃ id, r = new_row td now id cols vs) vals new →
      db_ok sch (<[t := rows ++ new]> T) →
      sem now (SInsert t cols vals ret) T (project ret <$> new) (<[t := rows ++ new]> T)
  | sem_update t sets wh T rows rows' :
      T !! t = Some rows →
      rows' = ((λ r, if where_ now wh r then set_cols now sets r else r) <$> rows) →
      db_ok sch (<[t := rows']> T) →
      sem now (SUpdate t sets wh) T [] (<[t := rows']> T)
  | sem_delete t wh T rows rows' :
      T !! t = Some rows →
      rows' = filter (λ r, where_ now wh r = false) rows →
      db_ok sch (<[t := rows']> T) →
      sem now (SDelete t wh) T [] (<[t := rows']> T)
  (** a hand-written query: a read with an unspecified result *)
  | sem_raw q args T rows : sem now (SRaw q args) T rows T.
End meaning.

(** ** Connections *)

(** The [Runner] a statement is run with: the pool or the open transaction. *)
Inductive runner := RDb | RTx.

Record Conn (W : Type) := mkConn {
  BeginTxx : bool → io W ();
  Commit : io W ();
  Rollback : W → W;
  exec : runner → stmt → io W (list row);
}.

Arguments BeginTxx {W}.
Arguments Commit {W}.
Arguments Rollback {W}.
Arguments exec {W}.

(** [row.Scan] of [QueryRow]: the first row, or [sql.ErrNoRows]. *)
Definition first_row (rows : list row) : go row :=
  match rows with
  | [] => Err ErrNoRows
  | r :: _ => Ok r
  end.

Definition scan_error (c : string) : error := ENew ("sql: Scan error on column " +:+ c).

Definition scan_text (r : row) (c : string) : go string :=
  match col r c with VText s => Ok s | _ => Err (scan_error c) end.
Definition scan_int (r : row) (c : string) : go Z :=
  match col r c with VInt z => Ok z | _ => Err (scan_error c) end.
Definition scan_time (r : row) (c : string) : go Time :=
  match col r c with VTime t => Ok t | _ => Err (scan_error c) end.
Definition scan_time_ptr (r : row) (c : string) : go (option Time) :=
  match col r c with
  | VTime t => Ok (Some t)
  | VNull => Ok None
  | _ => Err (scan_error c)
  end.
Definition scan_bytes (r : row) (c : string) : go RawMessage :=
  match col r c with
  | VBytes s => Ok (Some s)
  | VText s => Ok (Some s)
  | VNull => Ok None
  | _ => Err (scan_error c)
  end.
(** [pq.StringArray], which refuses a NULL element. *)
Definition scan_texts (r : row) (c : string) : go (list string) :=
  match col r c with
  | VTexts l => match mapM id l with Some l => Ok l | None => Err (scan_error c) end
  | VNull => Ok []
  | _ => Err (scan_error c)
  end.

(** Appending a result per row, up to the first failure. *)
Fixpoint scan_all {R A} (f : R → go A) (rows : list R) : go (list A) :=
  match rows with
  | [] => Ok []
  | r :: rows => a ← f r; l ← scan_all f rows; Ok (a :: l)
  end.

(** What the program relies on of a connection.  [now_of] is [current_timestamp]
    as a statement sees it: on the pool the present, in a transaction the time
    it began. *)
Class Engine {W} (sch : schema_def) (c : Conn W) : Type := {
  tabs : W → tables;
  saved : W → option tables;
  now_of : runner → W → Time;
  tabs_ok : ∀ w, db_ok sch (tabs w);
  exec_meaning : ∀ r s w rows w', exec c r s w = (Ok rows, w') →
    saved w' = saved w ∧
    (is_read s = true → tabs w' = tabs w) ∧
    (r = RTx ∨ saved w = None → sem sch (now_of r w) s (tabs w) rows (tabs w')) ∧
    (** beside an open transaction, a read of the pool sees what is committed *)
    (r = RDb → is_read s = true →
       sem sch (now_of r w) s (default (tabs w) (saved w)) rows (default (tabs w) (saved w)));
  exec_Err : ∀ r s w e w', exec c r s w = (Err e, w') →
    saved w' = saved w ∧ tabs w' = tabs w ∧ As_Error e = None ∧ errors_Is e ErrNoRows = false;
  exec_no_panic : ∀ r s w, is_panic (exec c r s w).1 = false;
  begin_Ok : ∀ ro w w', BeginTxx c ro w = (Ok tt, w') →
    saved w' = Some (tabs w) ∧ tabs w' = tabs w;
  begin_Err : ∀ ro w e w', BeginTxx c ro w = (Err e, w') →
    saved w' = saved w ∧ tabs w' = tabs w ∧ As_Error e = None;
  begin_no_panic : ∀ ro w, is_panic (BeginTxx c ro w).1 = false;
  commit_Ok : ∀ w w', Commit c w = (Ok tt, w') → saved w' = None ∧ tabs w' = tabs w;
  commit_Err : ∀ w e w', Commit c w = (Err e, w') →
    saved w' = None ∧ tabs w' = default (tabs w) (saved w) ∧ As_Error e = None;
  commit_no_panic : ∀ w, is_panic (Commit c w).1 = false;
  rollback_spec : ∀ w, saved (Rollback c w) = None ∧
    tabs (Rollback c w) = default (tabs w) (saved w);
  (** the clock of the database does not run backwards *)
  exec_clock : ∀ r s w, now_of RTx (exec c r s w).2 = now_of RTx w ∧
    now_of RDb w ≤ now_of RDb (exec c r s w).2;
  begin_clock : ∀ ro w, now_of RDb w ≤ now_of RDb (BeginTxx c ro w).2;
  begin_now : ∀ ro w w', BeginTxx c ro w = (Ok tt, w') →
    now_of RDb w ≤ now_of RTx w' ∧ now_of RTx w' ≤ now_of RDb w';
  commit_clock : ∀ w, now_of RDb w ≤ now_of RDb (Commit c w).2;
  rollback_clock : ∀ w, now_of RDb w ≤ now_of RDb (Rollback c w);
}.

(** The meaning of a statement that succeeds, at some time. *)
Lemma exec_Ok {W sch} {c : Conn W} {EN : Engine sch c} r s w rows w' :
  exec c r s w = (Ok rows, w') →
  saved w' = saved w ∧
  (is_read s = true → tabs w' = tabs w) ∧
  (r = RTx ∨ saved w = None → ∃ now, sem sch now s (tabs w) rows (tabs w')) ∧
  (r = RDb → is_read s = true →
     ∃ now, sem sch now s (default (tabs w) (saved w)) rows (default (tabs w) (saved w))).
Proof. intros H. destruct (exec_meaning _ _ _ _ _ H) as (? & ? & ? & ?). split_and!; eauto. Qed.

(** ** Lemmas *)

Lemma assoc_col_shape (r : row) c :
  c ∈ r.*1 → ∃ v, assoc r c = Some v.
Proof.
  induction r as [|[k v] r IH]; cbn; [set_solver|].
  intros [->|?]%elem_of_cons; [rewrite decide_True by done; eauto|].
  case_decide; eauto.
Qed.

Lemma assoc_not_in {A} (l : list (string * A)) c : c ∉ l.*1 → assoc l c = None.
Proof.
  induction l as [|[k v] l IH]; cbn; [done|]. intros Hc.
  rewrite decide_False by set_solver. apply IH. set_solver.
Qed.

Lemma col_map (f : string → value → value) (r : row) c :
  c ∈ r.*1 → col ((λ cv, (cv.1, f cv.1 cv.2)) <$> r) c = f c (col r c).
Proof.
  unfold col. induction r as [|[k v] r IH]; cbn; [set_solver|]. intros Hc.
  case_decide as Hk; [by subst|]. apply IH. set_solver.
Qed.

Lemma col_set_cols now sets r c :
  c ∈ r.*1 →
  col (set_cols now sets r) c =
  match assoc sets c with Some e => eval_expr now r e | None => col r c end.
Proof.
  apply (col_map (λ c v, match assoc sets c with Some e => eval_expr now r e | None => v end)).
Qed.

Lemma col_map_other (f : string → value → value) (r : row) c :
  (∀ v, f c v = v) → col ((λ cv, (cv.1, f cv.1 cv.2)) <$> r) c = col r c.
Proof.
  intros Hf. unfold col. induction r as [|[k v] r IH]; cbn; [done|].
  case_decide as Hk; [subst k; cbn; by rewrite Hf|exact IH].
Qed.

Lemma col_set_cols_other now sets r c : c ∉ sets.*1 → col (set_cols now sets r) c = col r c.
Proof.
  intros Hc.
  apply (col_map_other (λ c v, match assoc sets c with Some e => eval_expr now r e | None => v end)).
  intros v. by rewrite assoc_not_in.
Qed.

Lemma set_cols_shape now sets r : (set_cols now sets r).*1 = r.*1.
Proof. unfold set_cols. rewrite <- list_fmap_compose. done. Qed.

Lemma col_new_row td now id cols vals c :
  NoDup (col_name <$> columns td) → c ∈ columns td →
  col (new_row td now id cols vals) (col_name c) =
  match assoc (zip cols vals) (col_name c) with
  | Some v => v
  | None => match col_dflt c with
            | NoDefault => VNull | DSerial => VInt id | DNow => VTime now | DVal v => v
            end
  end.
Proof.
  unfold new_row, col. induction (columns td) as [|c0 l IH]; [set_solver|].
  intros Hnd Hc. cbn in *. apply NoDup_cons in Hnd as [Hn Hnd].
  apply elem_of_cons in Hc as [->|Hc]; [by rewrite decide_True|].
  rewrite decide_False; [by apply IH|]. intros Heq. apply Hn. rewrite Heq.
  apply list_elem_of_fmap. eauto.
Qed.

Lemma col_project cols r c : c ∈ cols → col (project cols r) c = col r c.
Proof.
  unfold col, project. induction cols as [|c0 cols IH]; [set_solver|].
  intros Hc. cbn. case_decide as Hd; [by subst|]. apply IH. set_solver.
Qed.

Lemma db_ok_table sch T t td rows :
  db_ok sch T → sch !! t = Some td → T !! t = Some rows → table_ok td T rows.
Proof. intros Hok Hs Ht. destruct (Hok t td Hs) as (rows' & Ht' & H). by simplify_eq. Qed.

(** A unique column identifies the row. *)
Lemma unique_row td T rows c r1 r2 :
  table_ok td T rows → [c] ∈ uniques td → r1 ∈ rows → r2 ∈ rows → col r1 c = col r2 c → r1 = r2.
Proof.
  intros Hok Hu H1 H2 Hc. pose proof (rows_unique _ _ _ Hok [c] Hu) as Hnd.
  apply list_elem_of_lookup in H1 as [i Hi]. apply list_elem_of_lookup in H2 as [j Hj].
  assert (i = j) as ->; [|congruence].
  eapply NoDup_lookup; [exact Hnd| |]; rewrite list_lookup_fmap; [by rewrite Hi|].
  rewrite Hj. cbn. by rewrite Hc.
Qed.

Lemma select_unique td T rows c v now :
  table_ok td T rows → [c] ∈ uniques td →
  (∃ r, r ∈ rows ∧ col r c = v ∧ select_rows now [CEq c v] rows = [r]) ∨
  ((∀ r, r ∈ rows → col r c ≠ v) ∧ select_rows now [CEq c v] rows = []).
Proof.
  intros Hok Hu. unfold select_rows.
  destruct (filter (λ r, where_ now [CEq c v] r = true) rows) as [|r l] eqn:Hf.
  - right. split; [|done]. intros r Hr Hc.
    assert (r ∈ filter (λ r, where_ now [CEq c v] r = true) rows) as Hin
      ; [|by rewrite Hf in Hin; apply elem_of_nil in Hin].
    apply list_elem_of_filter. split; [|done]. cbn. by rewrite bool_decide_true.
  - left. exists r.
    assert (∀ x, x ∈ r :: l → x ∈ rows ∧ col x c = v) as Hall.
    { intros x Hx. rewrite <- Hf in Hx. apply list_elem_of_filter in Hx as [Hw Hx].
      split; [done|]. cbn in Hw. rewrite andb_true_r in Hw. by apply bool_decide_eq_true in Hw. }
    destruct (Hall r) as [Hr Hc]; [set_solver|]. split_and!; [done..|].
    destruct l as [|r' l]; [done|]. exfalso.
    destruct (Hall r') as [Hr' Hc']; [set_solver|].
    assert (r = r') as <- by (eapply unique_row; try done; congruence).
    assert (NoDup (filter (λ r, where_ now [CEq c v] r = true) rows)) as Hnd.
    { apply NoDup_filter. eapply NoDup_fmap_1, (rows_unique _ _ _ Hok _ Hu). }
    rewrite Hf in Hnd. apply NoDup_cons in Hnd as [Hn _]. set_solver.
Qed.
