(* ===== verification/SqlLogic.v ===== *)
(** * SqlLogic: reasoning about calls on a connection

    Total readings of rows and columns, triples for the calls of a transaction,
    the effect of a transaction as a whole, and the effect of the statements on
    the tables. *)

From S2P Require Import Prelude GoLib Errors Sql.

#[local] Open Scope Z_scope.

(** ** Reading tables *)

Definition rows_of (T : tables) (t : string) : list row := default [] (T !! t).

Definition txt (r : row) (c : string) : string :=
  match col r c with VText s => s | _ => "" end.
Definition int (r : row) (c : string) : Z := match col r c with VInt z => z | _ => 0 end.
Definition tim (r : row) (c : string) : Time := match col r c with VTime t => t | _ => 0 end.
Definition tim_ptr (r : row) (c : string) : option Time :=
  match col r c with VTime t => Some t | _ => None end.
Definition byt (r : row) (c : string) : RawMessage :=
  match col r c with VBytes s | VText s => Some s | _ => None end.

Lemma scan_text_Ok r c s : scan_text r c = Ok s → col r c = VText s ∧ s = txt r c.
Proof. unfold scan_text, txt. destruct (col r c); naive_solver. Qed.
Lemma scan_int_Ok r c z : scan_int r c = Ok z → col r c = VInt z ∧ z = int r c.
Proof. unfold scan_int, int. destruct (col r c); naive_solver. Qed.
Lemma scan_time_Ok r c t : scan_time r c = Ok t → t = tim r c.
Proof. unfold scan_time, tim. destruct (col r c); naive_solver. Qed.
Lemma scan_time_ptr_Ok r c t : scan_time_ptr r c = Ok t → t = tim_ptr r c.
Proof. unfold scan_time_ptr, tim_ptr. destruct (col r c); naive_solver. Qed.
Lemma scan_bytes_Ok r c s : scan_bytes r c = Ok s → s = byt r c.
Proof. unfold scan_bytes, byt. destruct (col r c); naive_solver. Qed.

(** The scan functions fail with errors of database/sql. *)
Definition plain {A} (out : go A) : Prop :=
  match out with
  | Ok _ => True
  | Err e => As_Error e = None ∧ errors_Is e ErrNoRows = false
  | Panic _ => False
  end.

Lemma plain_text r c : plain (scan_text r c).
Proof. unfold scan_text. by destruct (col r c). Qed.
Lemma plain_int r c : plain (scan_int r c).
Proof. unfold scan_int. by destruct (col r c). Qed.
Lemma plain_time r c : plain (scan_time r c).
Proof. unfold scan_time. by destruct (col r c). Qed.
Lemma plain_time_ptr r c : plain (scan_time_ptr r c).
Proof. unfold scan_time_ptr. by destruct (col r c). Qed.
Lemma plain_bytes r c : plain (scan_bytes r c).
Proof. unfold scan_bytes. by destruct (col r c). Qed.
Lemma plain_bind {A B} (m : go A) (f : A → go B) :
  plain m → (∀ a, plain (f a)) → plain (m ≫= f).
Proof. destruct m; cbn; [intros _ H; apply H|done|done]. Qed.
Lemma plain_scan_all {R A} (f : R → go A) rows : (∀ r, plain (f r)) → plain (scan_all f rows).
Proof.
  intros Hf. induction rows as [|r rows IH]; cbn [scan_all]; [done|].
  apply plain_bind; [done|]. intros a. by apply plain_bind.
Qed.

#[export] Hint Resolve plain_text plain_int plain_time plain_time_ptr plain_bytes plain_bind
  plain_scan_all : go.

Lemma scan_all_Ok {R A} (f : R → go A) (g : R → A) rows l :
  (∀ r a, f r = Ok a → a = g r) → scan_all f rows = Ok l → l = g <$> rows.
Proof.
  intros Hf. revert l. induction rows as [|r rows IH]; cbn [scan_all]; intros l H.
  - by injection H as <-.
  - apply res_bind_ok_inv in H as (a & Ha & H). apply res_bind_ok_inv in H as (k & Hk & H).
    injection H as <-. cbn. f_equal; [by apply Hf|by apply IH].
Qed.

(** The rows of an id. *)
Definition at_id (c : string) (id : Z) (rows : list row) : list row :=
  filter (λ r, col r c = VInt id) rows.

(** ** Triples

    [triple m R]: a run of [m] inside a transaction relates the tables before, the
    outcome and the tables after by [R], and leaves the savepoint alone. *)

Section triples.
Context {sch : schema_def} {W : Type} {conn : Conn W} {EN : Engine sch conn}.

Definition triple {A} (m : io W A) (R : tables → go A → tables → Prop) : Prop :=
  ∀ w out w', m w = (out, w') → saved w' = saved w ∧ R (tabs w) out (tabs w').

(** Reads: the tables stay, the errors are plain unless listed. *)
Definition reads {A} (m : io W A) (P : tables → A → Prop) : Prop :=
  triple m (λ T out T', T' = T ∧
    match out with Ok a => P T a | Err e => As_Error e = None | Panic _ => False end).

Lemma triple_weaken {A} (m : io W A) (R R' : tables → go A → tables → Prop) :
  triple m R → (∀ T out T', db_ok sch T → db_ok sch T' → R T out T' → R' T out T') →
  triple m R'.
Proof. intros Hm HR w out w' H. destruct (Hm w out w' H). split; [done|]. apply HR; [apply tabs_ok..|done]. Qed.

Lemma triple_ret {A} (a : A) (R : tables → go A → tables → Prop) :
  (∀ T, R T (Ok a) T) → triple (mret a) R.
Proof. intros HR w out w' [= <- <-]. by split. Qed.

Lemma triple_lift {A} (r : go A) (R : tables → go A → tables → Prop) :
  (∀ T, R T r T) → triple (lift r) R.
Proof. intros HR w out w' [= <- <-]. by split. Qed.

Lemma triple_bind {A B} (m : io W A) (f : A → io W B) R1 R2 (R : tables → go B → tables → Prop) :
  triple m R1 → (∀ a, triple (f a) (R2 a)) →
  (∀ T e T', R1 T (Err e) T' → R T (Err e) T') →
  (∀ T s T', R1 T (Panic s) T' → R T (Panic s) T') →
  (∀ T a T1 out T2, db_ok sch T → db_ok sch T1 → db_ok sch T2 →
     R1 T (Ok a) T1 → R2 a T1 out T2 → R T out T2) →
  triple (m ≫= f) R.
Proof.
  intros Hm Hf He Hp Ho w out w' H. rewrite run_bind in H.
  destruct (m w) as [[a|e|s] w1] eqn:H1; destruct (Hm _ _ _ H1) as [Hs HR].
  - destruct (Hf a _ _ _ H) as [Hs' HR']. split; [congruence|].
    eapply Ho; [..|exact HR|exact HR']; apply tabs_ok.
  - injection H as <- <-. split; [done|]. by apply He.
  - injection H as <- <-. split; [done|]. by apply Hp.
Qed.

Lemma triple_catch {A} (m : io W A) h R1 (R : tables → go A → tables → Prop) :
  triple m R1 →
  (∀ T out T', R1 T out T' → R T (on_err out h) T') → triple (catch m h) R.
Proof.
  intros Hm HR w out w' H. unfold catch in H.
  destruct (m w) as [[a|e|s] w1] eqn:H1; destruct (Hm _ _ _ H1) as [Hs H2]; injection H as <- <-;
    (split; [done|]); by apply HR in H2.
Qed.

(** Begin, run, and commit or roll back. *)
Definition transaction {A} (ro : bool) (m : io W A) : io W A :=
  _ ← BeginTxx conn ro;
  (λ w, match m w with
        | (Err err, w) => (Err err, Rollback conn w)
        | (Panic s, w) => (Panic s, w)
        | (Ok a, w) => (_ ← Commit conn; mret a) w
        end) : io W A.

(** A transaction: the function's effect, or none. *)
Lemma transaction_spec {A} ro (m : io W A) R w out w' :
  triple m R → transaction ro m w = (out, w') →
  match out with
  | Ok a => R (tabs w) (Ok a) (tabs w')
  | Err e => tabs w' = tabs w ∧ (As_Error e = None ∨ ∃ T', R (tabs w) (Err e) T')
  | Panic s => R (tabs w) (Panic s) (tabs w')
  end.
Proof.
  intros Hm H. unfold transaction in H. rewrite run_bind in H.
  destruct (BeginTxx conn ro w) as [[[]|e|s] w1] eqn:Hb.
  - apply begin_Ok in Hb as [Hs1 Ht1].
    destruct (m w1) as [[a|e|s] w2] eqn:H1; destruct (Hm _ _ _ H1) as [Hs2 HR]; rewrite Ht1 in HR.
    + rewrite run_bind in H. destruct (Commit conn w2) as [[[]|e|s] w3] eqn:Hc.
      * apply commit_Ok in Hc as [_ Ht3]. injection H as <- <-. by rewrite Ht3.
      * apply commit_Err in Hc as (_ & Ht3 & He). injection H as <- <-.
        rewrite Ht3, Hs2, Hs1. cbn. auto.
      * pose proof (commit_no_panic w2) as Hp. by rewrite Hc in Hp.
    + injection H as <- <-. destruct (rollback_spec w2) as [_ Ht3].
      rewrite Ht3, Hs2, Hs1. cbn. split; [done|]. right. eauto.
    + injection H as <- <-. done.
  - apply begin_Err in Hb as (_ & Ht & He). injection H as <- <-. auto.
  - pose proof (begin_no_panic ro w) as Hp. by rewrite Hb in Hp.
Qed.

(** ** The clock *)

(** Time passes in the course of a call. *)
Definition later (w w' : W) : Prop := now_of RDb w ≤ now_of RDb w'.

#[local] Instance later_preorder : PreOrder later.
Proof. split; [intros w|intros w1 w2 w3]; unfold later; lia. Qed.

Lemma later_exec r s : effects later (exec conn r s).
Proof. intros w. apply exec_clock. Qed.

(** A transaction begins after the call, and ends after it began. *)
Lemma transaction_clock {A} ro (m : io W A) w a w' :
  effects later m → transaction ro m w = (Ok a, w') →
  let w1 := (BeginTxx conn ro w).2 in
  now_of RDb w ≤ now_of RTx w1 ∧ now_of RTx w1 ≤ now_of RDb w1 ∧ now_of RDb w1 ≤ now_of RDb w'.
Proof.
  intros Hm H. unfold transaction in H. apply bind_ok_inv in H as ([] & w1 & Hb & H).
  rewrite Hb. cbn [snd]. pose proof Hb as [Hb1 Hb2]%begin_now. split_and!; [done..|].
  specialize (Hm w1). unfold later in Hm. destruct (m w1) as [[b|e|s] w2]; [|discriminate..].
  apply bind_ok_inv in H as ([] & w3 & Hc & H). injection H as _ <-.
  pose proof (commit_clock w2) as Hc2. rewrite Hc in Hc2. cbn [snd] in *. lia.
Qed.

(** ** Statements *)

(** Statements of a transaction whose meaning is [sem]. *)
Lemma exec_triple s :
  triple (exec conn RTx s) (λ T out T',
    match out with
    | Ok rows => ∃ now, sem sch now s T rows T'
    | Err e => T' = T ∧ As_Error e = None ∧ errors_Is e ErrNoRows = false
    | Panic _ => False
    end).
Proof.
  intros w out w' H. destruct out as [rows|e|s'].
  - destruct (exec_Ok _ _ _ _ _ H) as (Hs & _ & Hsem & _). split; [done|]. apply Hsem. by left.
  - by destruct (exec_Err _ _ _ _ _ H) as (? & ? & ? & ?).
  - pose proof (exec_no_panic RTx s w) as Hp. by rewrite H in Hp.
Qed.

Lemma table_rows T t td : db_ok sch T → sch !! t = Some td →
  T !! t = Some (rows_of T t) ∧ table_ok td T (rows_of T t).
Proof.
  intros Hok Ht. destruct (Hok t td Ht) as (rows & HT & H). unfold rows_of. by rewrite HT.
Qed.

Lemma select_at_id now c id rows :
  select_rows now [CEq c (VInt id)] rows = at_id c id rows.
Proof.
  unfold select_rows, at_id. apply list_filter_iff. intros r. cbn.
  rewrite andb_true_r, bool_decide_eq_true. done.
Qed.

Lemma select_text now c s rows :
  select_rows now [CEq c (VText s)] rows = filter (λ r, col r c = VText s) rows.
Proof.
  unfold select_rows. apply list_filter_iff. intros r. cbn.
  rewrite andb_true_r, bool_decide_eq_true. done.
Qed.


Lemma select_triple cols t wh :
  triple (exec conn RTx (SSelect cols t wh NoSuffix)) (λ T out T', T' = T ∧
    match out with
    | Ok rows => ∃ now, rows = project cols <$> select_rows now wh (rows_of T t)
    | Err e => As_Error e = None ∧ errors_Is e ErrNoRows = false
    | Panic _ => False
    end).
Proof.
  eapply triple_weaken; [apply exec_triple|]. intros T out T' _ _. destruct out as [rows|e|s]; [|naive_solver|done].
  intros [now H]. split; [by inversion H|]. exists now. unfold rows_of.
  inversion H as [? ? ? ? ? HT| | | | | | |]; subst. by rewrite HT.
Qed.

Definition same_but (ts : list string) (T T' : tables) : Prop := ∀ t, t ∉ ts → T' !! t = T !! t.

Lemma same_but_rows ts T T' t : same_but ts T T' → t ∉ ts → rows_of T' t = rows_of T t.
Proof. intros H Ht. unfold rows_of. by rewrite H. Qed.

Lemma same_but_trans ts ts' T1 T2 T3 :
  same_but ts T1 T2 → same_but ts' T2 T3 → same_but (ts ++ ts') T1 T3.
Proof. intros H1 H2 t Ht. rewrite H2, H1; set_solver. Qed.

Lemma insert_triple t td cols vals ret :
  sch !! t = Some td →
  triple (exec conn RTx (SInsert t cols vals ret)) (λ T out T',
    match out with
    | Ok rows => ∃ now new, rows = project ret <$> new ∧ same_but [t] T T' ∧
        rows_of T' t = rows_of T t ++ new ∧
        Forall2 (λ vs r, ∃ id, r = new_row td now id cols vs) vals new
    | Err _ => True
    | Panic _ => False
    end).
Proof.
  intros Ht. eapply triple_weaken; [apply exec_triple|]. intros T out T' _ _.
  destruct out as [rows|e|s]; [|done..]. intros [now H].
  inversion H as [| | | |? ? ? ? td' ? rows0 new Htd HT Hnew Hok| | |]; subst.
  assert (td' = td) as -> by congruence. exists now, new. split_and!; [done| | |done].
  - intros t' Ht'. apply lookup_insert_ne. set_solver.
  - unfold rows_of. by rewrite lookup_insert_eq, HT.
Qed.

Lemma delete_triple t c id :
  triple (exec conn RTx (SDelete t [CEq c (VInt id)])) (λ T out T',
    match out with
    | Ok _ => same_but [t] T T' ∧
        rows_of T' t = filter (λ r : row, col r c ≠ VInt id) (rows_of T t)
    | Err _ => True
    | Panic _ => False
    end).
Proof.
  eapply triple_weaken; [apply exec_triple|]. intros T out T' _ _.
  destruct out as [rows|e|s]; [|done..]. intros [now H].
  inversion H as [| | | | | |? ? ? rows0 rows1 HT Hr Hok|]; subst. split.
  - intros t' Ht'. apply lookup_insert_ne. set_solver.
  - unfold rows_of. rewrite lookup_insert_eq, HT. cbn. apply list_filter_iff. intros r.
    by rewrite andb_true_r, bool_decide_eq_false.
Qed.
End triples.

#[export] Existing Instance later_preorder.
#[export] Hint Resolve later_exec : effects.
