(* ===== verification/SqlDemo.v ===== *)
(** * SqlDemo: an in-memory engine

    A small executable engine that satisfies [Engine]: it shows that what the
    program relies on of a connection can hold, and the witnesses of the store
    and queue theorems run on it.  Its clock does not move; it refuses ORDER BY
    and hand-written queries. *)

From S2P Require Import Prelude GoLib Errors Sql.

#[local] Open Scope Z_scope.

(** ** Checking a database *)

Definition table_okb (td : table_def) (T : tables) (rows : list row) : bool :=
  forallb (λ r, bool_decide (r.*1 = col_name <$> columns td)) rows
  && forallb (λ r, forallb (λ c, has_type c (col r (col_name c))) (columns td)) rows
  && forallb (λ u, bool_decide (NoDup ((λ r : row, col r <$> u) <$> rows))) (uniques td)
  && forallb (λ ref : string * (string * string),
       forallb (λ r, existsb (λ r' : row, bool_decide (col r' ref.2.2 = col r ref.1))
                       (default [] (T !! ref.2.1))) rows) (refs td).

Lemma forallb_elem {A} (f : A → bool) l x : forallb f l = true → x ∈ l → f x = true.
Proof. intros H Hx. eapply forallb_forall; [exact H|]. by apply list_elem_of_In. Qed.

Lemma table_okb_spec td T rows : table_okb td T rows = true → table_ok td T rows.
Proof.
  unfold table_okb. rewrite !andb_true_iff. intros [[[H1 H2] H3] H4]. split.
  - intros r Hr. by apply (forallb_elem _ _ r) in H1; [apply bool_decide_eq_true in H1|].
  - intros r c Hr Hc. apply (forallb_elem _ _ r) in H2; [|done]. by apply (forallb_elem _ _ c) in H2.
  - intros u Hu. by apply (forallb_elem _ _ u) in H3; [apply bool_decide_eq_true in H3|].
  - intros c t k r Href Hr. apply (forallb_elem _ _ (c, (t, k))) in H4; [|done].
    apply (forallb_elem _ _ r) in H4; [|done]. apply existsb_exists in H4 as (r' & Hin & Heq).
    exists r'. split; [by apply list_elem_of_In|]. by apply bool_decide_eq_true in Heq.
Qed.

Definition db_okb (sch : schema_def) (T : tables) : bool :=
  forallb (λ td : string * table_def,
    match T !! td.1 with Some rows => table_okb td.2 T rows | None => false end) (map_to_list sch).

Lemma db_okb_spec sch T : db_okb sch T = true → db_ok sch T.
Proof.
  unfold db_okb, db_ok. intros H t td Ht.
  apply (forallb_elem _ _ (t, td)) in H; [|by apply elem_of_map_to_list]. cbn in H.
  destruct (T !! t) as [rows|]; [|done]. exists rows. split; [done|]. by apply table_okb_spec.
Qed.

Definition empty_db (sch : schema_def) : tables := (λ _, []) <$> sch.

Lemma empty_db_ok sch : db_ok sch (empty_db sch).
Proof.
  intros t td Ht. exists []. unfold empty_db. rewrite lookup_fmap, Ht. split; [done|].
  split; try (by intros ? ?%elem_of_nil); try (intros ? ? ?%elem_of_nil; done).
  - intros u Hu. constructor.
  - by intros c t' k r _ ?%elem_of_nil.
Qed.

(** ** The engine *)

Section demo.
Variables (sch : schema_def) (demo_now : Time).

(** The current tables and the savepoint of the open transaction. *)
Definition demo_db : Type := tables * option tables.

Definition demo_tabs (w : demo_db) : tables :=
  if db_okb sch w.1 then w.1 else empty_db sch.

Lemma demo_tabs_ok w : db_ok sch (demo_tabs w).
Proof.
  unfold demo_tabs. destruct (db_okb sch w.1) eqn:H; [by apply db_okb_spec|apply empty_db_ok].
Qed.

Lemma demo_tabs_id T s : db_okb sch T = true → demo_tabs (T, s) = T.
Proof. intros H. unfold demo_tabs. cbn. by rewrite H. Qed.

Definition fresh_id (rows : list row) : Z :=
  1 + foldr (λ r m, match col r "id" with VInt z => Z.max z m | _ => m end) 0 rows.

Fixpoint number (id : Z) (td : table_def) (cols : list string) (vals : list (list value)) :
    list row :=
  match vals with
  | [] => []
  | vs :: vals => new_row td demo_now id cols vs :: number (id + 1) td cols vals
  end.

(** The rows a statement returns and the tables after it; [None] refuses. *)
Definition demo_sem (s : stmt) (T : tables) : option (list row * tables) :=
  let checked (out : list row * tables) := if db_okb sch out.2 then Some out else None in
  match s with
  | SSelect cols t wh NoSuffix =>
      rows ← T !! t; Some (project cols <$> select_rows demo_now wh rows, T)
  | SSelect cols t wh (ForUpdateSkipLocked l) =>
      rows ← T !! t;
      let sel := select_rows demo_now wh rows in
      Some (project cols <$> (match l with Some n => take n sel | None => sel end), T)
  | SSelectJoin lcols rcols ta tb ak bk wh =>
      rowsa ← T !! ta; rowsb ← T !! tb;
      Some ((ra ← select_rows demo_now wh rowsa;
             rb ← filter (λ rb, col rb bk = col ra ak) rowsb;
             [project_as lcols ra ++ project_as rcols rb]), T)
  | SInsert t cols vals ret =>
      td ← sch !! t; rows ← T !! t;
      let new := number (fresh_id rows) td cols vals in
      checked (project ret <$> new, <[t := rows ++ new]> T)
  | SUpdate t sets wh =>
      rows ← T !! t;
      checked ([], <[t := (λ r, if where_ demo_now wh r then set_cols demo_now sets r else r)
                            <$> rows]> T)
  | SDelete t wh =>
      rows ← T !! t;
      checked ([], <[t := filter (λ r, where_ demo_now wh r = false) rows]> T)
  | _ => None
  end.

Lemma number_spec id td cols vals :
  Forall2 (λ vs r, ∃ id, r = new_row td demo_now id cols vs) vals (number id td cols vals).
Proof. revert id. induction vals; intros id; cbn; constructor; eauto. Qed.

Lemma demo_sem_sound s T rows T' :
  db_ok sch T → demo_sem s T = Some (rows, T') →
  sem sch demo_now s T rows T' ∧ (is_read s = true → T' = T) ∧ (T' = T ∨ db_okb sch T' = true).
Proof.
  intros Hok H. destruct s as [cols t wh [|c|l]|lcols rcols ta tb ak bk wh|t cols vals ret
    |t sets wh|t wh|q args]; cbn in H; try discriminate.
  - destruct (T !! t) eqn:Ht; simplify_eq/=. split_and!; [by constructor|done|by left].
  - destruct (T !! t) as [rs|] eqn:Ht; simplify_eq/=. split_and!; [|done|by left].
    constructor 3 with (rows := rs); [done| |].
    + destruct l; [apply sublist_take|done].
    + intros n ->. rewrite length_take. lia.
  - destruct (T !! ta) eqn:Ha; simplify_eq/=. destruct (T !! tb) eqn:Hb; simplify_eq/=.
    split_and!; [by constructor|done|by left].
  - destruct (sch !! t) as [td|] eqn:Htd; simplify_eq/=. destruct (T !! t) eqn:Ht; simplify_eq/=.
    case_match eqn:Hc; simplify_eq/=. split_and!; [|done|by right].
    econstructor; [done..|apply number_spec|by apply db_okb_spec].
  - destruct (T !! t) eqn:Ht; simplify_eq/=. case_match eqn:Hc; simplify_eq/=.
    split_and!; [|done|by right]. econstructor; [done..|by apply db_okb_spec].
  - destruct (T !! t) eqn:Ht; simplify_eq/=. case_match eqn:Hc; simplify_eq/=.
    split_and!; [|done|by right]. econstructor; [done..|by apply db_okb_spec].
Qed.

Definition demo_conn : Conn demo_db := {|
  BeginTxx _ w := (Ok tt, (demo_tabs w, Some (demo_tabs w)));
  Commit w := (Ok tt, (demo_tabs w, None));
  Rollback w := (default (demo_tabs w) w.2, None);
  exec r s w :=
    match r, w.2 with
    | RDb, Some T0 =>
        match demo_sem s (demo_tabs (T0, None)) with
        | Some (rows, T') =>
            if is_read s then (Ok rows, w) else (Err (EPq "lock_not_available" "refused"), w)
        | None => (Err (EPq "unique_violation" "refused"), w)
        end
    | _, _ =>
        match demo_sem s (demo_tabs w) with
        | Some (rows, T') => (Ok rows, (T', w.2))
        | None => (Err (EPq "unique_violation" "refused"), w)
        end
    end;
|}.

Lemma demo_tabs_idemp w s : demo_tabs (demo_tabs w, s) = demo_tabs w.
Proof.
  unfold demo_tabs at 1. cbn. unfold demo_tabs.
  destruct (db_okb sch w.1) eqn:H; [by rewrite H|]. by destruct (db_okb sch (empty_db sch)).
Qed.

(** The savepoint as the laws see it. *)
Definition demo_saved (w : demo_db) : option tables := (λ T, demo_tabs (T, None)) <$> w.2.

#[export] Instance demo_engine : Engine sch demo_conn.
Proof.
  refine {| tabs := demo_tabs; saved := demo_saved; now_of _ _ := demo_now |}.
  - apply demo_tabs_ok.
  - intros r s w rows w' H.
    assert ((r = RDb ∧ (∃ T0, w.2 = Some T0 ∧ w' = w ∧ is_read s = true ∧
               ∃ T', demo_sem s (demo_tabs (T0, None)) = Some (rows, T')) ∨
             (r = RTx ∨ w.2 = None) ∧ ∃ T', w' = (T', w.2) ∧
               demo_sem s (demo_tabs w) = Some (rows, T'))) as Hcase.
    { cbn in H. destruct r, w as [T [T0|]]; cbn in *; repeat (case_match; simplify_eq);
        naive_solver. }
    destruct Hcase as [(-> & T0 & HT0 & -> & Hread & T' & Hs)|[Hr (T' & -> & Hs)]].
    + apply demo_sem_sound in Hs as (Hsem & Heq & _); [|apply demo_tabs_ok].
      rewrite (Heq Hread) in Hsem. unfold demo_saved. rewrite HT0. cbn.
      by split_and!; [done|done|intros [?|?]; done|].
    + apply demo_sem_sound in Hs as (Hsem & Hread & Hcase); [|apply demo_tabs_ok].
      assert (demo_tabs (T', w.2) = T') as HT.
      { destruct Hcase as [->|Hc]; [apply demo_tabs_idemp|by apply demo_tabs_id]. }
      rewrite HT. split_and!; [done|done|done|].
      intros -> Hrd. destruct Hr as [|Hn]; [done|]. unfold demo_saved. rewrite Hn. cbn.
      by rewrite (Hread Hrd) in Hsem.
  - intros r s w e w' H. cbn in H. destruct r, w as [T [T0|]]; cbn in *;
      repeat (case_match; simplify_eq); done.
  - intros r s w. cbn. destruct r, w as [T [T0|]]; cbn; repeat case_match; done.
  - intros ro w w' [= <-]. unfold demo_saved. cbn. by rewrite !demo_tabs_idemp.
  - done.
  - done.
  - intros w w' [= <-]. split; [done|]. apply demo_tabs_idemp.
  - done.
  - done.
  - intros w. unfold demo_saved. cbn. split; [done|]. destruct w as [T [T0|]]; cbn; [done|].
    apply demo_tabs_idemp.
  - done.
  - done.
  - done.
  - done.
  - done.
Defined.
End demo.
