(* ===== verification/Postgres.v ===== *)
(** * Postgres: [internal/store/postgres]

    Models [postgres.go], [utils.go], [resource_model.go], [resource_store.go],
    [tags_model.go], [revision_model.go], [revision_store.go],
    [module_model.go], [module_store.go] and [schema.sql]: the resource and
    module stores over a connection (Sql.v).  The list queries, which are text in
    the source, are sent as text; JSON columns go through [SyncJSON]. *)

From S2P Require Import Prelude GoLib Errors Resource Module StoreSpec Sql.
From Stdlib Require Import Ascii.

#[local] Open Scope Z_scope.

(** ** [schema.sql] *)

Definition tableModules : string := "modules".
Definition tableResources : string := "resources".
Definition tableResourceTags : string := "resource_tags".
Definition tableResourceDependencies : string := "resource_dependencies".
Definition columnResourceID : string := "resource_id".
Definition tableRevisions : string := "revisions".
Definition tableRevisionTags : string := "revision_tags".
Definition columnRevisionID : string := "revision_id".

Definition unknown_user : col_default := DVal (VText "<unknown>").

Definition modules_def : table_def := mkTableDef
  [mkColumn "urn" TText true NoDefault; mkColumn "name" TText true NoDefault;
   mkColumn "project" TText true NoDefault; mkColumn "configs" TBytes true NoDefault;
   mkColumn "created_at" TTime true DNow; mkColumn "updated_at" TTime true DNow]
  [["urn"]] [].

Definition resources_def : table_def := mkTableDef
  [mkColumn "id" TInt true DSerial; mkColumn "urn" TText true NoDefault;
   mkColumn "kind" TText true NoDefault; mkColumn "name" TText true NoDefault;
   mkColumn "project" TText true NoDefault; mkColumn "created_at" TTime true DNow;
   mkColumn "updated_at" TTime true DNow; mkColumn "spec_configs" TBytes true NoDefault;
   mkColumn "state_status" TText true NoDefault; mkColumn "state_output" TBytes true NoDefault;
   mkColumn "state_module_data" TBytes true NoDefault;
   mkColumn "state_next_sync" TTime false NoDefault;
   mkColumn "state_sync_result" TBytes false NoDefault;
   mkColumn "created_by" TText true unknown_user; mkColumn "updated_by" TText true unknown_user]
  [["id"]; ["urn"]] [].

Definition resource_dependencies_def : table_def := mkTableDef
  [mkColumn "resource_id" TInt true NoDefault; mkColumn "dependency_key" TText true NoDefault;
   mkColumn "depends_on" TInt true NoDefault]
  [["resource_id"; "dependency_key"]]
  [("resource_id", ("resources", "id")); ("depends_on", ("resources", "id"))].

Definition resource_tags_def : table_def := mkTableDef
  [mkColumn "tag" TText true NoDefault; mkColumn "resource_id" TInt true NoDefault]
  [["resource_id"; "tag"]] [("resource_id", ("resources", "id"))].

Definition revisions_def : table_def := mkTableDef
  [mkColumn "id" TInt true DSerial; mkColumn "reason" TText true unknown_user;
   mkColumn "created_at" TTime true DNow; mkColumn "resource_id" TInt true NoDefault;
   mkColumn "spec_configs" TBytes true NoDefault; mkColumn "created_by" TText true unknown_user]
  [["id"]] [("resource_id", ("resources", "id"))].

Definition revision_tags_def : table_def := mkTableDef
  [mkColumn "tag" TText true NoDefault; mkColumn "revision_id" TInt true NoDefault]
  [["revision_id"; "tag"]] [("revision_id", ("revisions", "id"))].

Definition schema_sql : schema_def :=
  list_to_map [("modules", modules_def); ("resources", resources_def);
               ("resource_dependencies", resource_dependencies_def);
               ("resource_tags", resource_tags_def); ("revisions", revisions_def);
               ("revision_tags", revision_tags_def)].

(** ** The list queries of [resource_model.go] *)

Definition listResourceByFilterQuery : string :=
  "SELECT r.id, r.urn, r.kind, r.name, r.project, r.created_at, r.updated_at, r.state_status, r.state_output, r.state_module_data, r.state_next_sync, r.state_sync_result, r.created_by, r.updated_by,
	COALESCE(NULLIF(array_agg(rt.tag), '{NULL}'), '{}')::text[] AS tags,
	jsonb_object_agg(COALESCE(rd.dependency_key, ''), d.urn) AS dependencies
FROM resources r
         LEFT JOIN resource_dependencies rd ON r.id = rd.resource_id
         LEFT JOIN resources d ON rd.depends_on = d.id
         LEFT JOIN resource_tags rt ON r.id = rt.resource_id
WHERE ($1 = '' OR r.project = $1)
  AND ($2 = '' OR r.kind = $2)
GROUP BY r.id
LIMIT $3
OFFSET $4
".

Definition listResourceWithSpecConfigsByFilterQuery : string :=
  "SELECT r.id, r.urn, r.kind, r.name, r.project, r.created_at, r.updated_at, r.spec_configs, r.state_status, r.state_output, r.state_module_data, r.state_next_sync, r.state_sync_result, r.created_by, r.updated_by,
	COALESCE(NULLIF(array_agg(rt.tag), '{NULL}'), '{}')::text[] AS tags,
	jsonb_object_agg(COALESCE(rd.dependency_key, ''), d.urn) AS dependencies
FROM resources r
         LEFT JOIN resource_dependencies rd ON r.id = rd.resource_id
         LEFT JOIN resources d ON rd.depends_on = d.id
         LEFT JOIN resource_tags rt ON r.id = rt.resource_id
WHERE ($1 = '' OR r.project = $1)
  AND ($2 = '' OR r.kind = $2)
GROUP BY r.id
LIMIT $3
OFFSET $4
".

(** ** Parameters of statements *)

(** How lib/pq sends a byte slice: the bytes, a nil slice as NULL or as empty. *)
Class Binding : Type := {
  bind_bytes : RawMessage → value;
  bind_bytes_Some : ∀ s, bind_bytes (Some s) = VBytes s;
  bind_bytes_None : bind_bytes None = VBytes "" ∨ bind_bytes None = VNull;
}.

(** A timestamptz parameter is rounded to whole microseconds. *)
Definition bind_time (t : Time) : value := VTime (round_us t).
Definition bind_time_ptr (t : option Time) : value :=
  match t with Some t => bind_time t | None => VNull end.

(** [encoding/json] on [resource.SyncResult] and on [map[string]string]. *)
Class SyncJSON : Type := {
  marshal_sync : SyncResult → string;
  unmarshal_sync : string → go SyncResult;
  unmarshal_deps : string → go (gmap string string);
  marshal_sync_nonempty : ∀ r, marshal_sync r ≠ "";
  sync_roundtrip : ∀ r, clean_sync r = true → unmarshal_sync (marshal_sync r) = Ok r;
  (** What is not UTF-8 is replaced, not refused. *)
  sync_retries : ∀ r, - 2 ^ 63 ≤ Retries r < 2 ^ 63 →
    ∃ r', unmarshal_sync (marshal_sync r) = Ok r' ∧ Retries r' = Retries r;
  unmarshal_sync_clean : ∀ s r, unmarshal_sync s = Ok r → clean_sync r = true;
  unmarshal_sync_no_panic : ∀ s, is_panic (unmarshal_sync s) = false;
}.

Record Config := mkConfig {
  PaginationSizeDefault : Z;
  PaginationPageDefault : Z;
}.

Record pg_store (W : Type) := mkPgStore {
  db : Conn W;
  extendInterval : Duration;
  refreshInterval : Duration;
  config : Config;
}.

Arguments db {W}.
Arguments extendInterval {W}.
Arguments refreshInterval {W}.
Arguments config {W}.

(** [Open]; opening the pool and registering telemetry are the caller's [pool]. *)
Definition Open {W} (pool : go (Conn W)) (refresh extend : Duration) (size page : Z) :
    go (pg_store W) :=
  conn ← pool;
  if extend <=? refresh then Err (ENew "refreshInterval must be lower than extendInterval")
  else Ok (mkPgStore W conn extend refresh (mkConfig size page)).

(** ** [utils.go] *)

Definition translateErr (err : error) : error :=
  if errors_Is err ErrNoRows then EErr (WithCausef ErrNotFound (error_string err))
  else match As_pq err with
       | Some (name, _) =>
           if decide (name = "unique_violation")
           then EErr (WithCausef ErrConflict (error_string err))
           else EErr (WithCausef ErrInternal (error_string err))
       | None => err
       end.

Fixpoint runAllHooks {W} (hooks : list MutationHook) : io W () :=
  match hooks with
  | [] => mret tt
  | hook :: hooks => _ ← lift hook; runAllHooks hooks
  end.

(** The transaction function of every call site is a single one; what it assigns
    to captured variables is its result. *)
Definition in_tx {W A} (conn : Conn W) (fn : io W A) : io W A := λ w,
  match fn w with
  | (Err err, w) => (Err err, Rollback conn w)
  | (Panic s, w) => (Panic s, w)
  | (Ok a, w) => (_ ← Commit conn; mret a) w
  end.

Definition withinTx {W A} (conn : Conn W) (readOnly : bool) (fn : io W A) : io W A :=
  _ ← BeginTxx conn readOnly;
  in_tx conn fn.

(** ** [tags_model.go] *)

Fixpoint tagsToLabelMap_loop (tags : list string) (labels : gmap string string) :
    go (gmap string string) :=
  match tags with
  | [] => Ok labels
  | tag :: tags =>
      match SplitN2 tag "="%char with
      | [key; val] => tagsToLabelMap_loop tags (<[key := val]> labels)
      | _ => Panic "index out of range [1] with length 1"
      end
  end.

Definition tagsToLabelMap (tags : list string) : go (gomap string) :=
  labels ← tagsToLabelMap_loop tags ∅; Ok (Some labels).

Section postgres.
Context {MR : MapRange} {BD : Binding} {SJ : SyncJSON} {W : Type}.
Variable st : pg_store W.

#[local] Notation run := (exec (db st)).

(** [runner.QueryRowContext(...).Scan]: one row or [sql.ErrNoRows]. *)
Definition query_row (r : runner) (s : stmt) : io W row :=
  rows ← run r s; lift (first_row rows).


(** ** Tags *)

Definition labelMapToTags (labels : gomap string) : list string :=
  (λ kv, kv.1 +:+ "=" +:+ kv.2) <$> range (gm labels).

Definition readTags (r : runner) (table idColumn : string) (id : Z) : io W (list string) :=
  rows ← run r (SSelect ["tag"] table [CEq idColumn (VInt id)] NoSuffix);
  lift (scan_all (λ r, scan_text r "tag") rows).

Definition setTags (r : runner) (table idColumn : string) (id : Z) (labels : gomap string) :
    io W () :=
  _ ← run r (SDelete table [CEq idColumn (VInt id)]);
  if (0 <? gm_len labels)%nat then
    _ ← run r (SInsert table [idColumn; "tag"]
                 ((λ tag, [VInt id; VText tag]) <$> labelMapToTags labels) []);
    mret tt
  else mret tt.

Definition setResourceTags (r : runner) (id : Z) (labels : gomap string) : io W () :=
  setTags r tableResourceTags "resource_id" id labels.

Definition setRevisionTags (r : runner) (id : Z) (labels : gomap string) : io W () :=
  setTags r tableRevisionTags "revision_id" id labels.

Definition readResourceTags (r : runner) (id : Z) : io W (list string) :=
  readTags r tableResourceTags columnResourceID id.

Definition readRevisionTags (r : runner) (revisionID : Z) : io W (list string) :=
  readTags r tableRevisionTags columnRevisionID revisionID.

(** ** [resource_model.go] *)

Record resourceModel := mkResourceModel {
  rm_ID : Z;
  rm_URN : string;
  rm_Kind : string;
  rm_Name : string;
  rm_Project : string;
  rm_CreatedAt : Time;
  rm_UpdatedAt : Time;
  rm_CreatedBy : string;
  rm_UpdatedBy : string;
  SpecConfigs : RawMessage;
  StateStatus : string;
  StateOutput : RawMessage;
  StateModuleData : RawMessage;
  StateNextSync : option Time;
  StateSyncResult : RawMessage;
}.

Definition resource_cols : list string :=
  ["id"; "urn"; "kind"; "project"; "name"; "created_at"; "updated_at"; "created_by"; "updated_by";
   "spec_configs"; "state_status"; "state_output"; "state_module_data";
   "state_next_sync"; "state_sync_result"].

(** [StructScan], by the "db" tags of the struct. *)
Definition scan_resource (r : row) : go resourceModel :=
  id ← scan_int r "id"; urn ← scan_text r "urn"; kind ← scan_text r "kind";
  name ← scan_text r "name"; project ← scan_text r "project";
  created_at ← scan_time r "created_at"; updated_at ← scan_time r "updated_at";
  created_by ← scan_text r "created_by"; updated_by ← scan_text r "updated_by";
  configs ← scan_bytes r "spec_configs"; status ← scan_text r "state_status";
  output ← scan_bytes r "state_output"; data ← scan_bytes r "state_module_data";
  next_sync ← scan_time_ptr r "state_next_sync"; sync_result ← scan_bytes r "state_sync_result";
  Ok (mkResourceModel id urn kind name project created_at updated_at created_by updated_by
        configs status output data next_sync sync_result).

Definition readResourceRecord (r : runner) (urn : string) : io W resourceModel :=
  catch
    (row ← query_row r (SSelect resource_cols tableResources [CEq "urn" (VText urn)] NoSuffix);
     lift (scan_resource row))
    (λ err, if errors_Is err ErrNoRows then EErr ErrNotFound else err).

Definition readResourceDeps (r : runner) (id : Z) : io W (gmap string string) :=
  rows ← run r (SSelectJoin [("dependency_key", "dep_key")] [("urn", "dep_urn")]
                  tableResourceDependencies tableResources "depends_on" "id"
                  [CEq "resource_id" (VInt id)]);
  kvs ← lift (scan_all (λ r, key ← scan_text r "dep_key"; val ← scan_text r "dep_urn";
                             Ok (key, val)) rows);
  mret (copy_into kvs ∅).

Definition translateURNToID (r : runner) (urn : string) : io W Z :=
  row ← query_row r (SSelect ["id"] tableResources [CEq "urn" (VText urn)] NoSuffix);
  lift (scan_int row "id").

(** ** [resource_store.go] *)

(** The [state_sync_result] column: nothing stored is the zero result. *)
Definition read_sync_result (raw : RawMessage) : go SyncResult :=
  if (0 <? raw_len raw)%nat then
    on_err (unmarshal_sync (raw_bytes raw)) (λ err,
      EErr (WithCausef (WithMsgf ErrInternal "failed to json unmarshal state_sync_result")
              (error_string err)))
  else Ok SyncResult_zero.

Definition resource_of (rec : resourceModel) (labels deps : gomap string)
    (syncResult : SyncResult) : Resource :=
  mkResource (rm_URN rec) (rm_Kind rec) (rm_Name rec) (rm_Project rec) labels
    (rm_CreatedAt rec) (rm_UpdatedAt rec) (rm_UpdatedBy rec) (rm_CreatedBy rec)
    (mkSpec (SpecConfigs rec) deps)
    (mkState (StateStatus rec) (StateOutput rec) (StateModuleData rec) (StateNextSync rec)
       syncResult).

Definition readResourceParts (urn : string) :
    io W (resourceModel * list string * gmap string string) :=
  rec ← readResourceRecord RTx urn;
  tags ← readResourceTags RTx (rm_ID rec);
  deps ← readResourceDeps RTx (rm_ID rec);
  mret (rec, tags, deps).

Definition pg_GetByURN (urn : string) : io W Resource :=
  parts ← withinTx (db st) true (readResourceParts urn);
  let '(rec, tags, deps) := parts in
  syncResult ← lift (read_sync_result (StateSyncResult rec));
  labels ← lift (tagsToLabelMap tags);
  mret (resource_of rec labels (Some deps) syncResult).

Definition syncResultAsJSON (syncRes : SyncResult) : RawMessage :=
  if decide (syncRes = SyncResult_zero) then None else Some (marshal_sync syncRes).

Definition insertResourceRecord (r : runner) (x : Resource) : io W Z :=
  row ← query_row r (SInsert tableResources
    ["urn"; "kind"; "project"; "name"; "created_at"; "updated_at"; "created_by"; "updated_by";
     "spec_configs"; "state_status"; "state_output"; "state_module_data";
     "state_next_sync"; "state_sync_result"]
    [[VText (URN x); VText (Kind x); VText (Project x); VText (Name x);
      bind_time (CreatedAt x); bind_time (UpdatedAt x); VText (CreatedBy x); VText (UpdatedBy x);
      bind_bytes (Configs (res_Spec x)); VText (Status (res_State x));
      bind_bytes (Output (res_State x)); bind_bytes (ModuleData (res_State x));
      bind_time_ptr (NextSyncAt (res_State x));
      bind_bytes (syncResultAsJSON (st_SyncResult (res_State x)))]]
    ["id"]);
  lift (scan_int row "id").

(** The rows of the dependency insert, each URN looked up in turn. *)
Definition dependency_rows (r : runner) (id : Z) (deps : list (string * string)) :
    io W (list (list value)) :=
  fold_each (λ acc kv, dependsOnID ← translateURNToID r kv.2;
                       mret (acc ++ [[VInt id; VText kv.1; VInt dependsOnID]])) [] deps.

Definition setDependencies (r : runner) (id : Z) (deps : gomap string) : io W () :=
  _ ← run r (SDelete tableResourceDependencies [CEq "resource_id" (VInt id)]);
  if (0 <? gm_len deps)%nat then
    rows ← dependency_rows r id (range (gm deps));
    _ ← run r (SInsert tableResourceDependencies ["resource_id"; "dependency_key"; "depends_on"]
                 rows []);
    mret tt
  else mret tt.

(** ** [revision_store.go] *)

Definition insertRevision (r : runner) (resID : Z) (rev : Revision) : io W () :=
  row ← query_row r (SInsert tableRevisions ["resource_id"; "reason"; "spec_configs"; "created_by"]
    [[VInt resID; VText (Reason rev); bind_bytes (Configs (rev_Spec rev));
      VText (rev_CreatedBy rev)]] ["id"]);
  revisionID ← lift (scan_int row "id");
  setRevisionTags r revisionID (rev_Labels rev).

(** The revision written with a resource. *)
Definition revision_of (x : Resource) (reason : string) : Revision :=
  mkRevision 0 (URN x) reason (Labels x) 0 (UpdatedBy x) (res_Spec x).

Definition pg_Create (x : Resource) (hooks : list MutationHook) : io W () :=
  withinTx (db st) false (
    id ← catch (insertResourceRecord RTx x) translateErr;
    _ ← catch (setResourceTags RTx id (Labels x)) translateErr;
    _ ← catch (setDependencies RTx id (Dependencies (res_Spec x))) translateErr;
    _ ← catch (insertRevision RTx id (revision_of x "action:create")) translateErr;
    runAllHooks hooks).

Definition update_sets (x : Resource) : list (string * sql_expr) :=
  [("updated_at", ENow); ("updated_by", EVal (VText (UpdatedBy x)));
   ("spec_configs", EVal (bind_bytes (Configs (res_Spec x))));
   ("state_status", EVal (VText (Status (res_State x))));
   ("state_output", EVal (bind_bytes (Output (res_State x))));
   ("state_module_data", EVal (bind_bytes (ModuleData (res_State x))));
   ("state_next_sync", EVal (bind_time_ptr (NextSyncAt (res_State x))));
   ("state_sync_result", EVal (bind_bytes (syncResultAsJSON (st_SyncResult (res_State x)))))].

Definition pg_Update (x : Resource) (saveRevision : bool) (reason : string)
    (hooks : list MutationHook) : io W () :=
  withinTx (db st) false (
    id ← translateURNToID RTx (URN x);
    _ ← run RTx (SUpdate tableResources (update_sets x) [CEq "id" (VInt id)]);
    _ ← setResourceTags RTx id (Labels x);
    _ ← setDependencies RTx id (Dependencies (res_Spec x));
    _ ← (if saveRevision
         then catch (insertRevision RTx id (revision_of x reason)) translateErr
         else mret tt);
    runAllHooks hooks).

Definition pg_Delete (urn : string) (hooks : list MutationHook) : io W () :=
  withinTx (db st) false (
    id ← translateURNToID RTx urn;
    _ ← run RTx (SDelete tableResourceDependencies [CEq "resource_id" (VInt id)]);
    _ ← run RTx (SDelete tableResourceTags [CEq "resource_id" (VInt id)]);
    runAllHooks hooks).

(** ** Listing *)

Record ListResourceByFilterRow := mkListRow {
  lr_model : resourceModel;
  Tags : list string;
  lr_Dependencies : RawMessage;
}.

(** The columns the [Scan] of the two list queries fills; without spec configs
    the field keeps its zero value. *)
Definition scan_list_row (withSpecConfigs : bool) (r : row) : go ListResourceByFilterRow :=
  id ← scan_int r "id"; urn ← scan_text r "urn"; kind ← scan_text r "kind";
  name ← scan_text r "name"; project ← scan_text r "project";
  created_at ← scan_time r "created_at"; updated_at ← scan_time r "updated_at";
  configs ← (if withSpecConfigs then scan_bytes r "spec_configs" else Ok None);
  status ← scan_text r "state_status"; output ← scan_bytes r "state_output";
  data ← scan_bytes r "state_module_data"; next_sync ← scan_time_ptr r "state_next_sync";
  sync_result ← scan_bytes r "state_sync_result";
  created_by ← scan_text r "created_by"; updated_by ← scan_text r "updated_by";
  tags ← scan_texts r "tags"; deps ← scan_bytes r "dependencies";
  Ok (mkListRow (mkResourceModel id urn kind name project created_at updated_at created_by
                   updated_by configs status output data next_sync sync_result) tags deps).

Definition list_query (query : string) (withSpecConfigs : bool) (project kind : string)
    (limit offset : Z) : io W (list ListResourceByFilterRow) :=
  let limitPointer := if limit =? 0 then VNull else VInt limit in
  rows ← run RDb (SRaw query [VText project; VText kind; limitPointer; VInt offset]);
  lift (scan_all (scan_list_row withSpecConfigs) rows).

Definition listResourceByFilter : string → string → Z → Z → io W (list ListResourceByFilterRow) :=
  list_query listResourceByFilterQuery false.

Definition listResourceWithSpecConfigsByFilter :
    string → string → Z → Z → io W (list ListResourceByFilterRow) :=
  list_query listResourceWithSpecConfigsByFilterQuery true.

(** The loop over the decoded map stops at the first non-empty key and empties
    the result at an empty one. *)
Definition depsBytesToMap (dependencies : RawMessage) : go (gmap string string) :=
  if (0 <? raw_len dependencies)%nat then
    deps ← unmarshal_deps (raw_bytes dependencies);
    match range deps with
    | (k, _) :: _ => Ok (if decide (k = "") then ∅ else deps)
    | [] => Ok deps
    end
  else Ok ∅.

Definition list_entry (row : ListResourceByFilterRow) : go Resource :=
  let rec := lr_model row in
  let nextSyncAt :=
    match StateNextSync rec with
    | Some t => if decide (t = zero_time) then None else Some t
    | None => None
    end in
  syncResult ← (if (0 <? raw_len (StateSyncResult rec))%nat
                then unmarshal_sync (raw_bytes (StateSyncResult rec)) else Ok SyncResult_zero);
  deps ← depsBytesToMap (lr_Dependencies row);
  labels ← tagsToLabelMap (Tags row);
  let x := resource_of rec labels (Some deps) syncResult in
  Ok (set_State (set_NextSyncAt nextSyncAt (res_State x)) x).

(** The page and its offset, in [int32] arithmetic. *)
Definition page_of (filter : Filter) : Z * Z :=
  let size := if PageSize filter <? 1 then PaginationSizeDefault (config st) else PageSize filter in
  let num := if PageNum filter <? 1 then PaginationPageDefault (config st) else PageNum filter in
  (size, wrap32 (wrap32 (num - 1) * size)).

Definition pg_List (filter : Filter) (withSpecConfigs : bool) : io W (list Resource) :=
  let '(size, offset) := page_of filter in
  rows ← (if withSpecConfigs
          then listResourceWithSpecConfigsByFilter (flt_Project filter) (flt_Kind filter) size offset
          else listResourceByFilter (flt_Project filter) (flt_Kind filter) size offset);
  lift (scan_all list_entry rows).
End postgres.

Section postgres_sync.
Context {MR : MapRange} {BD : Binding} {SJ : SyncJSON} {W : Type}.
Variable st : pg_store W.

#[local] Notation run := (exec (db st)).

(** ** Revisions *)

Record revisionModel := mkRevisionModel {
  rv_ID : Z;
  rv_Reason : string;
  rv_CreatedAt : Time;
  rv_CreatedBy : string;
  rv_ResourceID : Z;
  rv_SpecConfigs : RawMessage;
}.

Definition scan_revision (r : row) : go revisionModel :=
  id ← scan_int r "id"; reason ← scan_text r "reason"; created_at ← scan_time r "created_at";
  created_by ← scan_text r "created_by"; resource_id ← scan_int r "resource_id";
  configs ← scan_bytes r "spec_configs";
  Ok (mkRevisionModel id reason created_at created_by resource_id configs).

(** [SELECT *] *)
Definition revision_cols : list string := col_name <$> columns revisions_def.

(** The loop that fills in the labels of each revision. *)
Fixpoint read_revision_labels (urn : string) (deps : gmap string string)
    (rms : list revisionModel) : io W (list Revision) :=
  match rms with
  | [] => mret []
  | rm :: rms =>
      tags ← readRevisionTags st RTx (rv_ID rm);
      labels ← lift (tagsToLabelMap tags);
      revs ← read_revision_labels urn deps rms;
      mret (mkRevision (rv_ID rm) urn (rv_Reason rm) labels (rv_CreatedAt rm) (rv_CreatedBy rm)
              (mkSpec (rv_SpecConfigs rm) (Some deps)) :: revs)
  end.

Definition pg_Revisions (selector : RevisionsSelector) : io W (list Revision) :=
  out ← attempt (withinTx (db st) true (
    resourceID ← translateURNToID st RTx (sel_URN selector);
    deps ← readResourceDeps st RTx resourceID;
    rows ← run RTx (SSelect revision_cols tableRevisions [CEq "resource_id" (VInt resourceID)]
                      (OrderByDesc "created_at"));
    rms ← lift (scan_all scan_revision rows);
    read_revision_labels (sel_URN selector) deps rms));
  match out with
  | inr revs => mret revs
  | inl err => if errors_Is err ErrNoRows then mret [] else throw err
  end.

(** ** Synchronisation *)

Definition extendWaitTime (r : runner) (urn : string) : io W () :=
  _ ← run r (SUpdate tableResources [("state_next_sync", ENowPlus (extendInterval st))]
               [CEq "urn" (VText urn)]);
  mret tt.

Definition scope_conds (scope : gmap string (list string)) : list cond :=
  (λ kv, CIn kv.1 (VText <$> kv.2)) <$> range scope.

(** The select runs on the pool, not on the transaction. *)
Definition fetchResourceForSync (scope : gmap string (list string)) : io W string :=
  withinTx (db st) false (
    row ← query_row st RDb (SSelect ["urn"] tableResources
            (CLeNow "state_next_sync" :: scope_conds scope) (ForUpdateSkipLocked None));
    urn ← lift (scan_text row "urn");
    _ ← extendWaitTime RTx urn;
    mret urn).

(** What the heartbeat's [select] sees. *)
Inductive heartbeat_event := HbDone | HbTick.

Fixpoint runHeartbeat (id : string) (evs : list heartbeat_event) : io W () :=
  match evs with
  | [] | HbDone :: _ => mret tt
  | HbTick :: evs =>
      out ← attempt (extendWaitTime RDb id);
      match out with
      | inl _ => mret tt
      | inr _ => runHeartbeat id evs
      end
  end.

(** The heartbeat runs beside [fn]; here its [beats] come before it. *)
Definition handleDequeued (beats : list heartbeat_event) (res : Resource) (fn : SyncFn W) :
    io W Resource :=
  _ ← runHeartbeat (URN res) beats;
  fn res.

Definition pg_SyncOne (beats : list heartbeat_event) (scope : gmap string (list string))
    (syncFn : SyncFn W) : io W () :=
  out ← attempt (fetchResourceForSync scope);
  match out with
  | inl err => if errors_Is err ErrNoRows then mret tt else throw err
  | inr urn =>
      cur ← pg_GetByURN st urn;
      synced ← handleDequeued beats cur syncFn;
      pg_Update st synced false "sync" []
  end.

(** ** Modules *)

Definition scan_module (r : row) : go Module :=
  urn ← scan_text r "urn"; name ← scan_text r "name"; project ← scan_text r "project";
  created_at ← scan_time r "created_at"; updated_at ← scan_time r "updated_at";
  configs ← scan_bytes r "configs";
  Ok (mkModule urn name project configs created_at updated_at).

Definition readModuleRecord (r : runner) (urn : string) : io W Module :=
  catch
    (row ← query_row st r (SSelect ["urn"; "project"; "name"; "created_at"; "updated_at"; "configs"]
                             tableModules [CEq "urn" (VText urn)] NoSuffix);
     lift (scan_module row))
    (λ err, if errors_Is err ErrNoRows then EErr ErrNotFound else err).

Definition insertModuleRecord (r : runner) (md : Module) : io W () :=
  _ ← run r (SInsert tableModules ["urn"; "project"; "name"; "created_at"; "updated_at"; "configs"]
               [[VText (mod_URN md); VText (mod_Project md); VText (mod_Name md);
                 bind_time (mod_CreatedAt md); bind_time (mod_UpdatedAt md);
                 bind_bytes (mod_Configs md)]] []);
  mret tt.

Definition pg_GetModule (urn : string) : io W Module := readModuleRecord RDb urn.

Fixpoint read_modules (rows : list row) : io W (list Module) :=
  match rows with
  | [] => mret []
  | r :: rows =>
      urn ← lift (scan_text r "urn");
      md ← readModuleRecord RDb urn;
      mods ← read_modules rows;
      mret (md :: mods)
  end.

Definition pg_ListModules (project : string) : io W (list Module) :=
  out ← attempt (run RDb (SSelect ["urn"] tableModules
          (if decide (project = "") then [] else [CEq "project" (VText project)]) NoSuffix));
  match out with
  | inl err => if errors_Is err ErrNoRows then mret [] else throw err
  | inr rows => read_modules rows
  end.

Definition pg_CreateModule (md : Module) : io W () :=
  catch (insertModuleRecord RDb md) translateErr.

Definition pg_UpdateModule (md : Module) : io W () :=
  catch
    (_ ← run RDb (SUpdate tableModules
            [("configs", EVal (bind_bytes (mod_Configs md))); ("updated_at", ENow)]
            [CEq "urn" (VText (mod_URN md))]);
     mret tt) translateErr.

Definition pg_DeleteModule (urn : string) : io W () :=
  catch (_ ← run RDb (SDelete tableModules [CEq "urn" (VText urn)]); mret tt) translateErr.
End postgres_sync.

(** ** The stores as the interfaces of [core] *)

Definition postgres_store {MR : MapRange} {BD : Binding} {SJ : SyncJSON} {W}
    (st : pg_store W) (beats : list heartbeat_event) : Store W := {|
  GetByURN := pg_GetByURN st;
  List_ := pg_List st;
  Create := pg_Create st;
  Update := pg_Update st;
  Delete := pg_Delete st;
  Revisions := pg_Revisions st;
  SyncOne := pg_SyncOne st beats;
|}.

Definition postgres_modules {BD : Binding} {W} (st : pg_store W) : ModStore W := {|
  store_GetModule := pg_GetModule st;
  store_ListModules := pg_ListModules st;
  store_CreateModule := pg_CreateModule st;
  store_UpdateModule := pg_UpdateModule st;
  store_DeleteModule := pg_DeleteModule st;
|}.
