(* ===== verification/PostgresFacts.v ===== *)
(** * PostgresFacts: the Postgres store keeps the contract of the store

    What the statements of Postgres.v do to the tables, and the abstract view
    they implement. *)

From S2P Require Import Prelude GoLib Errors Resource Module StoreSpec Sql SqlLogic Postgres.
From Stdlib Require Import Ascii.

#[local] Open Scope Z_scope.

(** ** The abstract view *)

(** The record of a row of [resources]. *)
Definition model_of (r : row) : resourceModel :=
  mkResourceModel (int r "id") (txt r "urn") (txt r "kind") (txt r "name") (txt r "project")
    (tim r "created_at") (tim r "updated_at") (txt r "created_by") (txt r "updated_by")
    (byt r "spec_configs") (txt r "state_status") (byt r "state_output")
    (byt r "state_module_data") (tim_ptr r "state_next_sync") (byt r "state_sync_result").

Lemma scan_resource_Ok r rec : scan_resource r = Ok rec → rec = model_of r.
Proof.
  unfold scan_resource. intros H.
  repeat (apply res_bind_ok_inv in H as (? & ? & H)). injection H as <-. unfold model_of.
  repeat match goal with
  | H : scan_text _ _ = Ok _ |- _ => apply scan_text_Ok in H as [_ ->]
  | H : scan_int _ _ = Ok _ |- _ => apply scan_int_Ok in H as [_ ->]
  | H : scan_time _ _ = Ok _ |- _ => apply scan_time_Ok in H as ->
  | H : scan_time_ptr _ _ = Ok _ |- _ => apply scan_time_ptr_Ok in H as ->
  | H : scan_bytes _ _ = Ok _ |- _ => apply scan_bytes_Ok in H as ->
  end. done.
Qed.

Lemma plain_scan_resource r : plain (scan_resource r).
Proof. unfold scan_resource. repeat (apply plain_bind; [auto with go|intros ?]). done. Qed.

Definition tags_at (T : tables) (table idcol : string) (id : Z) : list string :=
  (λ r, txt r "tag") <$> at_id idcol id (rows_of T table).

(** The labels of a list of tags; malformed tags are skipped here (and make
    [tagsToLabelMap] panic). *)
Definition labels_of (tags : list string) : gmap string string :=
  foldl (λ m tag, match SplitN2 tag "="%char with [k; v] => <[k := v]> m | _ => m end) ∅ tags.

Definition dep_pairs (T : tables) (id : Z) : list (string * string) :=
  rd ← at_id "resource_id" id (rows_of T tableResourceDependencies);
  rb ← filter (λ rb, col rb "id" = col rd "depends_on") (rows_of T tableResources);
  [(txt rd "dependency_key", txt rb "urn")].

Definition sync_of `{SJ : SyncJSON} (raw : RawMessage) : SyncResult :=
  match read_sync_result raw with Ok r => r | _ => SyncResult_zero end.

Definition decode `{SJ : SyncJSON} (T : tables) (r : row) : Resource :=
  let id := int r "id" in
  resource_of (model_of r)
    (Some (labels_of (tags_at T tableResourceTags "resource_id" id)))
    (Some (copy_into (dep_pairs T id) ∅)) (sync_of (byt r "state_sync_result")).

Definition view_of `{SJ : SyncJSON} (T : tables) : gmap string Resource :=
  list_to_map ((λ r, (txt r "urn", decode T r)) <$> rows_of T tableResources).

Lemma tagsToLabelMap_Ok tags ls : tagsToLabelMap tags = Ok ls → ls = Some (labels_of tags).
Proof.
  unfold tagsToLabelMap, labels_of. intros H. apply res_bind_ok_inv in H as (m & Hm & H).
  injection H as <-. f_equal. revert Hm. generalize (∅ : gmap string string).
  induction tags as [|tag tags IH]; intros m0 Hm; cbn in *; [by injection Hm as <-|].
  destruct (SplitN2 tag "=") as [|k [|v [|]]]; try discriminate. by apply IH.
Qed.

Lemma tagsToLabelMap_total tags :
  (∃ ls, tagsToLabelMap tags = Ok ls) ∨
  tagsToLabelMap tags = Panic "index out of range [1] with length 1".
Proof.
  unfold tagsToLabelMap. generalize (∅ : gmap string string).
  induction tags as [|tag tags IH]; intros m; cbn [tagsToLabelMap_loop]; [left; eauto|].
  destruct (SplitN2 tag "=") as [|k [|v [|]]]; auto.
Qed.

Lemma SplitN2_tag k v : "="%char ∉ chars k → SplitN2 (k +:+ "=" +:+ v) "=" = [k; v].
Proof. intros Hk. by apply SplitN2_app. Qed.

Lemma SplitN2_key tag k v : SplitN2 tag "=" = [k; v] → "="%char ∉ chars k.
Proof.
  unfold SplitN2. destruct (cut_list _ _) as [[a c]|] eqn:H; [|done]. intros [= <- <-].
  rewrite chars_str. revert a c H. induction (chars tag) as [|x l IH]; intros a c H; cbn in H; [done|].
  case_decide as Hx; [injection H as <- <-; set_solver|].
  destruct (cut_list "=" l) as [[a' c']|]; [|done]. injection H as <- <-.
  specialize (IH a' c' eq_refl). set_solver.
Qed.

Lemma labels_of_clean tags : clean_labels (Some (labels_of tags)).
Proof.
  unfold labels_of, clean_labels. cbn.
  assert (∀ m : gmap string string, (∀ k v, m !! k = Some v → "="%char ∉ chars k) →
    ∀ k v, foldl (λ m tag, match SplitN2 tag "="%char with
                           | [k; v] => <[k := v]> m | _ => m end) m tags !! k = Some v →
    "="%char ∉ chars k) as H; [|apply H; intros ??; by rewrite lookup_empty].
  induction tags as [|tag tags IH]; cbn; intros m Hm; [done|]. apply IH.
  destruct (SplitN2 tag "=") as [|k [|v [|]]] eqn:Hs; try done.
  intros k' v' [[<- <-]|[_ Hk]]%lookup_insert_Some; [by eapply SplitN2_key|by eapply Hm].
Qed.

(** Tags are a faithful encoding of clean labels. *)
Lemma labels_roundtrip `{MR : MapRange} l :
  clean_labels l → labels_of (labelMapToTags l) = gm l.
Proof.
  intros Hc. unfold labels_of, labelMapToTags. rewrite <- (range_to_map (gm l)) at 2.
  assert (∀ kv, kv ∈ range (gm l) → "="%char ∉ chars kv.1) as Hr.
  { intros [k v] Hin%elem_of_range. by eapply Hc. }
  pose proof (NoDup_range_keys (gm l)) as Hnd. revert Hr Hnd. generalize (range (gm l)).
  assert (∀ r (m : gmap string string), (∀ kv, kv ∈ r → "="%char ∉ chars kv.1) →
    foldl (λ m tag, match SplitN2 tag "="%char with [k; v] => <[k := v]> m | _ => m end) m
      ((λ kv : string * string, kv.1 +:+ "=" +:+ kv.2) <$> r) = copy_into r m) as H.
  { induction r as [|[k v] r IH]; intros m Hr; [done|]. rewrite fmap_cons. cbn [foldl].
    rewrite SplitN2_tag by (apply (Hr (k, v)); set_solver). rewrite IH by set_solver. done. }
  intros r Hr Hnd. rewrite H by done. rewrite copy_into_spec by done. apply (right_id_L ∅ (∪)).
Qed.

Lemma withinTx_spec {W A} {conn : Conn W} {EN : Engine schema_sql conn} ro (m : io W A) R w out w' :
  triple m R → withinTx conn ro m w = (out, w') →
  match out with
  | Ok a => R (tabs w) (Ok a) (tabs w')
  | Err e => tabs w' = tabs w ∧ (As_Error e = None ∨ ∃ T', R (tabs w) (Err e) T')
  | Panic s => R (tabs w) (Panic s) (tabs w')
  end.
Proof. apply transaction_spec. Qed.

Section stmts.
Context {MR : MapRange} {BD : Binding} {SJ : SyncJSON} {W : Type} (st : pg_store W).
Context {EN : Engine schema_sql (db st)}.

Lemma readTags_reads table idcol id :
  reads (readTags st RTx table idcol id) (λ T l, l = tags_at T table idcol id).
Proof.
  unfold readTags. eapply triple_bind; [apply select_triple|intros rows..| | |].
  - apply (triple_lift _ (λ T out T', T' = T ∧ out = scan_all (λ r, scan_text r "tag") rows)). done.
  - naive_solver.
  - naive_solver.
  - intros T rows T1 out T2 _ _ _ [-> [now Hrows]] [-> ->]. split; [done|].
    pose proof (plain_scan_all (λ r, scan_text r "tag") rows (λ r, plain_text r "tag")) as Hp.
    destruct (scan_all _ rows) as [l|e|s] eqn:Hs; [|by destruct Hp|done].
    apply (scan_all_Ok _ (λ r, txt r "tag")) in Hs as ->; [|by intros r a [_ ->]%scan_text_Ok].
    subst rows. rewrite select_at_id. unfold tags_at. rewrite <- list_fmap_compose. done.
Qed.

Lemma readResourceDeps_reads id :
  reads (readResourceDeps st RTx id) (λ T d, d = copy_into (dep_pairs T id) ∅).
Proof.
  unfold readResourceDeps.
  set (f := λ r : row, _ ← scan_text r "dep_key"; _).
  eapply (triple_bind _ _ _ (λ rows T out T', T' = T ∧
    match scan_all f rows with
    | Ok kvs => out = Ok (copy_into kvs ∅) | Err e => out = Err e | Panic s => out = Panic s
    end)); [apply exec_triple|intros rows..| | |].
  - intros w out w' H. rewrite run_bind, run_lift in H.
    by destruct (scan_all f rows); injection H as <- <-.
  - naive_solver.
  - naive_solver.
  - cbn. intros T rows T1 out T2 _ _ _ [now Hsem] [-> Hout].
    inversion Hsem as [| | |? ? ? ? ? ? ? ? rowsa rowsb Ha Hb| | | |]; subst.
    split; [done|].
    set (rows := _ ≫= _) in Hout.
    assert (plain (scan_all f rows)) as Hp.
    { apply plain_scan_all. intros r. apply plain_bind; [apply plain_text|]. intros k.
      apply plain_bind; [apply plain_text|done]. }
    destruct (scan_all f rows) as [kvs|e|s] eqn:Hs; subst out; [|by destruct Hp|done].
    apply (scan_all_Ok _ (λ r, (txt r "dep_key", txt r "dep_urn"))) in Hs as ->.
    2:{ intros r a Hr. apply res_bind_ok_inv in Hr as (k & Hk & Hr).
        apply res_bind_ok_inv in Hr as (v & Hv & Hr). injection Hr as <-.
        apply scan_text_Ok in Hk as [_ ->]. by apply scan_text_Ok in Hv as [_ ->]. }
    f_equal. unfold dep_pairs, rows, rows_of. rewrite Ha, Hb, select_at_id. unfold default, from_option, Datatypes.id.
    generalize (at_id "resource_id" id rowsa). clear. intros la.
    induction la as [|ra la IH]; [done|]. cbn [mbind list_bind]. rewrite fmap_app, IH. f_equal.
    clear IH. match goal with |- context [@filter ?a ?b ?c ?P ?d rowsb] =>
      generalize (@filter a b c P d rowsb) end.
    intros lb. induction lb as [|rb lb IH]; [done|]. cbn. by f_equal.
Qed.

(** The row of a URN. *)
Definition row_of (T : tables) (urn : string) (r : row) : Prop :=
  r ∈ rows_of T tableResources ∧ col r "urn" = VText urn.

Lemma urn_rows T urn :
  (∃ r, row_of T urn r ∧ ∃ l, filter (λ r : row, col r "urn" = VText urn)
    (rows_of T tableResources) = r :: l) ∨
  ((∀ r, ¬ row_of T urn r) ∧ filter (λ r : row, col r "urn" = VText urn)
    (rows_of T tableResources) = []).
Proof.
  destruct (filter (λ r : row, col r "urn" = VText urn) (rows_of T tableResources))
    as [|r l] eqn:Hf.
  - right. split; [|done]. intros r [Hr Hu].
    assert (r ∈ filter (λ r : row, col r "urn" = VText urn) (rows_of T tableResources)) as Hin
      by by apply list_elem_of_filter.
    rewrite Hf in Hin. by apply elem_of_nil in Hin.
  - left. exists r. split; [|eauto].
    assert (r ∈ filter (λ r : row, col r "urn" = VText urn) (rows_of T tableResources)) as Hin
      by (rewrite Hf; apply elem_of_cons; by left).
    apply list_elem_of_filter in Hin as [? ?]. by split.
Qed.

Lemma query_urn_triple cols urn :
  triple (query_row st RTx (SSelect cols tableResources [CEq "urn" (VText urn)] NoSuffix))
    (λ T out T', T' = T ∧
      match out with
      | Ok r' => ∃ r, row_of T urn r ∧ r' = project cols r
      | Err e => As_Error e = None ∧
                 (errors_Is e ErrNoRows = true → ∀ r, ¬ row_of T urn r)
      | Panic _ => False
      end).
Proof.
  unfold query_row. eapply triple_bind; [apply select_triple|intros rows..| | |].
  - apply (triple_lift _ (λ T out T', T' = T ∧ out = first_row rows)). done.
  - intros T e T' [-> [He Hn]]. split; [done|]. split; [done|]. by rewrite Hn.
  - by intros ??? [_ []].
  - intros T rows T1 out T2 _ _ _ [-> [now Hrows]] [-> ->]. split; [done|]. subst rows.
    rewrite select_text. destruct (urn_rows T urn) as [(r & Hr & l & ->)|[Hno ->]]; cbn.
    + eauto.
    + split; [done|]. done.
Qed.

Lemma translateURNToID_triple urn :
  triple (translateURNToID st RTx urn) (λ T out T', T' = T ∧
    match out with
    | Ok id => ∃ r, row_of T urn r ∧ col r "id" = VInt id
    | Err e => As_Error e = None
    | Panic _ => False
    end).
Proof.
  unfold translateURNToID. eapply triple_bind; [apply query_urn_triple|intros r..| | |].
  - apply (triple_lift _ (λ T out T', T' = T ∧ out = scan_int r "id")). done.
  - naive_solver.
  - naive_solver.
  - intros T r' T1 out T2 _ _ _ [-> (r & Hr & ->)] [-> ->]. split; [done|].
    pose proof (plain_int (project ["id"] r) "id") as Hp.
    destruct (scan_int _ _) as [id|e|s] eqn:Hs; [|by destruct Hp|done].
    apply scan_int_Ok in Hs as [Hs _]. exists r. split; [done|].
    by rewrite col_project in Hs by set_solver.
Qed.

Lemma model_of_project r : model_of (project resource_cols r) = model_of r.
Proof. unfold model_of, int, txt, tim, byt, tim_ptr. by rewrite !col_project by set_solver. Qed.

Lemma readResourceRecord_triple urn :
  triple (readResourceRecord st RTx urn) (λ T out T', T' = T ∧
    match out with
    | Ok rec => ∃ r, row_of T urn r ∧ rec = model_of r
    | Err e => As_Error e = None ∨ ∀ r, ¬ row_of T urn r
    | Panic _ => False
    end).
Proof.
  unfold readResourceRecord. eapply triple_catch.
  - eapply triple_bind; [apply query_urn_triple|intros r..| | |].
    + apply (triple_lift _ (λ T out T', T' = T ∧ out = scan_resource r)). done.
    + instantiate (1 := λ T out T', T' = T ∧
        match out with
        | Ok rec => ∃ r, row_of T urn r ∧ rec = model_of r
        | Err e => As_Error e = None ∧ (errors_Is e ErrNoRows = true → ∀ r, ¬ row_of T urn r)
        | Panic _ => False
        end). done.
    + done.
    + intros T r' T1 out T2 _ _ _ [-> (r & Hr & ->)] [-> ->]. split; [done|].
      pose proof (plain_scan_resource (project resource_cols r)) as Hp.
      destruct (scan_resource _) as [rec|e|s] eqn:Hs; [| |done].
      * apply scan_resource_Ok in Hs as ->. exists r. by rewrite model_of_project.
      * destruct Hp as [? Hn]. split; [done|]. rewrite Hn. done.
  - cbn. intros T out T' [-> Hout]. split; [done|].
    destruct out as [rec|e|s]; cbn; [done| |done].
    destruct Hout as [He Hno]. destruct (errors_Is e ErrNoRows); auto.
Qed.
End stmts.

(** ** The view *)

Section view.
Context {SJ : SyncJSON}.
Implicit Types (T : tables) (r : row).

Lemma resource_table T : db_ok schema_sql T →
  table_ok resources_def T (rows_of T tableResources).
Proof. intros H. by destruct (table_rows T tableResources resources_def H eq_refl). Qed.

Lemma urn_typed T r : db_ok schema_sql T → r ∈ rows_of T tableResources →
  col r "urn" = VText (txt r "urn").
Proof.
  intros Hok Hr. pose proof (rows_typed _ _ _ (resource_table T Hok) r
    (mkColumn "urn" TText true NoDefault) Hr) as Ht.
  unfold txt. specialize (Ht ltac:(set_solver)). cbn in Ht. by destruct (col r "urn").
Qed.

Lemma id_typed T r : db_ok schema_sql T → r ∈ rows_of T tableResources →
  col r "id" = VInt (int r "id").
Proof.
  intros Hok Hr. pose proof (rows_typed _ _ _ (resource_table T Hok) r
    (mkColumn "id" TInt true DSerial) Hr) as Ht.
  unfold int. specialize (Ht ltac:(set_solver)). cbn in Ht. by destruct (col r "id").
Qed.

Lemma row_of_unique T u r1 r2 : db_ok schema_sql T → row_of T u r1 → row_of T u r2 → r1 = r2.
Proof.
  intros Hok [H1 Hu1] [H2 Hu2].
  eapply (unique_row _ _ _ "urn"); [by apply resource_table|set_solver|done..|congruence].
Qed.

Lemma view_of_Some T u x : db_ok schema_sql T →
  view_of T !! u = Some x ↔ ∃ r, row_of T u r ∧ x = decode T r.
Proof.
  intros Hok. unfold view_of. rewrite <- elem_of_list_to_map.
  - rewrite list_elem_of_fmap. split.
    + intros (r & [= -> ->] & Hr). exists r. split; [split; [done|]|done]. by apply urn_typed in Hr.
    + intros (r & [Hr Hu] & ->). exists r. split; [|done]. unfold txt. by rewrite Hu.
  - rewrite <- list_fmap_compose.
    apply NoDup_fmap_2_strong.
    + intros r1 r2 H1 H2 Heq. cbn in Heq. apply (row_of_unique T (txt r1 "urn")); [done| |].
      * split; [done|by apply (urn_typed T)].
      * split; [done|]. rewrite Heq. by apply (urn_typed T).
    + eapply NoDup_fmap_1, (rows_unique _ _ _ (resource_table T Hok) ["urn"]). set_solver.
Qed.

Lemma view_of_None T u : db_ok schema_sql T →
  view_of T !! u = None ↔ ∀ r, ¬ row_of T u r.
Proof.
  intros Hok. rewrite eq_None_not_Some. split.
  - intros Hn r Hr. apply Hn. exists (decode T r). apply view_of_Some; eauto.
  - intros Hn [x (r & Hr & _)%view_of_Some]; [|done]. by eapply Hn.
Qed.

Lemma view_of_URN T u x : db_ok schema_sql T → view_of T !! u = Some x → URN x = u.
Proof.
  intros Hok (r & [Hr Hu] & ->)%view_of_Some; [|done]. cbn. unfold txt. by rewrite Hu.
Qed.

Lemma sync_of_clean raw : clean_sync (sync_of raw) = true.
Proof.
  unfold sync_of, read_sync_result. destruct (0 <? raw_len raw)%nat; [|done].
  destruct (unmarshal_sync (raw_bytes raw)) as [r|e|s] eqn:H; cbn; [|done..].
  by eapply unmarshal_sync_clean.
Qed.

Lemma tim_whole T r c nn d : db_ok schema_sql T → r ∈ rows_of T tableResources →
  mkColumn c TTime nn d ∈ columns resources_def → whole_us (tim r c) = true ∧
  ∀ t, tim_ptr r c = Some t → whole_us t = true.
Proof.
  intros Hok Hr Hc. pose proof (rows_typed _ _ _ (resource_table T Hok) r _ Hr Hc) as Ht.
  cbn in Ht. unfold tim, tim_ptr. destruct (col r c); try done.
  cbn in Ht. split; [done|]. by intros t' [= <-].
Qed.

Lemma decode_clean T r : db_ok schema_sql T → r ∈ rows_of T tableResources → clean (decode T r).
Proof.
  intros Hok Hr. split; cbn.
  - apply labels_of_clean.
  - apply sync_of_clean.
  - refine (proj1 (tim_whole T r "created_at" true DNow Hok Hr _)). set_solver.
  - refine (proj1 (tim_whole T r "updated_at" true DNow Hok Hr _)). set_solver.
  - refine (proj2 (tim_whole T r "state_next_sync" false NoDefault Hok Hr _)). set_solver.
Qed.
End view.

Section get.
Context {MR : MapRange} {BD : Binding} {SJ : SyncJSON} {W : Type} (st : pg_store W).
Context {EN : Engine schema_sql (db st)}.

Lemma readResourceParts_triple urn :
  triple (readResourceParts st urn) (λ T out T', T' = T ∧
    match out with
    | Ok (rec, tags, deps) => ∃ r, row_of T urn r ∧ rec = model_of r ∧
        tags = tags_at T tableResourceTags "resource_id" (int r "id") ∧
        deps = copy_into (dep_pairs T (int r "id")) ∅
    | Err e => As_Error e = None ∨ ∀ r, ¬ row_of T urn r
    | Panic _ => False
    end).
Proof.
  unfold readResourceParts. eapply (triple_bind _ _ _ (λ rec T out T', T' = T ∧
    match out with
    | Ok (rec', tags, deps) => rec' = rec ∧
        tags = tags_at T tableResourceTags "resource_id" (rm_ID rec) ∧
        deps = copy_into (dep_pairs T (rm_ID rec)) ∅
    | Err e => As_Error e = None
    | Panic _ => False
    end)); [apply readResourceRecord_triple|intros rec| | |].
  - eapply triple_bind; [apply readTags_reads|intros tags| | |].
    + eapply (triple_bind _ _ _ (λ deps T out T', T' = T ∧ out = Ok (rec, tags, deps)));
        [apply readResourceDeps_reads|intros deps; by apply triple_ret| | |].
      * instantiate (1 := λ tags T out T', T' = T ∧
          match out with
          | Ok (rec', tags', deps) => rec' = rec ∧ tags' = tags ∧
              deps = copy_into (dep_pairs T (rm_ID rec)) ∅
          | Err e => As_Error e = None
          | Panic _ => False
          end). done.
      * done.
      * cbn. intros T deps T1 out T2 _ _ _ [-> ->] [-> ->]. done.
    + done.
    + done.
    + cbn. intros T tags T1 out T2 _ _ _ [-> ->] [-> Hout]. split; [done|].
      by destruct out as [[[rec' tags'] deps]|e|s].
  - cbn. intros T e T' [-> He]. split; [done|]. naive_solver.
  - cbn. naive_solver.
  - cbn. intros T rec T1 out T2 _ _ _ [-> (r & Hr & ->)] [-> Hout]. split; [done|].
    destruct out as [[[rec' tags'] deps]|e|s]; [|by left|done].
    destruct Hout as (-> & -> & ->). by exists r.
Qed.

Lemma pg_GetByURN_spec u w :
  let '(out, w') := pg_GetByURN st u w in
  view_of (tabs w') = view_of (tabs w) ∧
  match out with
  | Ok x => view_of (tabs w) !! u = Some x
  | Err err => errors_Is err (EErr ErrNotFound) = true → view_of (tabs w) !! u = None
  | Panic s => s ≠ "stack overflow"
  end.
Proof.
  destruct (pg_GetByURN st u w) as [out w'] eqn:H. unfold pg_GetByURN in H.
  rewrite run_bind in H.
  destruct (withinTx _ _ _ w) as [[[[rec tags] deps]|e|s] w1] eqn:Ht;
    apply (withinTx_spec _ _ _ _ _ _ (readResourceParts_triple u)) in Ht.
  - destruct Ht as [HT (r & Hr & -> & -> & ->)]. rewrite run_bind, run_lift in H.
    assert (∀ x, sync_of (byt r "state_sync_result") = x →
      resource_of (model_of r) (Some (labels_of (tags_at (tabs w) tableResourceTags "resource_id"
        (int r "id")))) (Some (copy_into (dep_pairs (tabs w) (int r "id")) ∅)) x =
      decode (tabs w) r) as Hdec by (by intros x <-).
    unfold sync_of in Hdec.
    destruct (read_sync_result (StateSyncResult (model_of r))) as [sr|e|s] eqn:Hsr.
    + rewrite run_bind, run_lift in H.
      destruct (tagsToLabelMap _) as [ls|e|s] eqn:Hls.
      * apply tagsToLabelMap_Ok in Hls as ->. injection H as <- <-. rewrite HT. split; [done|].
        apply view_of_Some; [apply tabs_ok|]. exists r. split; [done|]. apply Hdec.
        cbn in Hsr. by rewrite Hsr.
      * destruct (tagsToLabelMap_total (tags_at (tabs w) tableResourceTags "resource_id"
          (int r "id"))) as [[? Hc]|Hc]; by rewrite Hls in Hc.
      * destruct (tagsToLabelMap_total (tags_at (tabs w) tableResourceTags "resource_id"
          (int r "id"))) as [[? Hc]|Hc]; rewrite Hls in Hc; simplify_eq.
        by rewrite HT.
    + injection H as <- <-. rewrite HT. split; [done|]. intros He. exfalso.
      unfold read_sync_result in Hsr. destruct (0 <? _)%nat; [|done].
      by destruct (unmarshal_sync _); simplify_eq/=.
    + exfalso. unfold read_sync_result in Hsr. destruct (0 <? _)%nat; [|done].
      pose proof (unmarshal_sync_no_panic (raw_bytes (StateSyncResult (model_of r)))) as Hp.
      by destruct (unmarshal_sync _).
  - injection H as <- <-. destruct Ht as [-> Ht]. split; [done|]. intros He.
    apply view_of_None; [apply tabs_ok|].
    apply errors_Is_As in He as (e' & He & _).
    destruct Ht as [Hn|(T' & _ & [Hn|Hn])]; [congruence..|done].
  - by destruct Ht as [_ []].
Qed.
End get.

(** ** Writes *)

Section writes.
Context {MR : MapRange} {BD : Binding} {SJ : SyncJSON} {W : Type} (st : pg_store W).
Context {EN : Engine schema_sql (db st)}.

Lemma tag_row td idcol now i id tag :
  columns td = [mkColumn "tag" TText true NoDefault; mkColumn idcol TInt true NoDefault] →
  idcol ≠ "tag" →
  new_row td now i [idcol; "tag"] [VInt id; VText tag] = [("tag", VText tag); (idcol, VInt id)].
Proof.
  intros Htd Hne. unfold new_row. rewrite Htd. cbn.
  rewrite (decide_False (P := idcol = "tag")) by done. by rewrite (decide_True (P := idcol = idcol)).
Qed.

(** What writing the rows of one id leaves in a table. *)
Definition rewritten (t c : string) (id : Z) (T T' : tables) (new : list row) : Prop :=
  same_but [t] T T' ∧
  rows_of T' t = filter (λ r : row, col r c ≠ VInt id) (rows_of T t) ++ new.

Lemma setTags_triple t td idcol id labels :
  schema_sql !! t = Some td →
  columns td = [mkColumn "tag" TText true NoDefault; mkColumn idcol TInt true NoDefault] →
  idcol ≠ "tag" →
  triple (setTags st RTx t idcol id labels) (λ T out T',
    match out with
    | Ok _ => rewritten t idcol id T T'
        ((λ tag, [("tag", VText tag); (idcol, VInt id)]) <$> labelMapToTags labels)
    | Err _ => True
    | Panic _ => False
    end).
Proof.
  intros Ht Htd Hne. unfold setTags. eapply (triple_bind _ _ _ (λ _ T out T',
    match out with
    | Ok _ => same_but [t] T T' ∧ rows_of T' t = rows_of T t ++
        ((λ tag, [("tag", VText tag); (idcol, VInt id)]) <$> labelMapToTags labels)
    | Err _ => True
    | Panic _ => False
    end)); [apply delete_triple|intros _|done|done|].
  - destruct (Nat.ltb_spec 0 (gm_len labels)) as [Hlen|Hlen].
    + eapply (triple_bind _ _ _ (λ _ T out T', T' = T ∧ out = Ok tt));
        [by apply insert_triple|intros rows; by apply triple_ret|done|done|].
      intros T rows T1 out T2 _ _ _ (now & new & _ & Hs & Hr & Hnew) [-> ->]. split; [done|]. rewrite Hr. f_equal.
      apply Forall2_fmap_l in Hnew. revert Hnew. generalize (labelMapToTags labels). clear -Htd Hne.
      intros tags Hnew. induction Hnew as [|tag r tags new [i ->] _ IH]; [done|].
      rewrite fmap_cons, <- IH. by rewrite tag_row.
    + apply triple_ret. intros T. split; [done|].
      assert (labelMapToTags labels = []) as ->.
      { apply nil_length_inv. unfold labelMapToTags. rewrite length_fmap, length_range.
        unfold gm_len in Hlen. lia. }
      cbn. by rewrite app_nil_r.
  - intros T rows T1 out T2 _ _ _ [Hs1 Hr1] Hout. destruct out as [u|e|s]; [|done..].
    destruct Hout as [Hs2 Hr2]. split; [|by rewrite Hr2, Hr1].
    intros t' Ht'. by rewrite Hs2, Hs1.
Qed.
End writes.

Section writes2.
Context {MR : MapRange} {BD : Binding} {SJ : SyncJSON} {W : Type} (st : pg_store W).
Context {EN : Engine schema_sql (db st)}.

(** A dependency row written for a key and the URN it points to. *)
Definition dep_row (T : tables) (id : Z) (kv : string * string) (r : row) : Prop :=
  ∃ rt n, row_of T kv.2 rt ∧ col rt "id" = VInt n ∧
          r = [("resource_id", VInt id); ("dependency_key", VText kv.1); ("depends_on", VInt n)].

Lemma dependency_rows_triple id deps :
  triple (dependency_rows st RTx id deps) (λ T out T',
    match out with
    | Ok rows => T' = T ∧ Forall2 (λ kv vs, ∃ rt n, row_of T kv.2 rt ∧ col rt "id" = VInt n ∧
                                   vs = [VInt id; VText kv.1; VInt n]) deps rows
    | Err _ => True
    | Panic _ => False
    end).
Proof.
  unfold dependency_rows. set (P := λ T (kv : string * string) vs,
    ∃ rt n, row_of T kv.2 rt ∧ col rt "id" = VInt n ∧ vs = [VInt id; VText kv.1; VInt n]).
  assert (∀ acc, triple (fold_each (λ acc kv, dependsOnID ← translateURNToID st RTx kv.2;
      mret (acc ++ [[VInt id; VText kv.1; VInt dependsOnID]])) acc deps) (λ T out T',
    match out with
    | Ok rows => T' = T ∧ ∃ l, rows = acc ++ l ∧ Forall2 (P T) deps l
    | Err _ => True
    | Panic _ => False
    end)) as H.
  { induction deps as [|kv deps IH]; intros acc; cbn [fold_each].
    - apply triple_ret. intros T. split; [done|]. exists []. by rewrite app_nil_r.
    - eapply (triple_bind _ _ (λ T out T', match out with
        | Ok rows => T' = T ∧ ∃ vs, rows = acc ++ [vs] ∧ P T kv vs
        | Err _ => True | Panic _ => False end)); [|intros acc'; apply IH|done|done|].
      + eapply (triple_bind _ _ _ (λ n T out T', T' = T ∧
          out = Ok (acc ++ [[VInt id; VText kv.1; VInt n]])));
          [apply translateURNToID_triple|intros n; by apply triple_ret|done|naive_solver|].
        intros T n T1 out T2 _ _ _ [-> (rt & Hrt & Hn)] [-> ->]. split; [done|].
        eexists. split; [done|]. exists rt, n. done.
      + intros T rows T1 out T2 _ _ _ [-> (vs & -> & Hvs)] Hout.
        destruct out as [rows'|e|s]; [|done..]. destruct Hout as [-> (l & -> & Hl)].
        split; [done|]. exists (vs :: l). split; [by rewrite <- app_assoc|]. by constructor. }
  eapply triple_weaken; [apply H|]. intros T out T' _ _ Hout.
  destruct out as [rows|e|s]; [|done..]. destruct Hout as [-> (l & -> & Hl)]. by split.
Qed.

Lemma setDependencies_triple id deps :
  triple (setDependencies st RTx id deps) (λ T out T',
    match out with
    | Ok _ => ∃ new, rewritten tableResourceDependencies "resource_id" id T T' new ∧
                     Forall2 (dep_row T id) (range (gm deps)) new
    | Err _ => True
    | Panic _ => False
    end).
Proof.
  unfold setDependencies. eapply (triple_bind _ _ _ (λ _ T out T',
    match out with
    | Ok _ => ∃ new, same_but [tableResourceDependencies] T T' ∧
        rows_of T' tableResourceDependencies = rows_of T tableResourceDependencies ++ new ∧
        Forall2 (dep_row T id) (range (gm deps)) new
    | Err _ => True
    | Panic _ => False
    end)); [apply delete_triple|intros _|done|done|].
  - destruct (Nat.ltb_spec 0 (gm_len deps)) as [Hlen|Hlen].
    + eapply (triple_bind _ _ _ (λ rows T out T',
        match out with
        | Ok _ => ∃ now new, same_but [tableResourceDependencies] T T' ∧
            rows_of T' tableResourceDependencies = rows_of T tableResourceDependencies ++ new ∧
            Forall2 (λ vs r, ∃ i, r = new_row resource_dependencies_def now i
              ["resource_id"; "dependency_key"; "depends_on"] vs) rows new
        | Err _ => True
        | Panic _ => False
        end)); [apply dependency_rows_triple|intros rows|done|done|].
      * eapply (triple_bind _ _ _ (λ _ T out T', T' = T ∧ out = Ok tt));
          [by apply insert_triple|intros ?; by apply triple_ret|done|done|].
        intros T ? T1 out T2 _ _ _ (now & new & _ & Hs & Hr & Hnew) [-> ->]. by exists now, new.
      * intros T rows T1 out T2 _ _ _ [-> Hrows] Hout. destruct out as [u|e|s]; [|done..].
        destruct Hout as (now & new & Hs & Hr & Hnew). exists new. split_and!; [done..|].
        clear -Hrows Hnew. revert new Hnew.
        induction Hrows as [|kv vs l rows (rt & n & Hrt & Hn & ->) _ IH]; intros new Hnew.
        -- apply Forall2_nil_inv_l in Hnew as ->. constructor.
        -- apply Forall2_cons_inv_l in Hnew as (r & new' & [i ->] & Hnew & ->).
           constructor; [|by apply IH]. exists rt, n. by split_and!.
    + apply triple_ret. intros T. exists []. split_and!; [done|by rewrite app_nil_r|].
      assert (range (gm deps) = []) as ->; [|done]. apply nil_length_inv.
      rewrite length_range. unfold gm_len in Hlen. lia.
  - intros T rows T1 out T2 _ _ _ [Hs1 Hr1] Hout. destruct out as [u|e|s]; [|done..].
    destruct Hout as (new & Hs2 & Hr2 & Hnew). exists new. split.
    + split; [|by rewrite Hr2, Hr1]. intros t' Ht'. by rewrite Hs2, Hs1.
    + eapply Forall2_impl; [exact Hnew|]. intros kv r (rt & n & [Hin Hu] & Hn & ->).
      exists rt, n. split_and!; [|done|done]. split; [|done].
      by rewrite <- (same_but_rows _ _ _ _ Hs1) by set_solver.
Qed.

(** The row a resource is inserted as. *)
Definition insert_cols : list string :=
  ["urn"; "kind"; "project"; "name"; "created_at"; "updated_at"; "created_by"; "updated_by";
   "spec_configs"; "state_status"; "state_output"; "state_module_data";
   "state_next_sync"; "state_sync_result"].
Definition insert_vals (x : Resource) : list value :=
  [VText (URN x); VText (Kind x); VText (Project x); VText (Name x);
   bind_time (CreatedAt x); bind_time (UpdatedAt x); VText (CreatedBy x); VText (UpdatedBy x);
   bind_bytes (Configs (res_Spec x)); VText (Status (res_State x));
   bind_bytes (Output (res_State x)); bind_bytes (ModuleData (res_State x));
   bind_time_ptr (NextSyncAt (res_State x));
   bind_bytes (syncResultAsJSON (st_SyncResult (res_State x)))].

Lemma insertResourceRecord_triple x :
  triple (insertResourceRecord st RTx x) (λ T out T',
    match out with
    | Ok id => ∃ now, same_but [tableResources] T T' ∧
        rows_of T' tableResources =
          rows_of T tableResources ++ [new_row resources_def now id insert_cols (insert_vals x)]
    | Err _ => True
    | Panic _ => False
    end).
Proof.
  unfold insertResourceRecord, query_row.
  eapply (triple_bind _ _
    (λ T out T', match out with
    | Ok r => ∃ now id, r = [("id", VInt id)] ∧ same_but [tableResources] T T' ∧
        rows_of T' tableResources =
          rows_of T tableResources ++ [new_row resources_def now id insert_cols (insert_vals x)]
    | Err _ => True | Panic _ => False end)
    (λ r T out T', T' = T ∧ out = scan_int r "id")); [|intros r; by apply triple_lift|done|done|].
  - eapply (triple_bind _ _ _ (λ rows T out T', T' = T ∧ out = first_row rows));
      [by apply insert_triple|intros rows; by apply triple_lift|done|done|].
    intros T rows T1 out T2 _ _ _ (now & new & -> & Hs & Hr & Hnew) [-> ->].
    apply Forall2_cons_inv_l in Hnew as (r & new' & [id ->] & Hnil & ->).
    apply Forall2_nil_inv_l in Hnil as ->. exists now, id. by split_and!.
  - intros T r T1 out T2 _ _ _ (now & id & -> & Hs & Hr) [-> ->]. by exists now.
Qed.

Lemma insertRevision_triple id rev :
  triple (insertRevision st RTx id rev) (λ T out T',
    match out with
    | Ok _ => same_but [tableRevisions; tableRevisionTags] T T'
    | Err _ => True
    | Panic _ => False
    end).
Proof.
  unfold insertRevision, query_row.
  eapply (triple_bind _ _
    (λ T out T', match out with Ok _ => same_but [tableRevisions] T T'
                 | Err _ => True | Panic _ => False end)
    (λ _ T out T', match out with Ok _ => same_but [tableRevisionTags] T T'
                   | Err _ => True | Panic _ => False end)); [|intros r|done|done|].
  - eapply (triple_bind _ _ _ (λ rows T out T', T' = T ∧ out = first_row rows));
      [by apply insert_triple|intros rows; by apply triple_lift|done|done|].
    intros T rows T1 out T2 _ _ _ (now & new & -> & Hs & Hr & Hnew) [-> ->]. by destruct new.
  - eapply (triple_bind _ _ (λ T out T', match out with Ok _ => T' = T | Err _ => True
                                         | Panic _ => False end));
      [|intros n; by apply (setTags_triple st tableRevisionTags revision_tags_def)|done|done|].
    + apply triple_lift. intros T. unfold scan_int. by destruct (col r "id").
    + intros T n T1 out T2 _ _ _ -> Hout. destruct out as [u|e|s]; [by destruct Hout|done..].
  - intros T r T1 out T2 _ _ _ Hs1 Hout. destruct out as [u|e|s]; [|done..].
    intros t Ht. rewrite Hout, Hs1; set_solver.
Qed.

Lemma update_triple x id :
  triple (exec (db st) RTx (SUpdate tableResources (update_sets x) [CEq "id" (VInt id)]))
    (λ T out T',
    match out with
    | Ok _ => ∃ now, same_but [tableResources] T T' ∧
        rows_of T' tableResources =
          (λ r, if bool_decide (col r "id" = VInt id) then set_cols now (update_sets x) r else r)
            <$> rows_of T tableResources
    | Err _ => True
    | Panic _ => False
    end).
Proof.
  eapply triple_weaken; [apply exec_triple|]. intros T out T' _ _.
  destruct out as [rows|e|s]; [|done..]. intros [now H].
  inversion H as [| | | | |? ? ? ? rows0 rows1 HT Hr Hok| |]; subst. exists now. split.
  - intros t' Ht'. apply lookup_insert_ne. set_solver.
  - unfold rows_of. rewrite lookup_insert_eq, HT. cbn. apply list_fmap_ext. intros i r _.
    by rewrite andb_true_r.
Qed.
End writes2.

(** ** What a write does to the view *)

Section decode_facts.
Context {SJ : SyncJSON}.
Implicit Types (T : tables) (r : row).

Lemma filter_id T r : db_ok schema_sql T → r ∈ rows_of T tableResources →
  filter (λ rb : row, col rb "id" = col r "id") (rows_of T tableResources) = [r].
Proof.
  intros Hok Hr.
  destruct (select_unique resources_def T (rows_of T tableResources) "id" (col r "id") 0)
    as [(r' & Hr' & Hc & Hs)|[Hno _]]; [by apply resource_table|set_solver| |].
  - assert (r' = r) as -> by (eapply (unique_row _ _ _ "id");
      [by apply resource_table|set_solver|done..]).
    rewrite <- Hs. unfold select_rows. apply list_filter_iff. intros x. cbn.
    by rewrite andb_true_r, bool_decide_eq_true.
  - by destruct (Hno r Hr).
Qed.

(** The URN of an id. *)
Definition urn_at T (v : value) : string :=
  match filter (λ r : row, col r "id" = v) (rows_of T tableResources) with
  | r :: _ => txt r "urn"
  | [] => ""
  end.

Lemma urn_at_row T r : db_ok schema_sql T → r ∈ rows_of T tableResources →
  urn_at T (col r "id") = txt r "urn".
Proof. intros Hok Hr. unfold urn_at. by rewrite filter_id. Qed.

Lemma dep_target T rd : db_ok schema_sql T → rd ∈ rows_of T tableResourceDependencies →
  ∃ rt, rt ∈ rows_of T tableResources ∧ col rt "id" = col rd "depends_on".
Proof.
  intros Hok Hrd.
  destruct (table_rows T tableResourceDependencies resource_dependencies_def Hok eq_refl) as [_ Ht].
  apply (rows_refs _ _ _ Ht "depends_on" "resources" "id" rd); [set_solver|done].
Qed.

Lemma dep_pairs_eq T id : db_ok schema_sql T →
  dep_pairs T id = (λ rd, (txt rd "dependency_key", urn_at T (col rd "depends_on"))) <$>
                   at_id "resource_id" id (rows_of T tableResourceDependencies).
Proof.
  intros Hok. unfold dep_pairs.
  assert (∀ rd, rd ∈ at_id "resource_id" id (rows_of T tableResourceDependencies) →
    ∃ rt, rt ∈ rows_of T tableResources ∧ col rt "id" = col rd "depends_on") as Hin.
  { intros rd [_ Hrd]%list_elem_of_filter. by apply dep_target. }
  revert Hin. generalize (at_id "resource_id" id (rows_of T tableResourceDependencies)).
  intros l Hin. induction l as [|rd l IH]; [done|]. rewrite fmap_cons.
  cbn [mbind list_bind]. destruct (Hin rd) as (rt & Hrt & Hc); [by left|].
  rewrite <- Hc, (filter_id T rt) by done. rewrite urn_at_row by done. cbn [mbind list_bind app].
  f_equal. apply IH. intros rd' Hrd'. apply Hin. by right.
Qed.

Lemma at_id_rewritten c id l new :
  (∀ r, r ∈ new → col r c = VInt id) →
  at_id c id (filter (λ r : row, col r c ≠ VInt id) l ++ new) = new ∧
  ∀ id', id' ≠ id → at_id c id' (filter (λ r : row, col r c ≠ VInt id) l ++ new) = at_id c id' l.
Proof.
  intros Hnew. unfold at_id. split.
  - rewrite filter_app.
    assert (filter (λ r : row, col r c = VInt id) (filter (λ r : row, col r c ≠ VInt id) l) = [])
      as ->.
    { induction l as [|r l IH]; [done|]. destruct (decide (col r c = VInt id)) as [Hr|Hr].
      - rewrite (filter_cons_False _ r l) by (intros H; by apply H). done.
      - rewrite (filter_cons_True _ r l) by done. by rewrite filter_cons_False. }
    cbn. induction new as [|r new IH]; [done|].
    rewrite filter_cons_True by (apply Hnew; by left). f_equal. apply IH.
    intros r' Hr'. apply Hnew. by right.
  - intros id' Hne. rewrite filter_app.
    assert (filter (λ r : row, col r c = VInt id') new = []) as ->.
    { induction new as [|r new IH]; [done|]. rewrite filter_cons_False.
      - apply IH. intros r' Hr'. apply Hnew. by right.
      - rewrite (Hnew r) by by left. congruence. }
    rewrite app_nil_r. induction l as [|r l IH]; [done|].
    destruct (decide (col r c = VInt id)) as [Hr|Hr].
    + rewrite (filter_cons_False _ r) by (intros H; by apply H).
      rewrite (filter_cons_False _ r l) by congruence. done.
    + rewrite (filter_cons_True _ r) by done. rewrite !filter_cons. by rewrite IH.
Qed.
End decode_facts.

Section view_write.
Context {MR : MapRange} {SJ : SyncJSON}.
Variables (T T' : tables) (id : Z) (u : string) (labels deps : gomap string) (rn : row)
  (new : list row).
Hypotheses (Hok : db_ok schema_sql T) (Hok' : db_ok schema_sql T').
Hypothesis Htags : rows_of T' tableResourceTags =
  filter (λ r : row, col r "resource_id" ≠ VInt id) (rows_of T tableResourceTags) ++
  ((λ tag, [("tag", VText tag); ("resource_id", VInt id)]) <$> labelMapToTags labels).
Hypothesis Hdeps : rows_of T' tableResourceDependencies =
  filter (λ r : row, col r "resource_id" ≠ VInt id) (rows_of T tableResourceDependencies) ++ new.
Hypothesis Hnew : Forall2 (dep_row T' id) (range (gm deps)) new.
Hypothesis Hrows1 : ∀ r, r ∈ rows_of T tableResources → ∃ r', r' ∈ rows_of T' tableResources ∧
  col r' "id" = col r "id" ∧ txt r' "urn" = txt r "urn" ∧ (col r "id" ≠ VInt id → r' = r).
Hypothesis Hrows2 : ∀ r', r' ∈ rows_of T' tableResources →
  r' = rn ∨ (r' ∈ rows_of T tableResources ∧ col r' "id" ≠ VInt id).
Hypothesis Hid : ∀ r, r ∈ rows_of T tableResources → col r "id" = VInt id → txt r "urn" = u.
Hypothesis Hrn : row_of T' u rn ∧ col rn "id" = VInt id.

Lemma new_deps_id r : r ∈ new → col r "resource_id" = VInt id.
Proof using Hnew.
  intros Hr. apply list_elem_of_lookup in Hr as [i Hi].
  destruct (Forall2_lookup_r _ _ _ _ _ Hnew Hi) as (kv & _ & rt & n & _ & _ & ->). done.
Qed.

Lemma dep_pairs_new : dep_pairs T' id = range (gm deps).
Proof using Hok' Hdeps Hnew.
  rewrite dep_pairs_eq by done. rewrite Hdeps, (proj1 (at_id_rewritten _ _ _ _ new_deps_id)).
  clear -Hnew Hok'.
  induction Hnew as [|kv r l new' (rt & n & [Hrt Hu] & Hn & ->) Hl IH]; [done|].
  rewrite fmap_cons. f_equal; [|by apply IH].
  change ((kv.1, urn_at T' (VInt n)) = kv). rewrite <- Hn, (urn_at_row T' rt) by done.
  unfold txt. rewrite Hu. by destruct kv.
Qed.

Lemma dep_pairs_old id' : id' ≠ id → dep_pairs T' id' = dep_pairs T id'.
Proof using Hok Hok' Hdeps Hnew Hrows1.
  intros Hne. rewrite !dep_pairs_eq by done.
  rewrite Hdeps, (proj2 (at_id_rewritten _ _ _ _ new_deps_id)) by done.
  apply list_fmap_ext. intros i rd Hi. f_equal.
  apply list_elem_of_lookup_2 in Hi. apply list_elem_of_filter in Hi as [_ Hrd].
  destruct (dep_target T rd Hok Hrd) as (rt & Hrt & Hc).
  destruct (Hrows1 rt Hrt) as (rt' & Hrt' & Hid' & Hu & _).
  rewrite <- Hc, (urn_at_row T rt) by done. by rewrite <- Hid', (urn_at_row T' rt') by done.
Qed.

Lemma new_tags_id r :
  r ∈ ((λ tag, [("tag", VText tag); ("resource_id", VInt id)]) <$> labelMapToTags labels) →
  col r "resource_id" = VInt id.
Proof. intros (tag & -> & _)%list_elem_of_fmap. done. Qed.

Lemma tags_new : tags_at T' tableResourceTags "resource_id" id = labelMapToTags labels.
Proof using Htags.
  unfold tags_at. rewrite Htags, (proj1 (at_id_rewritten _ _ _ _ new_tags_id)).
  rewrite <- list_fmap_compose. etrans; [|apply list_fmap_id]. done.
Qed.

Lemma tags_old id' : id' ≠ id →
  tags_at T' tableResourceTags "resource_id" id' = tags_at T tableResourceTags "resource_id" id'.
Proof using Htags.
  intros Hne. unfold tags_at.
  by rewrite Htags, (proj2 (at_id_rewritten _ _ _ _ new_tags_id) id' Hne).
Qed.

Lemma decode_old r : r ∈ rows_of T tableResources → col r "id" ≠ VInt id →
  decode T' r = decode T r.
Proof using Hok Hok' Htags Hdeps Hnew Hrows1.
  intros Hr Hne. assert (int r "id" ≠ id) as Hi.
  { intros Hi. apply Hne. rewrite <- Hi. by apply (id_typed T). }
  unfold decode. by rewrite tags_old, dep_pairs_old.
Qed.

Lemma decode_new : decode T' rn =
  resource_of (model_of rn) (Some (labels_of (labelMapToTags labels))) (Some (gm deps))
    (sync_of (byt rn "state_sync_result")).
Proof using Hok' Htags Hdeps Hnew Hrn.
  unfold decode. assert (int rn "id" = id) as -> by (unfold int; by rewrite (proj2 Hrn)).
  rewrite tags_new, dep_pairs_new. by rewrite copy_range_spec, (right_id_L ∅ (∪)).
Qed.

Lemma view_write : view_of T' = <[u := decode T' rn]> (view_of T).
Proof using Hok Hok' Htags Hdeps Hnew Hrows1 Hrows2 Hid Hrn.
  apply map_eq. intros v. rewrite lookup_insert. case_decide as Hv; [subst v|].
  { apply view_of_Some; [done|]. exists rn. by split; [apply Hrn|]. }
  apply option_eq. intros y. rewrite !view_of_Some by done. split.
  - intros (r & [Hr Hu] & ->). destruct (Hrows2 r Hr) as [->|[HrT Hne]].
    + destruct Hrn as [[_ Hu'] _]. congruence.
    + exists r. split; [done|]. by apply decode_old.
  - intros (r & [Hr Hu] & ->). assert (col r "id" ≠ VInt id) as Hne.
    { intros Hi. apply Hv. rewrite <- (Hid r Hr Hi). unfold txt. by rewrite Hu. }
    destruct (Hrows1 r Hr) as (r' & Hr' & _ & _ & Heq). rewrite (Heq Hne) in Hr'.
    exists r. split; [done|]. by rewrite decode_old.
Qed.
End view_write.
