(* ===== verification/PostgresRefine.v ===== *)
(** * PostgresRefine: the Postgres store refines the store's contract

    [Create], [Update] and the reads on the abstract view of the tables, and the
    [StoreSpec] instance of the Postgres store. *)

From S2P Require Import Prelude GoLib Errors Resource Module StoreSpec Sql SqlLogic Postgres PostgresFacts.
From Stdlib Require Import Ascii.

#[local] Open Scope Z_scope.

(** ** Stored values *)

Section values.
Context {BD : Binding} {SJ : SyncJSON}.

Lemma bind_bytes_read b : bind_bytes b ≠ VNull → bind_bytes b = VBytes (raw_bytes b).
Proof.
  destruct b as [s|]; [by rewrite bind_bytes_Some|]. intros H.
  by destruct bind_bytes_None as [->|].
Qed.

(** What a byte column gives back, NULL or not. *)
Lemma byt_bind r c b : col r c = bind_bytes b → raw_bytes (byt r c) = raw_bytes b.
Proof.
  intros H. unfold byt. rewrite H. destruct b as [s|]; [by rewrite bind_bytes_Some|].
  by destruct bind_bytes_None as [->| ->].
Qed.

Lemma sync_of_bind r c sr : col r c = bind_bytes (syncResultAsJSON sr) →
  sync_kept sr (sync_of (byt r c)).
Proof.
  intros H. apply byt_bind in H. unfold sync_of, read_sync_result, raw_len. rewrite H.
  unfold syncResultAsJSON. case_decide as Hz; [by rewrite Hz|]. cbn.
  pose proof (marshal_sync_nonempty sr) as Hne.
  destruct (marshal_sync sr) as [|c' s] eqn:Hm; [done|]. cbn. rewrite <- Hm. split; intros Hc.
  - by rewrite sync_roundtrip.
  - by destruct (sync_retries sr Hc) as (r' & -> & Hr).
Qed.

Lemma bind_time_rounds r c t : col r c = bind_time t → rounds t (tim r c).
Proof. intros H. unfold tim. rewrite H. apply round_us_spec. Qed.

Lemma bind_time_ptr_rounds r c t : col r c = bind_time_ptr t → rounds_opt t (tim_ptr r c).
Proof. intros H. unfold tim_ptr. rewrite H. destruct t; [apply round_us_spec|done]. Qed.
End values.

Lemma rounds_refl t : whole_us t = true → rounds t t.
Proof. intros H. split; [done|]. unfold Microsecond. lia. Qed.

Section refine.
Context {MR : MapRange} {BD : Binding} {SJ : SyncJSON} {W : Type} (st : pg_store W).
Context {EN : Engine schema_sql (db st)}.

(** The columns a write sets, read back. *)
Record holds (x : Resource) (r : row) : Prop := {
  holds_urn : col r "urn" = VText (URN x);
  holds_kind : col r "kind" = VText (Kind x);
  holds_name : col r "name" = VText (Name x);
  holds_project : col r "project" = VText (Project x);
  holds_created_at : rounds (CreatedAt x) (tim r "created_at");
  holds_updated_at : rounds (UpdatedAt x) (tim r "updated_at");
  holds_created_by : col r "created_by" = VText (CreatedBy x);
  holds_updated_by : col r "updated_by" = VText (UpdatedBy x);
  holds_configs : col r "spec_configs" = bind_bytes (Configs (res_Spec x));
  holds_status : col r "state_status" = VText (Status (res_State x));
  holds_output : col r "state_output" = bind_bytes (Output (res_State x));
  holds_data : col r "state_module_data" = bind_bytes (ModuleData (res_State x));
  holds_next : rounds_opt (NextSyncAt (res_State x)) (tim_ptr r "state_next_sync");
  holds_sync : col r "state_sync_result" =
                 bind_bytes (syncResultAsJSON (st_SyncResult (res_State x)));
}.

Lemma holds_stored x r :
  holds x r →
  stored x (resource_of (model_of r) (Some (labels_of (labelMapToTags (Labels x))))
              (Some (gm (Dependencies (res_Spec x)))) (sync_of (byt r "state_sync_result"))).
Proof.
  intros []. eexists (Some (labels_of (labelMapToTags (Labels x)))), _, _, _, _.
  split_and!; [apply labels_roundtrip|by eapply sync_of_bind|done|done|done|].
  apply byt_bind in holds_configs0, holds_output0, holds_data0.
  unfold equiv, Resource_equiv, norm, norm_State, resource_of, model_of, set_stamps, set_State,
    set_NextSyncAt, set_SyncResult, set_Labels, set_URN.
  cbn [URN Kind Name Project Labels CreatedAt UpdatedAt UpdatedBy CreatedBy res_Spec res_State
    Status Output ModuleData NextSyncAt st_SyncResult Configs Dependencies rm_URN rm_Kind rm_Name
    rm_Project rm_CreatedAt rm_UpdatedAt rm_CreatedBy rm_UpdatedBy SpecConfigs StateStatus
    StateOutput StateModuleData StateNextSync].
  rewrite holds_configs0, holds_output0, holds_data0. unfold txt.
  rewrite holds_urn0, holds_kind0, holds_name0, holds_project0, holds_created_by0,
    holds_updated_by0, holds_status0. done.
Qed.

Lemma new_row_holds x now id :
  holds x (new_row resources_def now id insert_cols (insert_vals x)).
Proof.
  split; try reflexivity;
    [apply bind_time_rounds|apply bind_time_rounds|apply bind_time_ptr_rounds]; reflexivity.
Qed.

Lemma dep_row_rows T T' id kv r :
  rows_of T tableResources = rows_of T' tableResources → dep_row T id kv r → dep_row T' id kv r.
Proof.
  intros Hr (rt & n & [Hin Hu] & Hn & ->). exists rt, n. split_and!; [|done|done].
  split; [by rewrite <- Hr|done].
Qed.

(** Tags, dependencies and revision of one id, as both writers do them. *)
Definition parts_written (id : Z) (labels deps : gomap string) (T : tables) (out : go ())
    (T' : tables) : Prop :=
  match out with
  | Ok _ => ∃ new,
      same_but [tableResourceTags; tableResourceDependencies; tableRevisions;
                tableRevisionTags] T T' ∧
      rows_of T' tableResourceTags =
        filter (λ r : row, col r "resource_id" ≠ VInt id) (rows_of T tableResourceTags) ++
        ((λ tag, [("tag", VText tag); ("resource_id", VInt id)]) <$> labelMapToTags labels) ∧
      rows_of T' tableResourceDependencies =
        filter (λ r : row, col r "resource_id" ≠ VInt id) (rows_of T tableResourceDependencies)
        ++ new ∧
      Forall2 (dep_row T' id) (range (gm deps)) new
  | Err _ => True
  | Panic _ => False
  end.

Lemma parts_triple id labels deps (m1 m2 m3 : io W ()) :
  triple m1 (λ T out T', match out with
    | Ok _ => rewritten tableResourceTags "resource_id" id T T'
        ((λ tag, [("tag", VText tag); ("resource_id", VInt id)]) <$> labelMapToTags labels)
    | Err _ => True | Panic _ => False end) →
  triple m2 (λ T out T', match out with
    | Ok _ => ∃ new, rewritten tableResourceDependencies "resource_id" id T T' new ∧
                     Forall2 (dep_row T id) (range (gm deps)) new
    | Err _ => True | Panic _ => False end) →
  triple m3 (λ T out T', match out with
    | Ok _ => same_but [tableRevisions; tableRevisionTags] T T'
    | Err _ => True | Panic _ => False end) →
  triple (_ ← m1; _ ← m2; _ ← m3; runAllHooks []) (parts_written id labels deps).
Proof.
  intros H1 H2 H3.
  eapply (triple_bind _ _ _ (λ _ T out T', match out with
    | Ok _ => ∃ new, same_but [tableResourceDependencies; tableRevisions; tableRevisionTags] T T' ∧
        rows_of T' tableResourceDependencies =
          filter (λ r : row, col r "resource_id" ≠ VInt id) (rows_of T tableResourceDependencies)
          ++ new ∧ Forall2 (dep_row T' id) (range (gm deps)) new
    | Err _ => True | Panic _ => False end)); [exact H1|intros _|done|done|].
  - eapply (triple_bind _ _ _ (λ _ T out T', match out with
      | Ok _ => same_but [tableRevisions; tableRevisionTags] T T'
      | Err _ => True | Panic _ => False end)); [exact H2|intros _|done|done|].
    + eapply (triple_bind _ _ _ (λ _ T out T', T' = T ∧ out = Ok tt));
        [exact H3|intros _; by apply triple_ret|done|done|].
      by intros T ? T1 out T2 _ _ _ H [-> ->].
    + intros T ? T1 out T2 _ _ _ (new & [Hs1 Hr1] & Hnew) Hs2. destruct out; [|done..].
      exists new. split_and!.
      * intros t Ht. rewrite Hs2, Hs1; set_solver.
      * by rewrite (same_but_rows _ _ _ _ Hs2), Hr1 by set_solver.
      * eapply Forall2_impl; [exact Hnew|]. intros kv r. apply dep_row_rows.
        rewrite (same_but_rows _ _ _ tableResources Hs2) by set_solver.
        by rewrite (same_but_rows _ _ _ tableResources Hs1) by set_solver.
  - intros T ? T1 out T2 _ _ _ [Hs1 Hr1] Hout. destruct out; [|done..].
    destruct Hout as (new & Hs2 & Hr2 & Hnew). exists new. split_and!; [| | |done].
    + intros t Ht. rewrite Hs2, Hs1; set_solver.
    + by rewrite (same_but_rows _ _ _ _ Hs2), Hr1 by set_solver.
    + by rewrite Hr2, (same_but_rows _ _ _ _ Hs1) by set_solver.
Qed.

Lemma triple_translate {A} (m : io W A) (R : tables → A → tables → Prop) :
  triple m (λ T out T', match out with Ok a => R T a T' | Err _ => True | Panic _ => False end) →
  triple (catch m translateErr)
    (λ T out T', match out with Ok a => R T a T' | Err _ => True | Panic _ => False end).
Proof. intros H. eapply triple_catch; [exact H|]. by intros T [u|e|s] T'. Qed.

Lemma tags_triple id labels :
  triple (setResourceTags st RTx id labels) (λ T out T', match out with
    | Ok _ => rewritten tableResourceTags "resource_id" id T T'
        ((λ tag, [("tag", VText tag); ("resource_id", VInt id)]) <$> labelMapToTags labels)
    | Err _ => True | Panic _ => False end).
Proof. by apply (setTags_triple st tableResourceTags resource_tags_def). Qed.

(** Writing the parts of a created resource, on top of its new row. *)
Definition created (x : Resource) (T : tables) (out : go ()) (T' : tables) : Prop :=
  match out with
  | Ok _ => ∃ T1 now id,
      same_but [tableResources] T T1 ∧
      rows_of T1 tableResources =
        rows_of T tableResources ++ [new_row resources_def now id insert_cols (insert_vals x)] ∧
      parts_written id (Labels x) (Dependencies (res_Spec x)) T1 (Ok tt) T'
  | Err _ => True
  | Panic _ => False
  end.

Lemma pg_Create_run x w out w' :
  pg_Create st x [] w = (out, w') →
  match out with
  | Ok _ => created x (tabs w) (Ok tt) (tabs w')
  | Err _ => tabs w' = tabs w
  | Panic _ => False
  end.
Proof.
  intros H. unfold pg_Create in H. eapply (withinTx_spec _ _ (created x)) in H.
  - destruct out as [[]|e|s]; [done|naive_solver|done].
  - eapply (triple_bind _ _ _ (λ id T out T',
      parts_written id (Labels x) (Dependencies (res_Spec x)) T out T'));
      [apply (triple_translate _ (λ T id T', ∃ now, same_but [tableResources] T T' ∧
        rows_of T' tableResources = rows_of T tableResources ++
          [new_row resources_def now id insert_cols (insert_vals x)])),
        insertResourceRecord_triple|intros id|done|done|].
    + apply parts_triple.
      * apply (triple_translate _ (λ T _ T', _)), tags_triple.
      * apply (triple_translate _ (λ T _ T', _)), setDependencies_triple.
      * apply (triple_translate _ (λ T _ T', _)), insertRevision_triple.
    + intros T id T1 out' T2 _ _ _ (now & Hs & Hr) Hout. destruct out' as [[]|e|s]; [|done..].
      exists T1, now, id. by split_and!.
Qed.

Lemma shape_in T r c : db_ok schema_sql T → r ∈ rows_of T tableResources →
  c ∈ (col_name <$> columns resources_def) → c ∈ r.*1.
Proof. intros Hok Hr Hc. by rewrite (rows_shape _ _ _ (resource_table T Hok) r Hr). Qed.

Lemma pg_Create_spec x w :
  let '(out, w') := pg_Create st x [] w in
  match out with
  | Ok _ => view_of (tabs w) !! URN x = None ∧
            ∃ x', stored x x' ∧ view_of (tabs w') = <[URN x := x']> (view_of (tabs w))
  | Err _ => view_of (tabs w') = view_of (tabs w)
  | Panic _ => False
  end.
Proof.
  destruct (pg_Create st x [] w) as [out w'] eqn:H. apply pg_Create_run in H.
  destruct out as [[]|e|s]; [|by rewrite H|done].
  destruct H as (T1 & now & id & Hs1 & Hr1 & new & Hs2 & Ht2 & Hd2 & Hnew).
  pose proof (tabs_ok w) as Hok. pose proof (tabs_ok w') as Hok'.
  set (T := tabs w) in *. set (T' := tabs w') in *.
  set (rn := new_row resources_def now id insert_cols (insert_vals x)) in *.
  rewrite (same_but_rows _ _ _ tableResourceTags Hs1) in Ht2 by set_solver.
  rewrite (same_but_rows _ _ _ tableResourceDependencies Hs1) in Hd2 by set_solver.
  assert (rows_of T' tableResources = rows_of T tableResources ++ [rn]) as Hr
    by (by rewrite (same_but_rows _ _ _ tableResources Hs2) by set_solver).
  assert (rn ∈ rows_of T' tableResources) as Hrn by (rewrite Hr; set_solver).
  assert (∀ r, r ∈ rows_of T tableResources → r ∈ rows_of T' tableResources) as Hsub
    by (intros r; rewrite Hr; set_solver).
  assert (∀ c v r, [c] ∈ uniques resources_def → col rn c = v → r ∈ rows_of T tableResources →
    col r c ≠ v) as Hfresh.
  { intros c v r Hc Hv Hin Heq.
    pose proof (rows_unique _ _ _ (resource_table T' Hok') [c] Hc) as Hnd.
    rewrite Hr, fmap_app in Hnd. apply NoDup_app in Hnd as (_ & Hnd & _).
    apply (Hnd [col r c]); [apply list_elem_of_fmap; by exists r|].
    apply list_elem_of_fmap. exists rn. split; [by rewrite Heq, <- Hv|set_solver]. }
  split.
  { apply view_of_None; [done|]. intros r [Hin Hu].
    by apply (Hfresh "urn" (VText (URN x)) r); [set_solver|reflexivity|..]. }
  eexists. split; [apply (holds_stored x rn), new_row_holds|].
  rewrite (view_write T T' id (URN x) (Labels x) (Dependencies (res_Spec x)) rn new); try done.
  - by erewrite (decode_new T T' id (URN x) (Labels x) (Dependencies (res_Spec x)) rn new).
  - intros r Hin. exists r. auto.
  - intros r'. rewrite Hr. intros [Hin|Hin]%elem_of_app.
    + right. split; [done|]. apply (Hfresh "id"); [set_solver|reflexivity|done].
    + left. set_solver.
  - intros r Hin Hid. by destruct (Hfresh "id" (VInt id) r); [set_solver|reflexivity|..].
Qed.

(** An updated row: the columns of the resource on top of the old row. *)
Definition updated_tables (x : Resource) (rv : bool) (T : tables) (out : go ()) (T' : tables) :
    Prop :=
  match out with
  | Ok _ => ∃ T1 now id r0,
      row_of T (URN x) r0 ∧ col r0 "id" = VInt id ∧ same_but [tableResources] T T1 ∧
      rows_of T1 tableResources =
        (λ r, if bool_decide (col r "id" = VInt id) then set_cols now (update_sets x) r else r)
          <$> rows_of T tableResources ∧
      parts_written id (Labels x) (Dependencies (res_Spec x)) T1 (Ok tt) T'
  | Err _ => True
  | Panic _ => False
  end.

Lemma pg_Update_run x rv reason w out w' :
  pg_Update st x rv reason [] w = (out, w') →
  match out with
  | Ok _ => updated_tables x rv (tabs w) (Ok tt) (tabs w')
  | Err _ => tabs w' = tabs w
  | Panic _ => False
  end.
Proof.
  intros H. unfold pg_Update in H. eapply (withinTx_spec _ _ (updated_tables x rv)) in H.
  - destruct out as [[]|e|s]; [done|naive_solver|done].
  - eapply (triple_bind _ _ _ (λ id T out T', match out with
      | Ok _ => ∃ T1 now, same_but [tableResources] T T1 ∧
          rows_of T1 tableResources =
            (λ r, if bool_decide (col r "id" = VInt id) then set_cols now (update_sets x) r else r)
              <$> rows_of T tableResources ∧
          parts_written id (Labels x) (Dependencies (res_Spec x)) T1 (Ok tt) T'
      | Err _ => True | Panic _ => False end));
      [apply translateURNToID_triple|intros id|done|naive_solver|].
    + eapply (triple_bind _ _ _ (λ _ T out T',
        parts_written id (Labels x) (Dependencies (res_Spec x)) T out T'));
        [apply update_triple|intros _|done|done|].
      * apply parts_triple; [apply tags_triple|apply setDependencies_triple|].
        destruct rv; [|by apply triple_ret].
        apply (triple_translate _ (λ T _ T', _)), insertRevision_triple.
      * intros T rows T1 out' T2 _ _ _ (now & Hs & Hr) Hout.
        destruct out' as [[]|e|s]; [|done..]. by exists T1, now.
    + intros T id T1 out' T2 _ _ _ [-> (r0 & Hr0 & Hid)] Hout.
      destruct out' as [[]|e|s]; [|done..]. destruct Hout as (T1 & now & Hs & Hr & Hp).
      by exists T1, now, id, r0.
Qed.

Lemma updated_row_holds x T r0 now :
  db_ok schema_sql T → row_of T (URN x) r0 → whole_us now = true →
  holds (set_stamps (CreatedAt (decode T r0)) now (CreatedBy (decode T r0)) (UpdatedBy x)
           (set_identity (Kind (decode T r0)) (Name (decode T r0)) (Project (decode T r0)) x))
    (set_cols now (update_sets x) r0).
Proof.
  intros Hok [Hin Hu] Hnow.
  assert (∀ c, c ∈ (col_name <$> columns resources_def) →
    col (set_cols now (update_sets x) r0) c =
    match assoc (update_sets x) c with Some e => eval_expr now r0 e | None => col r0 c end) as Hcol.
  { intros c Hc. apply col_set_cols. by eapply shape_in. }
  assert (∀ c nn d, mkColumn c TText nn d ∈ columns resources_def → nn = true →
    col r0 c = VText (txt r0 c)) as Htxt.
  { intros c nn d Hc ->. pose proof (rows_typed _ _ _ (resource_table T Hok) r0 _ Hin Hc) as Ht.
    cbn in Ht. unfold txt. by destruct (col r0 c). }
  split; cbn [URN Kind Name Project CreatedAt UpdatedAt UpdatedBy CreatedBy res_Spec res_State
    set_stamps set_identity decode resource_of rm_Kind rm_Name rm_Project rm_CreatedAt rm_CreatedBy
    model_of].
  - rewrite Hcol by set_solver. exact Hu.
  - rewrite Hcol by set_solver. apply (Htxt "kind" true NoDefault); [set_solver|done].
  - rewrite Hcol by set_solver. apply (Htxt "name" true NoDefault); [set_solver|done].
  - rewrite Hcol by set_solver. apply (Htxt "project" true NoDefault); [set_solver|done].
  - assert (tim (set_cols now (update_sets x) r0) "created_at" = tim r0 "created_at") as ->
      by (unfold tim; rewrite Hcol by set_solver; done).
    apply rounds_refl, (proj1 (tim_whole T r0 "created_at" true DNow Hok Hin ltac:(set_solver))).
  - assert (tim (set_cols now (update_sets x) r0) "updated_at" = now) as ->
      by (unfold tim; rewrite Hcol by set_solver; done).
    by apply rounds_refl.
  - rewrite Hcol by set_solver. apply (Htxt "created_by" true unknown_user); [set_solver|done].
  - rewrite Hcol by set_solver. done.
  - rewrite Hcol by set_solver. done.
  - rewrite Hcol by set_solver. done.
  - rewrite Hcol by set_solver. done.
  - rewrite Hcol by set_solver. done.
  - apply bind_time_ptr_rounds. rewrite Hcol by set_solver. done.
  - rewrite Hcol by set_solver. done.
Qed.

Lemma pg_Update_spec x rv reason w :
  let '(out, w') := pg_Update st x rv reason [] w in
  match out with
  | Ok _ => ∃ old x', view_of (tabs w) !! URN x = Some old ∧ updated old x x' ∧
                      view_of (tabs w') = <[URN x := x']> (view_of (tabs w))
  | Err _ => view_of (tabs w') = view_of (tabs w)
  | Panic _ => False
  end.
Proof.
  destruct (pg_Update st x rv reason [] w) as [out w'] eqn:H. apply pg_Update_run in H.
  destruct out as [[]|e|s]; [|by rewrite H|done].
  destruct H as (T1 & now & id & r0 & Hr0 & Hid0 & Hs1 & Hr1 & new & Hs2 & Ht2 & Hd2 & Hnew).
  pose proof (tabs_ok w) as Hok. pose proof (tabs_ok w') as Hok'.
  set (T := tabs w) in *. set (T' := tabs w') in *.
  set (f := λ r, if bool_decide (col r "id" = VInt id) then set_cols now (update_sets x) r else r)
    in *.
  rewrite (same_but_rows _ _ _ tableResourceTags Hs1) in Ht2 by set_solver.
  rewrite (same_but_rows _ _ _ tableResourceDependencies Hs1) in Hd2 by set_solver.
  assert (rows_of T' tableResources = f <$> rows_of T tableResources) as Hr
    by (by rewrite (same_but_rows _ _ _ tableResources Hs2) by set_solver).
  set (rn := set_cols now (update_sets x) r0).
  assert (f r0 = rn) as Hf0 by (unfold f; by rewrite bool_decide_true).
  assert (∀ c r, r ∈ rows_of T tableResources → c ∈ ["id"; "urn"] → col (f r) c = col r c) as Hf.
  { intros c r Hin Hc. unfold f. case_bool_decide; [|done].
    assert (c = "id" ∨ c = "urn") as Hc2 by set_solver.
    rewrite col_set_cols by (eapply shape_in; [exact Hok|done|destruct Hc2 as [->| ->]; set_solver]).
    by destruct Hc2 as [->| ->]. }
  assert (rn ∈ rows_of T' tableResources) as Hrn.
  { rewrite Hr. apply list_elem_of_fmap. exists r0. split; [done|apply Hr0]. }
  assert (∀ r, r ∈ rows_of T tableResources → col r "id" = VInt id → r = r0) as Huniq.
  { intros r Hin Hi. eapply (unique_row _ _ _ "id"); [by apply (resource_table T)|set_solver|done
      |apply Hr0|congruence]. }
  assert (whole_us now = true) as Hnow.
  { pose proof (rows_typed _ _ _ (resource_table T' Hok') rn
      (mkColumn "updated_at" TTime true DNow) Hrn ltac:(set_solver)) as Ht.
    cbn [col_name] in Ht. unfold rn in Ht. rewrite col_set_cols in Ht; [exact Ht|].
    eapply shape_in; [exact Hok|apply Hr0|set_solver]. }
  assert (row_of T' (URN x) rn ∧ col rn "id" = VInt id) as HrnU.
  { split; [split; [exact Hrn|]|]; rewrite <- Hf0;
      (rewrite Hf; [|apply Hr0|set_solver]); [apply Hr0|done]. }
  exists (decode T r0). eexists. split.
  { apply view_of_Some; [done|]. by exists r0. }
  split; [exists now; split; [done|]; by apply (holds_stored _ rn), updated_row_holds|].
  cbn [Labels res_Spec set_stamps set_identity].
  rewrite (view_write T T' id (URN x) (Labels x) (Dependencies (res_Spec x)) rn new); try done.
  - by rewrite (decode_new T T' id (URN x) (Labels x) (Dependencies (res_Spec x)) rn new).
  - intros r Hin. exists (f r). split_and!.
    + rewrite Hr. apply list_elem_of_fmap. eauto.
    + apply Hf; [done|set_solver].
    + unfold txt. by rewrite Hf by set_solver.
    + intros Hne. unfold f. by rewrite bool_decide_false.
  - intros r'. rewrite Hr. intros (r & -> & Hin)%list_elem_of_fmap.
    destruct (decide (col r "id" = VInt id)) as [Hi|Hi].
    + left. by rewrite (Huniq r Hin Hi).
    + right. unfold f. by rewrite bool_decide_false.
  - intros r Hin Hi. rewrite (Huniq r Hin Hi). unfold txt. by rewrite (proj2 Hr0).
Qed.
End refine.

Section store_spec.
Context {MR : MapRange} {BD : Binding} {SJ : SyncJSON} {W : Type} (st : pg_store W).
Context {EN : Engine schema_sql (db st)}.
Variable beats : list heartbeat_event.

(** Calls that leave the tables alone, as an [effects] relation. *)
Definition same_tables : relation W := λ w w', tabs w' = tabs w.

#[local] Instance same_tables_preorder : PreOrder same_tables.
Proof. split; [done|]. unfold same_tables. intros w1 w2 w3 H1 H2. by rewrite H2. Qed.

Lemma exec_read_effects r s : is_read s = true → effects same_tables (exec (db st) r s).
Proof.
  intros Hr w. unfold same_tables. destruct (exec (db st) r s w) as [[rows|e|p] w'] eqn:H; cbn.
  - destruct (exec_Ok _ _ _ _ _ H) as (_ & Ht & _ & _). by apply Ht.
  - by destruct (exec_Err _ _ _ _ _ H) as (_ & Ht & _).
  - pose proof (exec_no_panic r s w) as Hp. by rewrite H in Hp.
Qed.

Lemma withinTx_effects {A} ro (m : io W A) :
  effects same_tables m → (∀ w, saved (m w).2 = saved w) →
  effects same_tables (withinTx (db st) ro m).
Proof.
  intros Hm Hs w. unfold same_tables, withinTx. rewrite run_bind.
  destruct (BeginTxx (db st) ro w) as [[[]|e|p] w1] eqn:Hb; cbn.
  - apply begin_Ok in Hb as [Hs1 Ht1]. unfold in_tx. specialize (Hm w1). specialize (Hs w1).
    unfold same_tables in Hm. destruct (m w1) as [[a|e|p] w2]; cbn in *; [| |congruence].
    + rewrite run_bind. destruct (Commit (db st) w2) as [[[]|e|p] w3] eqn:Hc; cbn.
      * apply commit_Ok in Hc as [_ ->]. congruence.
      * apply commit_Err in Hc as (_ & -> & _). rewrite Hs, Hs1. done.
      * pose proof (commit_no_panic w2) as Hp. by rewrite Hc in Hp.
    + destruct (rollback_spec w2) as [_ ->]. rewrite Hs, Hs1. done.
  - by destruct (begin_Err _ _ _ _ Hb) as (_ & Ht & _).
  - pose proof (begin_no_panic ro w) as Hp. by rewrite Hb in Hp.
Qed.

Lemma pg_List_effects f c : effects same_tables (pg_List st f c).
Proof.
  unfold pg_List. destruct (page_of st f) as [size offset].
  apply effects_bind; [exact _| |intros rows; auto with effects].
  destruct c; (apply effects_bind; [exact _| |intros rows; auto with effects]);
    by apply exec_read_effects.
Qed.

(** Revisions are only read. *)
Lemma exec_saved r s w : saved (exec (db st) r s w).2 = saved w.
Proof.
  destruct (exec (db st) r s w) as [[rows|e|p] w'] eqn:H; cbn.
  - by destruct (exec_Ok _ _ _ _ _ H) as (Ht & _).
  - by destruct (exec_Err _ _ _ _ _ H) as (Ht & _).
  - pose proof (exec_no_panic r s w) as Hp. by rewrite H in Hp.
Qed.

Definition frozen : relation W := λ w w', tabs w' = tabs w ∧ saved w' = saved w.

#[local] Instance frozen_preorder : PreOrder frozen.
Proof.
  split; [done|]. unfold frozen. intros w1 w2 w3 [H1 H1'] [H2 H2']. split; congruence.
Qed.

Lemma exec_frozen r s : is_read s = true → effects frozen (exec (db st) r s).
Proof. intros Hr w. split; [by apply exec_read_effects|apply exec_saved]. Qed.

Lemma read_revision_labels_frozen urn deps rms :
  effects frozen (read_revision_labels st urn deps rms).
Proof.
  induction rms as [|rm rms IH]; cbn [read_revision_labels]; [auto with effects|].
  unfold readRevisionTags, readTags.
  repeat (apply effects_bind; [exact _|..]; intros); auto with effects.
  by apply exec_frozen.
Qed.

Lemma pg_Revisions_effects sel : effects same_tables (pg_Revisions st sel).
Proof.
  unfold pg_Revisions. apply effects_bind; [exact _| |].
  - apply effects_attempt, withinTx_effects; [intros w|intros w];
      (eapply (λ H : effects frozen _, H w));
      unfold translateURNToID, query_row, readResourceDeps;
      repeat (apply effects_bind; [exact _|..]; intros); auto with effects;
      try (by apply exec_frozen); apply read_revision_labels_frozen.
  - intros [err|revs]; [destruct (errors_Is _ _)|]; auto with effects.
Qed.

#[export] Instance postgres_store_spec : StoreSpec (postgres_store st beats).
Proof.
  refine {| view := λ w, view_of (tabs w) |}.
  - intros w u x. apply view_of_URN, tabs_ok.
  - intros w u x. rewrite view_of_Some by apply tabs_ok. intros (r & [Hr _] & ->).
    apply decode_clean; [apply tabs_ok|done].
  - intros u w. apply pg_GetByURN_spec.
  - intros x w. apply pg_Create_spec.
  - intros x b reason w. apply pg_Update_spec.
  - intros f b w. f_equal. apply pg_List_effects.
  - intros sel w. f_equal. apply pg_Revisions_effects.
Defined.
End store_spec.
