(* ===== verification/SyncOne.v ===== *)
(** * SyncOne: what a syncer does to the database

    [SyncOne] of [resource_store.go] picks a resource that is due, moves its next
    sync while it is held, runs the sync function on it and stores the result.
    The theorem gives this as one step on the tables. *)

From S2P Require Import Prelude GoLib Errors Resource Module StoreSpec Sql SqlLogic Postgres PostgresFacts PostgresRefine.

#[local] Open Scope Z_scope.

(** The resource with another time for its next sync. *)
Definition reschedule (t : Time) (x : Resource) : Resource :=
  set_State (set_NextSyncAt (Some t) (res_State x)) x.

(** The resources while one of them is held: only its next sync moves. *)
Definition held (u : string) (m m' : gmap string Resource) : Prop :=
  m' = m ∨ ∃ t, m' = alter (reschedule t) u m.

#[export] Instance held_preorder u : PreOrder (held u).
Proof.
  split; [by left|]. intros m1 m2 m3 [->|[t ->]] [->|[t' ->]];
    [by left|right; eauto..|right].
  exists t'. by rewrite alter_alter_eq.
Qed.

(** ** One statement *)

(** A row after [extendWaitTime]. *)
Definition extended (u : string) (now : Time) (d : Duration) (r : row) : row :=
  if where_ now [CEq "urn" (VText u)] r then set_cols now [("state_next_sync", ENowPlus d)] r else r.

Section reschedule_view.
Context {SJ : SyncJSON}.
Variables (T T' : tables) (u : string) (now : Time) (d : Duration).
Hypotheses (Hok : db_ok schema_sql T) (Hok' : db_ok schema_sql T').
Hypothesis Hsame : same_but [tableResources] T T'.

#[local] Ltac known := first [assumption | apply (bool_decide_unpack _); vm_compute; exact I | done].
#[local] Notation f := (extended u now d).
Hypothesis Hrows : rows_of T' tableResources = f <$> rows_of T tableResources.

Lemma rescheduled_col r c : r ∈ rows_of T tableResources →
  c ∈ (col_name <$> columns resources_def) →
  col (f r) c = if decide (c = "state_next_sync" ∧ col r "urn" = VText u)
                then VTime (now + d) else col r c.
Proof using Hok.
  intros Hr Hc. unfold extended. cbn [where_ forallb eval_cond]. rewrite andb_true_r.
  destruct (decide (col r "urn" = VText u)) as [Hu|Hu].
  - rewrite bool_decide_true by done. rewrite col_set_cols by by apply (shape_in T).
    cbn. repeat case_decide; naive_solver.
  - rewrite bool_decide_false by done. rewrite decide_False; [done|naive_solver].
Qed.

Lemma rescheduled_same r c : r ∈ rows_of T tableResources →
  c ∈ (col_name <$> columns resources_def) → c ≠ "state_next_sync" → col (f r) c = col r c.
Proof using Hok. intros Hr Hc Hn. rewrite rescheduled_col by done. rewrite decide_False; naive_solver. Qed.

Lemma rescheduled_urn_at v : urn_at T' v = urn_at T v.
Proof using All.
  unfold urn_at. rewrite Hrows.
  assert (∀ l : list row, (∀ r, r ∈ l → r ∈ rows_of T tableResources) →
    filter (λ r : row, col r "id" = v) (f <$> l) = f <$> filter (λ r : row, col r "id" = v) l) as H.
  { induction l as [|r l IH]; intros Hl; [done|]. rewrite fmap_cons, !filter_cons.
    rewrite rescheduled_same by (first [apply Hl; left|known]). rewrite IH by set_solver.
    by case_decide. }
  rewrite H by done. destruct (filter _ _) as [|r l] eqn:E; [done|]. rewrite fmap_cons.
  assert (r ∈ rows_of T tableResources) as Hr.
  { assert (r ∈ filter (λ r : row, col r "id" = v) (rows_of T tableResources)) as Hin
      by (rewrite E; set_solver). by apply list_elem_of_filter in Hin as [_ ?]. }
  unfold txt. by rewrite rescheduled_same by known.
Qed.

Lemma rescheduled_decode r : r ∈ rows_of T tableResources →
  decode T' (f r) = (if decide (col r "urn" = VText u) then reschedule (now + d) else id) (decode T r).
Proof using All.
  intros Hr. pose proof (λ c, rescheduled_same r c Hr) as Hc.
  assert (int (f r) "id" = int r "id") as Hid by (unfold int; by rewrite Hc by known).
  unfold decode. rewrite Hid.
  assert (dep_pairs T' (int r "id") = dep_pairs T (int r "id")) as ->.
  { rewrite !dep_pairs_eq by done. rewrite (same_but_rows _ _ _ tableResourceDependencies Hsame) by set_solver.
    apply list_fmap_ext. intros i rd _. by rewrite rescheduled_urn_at. }
  assert (tags_at T' tableResourceTags "resource_id" (int r "id") =
          tags_at T tableResourceTags "resource_id" (int r "id")) as ->
    by (unfold tags_at; by rewrite (same_but_rows _ _ _ tableResourceTags Hsame) by set_solver).
  assert (byt (f r) "state_sync_result" = byt r "state_sync_result") as ->
    by (unfold byt; by rewrite Hc by known).
  assert (model_of (f r) = mkResourceModel (int r "id") (txt r "urn") (txt r "kind") (txt r "name")
    (txt r "project") (tim r "created_at") (tim r "updated_at") (txt r "created_by")
    (txt r "updated_by") (byt r "spec_configs") (txt r "state_status") (byt r "state_output")
    (byt r "state_module_data") (tim_ptr (f r) "state_next_sync") (byt r "state_sync_result")) as ->.
  { unfold model_of, int, txt, tim, byt. by rewrite !Hc by known. }
  unfold tim_ptr. rewrite rescheduled_col by known.
  destruct (decide (col r "urn" = VText u)) as [Hu|Hu].
  - by rewrite decide_True.
  - rewrite decide_False by naive_solver. done.
Qed.

Lemma reschedule_view : view_of T' = alter (reschedule (now + d)) u (view_of T).
Proof using All.
  assert (∀ r, r ∈ rows_of T tableResources → ∀ v, col (f r) "urn" = VText v ↔ col r "urn" = VText v) as Hurn.
  { intros r Hr v. by rewrite (rescheduled_same r "urn") by known. }
  apply map_eq. intros v. apply option_eq. intros y.
  rewrite lookup_alter. rewrite view_of_Some by done. split.
  - intros (r' & [Hr' Hu'] & ->). rewrite Hrows in Hr'. apply list_elem_of_fmap in Hr' as (r & -> & Hr).
    apply (Hurn r Hr) in Hu'. rewrite rescheduled_decode by done.
    assert (view_of T !! v = Some (decode T r)) as Hv by (apply view_of_Some; [done|by exists r]).
    case_decide as Huv; [subst v|]; rewrite Hv; cbn.
    + by rewrite decide_True.
    + rewrite decide_False by congruence. done.
  - intros Hy. assert (∃ x, view_of T !! v = Some x ∧
      y = (if decide (u = v) then reschedule (now + d) else id) x) as (x & Hx & ->).
    { case_decide; [subst v; apply fmap_Some in Hy as (x & ? & ->); by exists x|by exists y]. }
    apply view_of_Some in Hx as (r & [Hr Hu] & ->); [|done]. exists (f r). split.
    + split; [rewrite Hrows; by apply (list_elem_of_fmap_2 f)|by apply Hurn].
    + rewrite rescheduled_decode by done. rewrite Hu.
      destruct (decide (u = v)) as [->|Hne]; [by rewrite decide_True|].
      rewrite decide_False; [done|congruence].
Qed.
End reschedule_view.

(** ** The calls *)

Lemma sem_update_inv sch now t sets wh T rows T' :
  sem sch now (SUpdate t sets wh) T rows T' →
  same_but [t] T T' ∧
  rows_of T' t = (λ r, if where_ now wh r then set_cols now sets r else r) <$> rows_of T t.
Proof.
  inversion 1 as [| | | | |? ? ? ? rows0 rows1 HT Hrows Hok| |]; subst. split.
  - intros t' Ht'. apply lookup_insert_ne. set_solver.
  - unfold rows_of. by rewrite lookup_insert_eq, HT.
Qed.

Section calls.
Context {MR : MapRange} {BD : Binding} {SJ : SyncJSON} {W : Type} (st : pg_store W).
Context {EN : Engine schema_sql (db st)}.
Implicit Types (w : W).

#[local] Notation vw w := (view_of (tabs w)).

(** Extending the wait time of a resource, in a transaction or outside of one. *)
Lemma extendWaitTime_run r u w out w' :
  r = RTx ∨ saved w = None → extendWaitTime st r u w = (out, w') →
  saved w' = saved w ∧
  match out with
  | Ok _ => vw w' = alter (reschedule (now_of r w + extendInterval st)) u (vw w)
  | Err _ => tabs w' = tabs w
  | Panic _ => False
  end.
Proof.
  intros Hr H. unfold extendWaitTime in H. rewrite run_bind in H.
  destruct (exec (db st) r _ w) as [[rows|e|s] w1] eqn:He.
  - injection H as <- <-. apply exec_meaning in He as (Hs & _ & Hsem & _). split; [done|].
    apply Hsem, sem_update_inv in Hr as [Hb Hrows].
    by apply (reschedule_view (tabs w) (tabs w1)); [apply tabs_ok..|exact Hb|exact Hrows].
  - injection H as <- <-. by apply exec_Err in He as (? & ? & _).
  - pose proof (exec_no_panic (c := db st) r (SUpdate tableResources
      [("state_next_sync", ENowPlus (extendInterval st))] [CEq "urn" (VText u)]) w) as Hp.
    by rewrite He in Hp.
Qed.

Lemma extendWaitTime_rows r u w w' :
  r = RTx ∨ saved w = None → extendWaitTime st r u w = (Ok tt, w') →
  rows_of (tabs w') tableResources =
    extended u (now_of r w) (extendInterval st) <$> rows_of (tabs w) tableResources.
Proof.
  intros Hr H. unfold extendWaitTime in H. apply bind_ok_inv in H as (rows & w1 & He & [= <-]).
  apply exec_meaning in He as (_ & _ & Hsem & _). by apply Hsem, sem_update_inv in Hr as [_ ->].
Qed.

(** A transaction whose function is known from the world it starts in. *)
Lemma withinTx_run {A} ro (m : io W A) (Q : A → tables → Prop) w out w' :
  (∀ w1, BeginTxx (db st) ro w = (Ok tt, w1) → saved w1 = Some (tabs w) → tabs w1 = tabs w →
     saved (m w1).2 = saved w1 ∧
     match (m w1).1 with Ok a => Q a (tabs (m w1).2) | Err _ => True | Panic _ => False end) →
  withinTx (db st) ro m w = (out, w') →
  match out with
  | Ok a => saved w' = None ∧ Q a (tabs w')
  | Err _ => tabs w' = tabs w
  | Panic _ => False
  end.
Proof.
  intros Hm H. unfold withinTx in H. rewrite run_bind in H.
  destruct (BeginTxx (db st) ro w) as [[[]|e|s] w1] eqn:Hb.
  - pose proof Hb as [Hs1 Ht1]%begin_Ok. destruct (Hm w1 eq_refl Hs1 Ht1) as [Hs2 Hq]. unfold in_tx in H.
    destruct (m w1) as [[a|e|s] w2]; cbn in *; [| |done].
    + rewrite run_bind in H. destruct (Commit (db st) w2) as [[[]|e|s] w3] eqn:Hc.
      * apply commit_Ok in Hc as [Hs3 Ht3]. injection H as <- <-. by rewrite Ht3.
      * apply commit_Err in Hc as (_ & Ht3 & _). injection H as <- <-. by rewrite Ht3, Hs2, Hs1.
      * pose proof (commit_no_panic (c := db st) w2) as Hp. by rewrite Hc in Hp.
    + injection H as <- <-. destruct (rollback_spec (c := db st) w2) as [_ ->]. by rewrite Hs2, Hs1.
  - apply begin_Err in Hb as (_ & Ht & _). by injection H as <- <-.
  - pose proof (begin_no_panic (c := db st) ro w) as Hp. by rewrite Hb in Hp.
Qed.

(** A resource that is due, of the scope of the worker. *)
Definition due (now : Time) (scope : gmap string (list string)) (r : row) : Prop :=
  where_ now (CLeNow "state_next_sync" :: scope_conds scope) r = true.

(** The transaction that a syncer opens, when it began, and the end of the
    lease that it takes. *)
Definition tx_world w : W := (BeginTxx (db st) false w).2.
Definition lease_end w : Time := now_of RTx (tx_world w) + extendInterval st.

Definition picks scope w (u : string) (T' : tables) : Prop :=
  ∃ r, row_of (tabs w) u r ∧ due (now_of RDb (tx_world w)) scope r ∧
    view_of T' = alter (reschedule (lease_end w)) u (vw w) ∧
    rows_of T' tableResources =
      extended u (now_of RTx (tx_world w)) (extendInterval st) <$> rows_of (tabs w) tableResources.

Lemma fetchResourceForSync_run scope w out w' :
  fetchResourceForSync st scope w = (out, w') →
  match out with
  | Ok u => saved w' = None ∧ picks scope w u (tabs w')
  | Err _ => tabs w' = tabs w
  | Panic _ => False
  end.
Proof.
  apply withinTx_run. intros w1 Hb Hs1 Ht1. rewrite run_bind. unfold query_row. rewrite run_bind.
  destruct (exec (db st) RDb _ w1) as [[rows|e|s] w2] eqn:He; cbn [fst snd].
  - pose proof (exec_clock RDb (SSelect ["urn"] tableResources
      (CLeNow "state_next_sync" :: scope_conds scope) (ForUpdateSkipLocked None)) w1) as [Hclk _].
    rewrite He in Hclk. cbn [snd] in Hclk.
    apply exec_meaning in He as (Hs2 & Ht2 & _ & Hsem). specialize (Hsem eq_refl eq_refl) as Hn.
    rewrite Hs1 in Hn. change (default (tabs w1) (Some (tabs w))) with (tabs w) in Hn. rewrite run_lift.
    destruct rows as [|o rows]; [by split|]. cbn [first_row]. rewrite run_bind, run_lift.
    destruct (scan_text o "urn") as [u|e|s] eqn:Hu; [|by split|].
    2:{ pose proof (plain_text o "urn") as Hp. by rewrite Hu in Hp. }
    rewrite run_bind. destruct (extendWaitTime st RTx u w2) as [out3 w3] eqn:Hx.
    pose proof Hx as [Hs3 Hx2]%extendWaitTime_run; [|by left]. specialize (Ht2 eq_refl).
    destruct out3 as [[]|e|s]; [|by split; [etrans|]|done].
    apply extendWaitTime_rows in Hx; [|by left].
    split; [by etrans|].
    inversion Hn as [| |? ? ? ? ? rows0 rows1 HT Hsub Hl Ho| | | | |]; subst.
    destruct rows1 as [|r1 rows1]; [done|]. rewrite fmap_cons in *.
    match goal with H : _ :: _ = _ :: _ |- _ => injection H as <- _ end.
    assert (r1 ∈ select_rows (now_of RDb w1) (CLeNow "state_next_sync" :: scope_conds scope) rows0)
      as Hin by (eapply elem_of_sublist; [|exact Hsub]; left).
    apply list_elem_of_filter in Hin as [Hw Hin].
    apply scan_text_Ok in Hu as [Hu _]. change (col r1 "urn" = VText u) in Hu.
    assert (tx_world w = w1) as Htx by (unfold tx_world; by rewrite Hb).
    exists r1. split_and!.
    + split; [|done]. unfold rows_of. by rewrite HT.
    + by rewrite Htx.
    + etrans; [exact Hx2|]. rewrite Hclk, Ht2, Ht1. unfold lease_end. by rewrite Htx.
    + etrans; [exact Hx|]. by rewrite Hclk, Ht2, Ht1, Htx.
  - apply exec_Err in He as (Hs2 & _). by split.
  - pose proof (exec_no_panic (c := db st) RDb (SSelect ["urn"] tableResources
      (CLeNow "state_next_sync" :: scope_conds scope) (ForUpdateSkipLocked None)) w1) as Hp.
    by rewrite He in Hp.
Qed.

(** The end of the lease after heartbeats: each moves it to the extension
    interval after its own time, the first that fails is the last. *)
Fixpoint lease_after (u : string) (beats : list heartbeat_event) (w : W) (t : Time) : Time :=
  match beats with
  | HbTick :: beats =>
      match extendWaitTime st RDb u w with
      | (Ok _, w1) => lease_after u beats w1 (now_of RDb w + extendInterval st)
      | _ => t
      end
  | _ => t
  end.

Lemma extendWaitTime_clock r u w : now_of RDb w ≤ now_of RDb (extendWaitTime st r u w).2.
Proof.
  unfold extendWaitTime. rewrite run_bind.
  pose proof (exec_clock r (SUpdate tableResources
      [("state_next_sync", ENowPlus (extendInterval st))] [CEq "urn" (VText u)]) w) as [_ Hc].
  by destruct (exec (db st) r _ w) as [[rows|e|s] w1].
Qed.

(** Heartbeats only push the end of the lease forward. *)
Lemma lease_after_grows u beats w t :
  t ≤ now_of RDb w + extendInterval st → t ≤ lease_after u beats w t.
Proof.
  revert w t. induction beats as [|[] beats IH]; intros w t Ht; cbn [lease_after]; [lia..|].
  pose proof (extendWaitTime_clock RDb u w) as Hc.
  destruct (extendWaitTime st RDb u w) as [[[]|e|s] w1]; cbn [snd] in Hc; [|lia..].
  specialize (IH w1 (now_of RDb w + extendInterval st)). lia.
Qed.

Lemma runHeartbeat_run u beats w m t :
  saved w = None → vw w = alter (reschedule t) u m →
  ∃ w', runHeartbeat st u beats w = (Ok tt, w') ∧
    vw w' = alter (reschedule (lease_after u beats w t)) u m.
Proof.
  revert w t. induction beats as [|[] beats IH]; intros w t Hs Hv; cbn [runHeartbeat lease_after];
    [by exists w..|]. rewrite run_bind. unfold attempt.
  destruct (extendWaitTime st RDb u w) as [[[]|e|s] w1] eqn:Hx;
    apply extendWaitTime_run in Hx as [Hs1 Hx]; auto; [| |done].
  - apply IH; [congruence|]. rewrite Hx, Hv, alter_alter_eq. done.
  - exists w1. split; [done|]. by rewrite Hx.
Qed.

Lemma pg_GetByURN_saved u w x w' : pg_GetByURN st u w = (Ok x, w') → saved w' = None.
Proof.
  unfold pg_GetByURN. intros H. apply bind_ok_inv in H as ([[rec tags] deps] & w1 & Ht & H).
  apply (withinTx_run _ _ (λ _ _, True)) in Ht as [Hs _].
  - do 2 apply bind_ok_inv in H as (? & ? & [= _ <-] & H). by injection H as _ <-.
  - intros w2 _ _ _. destruct (readResourceParts st u w2) as [o w3] eqn:Hr.
    destruct (readResourceParts_triple st u _ _ _ Hr) as (Hs & _ & Ho). split; [done|]. cbn.
    by destruct o as [[[]]|?|?].
Qed.

(** The resource that a syncer of the scope would take. *)
Definition next_up (scope : gmap string (list string)) (w : W) : option string :=
  match fetchResourceForSync st scope w with (Ok u, _) => Some u | _ => None end.

(** ** The clock *)

Lemma fetchResourceForSync_clock scope w u w' :
  fetchResourceForSync st scope w = (Ok u, w') →
  now_of RDb w ≤ now_of RTx (tx_world w) ∧ now_of RTx (tx_world w) ≤ now_of RDb (tx_world w) ∧
  now_of RDb (tx_world w) ≤ now_of RDb w'.
Proof. apply transaction_clock. unfold query_row, extendWaitTime. effects_tac. Qed.

Lemma pg_GetByURN_clock u w x w' :
  pg_GetByURN st u w = (Ok x, w') → now_of RDb w ≤ now_of RDb w'.
Proof.
  unfold pg_GetByURN. intros H. apply bind_ok_inv in H as ([[rec tags] deps] & w1 & Ht & H).
  apply transaction_clock in Ht as (? & ? & ?).
  - do 2 apply bind_ok_inv in H as (? & ? & [= _ <-] & H). injection H as _ <-. lia.
  - unfold readResourceParts, readResourceRecord, readResourceTags, readTags, readResourceDeps, query_row.
    effects_tac.
Qed.

(** ** A step of a syncer *)

(** Taking [u] and reading it: the world [w2] after that, and the row [r]. *)
Record taken (scope : gmap string (list string)) w (u : string) (r : row) w2 : Prop := {
  taken_row : row_of (tabs w) u r;
  taken_due : due (now_of RDb (tx_world w)) scope r;
  taken_lease : vw w2 = alter (reschedule (lease_end w)) u (vw w);
}.

Lemma SyncOne_steps beats scope (fn : SyncFn W) w out w' :
  pg_SyncOne st beats scope fn w = (out, w') →
  (∃ e, (fetchResourceForSync st scope w).1 = Err e ∧ tabs w' = tabs w ∧
     out = if errors_Is e ErrNoRows then Ok tt else Err e) ∨
  ∃ u r w2, (fetchResourceForSync st scope w).1 = Ok u ∧ taken scope w u r w2 ∧
    (out ≠ Ok tt ∧ w' = w2 ∨
     ∃ w1, now_of RDb w + extendInterval st ≤ lease_end w ∧
       lease_end w ≤ lease_after u beats w2 (lease_end w) ∧
       vw w1 = alter (reschedule (lease_after u beats w2 (lease_end w))) u (vw w) ∧
       (match fn (reschedule (lease_end w) (decode (tabs w) r)) w1 with
        | (Ok synced, w2) => pg_Update st synced false "sync" [] w2
        | (Err e, w2) => (Err e, w2)
        | (Panic s, w2) => (Panic s, w2)
        end) = (out, w')).
Proof.
  unfold pg_SyncOne, attempt. rewrite run_bind.
  destruct (fetchResourceForSync st scope w) as [[u|e|s] w0] eqn:Hf;
    pose proof Hf as Hf1; apply fetchResourceForSync_run in Hf; [| |done].
  2:{ intros H. left. exists e. by destruct (errors_Is e ErrNoRows); injection H as <- <-. }
  destruct Hf as [Hs1 (r & Hr & Hdue & Hv & _)]. intros H. right. rewrite run_bind in H.
  pose proof (pg_GetByURN_spec st u w0) as Hg.
  destruct (pg_GetByURN st u w0) as [[x|e|s] w2] eqn:Hg2; destruct Hg as [Hv2 Hg]; exists u, r, w2;
    (split; [done|split; [split; [done|done|by rewrite Hv2]|]]);
    [|by injection H as <- <-; left..].
  right. unfold handleDequeued in H. rewrite !run_bind in H.
  assert (URN x = u) as Hu by (eapply view_of_URN; [apply tabs_ok|exact Hg]). rewrite Hu in H.
  destruct (runHeartbeat_run u beats w2 (vw w) (lease_end w)) as (w3 & Hb & Hh);
    [by eapply pg_GetByURN_saved|by rewrite Hv2|].
  rewrite Hb in H. exists w3.
  pose proof (fetchResourceForSync_clock _ _ _ _ Hf1) as (Hc1 & Hc2 & Hc2').
  pose proof (pg_GetByURN_clock _ _ _ _ Hg2) as Hc3.
  assert (x = reschedule (lease_end w) (decode (tabs w) r)) as <-.
  { rewrite Hv, lookup_alter_eq in Hg.
    assert (vw w !! u = Some (decode (tabs w) r)) as Hw by (apply view_of_Some; [apply tabs_ok|eauto]).
    rewrite Hw in Hg. by injection Hg. }
  split_and!; [unfold lease_end; lia|apply lease_after_grows; unfold lease_end; lia|done|].
  by destruct (fn x w3) as [[y|e|s] w4].
Qed.

(** The step without the times, for what does not depend on them. *)
Lemma sync_run beats scope (fn : SyncFn W) w out w' :
  pg_SyncOne st beats scope fn w = (out, w') →
  tabs w' = tabs w ∧ (∀ s, out ≠ Panic s) ∧ next_up scope w = None ∨
  ∃ u r x w1, next_up scope w = Some u ∧ row_of (tabs w) u r ∧
    held u (vw w) (vw w1) ∧
    ((∃ t, x = reschedule t (decode (tabs w) r)) ∧
       (match fn x w1 with
        | (Ok synced, w2) => pg_Update st synced false "sync" [] w2
        | (Err e, w2) => (Err e, w2)
        | (Panic s, w2) => (Panic s, w2)
        end) = (out, w') ∨
     w' = w1 ∧ out ≠ Ok tt).
Proof.
  intros H. unfold next_up. destruct (SyncOne_steps _ _ _ _ _ _ H)
    as [(e & Hf & Ht & ->)|(u & r & w2 & Hf & [Hr _ Hv] & Hrest)];
    destruct (fetchResourceForSync st scope w) as [o w0]; cbn [fst] in Hf; subst o.
  - left. split; [done|]. split; [|done]. intros s. by destruct (errors_Is e ErrNoRows).
  - right. exists u, r. destruct Hrest as [[Ho ->]|(w1 & _ & _ & Hw1 & Hfn)].
    + exists (decode (tabs w) r), w2. split_and!; [done|done|right; eauto|by right].
    + eexists _, w1. split_and!; [done|done|right; eauto|left; eauto].
Qed.

(** C10. One step of a syncer: it takes a resource of its scope whose next sync
    is due at the time of its select, or changes nothing and reports the error,
    if there was one.  The resource is held: its next sync moves to the extend
    interval after the start of the transaction that took it, and each
    heartbeat moves it on, to the extend interval after its own time, never
    back; nothing else has changed when the sync function runs, which gets the
    resource with the first of these times (when reading it fails, the call
    fails and the lease stays).  What it returns is what is stored,
    in place of the version that the database then has; when it fails, its
    error is returned and nothing is stored. *)
Theorem SyncOne_correct beats scope (fn : SyncFn W) w out w' :
  pg_SyncOne st beats scope fn w = (out, w') →
  (∃ e, (fetchResourceForSync st scope w).1 = Err e ∧ tabs w' = tabs w ∧
     out = if errors_Is e ErrNoRows then Ok tt else Err e) ∨
  ∃ u r w2, row_of (tabs w) u r ∧ due (now_of RDb (tx_world w)) scope r ∧
    now_of RDb w ≤ now_of RTx (tx_world w) ∧
    let taken_until := now_of RTx (tx_world w) + extendInterval st in
    let held_until := lease_after u beats w2 taken_until in
    vw w2 = alter (reschedule taken_until) u (vw w) ∧
    (out ≠ Ok tt ∧ w' = w2 ∨
     taken_until ≤ held_until ∧
     ∃ w1, vw w1 = alter (reschedule held_until) u (vw w) ∧
       match fn (reschedule taken_until (decode (tabs w) r)) w1 with
       | (Ok synced, w2) =>
           out = Ok tt ∧ (∃ old x', vw w2 !! URN synced = Some old ∧ updated old synced x' ∧
             vw w' = <[URN synced := x']> (vw w2)) ∨
           (∃ e, out = Err e) ∧ vw w' = vw w2
       | (Err e, w2) => out = Err e ∧ w' = w2
       | (Panic s, w2) => out = Panic s ∧ w' = w2
       end).
Proof.
  intros H. destruct (SyncOne_steps _ _ _ _ _ _ H)
    as [Hn|(u & r & w2 & Hf & [Hr Hd Hv] & Hrest)]; [by left|right].
  assert (now_of RDb w ≤ now_of RTx (tx_world w)) as Hc.
  { destruct (fetchResourceForSync st scope w) as [o w0] eqn:Hf0. cbn [fst] in Hf. subst o.
    by apply fetchResourceForSync_clock in Hf0 as (? & _). }
  exists u, r, w2. do 3 (split; [done|]). cbv zeta. split; [exact Hv|].
  destruct Hrest as [?|(w1 & _ & Hl & Hw1 & Hfn)]; [by left|right].
  split; [done|]. exists w1. split; [done|].
  destruct (fn _ w1) as [[y|e|s] w3]; [|by injection Hfn as <- <-..].
  pose proof (pg_Update_spec st y false "sync" w3) as Hu. rewrite Hfn in Hu.
  destruct out as [[]|e|s]; [by left|right; eauto|done].
Qed.
End calls.
