(* ===== verification/ListQuery.v ===== *)
(** * ListQuery: listing resources with one query

    [Store.List] reads a page of resources with a hand-written join, where
    [GetByURN] reads the parts of a resource one after the other.  [listed]
    states what PostgreSQL answers to that query; the theorems compare what the
    store makes of the answer with the resources as [GetByURN] reads them. *)

From S2P Require Import Prelude GoLib Errors Resource Module StoreSpec Sql SqlLogic Postgres PostgresFacts PostgresRefine.
From Stdlib Require Import Ascii.

#[local] Open Scope Z_scope.

(** ** The meaning of the query *)

Section meaning.
Context {SJ : SyncJSON}.
Implicit Types (T : tables) (r o : row).

(** WHERE ($1 = '' OR r.project = $1) AND ($2 = '' OR r.kind = $2) *)
Definition matches (project kind : string) (r : row) : Prop :=
  (project = "" ∨ col r "project" = VText project) ∧ (kind = "" ∨ col r "kind" = VText kind).

#[export] Instance matches_dec project kind r : Decision (matches project kind r).
Proof. unfold matches. apply _. Defined.

Definition tags_of T r : list string := tags_at T tableResourceTags "resource_id" (int r "id").
Definition deps_of_row T r : list (string * string) := dep_pairs T (int r "id").

(** COALESCE(NULLIF(array_agg(rt.tag), '{NULL}'), '{}') over the left joins:
    every tag once per dependency; without tags a NULL per dependency, of which
    only a single one is taken for none. *)
Definition joined_tags (tags : list string) (n : nat) (l : list (option string)) : Prop :=
  match tags with
  | [] => l = if (n <=? 1)%nat then [] else replicate n None
  | _ => l ≡ₚ Some <$> concat (replicate (Nat.max 1 n) tags)
  end.

(** jsonb_object_agg(COALESCE(rd.dependency_key, ''), d.urn), as [encoding/json]
    reads it into a map of strings: a null value is the empty string. *)
Definition joined_deps (deps : list (string * string)) : gmap string string :=
  match deps with [] => {["" := ""]} | _ => copy_into deps ∅ end.

Definition same_cols (with_configs : bool) : list string :=
  ["id"; "urn"; "kind"; "name"; "project"; "created_at"; "updated_at"; "state_status";
   "state_output"; "state_module_data"; "state_next_sync"; "state_sync_result"; "created_by";
   "updated_by"] ++ (if with_configs then ["spec_configs"] else []).

Record answers (with_configs : bool) T r o : Prop := {
  answers_cols : ∀ c, c ∈ same_cols with_configs → col o c = col r c;
  answers_tags : ∃ l, col o "tags" = VTexts l ∧
    joined_tags (tags_of T r) (length (deps_of_row T r)) l;
  answers_deps : ∃ s, col o "dependencies" = VBytes s ∧ s ≠ "" ∧
    unmarshal_deps s = Ok (joined_deps (deps_of_row T r));
}.

(** LIMIT and OFFSET; a limit of NULL is none. *)
Definition window {A} (limit : value) (offset : Z) (l : list A) : list A :=
  let l := drop (Z.to_nat offset) l in
  match limit with VInt n => take (Z.to_nat n) l | _ => l end.

(** The rows come in an order that the query leaves open. *)
Definition listed (with_configs : bool) T (project kind : string) (limit : value) (offset : Z)
    (rows : list row) : Prop :=
  ∃ all, all ≡ₚ filter (matches project kind) (rows_of T tableResources) ∧
    Forall2 (answers with_configs T) (window limit offset all) rows.
End meaning.

(** What the connection answers to the list queries, outside of transactions. *)
Class ListEngine `{SJ : SyncJSON} {W} (st : pg_store W) {EN : Engine schema_sql (db st)} : Prop :=
  list_answer : ∀ (with_configs : bool) project kind limit offset w rows w',
    saved w = None →
    exec (db st) RDb (SRaw (if with_configs then listResourceWithSpecConfigsByFilterQuery
                            else listResourceByFilterQuery)
                        [VText project; VText kind; limit; VInt offset]) w = (Ok rows, w') →
    listed with_configs (tabs w) project kind limit offset rows.

(** ** What the store makes of the answer *)

Section rows.
Context {MR : MapRange} {SJ : SyncJSON}.
Implicit Types (T : tables) (r o : row).

Lemma scan_all_Forall2 {A B} (f : A → go B) rows l :
  scan_all f rows = Ok l → Forall2 (λ x a, f x = Ok a) rows l.
Proof.
  revert l. induction rows as [|r rows IH]; cbn [scan_all]; intros l H; [by simplify_eq|].
  apply res_bind_ok_inv in H as (a & Ha & H). apply res_bind_ok_inv in H as (l' & Hl & H).
  simplify_eq. constructor; auto.
Qed.

(** The record, without its configs when they were not asked for. *)
Definition listed_model (with_configs : bool) (rec : resourceModel) : resourceModel :=
  if with_configs then rec
  else mkResourceModel (rm_ID rec) (rm_URN rec) (rm_Kind rec) (rm_Name rec) (rm_Project rec)
         (rm_CreatedAt rec) (rm_UpdatedAt rec) (rm_CreatedBy rec) (rm_UpdatedBy rec) None
         (StateStatus rec) (StateOutput rec) (StateModuleData rec) (StateNextSync rec)
         (StateSyncResult rec).

Lemma scan_list_row_Ok c T r o item :
  answers c T r o → scan_list_row c o = Ok item →
  lr_model item = listed_model c (model_of r) ∧
  (∃ l, joined_tags (tags_of T r) (length (deps_of_row T r)) l ∧ mapM id l = Some (Tags item)) ∧
  (∃ s, lr_Dependencies item = Some s ∧ s ≠ "" ∧
     unmarshal_deps s = Ok (joined_deps (deps_of_row T r))).
Proof.
  intros [Hc (lt & Ht & Hj) (s & Hd & Hs & Hu)] H. unfold scan_list_row in H.
  repeat (apply res_bind_ok_inv in H as (? & ? & H)). injection H as <-.
  cbn [lr_model Tags lr_Dependencies].
  repeat match goal with
  | H : scan_text _ _ = Ok _ |- _ => apply scan_text_Ok in H as [_ ->]
  | H : scan_int _ _ = Ok _ |- _ => apply scan_int_Ok in H as [_ ->]
  | H : scan_time _ _ = Ok _ |- _ => apply scan_time_Ok in H as ->
  | H : scan_time_ptr _ _ = Ok _ |- _ => apply scan_time_ptr_Ok in H as ->
  | H : scan_bytes _ _ = Ok _ |- _ => apply scan_bytes_Ok in H as ->
  end.
  split_and!.
  - unfold listed_model, model_of, txt, int, tim, tim_ptr, byt.
    destruct c; repeat match goal with H : (if _ then _ else _) = Ok _ |- _ => cbn in H end;
      repeat match goal with
      | H : scan_bytes _ _ = Ok _ |- _ => apply scan_bytes_Ok in H as ->
      | H : Ok None = Ok _ |- _ => injection H as <-
      end; cbn [rm_ID rm_URN rm_Kind rm_Name rm_Project rm_CreatedAt rm_UpdatedAt rm_CreatedBy
        rm_UpdatedBy StateStatus StateOutput StateModuleData StateNextSync StateSyncResult];
      unfold byt; by rewrite !Hc by (apply (bool_decide_unpack _); exact I).
  - exists lt. split; [done|]. unfold scan_texts in *. rewrite Ht in *.
    destruct (mapM id lt); naive_solver.
  - exists s. split_and!; [|done|done]. unfold byt. by rewrite Hd.
Qed.
End rows.

(** ** Labels and dependencies *)

(** The labels of a set of tags that name every key once. *)
Definition tag_key (tag : string) : string := default "" (head (SplitN2 tag "="%char)).

Definition one_per_key (tags : list string) : Prop :=
  ∀ t1 t2, t1 ∈ tags → t2 ∈ tags → tag_key t1 = tag_key t2 → t1 = t2.

Lemma labels_of_snoc tags t :
  labels_of (tags ++ [t]) =
  match SplitN2 t "="%char with [k; v] => <[k := v]> (labels_of tags) | _ => labels_of tags end.
Proof. unfold labels_of. by rewrite foldl_snoc. Qed.

Lemma labels_of_elem tags k v :
  one_per_key tags →
  labels_of tags !! k = Some v ↔ ∃ t, t ∈ tags ∧ SplitN2 t "="%char = [k; v].
Proof.
  induction tags as [|t tags IH] using rev_ind; intros Hone.
  { split; [done|]. by intros (t & Hin%elem_of_nil & _). }
  assert (one_per_key tags) as Hone' by (intros t1 t2 ??; apply Hone; set_solver).
  assert ((∃ t', t' ∈ tags ++ [t] ∧ SplitN2 t' "="%char = [k; v]) ↔
    (∃ t', t' ∈ tags ∧ SplitN2 t' "="%char = [k; v]) ∨ SplitN2 t "="%char = [k; v]) as ->.
  { split; [|intros [(t' & Hin & E)|E]; [exists t'|exists t]; set_solver].
    intros (t' & [Hin|Hin%list_elem_of_singleton]%elem_of_app & E); [left; eauto|right; by subst]. }
  specialize (IH Hone'). rewrite labels_of_snoc.
  destruct (SplitN2 t "="%char) as [|k' [|v' [|]]] eqn:E; [naive_solver..| |naive_solver].
  rewrite lookup_insert_Some, IH. split; [naive_solver|].
  intros [(t' & Hin & E')|[= -> ->]]; [|by left].
  destruct (decide (k' = k)) as [->|Hne]; [left|right; eauto].
  assert (t' = t) as -> by (apply Hone; [set_solver..|]; unfold tag_key; by rewrite E, E').
  rewrite E in E'. by simplify_eq.
Qed.

Lemma labels_of_same tags tags' :
  one_per_key tags → (∀ t, t ∈ tags' ↔ t ∈ tags) → labels_of tags' = labels_of tags.
Proof.
  intros Hone Hsame. apply map_eq. intros k. apply option_eq. intros v.
  rewrite !labels_of_elem; [set_solver|done|]. intros t1 t2. rewrite !Hsame. apply Hone.
Qed.

Lemma mapM_id_Some {A} (l : list (option A)) l' : mapM id l = Some l' ↔ l = Some <$> l'.
Proof.
  rewrite mapM_Some. revert l'. induction l as [|x l IH]; intros [|y l'].
  - by split.
  - split; [by inversion 1|done].
  - split; [by inversion 1|done].
  - rewrite Forall2_cons, IH. cbn. naive_solver.
Qed.

(** An answer that can be read has the tags of the resource; it cannot for one
    without tags that has several dependencies. *)
Lemma joined_tags_read tags n l l' :
  joined_tags tags n l → mapM id l = Some l' →
  (∀ t, t ∈ l' ↔ t ∈ tags) ∧ (tags = [] → (n ≤ 1)%nat).
Proof.
  intros Hj Hl. apply mapM_id_Some in Hl as ->. destruct tags as [|t0 tags]; cbn in Hj.
  - destruct (n <=? 1)%nat eqn:En.
    + apply Nat.leb_le in En. destruct l'; [|done]. done.
    + apply Nat.leb_gt in En. destruct n as [|n]; [lia|]. by destruct l'.
  - split; [|done]. intros t.
    assert (Some t ∈ (Some <$> l' : list (option string)) ↔
            Some t ∈ Some <$> concat (replicate (Nat.max 1 n) (t0 :: tags))) as Hin by by rewrite Hj.
    rewrite !(list_elem_of_fmap_inj Some) in Hin. rewrite Hin, list_elem_of_In, in_concat.
    split.
    + intros (x & Hx & Ht). apply list_elem_of_In, elem_of_replicate in Hx as [-> _].
      by apply list_elem_of_In.
    + intros Ht. exists (t0 :: tags). split; [|by apply list_elem_of_In].
      apply list_elem_of_In, elem_of_replicate. split; [done|lia].
Qed.

(** Dependencies under non-empty keys come back as they are. *)
Definition keyed (deps : list (string * string)) : Prop := "" ∉ deps.*1.

Lemma copy_into_keys {A} (l : list (string * A)) m k v :
  copy_into l m !! k = Some v → k ∈ l.*1 ∨ m !! k = Some v.
Proof.
  unfold copy_into. revert m. induction l as [|[k' v'] l IH]; intros m; cbn [foldl]; [by right|].
  intros [H|H]%IH; [left; cbn; set_solver|]. cbn in H.
  apply lookup_insert_Some in H as [[-> _]|[_ H]]; [left; cbn; set_solver|by right].
Qed.

Lemma depsBytesToMap_joined {MR : MapRange} {SJ : SyncJSON} deps s :
  keyed deps → s ≠ "" → unmarshal_deps s = Ok (joined_deps deps) →
  depsBytesToMap (Some s) = Ok (copy_into deps ∅).
Proof.
  intros Hk Hs Hu. unfold depsBytesToMap. cbn [raw_len raw_bytes].
  destruct (0 <? _)%nat eqn:El.
  2:{ destruct s; [done|]. discriminate El. }
  cbn. rewrite Hu. cbn. destruct deps as [|d deps].
  - cbn. pose proof (range_perm {[ "" := "" ]}) as Hp.
    rewrite map_to_list_singleton in Hp. by apply Permutation_singleton_r in Hp as ->.
  - cbn [joined_deps]. destruct (range (copy_into (d :: deps) ∅)) as [|[k v] l] eqn:E; [done|].
    rewrite decide_False; [done|]. intros ->.
    assert (copy_into (d :: deps) ∅ !! "" = Some v) as Hc by (apply elem_of_range; rewrite E; set_solver).
    by apply copy_into_keys in Hc as [Hc|Hc].
Qed.

(** ** Listing *)

Section entries.
Context {MR : MapRange} {SJ : SyncJSON}.
Implicit Types (T : tables) (r o : row).

(** A resource as a list shows it: configs only when asked for, and the zero
    time for no next synchronisation. *)
Definition shown (with_configs : bool) (x : Resource) : Resource :=
  let x := if with_configs then x else set_Configs None x in
  set_State (set_NextSyncAt
    (match NextSyncAt (res_State x) with
     | Some t => if decide (t = zero_time) then None else Some t
     | None => None
     end) (res_State x)) x.

Definition plain_row T r : Prop := one_per_key (tags_of T r) ∧ keyed (deps_of_row T r).

Lemma list_entry_Ok c T r o item y :
  answers c T r o → scan_list_row c o = Ok item → list_entry item = Ok y →
  URN y = txt r "urn" ∧ (tags_of T r = [] → (length (deps_of_row T r) ≤ 1)%nat) ∧
  (plain_row T r → y = shown c (decode T r)).
Proof.
  intros Ha Hs H. destruct (scan_list_row_Ok _ _ _ _ _ Ha Hs) as (Hm & (l & Hj & Hl) & s & Hd & Hn & Hu).
  destruct (joined_tags_read _ _ _ _ Hj Hl) as [Htags Hlen].
  unfold list_entry in H. apply res_bind_ok_inv in H as (sr & Hsr & H).
  apply res_bind_ok_inv in H as (deps & Hdeps & H). apply res_bind_ok_inv in H as (ls & Hls & H).
  injection H as <-. split_and!; [|done|].
  - cbn. rewrite Hm. unfold listed_model, model_of. by destruct c.
  - intros [Hone Hk]. rewrite Hd, (depsBytesToMap_joined _ _ Hk Hn Hu) in Hdeps. injection Hdeps as <-.
    apply tagsToLabelMap_Ok in Hls as ->. rewrite (labels_of_same _ _ Hone Htags).
    assert (sr = sync_of (byt r "state_sync_result")) as ->.
    { unfold sync_of, read_sync_result. rewrite Hm in Hsr. revert Hsr.
      assert (StateSyncResult (listed_model c (model_of r)) = byt r "state_sync_result") as ->
        by by destruct c.
      destruct (0 <? raw_len _)%nat; [|by intros [= <-]]. by intros ->. }
    rewrite Hm. unfold shown, decode. fold (tags_of T r). fold (deps_of_row T r). by destruct c.
Qed.
End entries.

Section list.
Context {MR : MapRange} {BD : Binding} {SJ : SyncJSON} {W : Type} (st : pg_store W).
Context {EN : Engine schema_sql (db st)} {LE : ListEngine st}.
Implicit Types (T : tables) (r : row).

Lemma Forall2_elem {A B} (P : A → B → Prop) l k :
  Forall2 P l k → Forall2 (λ x y, x ∈ l ∧ P x y) l k.
Proof.
  induction 1 as [|x y l k Hxy _ IH]; constructor; [split; [set_solver|done]|].
  eapply Forall2_impl; [exact IH|]. cbn. intros x' y' [??]. split; [set_solver|done].
Qed.

Lemma window_elem {A} limit offset (l : list A) x : x ∈ window limit offset l → x ∈ l.
Proof.
  unfold window. intros H. eapply elem_of_submseteq; [exact H|].
  destruct limit; try apply submseteq_drop. etrans; [apply submseteq_take|apply submseteq_drop].
Qed.

(** The rows of the page that a filter asks for, of all that match. *)
Definition page (f : Filter) (all : list row) : list row :=
  let '(size, offset) := page_of st f in
  window (if size =? 0 then VNull else VInt size) offset all.

End list.

