(* ===== verification/PostgresProps.v ===== *)
(** * PostgresProps: the theorems about [internal/store/postgres]

    The properties of the store and their witnesses, which run on the in-memory
    engine of SqlDemo.v. *)

From S2P Require Import Prelude GoLib Errors Resource Module StoreSpec Sql SqlLogic SqlDemo Postgres.
From S2P Require Import PostgresFacts PostgresRefine.
From Stdlib Require Import Ascii.

#[local] Open Scope Z_scope.

Section lemmas.
Context {MR : MapRange} {BD : Binding} {SJ : SyncJSON} {W : Type} (st : pg_store W).
Context {EN : Engine schema_sql (db st)}.

(** Steps of a transaction leave its savepoint alone. *)
Definition same_saved : relation W := λ w w', saved w' = saved w.

#[export] Instance same_saved_preorder : PreOrder same_saved.
Proof. split; [done|]. unfold same_saved. intros w1 w2 w3 H1 H2. by rewrite H2. Qed.

Lemma exec_same_saved r s : effects same_saved (exec (db st) r s).
Proof. intros w. apply exec_saved. Qed.
#[local] Hint Resolve exec_same_saved : effects.

Lemma hooks_same_saved hooks : effects same_saved (runAllHooks hooks).
Proof.
  induction hooks as [|h hooks IH]; cbn [runAllHooks]; [auto with effects|].
  effects_tac.
Qed.
#[local] Hint Resolve hooks_same_saved : effects.

Lemma setTags_same_saved t c id l : effects same_saved (setTags st RTx t c id l).
Proof. unfold setTags. effects_tac. Qed.

Lemma query_row_same_saved r s : effects same_saved (query_row st r s).
Proof. unfold query_row. apply effects_bind; auto with effects. Qed.
#[local] Hint Resolve setTags_same_saved query_row_same_saved : effects.

Lemma translate_same_saved r u : effects same_saved (translateURNToID st r u).
Proof. unfold translateURNToID. apply effects_bind; auto with effects. Qed.
#[local] Hint Resolve translate_same_saved : effects.

Lemma setDependencies_same_saved id deps : effects same_saved (setDependencies st RTx id deps).
Proof.
  unfold setDependencies, dependency_rows.
  effects_tac.
Qed.

Lemma insertRevision_same_saved id rev : effects same_saved (insertRevision st RTx id rev).
Proof.
  unfold insertRevision, setRevisionTags.
  effects_tac.
Qed.
#[local] Hint Resolve setDependencies_same_saved insertRevision_same_saved : effects.

(** A transaction that returns an error has been undone. *)
Lemma withinTx_Err {A} ro (m : io W A) w e w' :
  effects same_saved m → withinTx (db st) ro m w = (Err e, w') → tabs w' = tabs w.
Proof.
  intros Hm H. eapply (withinTx_spec _ _ (λ _ _ _, True)) in H; [by destruct H|].
  intros w0 out w1 H0. split; [|done]. specialize (Hm w0). by rewrite H0 in Hm.
Qed.

Lemma Create_same_saved x hooks w e w' :
  pg_Create st x hooks w = (Err e, w') → tabs w' = tabs w.
Proof.
  apply withinTx_Err. unfold insertResourceRecord, setResourceTags.
  effects_tac.
Qed.

Lemma Update_same_saved x rv reason hooks w e w' :
  pg_Update st x rv reason hooks w = (Err e, w') → tabs w' = tabs w.
Proof.
  apply withinTx_Err. unfold setResourceTags.
  effects_tac.
Qed.

Lemma Delete_same_saved u hooks w e w' :
  pg_Delete st u hooks w = (Err e, w') → tabs w' = tabs w.
Proof. apply withinTx_Err. effects_tac. Qed.

(** A deletion: the tags and dependency rows of the id are gone. *)
Definition deleted_parts (u : string) (T : tables) (out : go ()) (T' : tables) : Prop :=
  match out with
  | Ok _ => ∃ id r0, row_of T u r0 ∧ col r0 "id" = VInt id ∧
      rows_of T' tableResources = rows_of T tableResources ∧
      rows_of T' tableResourceTags =
        filter (λ r : row, col r "resource_id" ≠ VInt id) (rows_of T tableResourceTags) ∧
      rows_of T' tableResourceDependencies =
        filter (λ r : row, col r "resource_id" ≠ VInt id) (rows_of T tableResourceDependencies)
  | Err _ => True
  | Panic _ => False
  end.

Lemma pg_Delete_run u w w' :
  pg_Delete st u [] w = (Ok tt, w') → deleted_parts u (tabs w) (Ok tt) (tabs w').
Proof.
  intros H. eapply (withinTx_spec _ _ (deleted_parts u)) in H; [done|].
  eapply (triple_bind _ _ _ (λ id T out T', match out with
    | Ok _ => rows_of T' tableResources = rows_of T tableResources ∧
      rows_of T' tableResourceTags =
        filter (λ r : row, col r "resource_id" ≠ VInt id) (rows_of T tableResourceTags) ∧
      rows_of T' tableResourceDependencies =
        filter (λ r : row, col r "resource_id" ≠ VInt id) (rows_of T tableResourceDependencies)
    | Err _ => True | Panic _ => False end));
    [apply translateURNToID_triple|intros id|done|naive_solver|].
  - eapply (triple_bind _ _ _ (λ _ T out T', match out with
      | Ok _ => same_but [tableResourceTags] T T' ∧ rows_of T' tableResourceTags =
          filter (λ r : row, col r "resource_id" ≠ VInt id) (rows_of T tableResourceTags)
      | Err _ => True | Panic _ => False end)); [apply delete_triple|intros _|done|done|].
    + eapply (triple_bind _ _ _ (λ _ T out T', T' = T ∧ out = Ok tt));
        [apply delete_triple|intros _; by apply triple_ret|done|done|].
      by intros T rows T1 out T2 _ _ _ [Hs Hr] [-> ->].
    + intros T rows T1 out T2 _ _ _ [Hs1 Hr1] Hout. destruct out as [[]|e|s]; [|done..].
      destruct Hout as [Hs2 Hr2].
      rewrite (same_but_rows _ _ _ tableResources Hs2), (same_but_rows _ _ _ tableResources Hs1)
        by set_solver.
      rewrite Hr2, (same_but_rows _ _ _ tableResourceTags Hs1) by set_solver.
      by rewrite (same_but_rows _ _ _ tableResourceDependencies Hs2), Hr1 by set_solver.
  - intros T id T1 out T2 _ _ _ [-> (r0 & Hr0 & Hid)] Hout.
    destruct out as [[]|e|s]; [|done..]. exists id, r0. exact (conj Hr0 (conj Hid Hout)).
Qed.
End lemmas.

(** ** Properties *)

Section props.
Context {MR : MapRange} {BD : Binding} {SJ : SyncJSON} {W : Type} (st : pg_store W).
Context {EN : Engine schema_sql (db st)}.

(** C1. The Postgres store implements the contract the service is proved
    against: on the finite map of the resources its tables represent, reads
    return the entry or fail, a create adds exactly one entry under a free URN, an
    update replaces exactly one existing entry (keeping identity and creation
    stamps), and every failed mutation leaves the map unchanged. *)
Theorem postgres_refines_store beats :
  ∃ SS : StoreSpec (postgres_store st beats), ∀ w, view w = view_of (tabs w).
Proof. by exists (postgres_store_spec st beats). Qed.

(** C22. A mutation that reports an error, wherever it failed (in a statement, in
    a hook or at commit), has left every table as it was: resources, tags,
    dependencies and revisions. *)
Theorem mutations_are_atomic x u rv reason hooks w err w' :
  (pg_Create st x hooks w = (Err err, w') ∨ pg_Update st x rv reason hooks w = (Err err, w') ∨
   pg_Delete st u hooks w = (Err err, w')) → tabs w' = tabs w.
Proof.
  intros [H|[H|H]]; [by eapply Create_same_saved|by eapply Update_same_saved|].
  by eapply Delete_same_saved.
Qed.

(** C23. What was created is what is read back, up to nil slices and maps, times
    rounded to microseconds, labels whose key contains '=' and error texts that
    are not valid UTF-8. *)
Theorem create_get_roundtrip x w w1 y w2 :
  pg_Create st x [] w = (Ok tt, w1) → pg_GetByURN st (URN x) w1 = (Ok y, w2) → stored x y.
Proof.
  intros Hc Hg. pose proof (pg_Create_spec st x w) as Hcs. rewrite Hc in Hcs.
  pose proof (pg_GetByURN_spec st (URN x) w1) as Hgs. rewrite Hg in Hgs.
  destruct Hcs as (_ & x' & Hx' & Hv). destruct Hgs as [_ Hy].
  rewrite Hv, lookup_insert_eq in Hy. by injection Hy as ->.
Qed.

(** [Delete] does not delete: after it succeeds the resource is still stored
    and can still be read, without its labels and dependencies. *)
Theorem delete_keeps_resource u w w' :
  pg_Delete st u [] w = (Ok tt, w') →
  ∃ x, view_of (tabs w) !! u = Some x ∧
    view_of (tabs w') =
      <[u := set_Labels (Some ∅) (set_Spec (mkSpec (Configs (res_Spec x)) (Some ∅)) x)]>
        (view_of (tabs w)).
Proof.
  intros H. destruct (pg_Delete_run st u w w' H) as (id & r0 & Hr0 & Hid & Hr & Ht & Hd).
  pose proof (tabs_ok w) as Hok. pose proof (tabs_ok w') as Hok'.
  assert (∀ r, r ∈ rows_of (tabs w) tableResources → col r "id" = VInt id → r = r0) as Huniq.
  { intros r Hin Hi. eapply (unique_row _ _ _ "id");
      [by apply (resource_table (tabs w))|set_solver|done|apply Hr0|congruence]. }
  exists (decode (tabs w) r0). split; [apply view_of_Some; [done|]; by exists r0|].
  assert (row_of (tabs w') u r0 ∧ col r0 "id" = VInt id) as Hr0'
    by (split; [split; [rewrite Hr|]; apply Hr0|done]).
  assert (range (gm (None : gomap string)) = []) as Hnil by apply range_empty.
  assert (labelMapToTags None = []) as HnilL by (unfold labelMapToTags; by rewrite Hnil).
  assert (rows_of (tabs w') tableResourceTags =
    filter (λ r : row, col r "resource_id" ≠ VInt id) (rows_of (tabs w) tableResourceTags) ++
    ((λ tag, [("tag", VText tag); ("resource_id", VInt id)]) <$> labelMapToTags None)) as Ht'
    by (rewrite HnilL; cbn; by rewrite app_nil_r).
  assert (rows_of (tabs w') tableResourceDependencies =
    filter (λ r : row, col r "resource_id" ≠ VInt id)
      (rows_of (tabs w) tableResourceDependencies) ++ []) as Hd' by (by rewrite app_nil_r).
  assert (Forall2 (dep_row (tabs w') id) (range (gm (None : gomap string))) []) as Hn'
    by (rewrite Hnil; constructor).
  rewrite (view_write (tabs w) (tabs w') id u None None r0 []); try done.
  - rewrite (decode_new (tabs w) (tabs w') id u None None r0 []) by done. rewrite HnilL. done.
  - intros r Hin. exists r. rewrite Hr. auto.
  - intros r'. rewrite Hr. intros Hin. destruct (decide (col r' "id" = VInt id)) as [Hi|Hi];
      [left; by apply Huniq|by right].
  - intros r Hin Hi. rewrite (Huniq r Hin Hi). unfold txt. by rewrite (proj2 Hr0).
Qed.

(** Labels survive the round trip through their tags when no key contains the
    separator '='. *)
Theorem labels_tags_roundtrip l :
  clean_labels l → tagsToLabelMap (labelMapToTags l) = Ok (Some (gm l)).
Proof.
  intros Hc. destruct (tagsToLabelMap_total (labelMapToTags l)) as [[ls Hls]|Hp].
  - rewrite Hls. apply tagsToLabelMap_Ok in Hls as ->. by rewrite labels_roundtrip.
  - exfalso. revert Hp. unfold tagsToLabelMap, labelMapToTags.
    assert (∀ k v, (k, v) ∈ range (gm l) → "="%char ∉ chars k) as Hr.
    { intros k v Hin%elem_of_range. by eapply Hc. }
    revert Hr. generalize (∅ : gmap string string), (range (gm l)). clear.
    intros m r. revert m. induction r as [|[k v] r IH]; intros m Hr; [done|].
    rewrite fmap_cons. cbn [tagsToLabelMap_loop fst snd].
    rewrite SplitN2_tag by (apply (Hr k v); set_solver). apply IH. set_solver.
Qed.

(** The page of a listing: with a positive page number and size the offset is
    the number of resources on the pages before, as long as that is below 2^31,
    and the [int32] product is something else as soon as it is not. *)
Theorem page_offset_exact f :
  1 ≤ PageNum f < 2 ^ 31 → 1 ≤ PageSize f < 2 ^ 31 →
  ((page_of st f).2 = (PageNum f - 1) * PageSize f ↔ (PageNum f - 1) * PageSize f < 2 ^ 31) ∧
  (page_of st f).1 = PageSize f.
Proof.
  intros Hn Hs. unfold page_of. rewrite !(proj2 (Z.ltb_ge _ _)) by lia. cbn [fst snd].
  split; [|done]. rewrite (wrap32_id (PageNum f - 1)) by lia. split; intros H.
  - rewrite <- H. unfold wrap32. pose proof (wrap_range 32 ((PageNum f - 1) * PageSize f)). lia.
  - apply wrap32_id. nia.
Qed.
End props.

(** ** Witnesses, on the in-memory engine *)

#[local] Instance demo_range : MapRange := range_sorted.

#[local] Instance demo_binding : Binding := {|
  bind_bytes b := VBytes (raw_bytes b);
  bind_bytes_Some _ := eq_refl;
  bind_bytes_None := or_introl eq_refl;
|}.

(** A codec for sync results: the bits of their code as a countable value. *)
Fixpoint bits (p : positive) : string :=
  match p with
  | xH => "."
  | xO p => String "0" (bits p)
  | xI p => String "1" (bits p)
  end.

Fixpoint unbits (s : string) : option positive :=
  match s with
  | String c s => if decide (s = "") then Some xH
                  else p ← unbits s; Some (if decide (c = "0"%char) then xO p else xI p)
  | EmptyString => None
  end.

Lemma unbits_bits p : unbits (bits p) = Some p.
Proof.
  induction p as [p IH|p IH|]; [..|done].
  - cbn [bits unbits]. rewrite decide_False by (by destruct p). by rewrite IH.
  - cbn [bits unbits]. rewrite decide_False by (by destruct p). by rewrite IH.
Qed.

Definition demo_unmarshal (s : string) : go SyncResult :=
  match p ← unbits s; countable.decode p with
  | Some (z, e) =>
      let r := mkSyncResult z e in
      if clean_sync r then Ok r else Err (ENew "invalid sync result")
  | None => Err (ENew "invalid character")
  end.

#[local] Instance demo_json : SyncJSON.
Proof.
  refine {| marshal_sync r := bits (countable.encode (Retries r, utf8_or_empty (LastError r)));
            unmarshal_sync := demo_unmarshal;
            unmarshal_deps s := match p ← unbits s; countable.decode p with
                                | Some deps => Ok deps
                                | None => Err (ENew "invalid character")
                                end |}.
  - intros r. by destruct (countable.encode _).
  - intros [z e] Hc. unfold demo_unmarshal. rewrite unbits_bits. cbn [mbind option_bind].
    rewrite decode_encode. cbn [Retries LastError].
    replace (utf8_or_empty e) with e by (apply andb_prop in Hc as [[Hu _]%andb_prop _];
      cbn [LastError] in Hu; unfold utf8_or_empty; by rewrite Hu).
    by rewrite Hc.
  - intros [z e] Hz. cbn [Retries LastError] in *. exists (mkSyncResult z (utf8_or_empty e)).
    split; [|done]. unfold demo_unmarshal. rewrite unbits_bits. cbn [mbind option_bind].
    rewrite decode_encode. unfold clean_sync. cbn [Retries LastError].
    by rewrite utf8_or_empty_valid, (proj2 (Z.leb_le _ _)), (proj2 (Z.ltb_lt _ _)) by lia.
  - intros s r. unfold demo_unmarshal. repeat case_match; try discriminate. by intros [= <-].
  - intros s. unfold demo_unmarshal. by repeat case_match.
Defined.

Definition demo_pg : pg_store demo_db :=
  mkPgStore _ (demo_conn schema_sql 0) (30 * Second) (20 * Second) (mkConfig 20 1).

#[local] Instance demo_pg_engine : Engine schema_sql (db demo_pg) := demo_engine schema_sql 0.

Definition demo_empty : demo_db := (empty_db schema_sql, None).

Definition demo_stored : Resource :=
  set_Labels (Some {[ "team" := "data" ]})
    (set_URN "orn:entropy:firehose:goto:a" (demo_resource "firehose" "goto" "a")).

Lemma postgres_refines_store_witness :
  ∃ SS : StoreSpec (postgres_store demo_pg []),
    view (StoreSpec := SS) demo_empty = view_of (empty_db schema_sql).
Proof.
  destruct (postgres_refines_store demo_pg []) as [SS H]. exists SS.
  rewrite (H demo_empty). reflexivity.
Defined.

Lemma mutations_are_atomic_witness :
  ∃ err w', pg_Create demo_pg demo_stored [Err (ENew "hook")] demo_empty = (Err err, w') ∧
    tabs (Engine := demo_pg_engine) w' = tabs (Engine := demo_pg_engine) demo_empty.
Proof.
  destruct (pg_Create demo_pg demo_stored [Err (ENew "hook")] demo_empty) as [[[]|err|s] w'] eqn:H.
  - exfalso. assert (is_ok (pg_Create demo_pg demo_stored [Err (ENew "hook")] demo_empty).1 = false)
      as Hn by (vm_compute; reflexivity). rewrite H in Hn. discriminate Hn.
  - exists err, w'. split; [reflexivity|].
    exact (mutations_are_atomic demo_pg demo_stored "" false "" [Err (ENew "hook")] demo_empty err w'
             (or_introl H)).
  - exfalso. assert (is_panic (pg_Create demo_pg demo_stored [Err (ENew "hook")] demo_empty).1 = false)
      as Hn by (vm_compute; reflexivity). rewrite H in Hn. discriminate Hn.
Defined.

Lemma demo_created : ∃ w1, pg_Create demo_pg demo_stored [] demo_empty = (Ok tt, w1) ∧
  is_ok (pg_GetByURN demo_pg (URN demo_stored) w1).1 = true ∧
  is_ok (pg_Delete demo_pg (URN demo_stored) [] w1).1 = true.
Proof.
  exists (pg_Create demo_pg demo_stored [] demo_empty).2.
  split; [|split; vm_compute; reflexivity].
  destruct (ok_run (pg_Create demo_pg demo_stored [] demo_empty)) as ([] & w1 & H);
    [vm_compute; reflexivity|]. rewrite H. reflexivity.
Qed.

Lemma create_get_roundtrip_witness :
  ∃ w1 y w2, pg_Create demo_pg demo_stored [] demo_empty = (Ok tt, w1) ∧
    pg_GetByURN demo_pg (URN demo_stored) w1 = (Ok y, w2) ∧ stored demo_stored y.
Proof.
  destruct demo_created as (w1 & Hc & Hg & _).
  destruct (ok_run _ Hg) as (y & w2 & Hy). exists w1, y, w2. split; [exact Hc|]. split; [exact Hy|].
  exact (create_get_roundtrip demo_pg demo_stored demo_empty w1 y w2 Hc Hy).
Defined.

Lemma delete_keeps_resource_witness :
  ∃ w1 w2 x, pg_Delete demo_pg (URN demo_stored) [] w1 = (Ok tt, w2) ∧
    view_of (tabs (Engine := demo_pg_engine) w1) !! URN demo_stored = Some x.
Proof.
  destruct demo_created as (w1 & _ & _ & Hd).
  destruct (ok_run _ Hd) as ([] & w2 & H2).
  destruct (delete_keeps_resource demo_pg (URN demo_stored) w1 w2 H2) as (x & Hx & _).
  exists w1, w2, x. split; [exact H2|exact Hx].
Defined.

Lemma labels_tags_roundtrip_witness :
  let l : gomap string := Some {[ "team" := "a=b" ]} in
  tagsToLabelMap (labelMapToTags l) = Ok (Some (gm l)).
Proof.
  apply (labels_tags_roundtrip (Some {[ "team" := "a=b" ]})).
  intros k v Hk. cbn in Hk. apply lookup_singleton_Some in Hk as [<- _].
  vm_compute. intros H. repeat (apply elem_of_cons in H as [H|H]; [discriminate H|]).
  by apply elem_of_nil in H.
Defined.

Lemma page_offset_exact_witness :
  let f := mkFilter "" "" None 50 3 in page_of demo_pg f = (50, 100) ∧
  ((page_of demo_pg f).2 = (3 - 1) * 50 ↔ (3 - 1) * 50 < 2 ^ 31) ∧
  let g := mkFilter "" "" None 50000 50000 in (page_of demo_pg g).2 < 0.
Proof.
  cbv zeta. split; [reflexivity|]. split; [|vm_compute; reflexivity].
  apply (page_offset_exact demo_pg (mkFilter "" "" None 50 3)); cbn; lia.
Defined.
