(* ===== verification/ListDemo.v ===== *)
(** * ListDemo: an engine that answers the list queries

    The engine of SqlDemo.v with the two queries of [Store.List] run on its
    tables, and a list of what the store holds. *)

From S2P Require Import Prelude GoLib Errors Resource Module StoreSpec Sql SqlLogic SqlDemo Postgres PostgresFacts PostgresRefine ListQuery PostgresProps.

#[local] Open Scope Z_scope.

#[local] Existing Instance range_sorted.
#[local] Existing Instance demo_binding.
#[local] Existing Instance demo_json.
#[local] Existing Instance demo_pg_engine.

(** ** A connection with hand-written queries *)

Definition conn_answering {W} (ans : string → list value → W → option (list row)) (c : Conn W) : Conn W := {|
  BeginTxx := BeginTxx c;
  Commit := Commit c;
  Rollback := Rollback c;
  exec r s w :=
    match s with
    | SRaw q args => match ans q args w with Some rows => (Ok rows, w) | None => exec c r s w end
    | _ => exec c r s w
    end;
|}.

Definition engine_answering {W} ans sch (c : Conn W) (EN : Engine sch c) :
  Engine sch (conn_answering ans c).
Proof.
  refine {| tabs := tabs; saved := saved; now_of := now_of |};
    cbn [exec BeginTxx Commit Rollback conn_answering].
  - apply tabs_ok.
  - intros r s w rows w' H. destruct s; try by apply exec_meaning in H.
    destruct (ans query args w) as [rows0|]; [|by apply exec_meaning in H]. injection H as -> ->.
    split_and!; [done|done| |]; intros; constructor.
  - intros r s w e w' H. destruct s; try by apply exec_Err in H.
    destruct (ans query args w) as [rows0|]; [done|by apply exec_Err in H].
  - intros r s w. destruct s; try apply exec_no_panic.
    destruct (ans query args w); [done|apply exec_no_panic].
  - apply begin_Ok.
  - apply begin_Err.
  - apply begin_no_panic.
  - apply commit_Ok.
  - apply commit_Err.
  - apply commit_no_panic.
  - apply rollback_spec.
  - intros r s w. destruct s; try apply exec_clock.
    destruct (ans query args w); [done|apply exec_clock].
  - apply begin_clock.
  - apply begin_now.
  - apply commit_clock.
  - apply rollback_clock.
Defined.

(** ** The list queries on tables *)

Definition agg_tags (tags : list string) (n : nat) : list (option string) :=
  match tags with
  | [] => if (n <=? 1)%nat then [] else replicate n None
  | _ => Some <$> concat (replicate (Nat.max 1 n) tags)
  end.

Definition answer_row (with_configs : bool) (T : tables) (r : row) : row :=
  ("tags", VTexts (agg_tags (tags_of T r) (length (deps_of_row T r)))) ::
  ("dependencies", VBytes (bits (countable.encode (joined_deps (deps_of_row T r))))) ::
  ((λ c, (c, col r c)) <$> same_cols with_configs).

Definition query_rows (T : tables) (with_configs : bool) (project kind : string) (limit : value)
    (offset : Z) : list row :=
  answer_row with_configs T <$>
    window limit offset (filter (matches project kind) (rows_of T tableResources)).

Definition list_answers (q : string) (args : list value) (w : demo_db) : option (list row) :=
  match args with
  | [VText project; VText kind; limit; VInt offset] =>
      let rows c := Some (query_rows (tabs (Engine := demo_pg_engine) w) c project kind limit offset) in
      if decide (q = listResourceByFilterQuery) then rows false
      else if decide (q = listResourceWithSpecConfigsByFilterQuery) then rows true else None
  | _ => None
  end.

Definition list_pg : pg_store demo_db :=
  mkPgStore _ (conn_answering list_answers (db demo_pg)) (30 * Second) (20 * Second) (mkConfig 20 1).

#[local] Instance list_pg_engine : Engine schema_sql (db list_pg) :=
  engine_answering list_answers schema_sql (db demo_pg) demo_pg_engine.

Lemma assoc_cols (r : row) cols c : c ∈ cols → assoc ((λ c, (c, col r c)) <$> cols) c = Some (col r c).
Proof.
  induction cols as [|c' cols IH]; [by intros ?%elem_of_nil|]. cbn. intros Hin.
  case_decide as Hc; [by subst|]. apply IH. set_solver.
Qed.

Lemma answer_row_answers c T r : answers c T r (answer_row c T r).
Proof.
  split.
  - intros x Hx. assert (x ≠ "tags" ∧ x ≠ "dependencies") as [H1 H2] by (destruct c; set_solver).
    unfold col at 1, answer_row. cbn [assoc]. rewrite decide_False, decide_False by congruence.
    by rewrite assoc_cols.
  - eexists. split; [reflexivity|]. unfold joined_tags, agg_tags. by destruct (tags_of T r).
  - eexists. split; [reflexivity|]. split; [by destruct (countable.encode _)|].
    cbn [unmarshal_deps demo_json]. by rewrite unbits_bits; cbn [mbind option_bind]; rewrite decode_encode.
Qed.

#[local] Instance list_pg_answers : ListEngine list_pg.
Proof.
  intros c project kind limit offset w rows w' _ H.
  assert (rows = query_rows (tabs w) c project kind limit offset) as ->.
  { cbn [exec db list_pg conn_answering] in H. unfold list_answers in H.
    destruct c; repeat case_decide; try discriminate; simplify_eq; done. }
  exists (filter (matches project kind) (rows_of (tabs w) tableResources)). split; [done|].
  unfold query_rows. apply Forall2_fmap_r.
  induction (window _ _ _); constructor; [apply answer_row_answers|done].
Qed.

(** ** A list of the stored resources *)

Definition demo_filter : Filter := mkFilter "" "goto" None 0 0.


(** Two resources, and one without labels that depends on both. *)
Definition demo_sink (name : string) : Resource :=
  set_URN ("orn:entropy:kafka:goto:" +:+ name) (demo_resource "kafka" "goto" name).

Definition demo_two_deps : Resource :=
  set_Spec (mkSpec None (Some {["a" := "orn:entropy:kafka:goto:k1"; "b" := "orn:entropy:kafka:goto:k2"]}))
    (set_URN "orn:entropy:dagger:goto:d" (demo_resource "dagger" "goto" "d")).

(** The list fails as a whole, although each resource can be read. *)
Example unlabelled_list :
  let w1 := (pg_Create list_pg (demo_sink "k1") [] demo_empty).2 in
  let w2 := (pg_Create list_pg (demo_sink "k2") [] w1).2 in
  let w3 := (pg_Create list_pg demo_two_deps [] w2).2 in
  is_ok (pg_List list_pg demo_filter true w2).1 = true ∧
  is_ok (pg_GetByURN list_pg (URN demo_two_deps) w3).1 = true ∧
  (pg_List list_pg demo_filter true w3).1 = Err (scan_error "tags").
Proof. vm_compute. split_and!; reflexivity. Qed.
