(* ===== verification/Pgq.v ===== *)
(** * Pgq: [pkg/worker/pgq]

    Models [pgq.go], [pgq_utils.go] and their [schema.sql]: the job queue of
    Worker.v over a connection (Sql.v).  The schema's TIMESTAMP columns hold UTC
    times and are compared to [current_timestamp]; the model takes the time zone
    of the session to be UTC, where both agree. *)

From S2P Require Import Prelude GoLib Errors Worker Sql SqlDemo.
From Stdlib Require Import Ascii.

#[local] Open Scope Z_scope.

Definition pgq_extendInterval : Duration := 30 * Second.
Definition pgq_refreshInterval : Duration := 20 * Second.

Definition queue_name_char (c : ascii) : bool :=
  is_alpha c || is_digit c || bool_decide (c = "_"%char).

(** [^[A-Za-z][A-Za-z0-9_]*$] *)
Definition queueNamePattern : regex := RCat (RSet is_alpha) (RStar (RSet queue_name_char)).

Definition errInvalidQueueName : error :=
  ENew "queue name must match pattern '^[A-Za-z][A-Za-z0-9_]*$'".

(** [schema.sql], the table of a queue. *)
Definition queue_def : table_def := mkTableDef
  [mkColumn "id" TText true NoDefault; mkColumn "kind" TText true NoDefault;
   mkColumn "status" TText true NoDefault; mkColumn "run_at" TTime true NoDefault;
   mkColumn "payload" TBytes true NoDefault; mkColumn "created_at" TTime true DNow;
   mkColumn "updated_at" TTime true DNow; mkColumn "result" TBytes false NoDefault;
   mkColumn "attempts_done" TInt true (DVal (VInt 0)); mkColumn "last_attempt_at" TTime false NoDefault;
   mkColumn "last_error" TText false NoDefault]
  [["id"]] [].

Definition queue_table (queueName : string) : string := "pgq_" +:+ queueName.

Definition queue_schema (queueName : string) : schema_def := {[ queue_table queueName := queue_def ]}.

Record Queue (W : Type) := mkQueue {
  q_db : Conn W;
  queueName : string;
  tableName : string;
  q_extendInterval : Duration;
  q_refreshInterval : Duration;
}.

Arguments q_db {W}.
Arguments queueName {W}.
Arguments tableName {W}.
Arguments q_extendInterval {W}.
Arguments q_refreshInterval {W}.

(** [Open]; [pool] opens the database, [migrate] runs the schema (on failure the
    pool is closed again). *)
Definition pgq_Open {W} (pool : go (Conn W)) (migrate : string → go ()) (name : string) :
    go (Queue W) :=
  if negb (MatchString queueNamePattern name) then Err errInvalidQueueName
  else
    conn ← pool;
    _ ← migrate (queue_table name);
    Ok (mkQueue W conn name (queue_table name) pgq_extendInterval pgq_refreshInterval).

(** Parameters and columns, as database/sql binds and scans them. *)
Definition pgq_bytes (b : RawMessage) : value :=
  match b with Some s => VBytes s | None => VNull end.
Definition pgq_time (t : Time) : value := VTime (round_us t).

Section pgq.
Context {W : Type}.
Variable q : Queue W.

#[local] Notation run := (exec (q_db q)).

(** [withTx]: the transaction of one function. *)
Definition withTx {A} (readOnly : bool) (fn : io W A) : io W A :=
  _ ← BeginTxx (q_db q) readOnly;
  (λ w, match fn w with
        | (Err fnErr, w) => (Err fnErr, Rollback (q_db q) w)
        | (Panic s, w) => (Panic s, w)
        | (Ok a, w) => (_ ← Commit (q_db q); mret a) w
        end) : io W A.

Definition enqueue_cols : list string :=
  ["id"; "kind"; "status"; "run_at"; "payload"; "created_at"; "updated_at"].

Definition enqueue_vals (job : Job) : list value :=
  [VText (job_ID job); VText (job_Kind job); VText (job_Status job); pgq_time (RunAt job);
   pgq_bytes (Payload job); pgq_time (job_CreatedAt job); pgq_time (job_UpdatedAt job)].

(** One INSERT for all jobs.  Building an insert without values is an error of
    the builder. *)
Definition pgq_Enqueue (jobs : list Job) : io W () :=
  catch
    (match jobs with
     | [] => throw (ENew "insert statements must have at least one set of values or select clause")
     | _ =>
         _ ← run RDb (SInsert (tableName q) enqueue_cols (enqueue_vals <$> jobs) []);
         mret tt
     end)
    (λ err, match As_pq err with
            | Some (name, _) => if decide (name = "unique_violation") then ErrJobExists else err
            | None => err
            end).

Definition extendJob (r : runner) (id : string) : io W () :=
  _ ← run r (SUpdate (tableName q) [("run_at", ENowPlus (q_extendInterval q))]
               [CEq "id" (VText id)]);
  mret tt.

Definition job_cols : list string :=
  ["id"; "kind"; "status"; "run_at"; "payload"; "created_at"; "updated_at";
   "result"; "attempts_done"; "last_attempt_at"; "last_error"].

(** [sql.NullTime] and [sql.NullString]: a NULL is the zero value. *)
Definition scan_null_time (r : row) (c : string) : go Time :=
  t ← scan_time_ptr r c; Ok (default zero_time t).
Definition scan_null_text (r : row) (c : string) : go string :=
  match col r c with VNull => Ok "" | _ => scan_text r c end.

Definition rowIntoJob (r : row) : go Job :=
  id ← scan_text r "id"; kind ← scan_text r "kind"; status ← scan_text r "status";
  run_at ← scan_time r "run_at"; payload ← scan_bytes r "payload";
  created_at ← scan_time r "created_at"; updated_at ← scan_time r "updated_at";
  res ← scan_bytes r "result"; attempts ← scan_int r "attempts_done";
  last_attempt ← scan_null_time r "last_attempt_at"; last_error ← scan_null_text r "last_error";
  Ok (mkJob id kind run_at payload status created_at updated_at res attempts last_attempt
        last_error).

Definition ready_conds (kinds : list string) : list cond :=
  [CIn "kind" (VText <$> kinds); CEq "status" (VText job_StatusPending); CLtNow "run_at"].

Definition fetchReadyJob (r : runner) (kinds : list string) : io W Job :=
  rows ← run r (SSelect job_cols (tableName q) (ready_conds kinds) (ForUpdateSkipLocked (Some 1%nat)));
  row ← lift (first_row rows);
  lift (rowIntoJob row).

(** Select and extension run in the same transaction. *)
Definition pickupJob (kinds : list string) : io W Job :=
  withTx false (
    j ← fetchReadyJob RTx kinds;
    _ ← extendJob RTx (job_ID j);
    mret j).

Definition result_sets (job : Job) : list (string * sql_expr) :=
  [("updated_at", EVal (pgq_time (job_UpdatedAt job))); ("status", EVal (VText (job_Status job)));
   ("result", EVal (pgq_bytes (Result job))); ("attempts_done", EColPlus "attempts_done" 1);
   ("last_error", EVal (VText (job_LastError job)));
   ("last_attempt_at", EVal (pgq_time (LastAttemptAt job)))].

Definition saveJobResult (job : Job) : io W () :=
  _ ← run RDb (SUpdate (tableName q) (result_sets job)
                 [CEq "id" (VText (job_ID job)); CEq "status" (VText job_StatusPending)]);
  mret tt.

(** What the heartbeat sees: a tick, or the end of the job's context. *)
Inductive beat := BeatDone | BeatTick.

(** Returns whether the heartbeat failed, which cancels the job's context. *)
Fixpoint pgq_runHeartbeat (id : string) (evs : list beat) : io W bool :=
  match evs with
  | [] | BeatDone :: _ => mret false
  | BeatTick :: evs =>
      out ← attempt (extendJob RDb id);
      match out with
      | inl _ => mret true
      | inr _ => pgq_runHeartbeat id evs
      end
  end.

(** The heartbeat runs beside [fn]; here its [evs] come before it. *)
Definition pgq_handleDequeued (evs : list beat) (job : Job) (fn : DequeueFn W) : io W Job :=
  cancelled ← pgq_runHeartbeat (job_ID job) evs;
  fn (if cancelled : bool then Some Canceled else None) job.

Definition pgq_Dequeue (evs : list beat) (ctx : option error) (kinds : list string)
    (fn : DequeueFn W) : io W () :=
  out ← attempt (pickupJob kinds);
  match out with
  | inl err => if errors_Is err ErrNoRows then mret tt else throw err
  | inr job =>
      resultJob ← pgq_handleDequeued evs job fn;
      saveJobResult resultJob
  end.

(** The queue as the [JobQueue] of the worker. *)
Definition pgq_queue (evs : list beat) : JobQueue W := {|
  jq_Enqueue := pgq_Enqueue;
  jq_Dequeue := pgq_Dequeue evs;
|}.
End pgq.
