(* ===== verification/PgqProps.v ===== *)
(** * PgqProps: the theorems about [pkg/worker/pgq]

    What enqueueing, picking up and saving a job do to the queue's table. *)

From S2P Require Import Prelude GoLib Errors Worker Sql SqlLogic SqlDemo Pgq.
From Stdlib Require Import Ascii.

#[local] Open Scope Z_scope.
#[local] Arguments rowIntoJob : simpl never.
#[local] Arguments project : simpl never.

Section lemmas.
Context {W : Type} (q : Queue W) (sch : schema_def).
Context {EN : Engine sch (q_db q)}.
Hypothesis Hsch : sch !! tableName q = Some queue_def.

Definition jobs_of (w : W) : list row := rows_of (tabs w) (tableName q).

(** An update of the table, statement by statement. *)
Lemma queue_update_triple sets wh :
  triple (exec (q_db q) RTx (SUpdate (tableName q) sets wh)) (λ T out T',
    match out with
    | Ok _ => ∃ now, rows_of T' (tableName q) =
        (λ r, if where_ now wh r then set_cols now sets r else r) <$> rows_of T (tableName q)
    | Err e => As_Error e = None
    | Panic _ => False
    end).
Proof.
  eapply triple_weaken; [apply exec_triple|]. intros T out T' _ _.
  destruct out as [rows|e|s]; [|naive_solver|done]. intros [now H].
  inversion H as [| | | | |? ? ? ? rows0 rows1 HT Hr Hok| |]; subst. exists now.
  unfold rows_of. by rewrite lookup_insert_eq, HT.
Qed.

Lemma update_RDb sets wh w rows w' :
  saved w = None → exec (q_db q) RDb (SUpdate (tableName q) sets wh) w = (Ok rows, w') →
  saved w' = None ∧ let now := now_of RDb w in
  jobs_of w' = (λ r, if where_ now wh r then set_cols now sets r else r) <$> jobs_of w.
Proof.
  intros Hs H. destruct (exec_meaning _ _ _ _ _ H) as (Hs' & _ & Hsem & _).
  split; [congruence|]. specialize (Hsem (or_intror Hs)). cbv zeta.
  inversion Hsem as [| | | | |? ? ? ? rows0 rows1 HT Hr Hok HE| |]; subst.
  match goal with Hw : _ = tabs w' |- _ => unfold jobs_of, rows_of; rewrite <- Hw end.
  by rewrite lookup_insert_eq, HT.
Qed.

Lemma exec_RDb_Err s w e w' :
  saved w = None → exec (q_db q) RDb s w = (Err e, w') →
  saved w' = None ∧ jobs_of w' = jobs_of w.
Proof.
  intros Hs H. destruct (exec_Err _ _ _ _ _ H) as (Hs' & Ht & _).
  split; [congruence|]. unfold jobs_of. by rewrite Ht.
Qed.

(** ** Rows of the queue *)

(** What extending the wait of [id] up to [t] leaves. *)
Definition leased (id : string) (t : Time) (rows : list row) : list row :=
  (λ r, if bool_decide (col r "id" = VText id) then set_cols t [("run_at", ENow)] r else r) <$> rows.

Lemma where_id now id r : where_ now [CEq "id" (VText id)] r = bool_decide (col r "id" = VText id).
Proof. unfold where_. cbn. by rewrite andb_true_r. Qed.

Lemma extend_rows now id rows :
  (λ r, if where_ now [CEq "id" (VText id)] r
        then set_cols now [("run_at", ENowPlus (q_extendInterval q))] r else r) <$> rows =
  leased id (now + q_extendInterval q) rows.
Proof. apply list_fmap_ext. intros _ r _. 
  rewrite where_id. destruct (bool_decide _); [|done].
  apply list_fmap_ext. intros _ [c v] _. cbn. by case_decide.
Qed.

Lemma queue_rows w : table_ok queue_def (tabs w) (jobs_of w).
Proof. destruct (table_rows (tabs w) (tableName q) queue_def (tabs_ok w) Hsch) as [_ H]. exact H. Qed.

Lemma queue_shape w r c : r ∈ jobs_of w → c ∈ col_name <$> columns queue_def → c ∈ r.*1.
Proof. intros Hr Hc. by rewrite (rows_shape _ _ _ (queue_rows w) r Hr). Qed.

Lemma leased_twice id t t' w rows :
  rows = jobs_of w → leased id t' (leased id t rows) = leased id t' rows.
Proof.
  intros ->. unfold leased. rewrite <- list_fmap_compose. apply list_fmap_ext. intros i r Hr.
  apply list_elem_of_lookup_2 in Hr. cbn [compose]. unfold compose.
  assert ("id" ∈ r.*1) as Hid by (apply (queue_shape w); [done|cbn; set_solver]).
  destruct (decide (col r "id" = VText id)) as [Hd|Hd].
  - rewrite !(bool_decide_true (col r "id" = VText id)) by done.
    rewrite col_set_cols by done. cbn [assoc].
    rewrite decide_False, bool_decide_true by done.
    unfold set_cols. rewrite <- list_fmap_compose. apply list_fmap_ext. intros _ [c v] _.
    cbn. by case_decide.
  - by rewrite !(bool_decide_false (col r "id" = VText id)) by done.
Qed.

(** ** Picking up *)

Lemma plain_null_time r c : plain (scan_null_time r c).
Proof. unfold scan_null_time. apply plain_bind; [apply plain_time_ptr|done]. Qed.
Lemma plain_null_text r c : plain (scan_null_text r c).
Proof. unfold scan_null_text. destruct (col r c); try done; apply plain_text. Qed.

Lemma rowIntoJob_plain r : plain (rowIntoJob r).
Proof.
  unfold rowIntoJob. 
  repeat (apply plain_bind; [first [apply plain_text|apply plain_time|apply plain_bytes
    |apply plain_int|apply plain_null_time|apply plain_null_text]|intros ?]).
  done.
Qed.

Lemma rowIntoJob_key r j :
  rowIntoJob (project job_cols r) = Ok j →
  col r "id" = VText (job_ID j) ∧ col r "kind" = VText (job_Kind j) ∧
  col r "status" = VText (job_Status j).
Proof.
  unfold rowIntoJob. intros H.
  repeat match type of H with
  | mbind _ _ = Ok _ => let a := fresh "a" in let Ha := fresh "Ha" in
      apply res_bind_ok_inv in H as (a & Ha & H)
  end.
  injection H as <-. cbn.
  repeat match goal with Ha : scan_text _ _ = Ok _ |- _ => apply scan_text_Ok in Ha as [Ha _] end.
  rewrite !col_project in * by (cbn; set_solver). done.
Qed.

(** A row is ready: it is pending, of one of the kinds and due. *)
Definition ready (now : Time) (kinds : list string) (r : row) : Prop :=
  (∃ k, k ∈ kinds ∧ col r "kind" = VText k) ∧
  col r "status" = VText job_StatusPending ∧
  ∃ t, col r "run_at" = VTime t ∧ t < now.

Lemma ready_spec now kinds r : where_ now (ready_conds kinds) r = true → ready now kinds r.
Proof.
  unfold where_, ready_conds. cbn. rewrite andb_true_r, !andb_true_iff, !bool_decide_eq_true.
  intros (Hk & Hs & Ht). split_and!; [|done|].
  - apply list_elem_of_fmap in Hk as (k & -> & Hk). eauto.
  - destruct (col r "run_at") as [| | | |t|] eqn:Hc; try done. exists t. split; [done|]. lia.
Qed.

Lemma ready_where now kinds r : ready now kinds r → where_ now (ready_conds kinds) r = true.
Proof.
  intros ((k & Hk & Hc) & Hs & t & Ht & Hlt). unfold where_, ready_conds. cbn.
  rewrite Hs, Ht, Hc. rewrite !bool_decide_true; [|done|by apply list_elem_of_fmap_2].
  cbn. rewrite andb_true_r. by apply Z.ltb_lt.
Qed.

(** The job that is fetched in a transaction is ready at its start. *)
Lemma fetch_ready kinds w j w' :
  fetchReadyJob q RTx kinds w = (Ok j, w') →
  now_of RTx w' = now_of RTx w ∧ tabs w' = tabs w ∧
  ∃ r, r ∈ jobs_of w ∧ ready (now_of RTx w) kinds r ∧ rowIntoJob (project job_cols r) = Ok j.
Proof.
  unfold fetchReadyJob. intros H. apply bind_ok_inv in H as (rows & w1 & Hx & H).
  rewrite run_bind, run_lift in H. destruct (first_row rows) as [o|e|s] eqn:Ho; [|discriminate..].
  rewrite run_lift in H. injection H as Hj <-.
  match type of Hx with exec _ _ ?stm _ = _ =>
    pose proof (exec_clock RTx stm w) as [Hclk _] end.
  rewrite Hx in Hclk. cbn [snd] in Hclk.
  destruct (exec_meaning _ _ _ _ _ Hx) as (_ & Ht & Hsem & _).
  specialize (Hsem (or_introl eq_refl)). specialize (Ht eq_refl). split_and!; [done..|].
  inversion Hsem as [| |? ? ? ? ? rows0 rows' HT Hsub Hlim| | | | |]; subst.
  destruct rows' as [|r rows']; cbn in Ho; [done|]. injection Ho as <-. exists r.
  assert (r ∈ select_rows (now_of RTx w) (ready_conds kinds) rows0) as Hin.
  { eapply elem_of_submseteq; [|by apply sublist_submseteq]. set_solver. }
  apply list_elem_of_filter in Hin as [Hw Hin].
  split_and!; [unfold jobs_of, rows_of; by rewrite HT|by apply ready_spec|done].
Qed.

Lemma fetch_triple kinds :
  triple (fetchReadyJob q RTx kinds) (λ T out T', T' = T ∧
    match out with
    | Ok j => ∃ now r, r ∈ rows_of T (tableName q) ∧ ready now kinds r ∧
        rowIntoJob (project job_cols r) = Ok j
    | Err _ => True
    | Panic _ => False
    end).
Proof.
  unfold fetchReadyJob. eapply triple_bind;
    [apply exec_triple
    |intros rows; eapply (triple_bind _ _ (λ T out T', T' = T ∧ out = first_row rows)
       (λ a T out T', T' = T ∧ out = rowIntoJob a) (λ T out T', T' = T ∧ out = first_row rows ≫= rowIntoJob));
     [by apply triple_lift|intros a; by apply triple_lift|..]
    |naive_solver|naive_solver|].
  - intros T e T' [-> He]. by rewrite <- He.
  - intros T s T' [-> He]. by rewrite <- He.
  - intros T a T1 out T2 _ _ _ [-> Ha] [-> ->]. by rewrite <- Ha.
  - intros T rows T1 out T2 _ _ _ [now Hsem] [-> ->].
    inversion Hsem as [| |? ? ? ? ? rows0 rows' HT Hsub Hlim| | | | |]; subst.
    split; [done|]. destruct rows' as [|r rows']; cbn; [done|].
    pose proof (rowIntoJob_plain (project job_cols r)) as Hp.
    destruct (rowIntoJob (project job_cols r)) as [j|e|s] eqn:Hj; [|done..].
    exists now, r. unfold rows_of. rewrite HT. cbn.
    assert (r ∈ select_rows now (ready_conds kinds) rows0) as Hin.
    { eapply elem_of_submseteq; [|by apply sublist_submseteq]. set_solver. }
    apply list_elem_of_filter in Hin as [Hw Hin]. split_and!; [done|by apply ready_spec|done].
Qed.

Lemma extend_triple id :
  triple (extendJob q RTx id) (λ T out T',
    match out with
    | Ok _ => ∃ t, rows_of T' (tableName q) =
        leased id (t + q_extendInterval q) (rows_of T (tableName q))
    | Err _ => True
    | Panic _ => False
    end).
Proof.
  unfold extendJob. eapply (triple_bind _ _ _ (λ a T out T', T' = T ∧ out = Ok tt));
    [apply queue_update_triple|intros _; by apply triple_ret|done|done|].
  intros T a T1 out T2 _ _ _ [now H] [-> ->]. exists now. by rewrite H, extend_rows.
Qed.

(** Extending within a transaction is to the interval after its start. *)
Lemma extend_tx id w w' :
  extendJob q RTx id w = (Ok tt, w') →
  jobs_of w' = leased id (now_of RTx w + q_extendInterval q) (jobs_of w).
Proof.
  unfold extendJob. intros H. apply bind_ok_inv in H as (rows & w1 & Hx & [= <-]).
  destruct (exec_meaning _ _ _ _ _ Hx) as (_ & _ & Hsem & _).
  specialize (Hsem (or_introl eq_refl)).
  inversion Hsem as [| | | | |? ? ? ? rows0 rows1 HT Hr Hok HE| |]; subst.
  match goal with Hw : _ = tabs w1 |- _ => unfold jobs_of, rows_of; rewrite <- Hw end.
  rewrite lookup_insert_eq, HT. cbn [default]. apply extend_rows.
Qed.

Lemma pickup_triple kinds :
  triple (j ← fetchReadyJob q RTx kinds; _ ← extendJob q RTx (job_ID j); mret j)
    (λ _ out _, is_panic out = false).
Proof.
  eapply (triple_bind _ _ _ (λ j T out T', is_panic out = false));
    [apply fetch_triple| |done|by intros ? ? ? [_ []]|done].
  intros j. eapply (triple_bind _ _ _ (λ a T out T', out = Ok j));
    [apply extend_triple|intros _; by apply triple_ret|done|by intros ? ? ? []|].
  by intros ? ? ? ? ? _ _ _ _ ->.
Qed.

(** When the transaction that picks up begins. *)
Definition pickup_time (w : W) : Time := now_of RTx (BeginTxx (q_db q) false w).2.

(** Picking up, as a whole. *)
Lemma pickup_run kinds w out w' :
  pickupJob q kinds w = (out, w') →
  match out with
  | Ok j => ∃ r, r ∈ jobs_of w ∧ ready (pickup_time w) kinds r ∧
      rowIntoJob (project job_cols r) = Ok j ∧
      jobs_of w' = leased (job_ID j) (pickup_time w + q_extendInterval q) (jobs_of w)
  | Err _ => jobs_of w' = jobs_of w
  | Panic _ => False
  end.
Proof.
  intros H. pose proof (transaction_spec false _ _ w out w' (pickup_triple kinds) H) as Ht.
  destruct out as [j|e|s]; [clear Ht| |done].
  2:{ destruct Ht as [Ht _]. unfold jobs_of. by rewrite Ht. }
  unfold pickupJob, withTx in H. apply bind_ok_inv in H as ([] & w1 & Hb & H).
  unfold pickup_time. rewrite Hb. cbn [snd]. apply begin_Ok in Hb as [_ Ht1].
  match type of H with match ?m w1 with _ => _ end = _ => destruct (m w1) as [[j1|e|s] w2] eqn:Hm end;
    [|discriminate..].
  apply bind_ok_inv in H as ([] & w3 & Hc & H). injection H as -> <-.
  apply commit_Ok in Hc as [_ Ht3].
  apply bind_ok_inv in Hm as (j2 & w4 & Hf & Hm). apply bind_ok_inv in Hm as ([] & w5 & Hx & Hm).
  injection Hm as -> ->.
  destruct (fetch_ready _ _ _ _ Hf) as (Hn4 & Ht4 & r & Hr & Hrd & Hj).
  apply extend_tx in Hx. unfold jobs_of in *. rewrite Ht1 in Hr. exists r.
  split_and!; [done..|]. by rewrite Ht3, Hx, Hn4, Ht4, Ht1.
Qed.

Lemma pickup_clock kinds w j w' :
  pickupJob q kinds w = (Ok j, w') →
  let w1 := (BeginTxx (q_db q) false w).2 in
  now_of RDb w ≤ pickup_time w ∧ pickup_time w ≤ now_of RDb w1 ∧ now_of RDb w1 ≤ now_of RDb w'.
Proof.
  intros H. refine (transaction_clock false _ _ _ _ _ H).
  unfold fetchReadyJob, extendJob. effects_tac.
Qed.

Lemma pickup_saved kinds w out w' :
  saved w = None → pickupJob q kinds w = (out, w') → saved w' = None.
Proof.
  intros Hs H. unfold pickupJob, withTx in H. rewrite run_bind in H.
  destruct (BeginTxx (q_db q) false w) as [[[]|e|s] w1] eqn:Hb.
  - match type of H with match ?m w1 with _ => _ end = _ => destruct (m w1) as [[j|e|s] w2] eqn:Hm end.
    + rewrite run_bind in H. destruct (Commit (q_db q) w2) as [[[]|e|s] w3] eqn:Hc.
      * injection H as _ <-. by apply commit_Ok in Hc as [? _].
      * injection H as _ <-. by apply commit_Err in Hc as [? _].
      * pose proof (commit_no_panic w2) as Hp. by rewrite Hc in Hp.
    + injection H as _ <-. apply rollback_spec.
    + destruct (pickup_triple kinds _ _ _ Hm) as [_ [=]].
  - injection H as _ <-. apply begin_Err in Hb as (Hs' & _). congruence.
  - pose proof (begin_no_panic false w) as Hp. by rewrite Hb in Hp.
Qed.

(** ** Heartbeat and result *)

(** The end of the lease after heartbeats: each moves it to the extension
    interval after its own time, the first that fails is the last. *)
Fixpoint lease_after (id : string) (evs : list beat) (w : W) (t : Time) : Time :=
  match evs with
  | BeatTick :: evs =>
      match extendJob q RDb id w with
      | (Ok _, w1) => lease_after id evs w1 (now_of RDb w + q_extendInterval q)
      | _ => t
      end
  | _ => t
  end.

Lemma extend_run id w out w' :
  saved w = None → extendJob q RDb id w = (out, w') →
  saved w' = None ∧
  match out with
  | Ok _ => jobs_of w' = leased id (now_of RDb w + q_extendInterval q) (jobs_of w)
  | Err _ => jobs_of w' = jobs_of w
  | Panic _ => False
  end.
Proof.
  intros Hs H. unfold extendJob in H. rewrite run_bind in H.
  destruct (exec (q_db q) RDb _ w) as [[rows|e|s] w1] eqn:Hx.
  - injection H as <- <-. apply update_RDb in Hx as [Hs' Hx]; [|done].
    split; [done|]. by rewrite Hx, extend_rows.
  - injection H as <- <-. by apply exec_RDb_Err in Hx.
  - match type of Hx with exec _ ?r ?s0 _ = _ => pose proof (exec_no_panic r s0 w) as Hp end.
    by rewrite Hx in Hp.
Qed.

Lemma heartbeat_run id evs w out w' w0 t :
  saved w = None → jobs_of w = leased id t (jobs_of w0) →
  pgq_runHeartbeat q id evs w = (out, w') →
  saved w' = None ∧ jobs_of w' = leased id (lease_after id evs w t) (jobs_of w0) ∧
  ∃ b, out = Ok b.
Proof.
  revert w t. induction evs as [|[] evs IH]; intros w t Hs Hw H; cbn [lease_after].
  - injection H as <- <-. split_and!; [done..|eauto].
  - injection H as <- <-. split_and!; [done..|eauto].
  - cbn [pgq_runHeartbeat] in H. rewrite run_bind in H. unfold attempt in H.
    destruct (extendJob q RDb id w) as [[[]|e|s] w1] eqn:Hx;
      destruct (extend_run _ _ _ _ Hs Hx) as (Hs1 & Hh); [| |done].
    + apply (IH w1); [done| |done]. rewrite Hh, Hw. by eapply leased_twice.
    + injection H as <- <-. split_and!; [done|congruence|eauto].
Qed.

Definition saved_row (now : Time) (job : Job) (r : row) : row :=
  if bool_decide (col r "id" = VText (job_ID job)) &&
     bool_decide (col r "status" = VText job_StatusPending)
  then set_cols now (result_sets job) r else r.

Lemma save_run job w out w' :
  saved w = None → saveJobResult q job w = (out, w') →
  saved w' = None ∧
  match out with
  | Ok _ => ∃ now, jobs_of w' = saved_row now job <$> jobs_of w
  | Err _ => jobs_of w' = jobs_of w
  | Panic _ => False
  end.
Proof.
  intros Hs H. unfold saveJobResult in H. rewrite run_bind in H.
  destruct (exec (q_db q) RDb _ w) as [[rows|e|s] w1] eqn:Hx.
  - injection H as <- <-. apply update_RDb in Hx as [Hs' Hx]; [|done].
    split; [done|]. eexists. rewrite Hx. apply list_fmap_ext. intros _ r _.
    unfold saved_row, where_. cbn [forallb eval_cond]. by rewrite andb_true_r.
  - injection H as <- <-. by apply exec_RDb_Err in Hx.
  - match type of Hx with exec _ ?r ?s0 _ = _ => pose proof (exec_no_panic r s0 w) as Hp end.
    by rewrite Hx in Hp.
Qed.

(** A function given to [Dequeue] that leaves the queue alone and does not
    change the id of its job. *)
Definition minds_its_job (fn : DequeueFn W) : Prop :=
  ∀ ctx j w out w', fn ctx j w = (out, w') →
    saved w' = saved w ∧ jobs_of w' = jobs_of w ∧
    ∀ j', out = Ok j' → job_ID j' = job_ID j.

(** The steps of [Dequeue]; [t] is the end of the lease when the function runs. *)
Lemma dequeue_run evs ctx kinds fn w out w' :
  saved w = None → minds_its_job fn → pgq_Dequeue q evs ctx kinds fn w = (out, w') →
  (jobs_of w' = jobs_of w ∧ ∃ e, (pickupJob q kinds w).1 = Err e ∧
     out = if errors_Is e ErrNoRows then Ok tt else Err e) ∨
  ∃ r j c w1 fout w2,
    let t := lease_after (job_ID j) evs (pickupJob q kinds w).2 (pickup_time w + q_extendInterval q) in
    r ∈ jobs_of w ∧ ready (pickup_time w) kinds r ∧ rowIntoJob (project job_cols r) = Ok j ∧
    jobs_of w1 = leased (job_ID j) t (jobs_of w) ∧ fn c j w1 = (fout, w2) ∧
    match fout, out with
    | Ok j', Ok _ => ∃ now', jobs_of w' =
        saved_row now' j' <$> leased (job_ID j) t (jobs_of w)
    | Ok _, o => is_panic o = false ∧ jobs_of w' = leased (job_ID j) t (jobs_of w)
    | fo, o => is_panic o = is_panic fo ∧ is_ok o = false ∧
        jobs_of w' = leased (job_ID j) t (jobs_of w)
    end.
Proof.
  intros Hs Hfn H. unfold pgq_Dequeue in H. rewrite run_bind in H. unfold attempt in H.
  destruct (pickupJob q kinds w) as [[j|e|s] w0] eqn:Hp;
    pose proof (pickup_run _ _ _ _ Hp) as Hrun; pose proof (pickup_saved _ _ _ _ Hs Hp) as Hs0.
  - destruct Hrun as (r & Hr & Hrd & Hj & Hl). right. rewrite run_bind in H.
    destruct (pgq_handleDequeued q evs j fn w0) as [fout w2] eqn:Hd.
    unfold pgq_handleDequeued in Hd. rewrite run_bind in Hd.
    destruct (pgq_runHeartbeat q (job_ID j) evs w0) as [hout w1] eqn:Hb.
    destruct (heartbeat_run _ _ _ _ _ _ _ Hs0 Hl Hb) as (Hs1 & Ht & b & ->).
    destruct (Hfn _ _ _ _ _ Hd) as (Hs2 & Hq & Hid).
    exists r, j, (if b then Some Canceled else None), w1, fout, w2. cbn [snd]. cbv zeta.
    split_and!; [done..|]. rewrite Ht in Hq. destruct fout as [j'|e|s].
    + destruct (save_run _ _ _ _ (eq_trans Hs2 Hs1) H) as [_ Hsv].
      destruct out as [[]|e|s]; [|by rewrite Hsv|done].
      destruct Hsv as [now' Hsv]. exists now'. by rewrite Hsv, Hq.
    + injection H as <- <-. done.
    + injection H as <- <-. done.
  - left. split; [by destruct (errors_Is e ErrNoRows); injection H as <- <-|].
    exists e. by destruct (errors_Is e ErrNoRows); injection H as <- <-.
  - done.
Qed.
End lemmas.

(** ** Properties *)

(** A named column of the queue. *)
Ltac queue_col := solve [refine (bool_decide_eq_true_1 _ _); reflexivity].

Section props.
Context {W : Type} (q : Queue W) (sch : schema_def).
Context {EN : Engine sch (q_db q)}.
Hypothesis Hsch : sch !! tableName q = Some queue_def.

#[local] Notation jobs := (jobs_of q sch).

(** The key of the queue. *)
Lemma same_id w r x id :
  r ∈ jobs w → x ∈ jobs w → col r "id" = VText id → col x "id" = VText id → x = r.
Proof.
  intros Hr Hx Hc1 Hc2. pose proof (queue_rows q sch Hsch w) as Hok.
  apply (unique_row _ _ _ "id" x r Hok); [cbn; set_solver|done|done|congruence].
Qed.

Lemma leased_row w r id t :
  r ∈ jobs w → col r "id" = VText id →
  leased id t (jobs w) = (λ x, if decide (x = r) then set_cols t [("run_at", ENow)] x else x) <$> jobs w.
Proof.
  intros Hr Hid. unfold leased. apply list_fmap_ext. intros i x Hx.
  apply list_elem_of_lookup_2 in Hx. case_decide as Hd; [subst x; by rewrite bool_decide_true|].
  rewrite bool_decide_false; [done|]. intros Hc. apply Hd. by eapply same_id.
Qed.

Lemma set_cols_col now sets w r c :
  r ∈ jobs w → c ∈ col_name <$> columns queue_def →
  col (set_cols now sets r) c =
  match assoc sets c with Some e => eval_expr now r e | None => col r c end.
Proof. intros Hr Hc. apply col_set_cols. by eapply (queue_shape q sch Hsch). Qed.

(** Picking up a job takes a pending, due job of one of the asked kinds,
    returns what its row says, and moves the run time of that row, and of no
    other, to the end of a lease; when it fails the queue is as before. *)
Theorem pickupJob_correct kinds w out w' :
  pickupJob q kinds w = (out, w') →
  match out with
  | Ok j => ∃ r, r ∈ jobs w ∧ ready (pickup_time q sch w) kinds r ∧
      rowIntoJob (project job_cols r) = Ok j ∧
      jobs w' = (λ x, if decide (x = r)
                      then set_cols (pickup_time q sch w + q_extendInterval q) [("run_at", ENow)] x
                      else x) <$> jobs w
  | Err _ => jobs w' = jobs w
  | Panic _ => False
  end.
Proof.
  intros H. pose proof (pickup_run q sch Hsch _ _ _ _ H) as Hp. destruct out as [j|e|s]; [|done..].
  destruct Hp as (r & Hr & Hrd & Hj & Hl). exists r. split_and!; [done..|].
  rewrite Hl. apply leased_row; [done|]. by destruct (rowIntoJob_key q sch Hsch _ _ Hj) as (? & _).
Qed.

(** C19. A dequeue that succeeds either found nothing, or ran the function on
    one job that was pending and due when its transaction began, and recorded
    the outcome in that job's row only: status, result and error of the returned
    job, one more attempt.  The run time is the end of the lease, the extension
    interval after the start of that transaction or after the last heartbeat
    that succeeded, whatever run time the function asked for.  The function is
    taken to leave the queue's table alone and to return the job under the id
    that it was given. *)
Theorem Dequeue_records_attempt evs ctx kinds fn w w' :
  saved w = None → minds_its_job q sch fn → pgq_Dequeue q evs ctx kinds fn w = (Ok tt, w') →
  (jobs w' = jobs w ∧ ∃ e, (pickupJob q kinds w).1 = Err e ∧ errors_Is e ErrNoRows = true) ∨
  ∃ r r' j j' c w1 w2,
    let picked := now_of RTx (BeginTxx (q_db q) false w).2 in
    let lease := lease_after q sch (job_ID j) evs (pickupJob q kinds w).2
                   (picked + q_extendInterval q) in
    r ∈ jobs w ∧ ready picked kinds r ∧ rowIntoJob (project job_cols r) = Ok j ∧
    jobs w1 = (λ x, if decide (x = r) then set_cols lease [("run_at", ENow)] x else x) <$> jobs w ∧
    fn c j w1 = (Ok j', w2) ∧
    jobs w' = (λ x, if decide (x = r) then r' else x) <$> jobs w ∧
    col r' "run_at" = VTime lease ∧
    col r' "status" = VText (job_Status j') ∧ col r' "result" = pgq_bytes (Result j') ∧
    col r' "last_error" = VText (job_LastError j') ∧
    col r' "last_attempt_at" = pgq_time (LastAttemptAt j') ∧
    (∀ n, col r "attempts_done" = VInt n → col r' "attempts_done" = VInt (n + 1)) ∧
    ∀ c, c ∈ ["id"; "kind"; "payload"; "created_at"] → col r' c = col r c.
Proof.
  intros Hs Hfn H. destruct (dequeue_run q sch Hsch _ _ _ _ _ _ _ Hs Hfn H)
    as [(? & e & ? & Ho)|(r & j & c & w1 & [j'|e|s] & w2 & Hr & Hrd & Hj & Hw1 & Hf & Hrows)];
    [left; split; [done|]; exists e; split; [done|]; by destruct (errors_Is e ErrNoRows)
    | |by destruct Hrows as (_ & ? & _)..].
  right. destruct Hrows as [now' Hrows].
  destruct (rowIntoJob_key q sch Hsch _ _ Hj) as (Hid & _ & _). destruct (Hfn _ _ _ _ _ Hf) as (_ & _ & Hjid).
  specialize (Hjid _ eq_refl). pose proof Hrd as (_ & Hst & _).
  set (t := lease_after _ _ _ _ _ _) in Hrows, Hw1. set (r1 := set_cols t [("run_at", ENow)] r).
  assert (∀ c, c ∈ col_name <$> columns queue_def → c ∈ r1.*1) as Hsh.
  { intros c' Hc'. unfold r1. rewrite set_cols_shape. by eapply (queue_shape q sch Hsch). }
  assert (∀ c, c ∈ col_name <$> columns queue_def → c ≠ "run_at" → col r1 c = col r c) as Hr1.
  { intros c' Hc' Hne. unfold r1. erewrite set_cols_col by done. cbn. by rewrite decide_False. }
  exists r, (set_cols now' (result_sets j') r1), j, j', c, w1, w2. cbv zeta.
  split_and!; [done|done|done| |done| | | | | | | |].
  - rewrite Hw1. by apply leased_row.
  - rewrite Hrows, (leased_row w r) by done. rewrite <- list_fmap_compose.
    apply list_fmap_ext. intros i x Hx. apply list_elem_of_lookup_2 in Hx.
    unfold compose, saved_row. case_decide as Hd.
    + subst x. fold r1. rewrite !Hr1 by (cbn; set_solver). by rewrite Hjid, Hid, Hst, !bool_decide_true.
    + rewrite (bool_decide_false (col x "id" = _)); [done|]. intros Hc. apply Hd.
      eapply (same_id w); [exact Hr|done|exact Hid|by rewrite <- Hjid].
  - rewrite col_set_cols by (apply Hsh; queue_col). cbn.
    unfold r1. by erewrite set_cols_col by (done || queue_col).
  - by rewrite col_set_cols by (apply Hsh; queue_col).
  - by rewrite col_set_cols by (apply Hsh; queue_col).
  - by rewrite col_set_cols by (apply Hsh; queue_col).
  - by rewrite col_set_cols by (apply Hsh; queue_col).
  - intros n Hn. rewrite col_set_cols by (apply Hsh; queue_col).
    change (assoc (result_sets j') "attempts_done") with (Some (EColPlus "attempts_done" 1)).
    cbn [eval_expr]. rewrite Hr1 by (done || queue_col). by rewrite Hn.
  - intros c' Hc'. rewrite col_set_cols by (apply Hsh; revert Hc'; cbn; set_solver).
    rewrite !elem_of_cons, elem_of_nil in Hc'.
    destruct Hc' as [->|[->|[->|[->|[]]]]]; cbn; by rewrite Hr1 by (done || queue_col).
Qed.

(** A job that is not pending any more is never touched again: whatever the
    outcome of a dequeue, its row is still there as it was. *)
Theorem settled_jobs_stay evs ctx kinds fn w out w' r :
  saved w = None → minds_its_job q sch fn → pgq_Dequeue q evs ctx kinds fn w = (out, w') →
  r ∈ jobs w → col r "status" ≠ VText job_StatusPending → r ∈ jobs w'.
Proof.
  intros Hs Hfn H Hr Hst. destruct (dequeue_run q sch Hsch _ _ _ _ _ _ _ Hs Hfn H)
    as [[-> _]|(r0 & j & c & w1 & fout & w2 & Hr0 & Hrd & Hj & _ & Hf & Hrows)]; [done|].
  set (t := lease_after _ _ _ _ _ _) in Hrows.
  destruct (rowIntoJob_key q sch Hsch _ _ Hj) as (Hid & _ & _).
  assert (r ∈ leased (job_ID j) t (jobs w)) as Hin.
  { rewrite (leased_row w r0) by done. apply list_elem_of_fmap. exists r. split; [|done].
    rewrite decide_False; [done|]. intros ->. by destruct Hrd as (_ & ? & _). }
  destruct fout as [j'|e|s], out as [[]|e'|s']; cbn in Hrows; try (by destruct_and?);
    try (destruct_and?; match goal with Hx : jobs w' = _ |- _ => by rewrite Hx end).
  destruct Hrows as [now' ->]. apply list_elem_of_fmap. exists r. split; [|done].
  unfold saved_row. by rewrite (bool_decide_false (col r "status" = _)), andb_false_r.
Qed.

(** Enqueueing inserts all the jobs, pending rows that have not been
    attempted, or none; ids are not reused, and a job whose id exists is
    reported as such by an error. *)
Theorem pgq_Enqueue_correct js w out w' :
  saved w = None → pgq_Enqueue q js w = (out, w') →
  match out with
  | Ok _ => ∃ now new, jobs w' = jobs w ++ new ∧
      Forall2 (λ j r, r = new_row queue_def now 0 enqueue_cols (enqueue_vals j) ∧
                      (∀ r', r' ∈ jobs w → col r' "id" ≠ VText (job_ID j))) js new
  | Err _ => jobs w' = jobs w
  | Panic _ => False
  end.
Proof.
  intros Hs H. unfold pgq_Enqueue, catch in H. destruct js as [|j js]; [by injection H as <- <-|].
  rewrite run_bind in H. remember (j :: js) as l eqn:Hl. clear Hl.
  destruct (exec (q_db q) RDb _ w) as [[rows|e|s] w1] eqn:Hx.
  - injection H as <- <-. destruct (exec_Ok _ _ _ _ _ Hx) as (_ & _ & Hsem & _).
    destruct Hsem as [now Hsem]; [by right|].
    inversion Hsem as [| | | |? ? ? ? td' ? rows0 new Htd HT Hnew Hok HE| | |]; subst.
    assert (td' = queue_def) as -> by congruence.
    assert (jobs w1 = rows0 ++ new) as Hj1.
    { match goal with Hw : _ = tabs w1 |- _ => unfold jobs_of, rows_of; rewrite <- Hw end.
      by rewrite lookup_insert_eq. }
    assert (jobs w = rows0) as Hj0 by (unfold jobs_of, rows_of; by rewrite HT).
    exists now, new. split; [congruence|]. rewrite Forall2_fmap_l in Hnew.
    assert (Forall2 (λ j r, r = new_row queue_def now 0 enqueue_cols (enqueue_vals j)) l new) as Hrows.
    { eapply Forall2_impl; [exact Hnew|]. cbn. intros j' r [id ->]. done. }
    apply Forall2_same_length_lookup_2; [by eapply Forall2_length|].
    intros i j' r Hj' Hr. pose proof (Forall2_lookup_lr _ _ _ _ _ _ Hrows Hj' Hr) as ->.
    split; [done|]. intros r' Hr' Hc.
    pose proof (rows_unique _ _ _ (queue_rows q sch Hsch w1) ["id"]
      ltac:(cbn; set_solver)) as Hnd.
    rewrite Hj1, fmap_app, NoDup_app in Hnd. destruct Hnd as (_ & Hnd & _).
    apply (Hnd [VText (job_ID j')]).
    + apply list_elem_of_fmap. exists r'. rewrite <- Hj0. split; [cbn; by rewrite Hc|done].
    + apply list_elem_of_fmap. eexists. split; [|by eapply list_elem_of_lookup_2]. done.
  - apply (exec_RDb_Err q sch) in Hx as [_ Hx]; [|done].
    unfold on_err in H. by injection H as <- <-.
  - match type of Hx with exec _ ?r ?s0 _ = _ => pose proof (exec_no_panic r s0 w) as Hp end.
    by rewrite Hx in Hp.
Qed.
End props.

(** A job that is enqueued and read back is the job it was, its times
    rounded to microseconds and not attempted yet. *)
Theorem enqueued_job_roundtrip job now id :
  rowIntoJob (project job_cols (new_row queue_def now id enqueue_cols (enqueue_vals job))) =
  Ok (mkJob (job_ID job) (job_Kind job) (round_us (RunAt job)) (Payload job) (job_Status job)
        (round_us (job_CreatedAt job)) (round_us (job_UpdatedAt job)) None 0 zero_time "").
Proof.
  destruct job as [jid k ra p st ca ua res at_ la le]. by destruct p.
Qed.

(** ** Witnesses *)

Section witnesses.
Definition demo_queue : Queue demo_db :=
  mkQueue _ (demo_conn (queue_schema "main") (1000 * Second)) "main" (queue_table "main")
    pgq_extendInterval pgq_refreshInterval.

#[local] Instance demo_queue_engine : Engine (queue_schema "main") (q_db demo_queue) :=
  demo_engine (queue_schema "main") (1000 * Second).

Definition demo_job : Job :=
  mkJob "job-1" "sync" (10 * Second) (Some "{}") job_StatusPending 0 0 None 0 zero_time "".

Definition demo_fn : DequeueFn demo_db := λ _ j,
  mret (mkJob (job_ID j) (job_Kind j) (2000 * Second) (Payload j) StatusDone (job_CreatedAt j)
          (job_UpdatedAt j) (Some "ok") 1 (1000 * Second) "").

Lemma demo_fn_minds : minds_its_job demo_queue (queue_schema "main") demo_fn.
Proof. intros ctx j w out w' [= <- <-]. split_and!; [done|done|]. by intros j' [= <-]. Qed.

Lemma demo_queue_schema : queue_schema "main" !! tableName demo_queue = Some queue_def.
Proof. apply lookup_singleton_eq. Qed.

Definition demo_queue_empty : demo_db := (empty_db (queue_schema "main"), None).
Definition demo_queued : demo_db := (pgq_Enqueue demo_queue [demo_job] demo_queue_empty).2.

Lemma demo_queued_saved : saved (Engine := demo_queue_engine) demo_queued = None.
Proof. vm_compute. reflexivity. Qed.

Lemma demo_empty_saved : saved (Engine := demo_queue_engine) demo_queue_empty = None.
Proof. vm_compute. reflexivity. Qed.

Lemma pickupJob_correct_witness :
  ∃ j w', pickupJob demo_queue ["sync"] demo_queued = (Ok j, w') ∧ job_ID j = "job-1" ∧
    ∃ r, r ∈ jobs_of demo_queue (queue_schema "main") demo_queued ∧ ready (1000 * Second) ["sync"] r.
Proof.
  destruct (ok_run (pickupJob demo_queue ["sync"] demo_queued)) as (j & w' & H);
    [vm_compute; reflexivity|]. exists j, w'. split; [exact H|]. split.
  - assert (match (pickupJob demo_queue ["sync"] demo_queued).1 with
            | Ok j => bool_decide (job_ID j = "job-1") | _ => false end = true) as Hid
      by (vm_compute; reflexivity).
    rewrite H in Hid. exact (bool_decide_eq_true_1 _ Hid).
  - destruct (pickupJob_correct demo_queue (queue_schema "main") demo_queue_schema ["sync"]
                demo_queued (Ok j) w' H) as (r & Hr & Hrd & _).
    exists r. exact (conj Hr Hrd).
Defined.

Lemma Dequeue_records_attempt_witness :
  ∃ w', pgq_Dequeue demo_queue [BeatTick] None ["sync"] demo_fn demo_queued = (Ok tt, w') ∧
    ∃ r r', r ∈ jobs_of demo_queue (queue_schema "main") demo_queued ∧
      col r' "run_at" = VTime (1000 * Second + 30 * Second) ∧ col r' "status" = VText StatusDone.
Proof.
  destruct (ok_run (pgq_Dequeue demo_queue [BeatTick] None ["sync"] demo_fn demo_queued))
    as ([] & w' & H); [vm_compute; reflexivity|]. exists w'. split; [exact H|].
  destruct (Dequeue_records_attempt demo_queue (queue_schema "main") demo_queue_schema
              [BeatTick] None ["sync"] demo_fn demo_queued w' demo_queued_saved demo_fn_minds H)
    as [[Hn _]|(r & r' & j & j' & c & w1 & w2 & Hr & _ & Hj & _ & Hf & _ & Hl & Hst & _)].
  { assert (bool_decide (jobs_of demo_queue (queue_schema "main")
      (pgq_Dequeue demo_queue [BeatTick] None ["sync"] demo_fn demo_queued).2 =
      jobs_of demo_queue (queue_schema "main") demo_queued) = false) as Hd
      by (vm_compute; reflexivity).
    rewrite H in Hd. apply bool_decide_eq_false_1 in Hd. destruct (Hd Hn). }
  assert (forallb (λ r, match rowIntoJob (project job_cols r) with
    | Ok j => bool_decide (lease_after demo_queue (queue_schema "main") (job_ID j) [BeatTick]
        (pickupJob demo_queue ["sync"] demo_queued).2
        (now_of RTx (BeginTxx (q_db demo_queue) false demo_queued).2 + q_extendInterval demo_queue) =
        1000 * Second + 30 * Second)
    | _ => true
    end) (jobs_of demo_queue (queue_schema "main") demo_queued) = true) as Hall
    by (vm_compute; reflexivity).
  apply (forallb_elem _ _ r) in Hall; [|exact Hr]. cbv beta in Hall. rewrite Hj in Hall.
  apply bool_decide_eq_true in Hall. rewrite Hall in Hl.
  exists r, r'. split_and!; [exact Hr|exact Hl|]. rewrite Hst. by injection Hf as <- _.
Defined.

(** The queue after the job is done. *)
Definition demo_done : demo_db :=
  (pgq_Dequeue demo_queue [] None ["sync"] demo_fn demo_queued).2.

Lemma settled_jobs_stay_witness :
  ∃ r, r ∈ jobs_of demo_queue (queue_schema "main") demo_done ∧
    col r "status" = VText StatusDone ∧
    r ∈ jobs_of demo_queue (queue_schema "main")
          (pgq_Dequeue demo_queue [] None ["sync"] demo_fn demo_done).2.
Proof.
  assert (∃ r, jobs_of demo_queue (queue_schema "main") demo_done !! 0%nat = Some r ∧
            col r "status" = VText StatusDone) as (r & Hr & Hst)
    by (eexists; split; vm_compute; reflexivity).
  apply list_elem_of_lookup_2 in Hr. exists r. split_and!; [exact Hr|exact Hst|].
  destruct (pgq_Dequeue demo_queue [] None ["sync"] demo_fn demo_done) as [out w'] eqn:H.
  apply (settled_jobs_stay demo_queue (queue_schema "main") demo_queue_schema [] None ["sync"]
           demo_fn demo_done out w' r); [vm_compute; reflexivity|exact demo_fn_minds|exact H
    |exact Hr|rewrite Hst; discriminate].
Defined.

Lemma pgq_Enqueue_correct_witness :
  ∃ w' new, pgq_Enqueue demo_queue [demo_job] demo_queue_empty = (Ok tt, w') ∧
    jobs_of demo_queue (queue_schema "main") w' =
      jobs_of demo_queue (queue_schema "main") demo_queue_empty ++ new.
Proof.
  destruct (ok_run (pgq_Enqueue demo_queue [demo_job] demo_queue_empty)) as ([] & w' & H);
    [vm_compute; reflexivity|].
  destruct (pgq_Enqueue_correct demo_queue (queue_schema "main") demo_queue_schema [demo_job]
              demo_queue_empty (Ok tt) w' demo_empty_saved H) as (now & new & Hn & _).
  exists w', new. exact (conj H Hn).
Defined.
End witnesses.
