(* ===== verification/Lease.v ===== *)
(** * Lease: workers that share the database

    [pickupJob] of [pkg/worker/pgq] and [fetchResourceForSync] of the Postgres
    store pick a due row and push its due time forward, so that for the time of
    the lease no other worker picks it.  Here several workers run these
    procedures on one table, interleaved statement by statement, with
    PostgreSQL's row locks: FOR UPDATE locks the rows of a select until its
    transaction ends, SKIP LOCKED leaves out rows that others have locked, an
    update waits for the lock, and [current_timestamp] is the start of the
    transaction.  A select that runs on the pool is a transaction of its own.

    A heartbeat and the writing of a result update the row by its key,
    whoever holds it by then, and so they do here.  Leases are exclusive in the
    runs whose heartbeats are timely, which take effect while the worker's lease
    still runs (both packages refresh every 20 of 30 seconds), and only there. *)

From stdpp Require Import relations functions.
From S2P Require Import Prelude GoLib Errors Worker Sql SqlLogic Postgres PostgresFacts SyncOne PostgresProps Pgq PgqProps SqlDemo.

#[local] Open Scope Z_scope.

(** ** The protocol *)

(** The conditions of the select, the runner it is given, the key and the due
    column of the update, the length of the lease, and the columns that the
    result of the work is written to. *)
Record protocol := mkProtocol {
  pr_conds : list cond;
  pr_select : runner;
  pr_key : string;
  pr_due : string;
  pr_ext : Duration;
  pr_written : list string;
}.

(** The columns of [saveJobResult] and of the store's [Update]. *)
Definition job_written : list string :=
  ["updated_at"; "status"; "result"; "attempts_done"; "last_error"; "last_attempt_at"].
Definition resource_written : list string :=
  ["updated_at"; "updated_by"; "spec_configs"; "state_status"; "state_output";
   "state_module_data"; "state_next_sync"; "state_sync_result"].

Definition pgq_protocol {W} (q : Queue W) (kinds : list string) : protocol :=
  mkProtocol (ready_conds kinds) RTx "id" "run_at" (q_extendInterval q) job_written.

Definition sync_protocol {MR : MapRange} {W} (st : pg_store W)
    (scope : gmap string (list string)) : protocol :=
  mkProtocol (CLeNow "state_next_sync" :: scope_conds scope) RDb "urn" "state_next_sync"
    (extendInterval st) resource_written.

(** Where a worker is.  [t0] is the start of its transaction. *)
Inductive phase :=
  | Idle
  | InTx (t0 : Time)
  | Selected (t0 : Time) (k : string)
  | Extended (t0 : Time) (k : string)
  | Running (k : string) (lease : Time).

(** The committed rows, the row locks of open transactions, the clock, and the
    workers. *)
Record cluster := mkCluster {
  cl_rows : list row;
  cl_locks : gmap string nat;
  cl_now : Time;
  cl_phase : nat → phase;
}.

Definition init (rows : list row) (now : Time) : cluster := mkCluster rows ∅ now (λ _, Idle).

Section steps.
Variable p : protocol.

Definition at_key (k : string) (f : row → row) (rows : list row) : list row :=
  (λ r, if bool_decide (col r (pr_key p) = VText k) then f r else r) <$> rows.

(** UPDATE t SET due = current_timestamp + ext WHERE key = k *)
Definition extend_at (t0 : Time) (k : string) : list row → list row :=
  at_key k (set_cols t0 [(pr_due p, ENowPlus (pr_ext p))]).

(** A select of the transaction sees its start, one of the pool the present. *)
Definition select_time (t0 now : Time) : Time :=
  match pr_select p with RTx => t0 | RDb => now end.

(** What an observer of the workers wants to know of a step. *)
Inductive event :=
  | EvBeat (i : nat) (k : string)
  | EvOther.

Inductive step : event → cluster → cluster → Prop :=
  | st_tick rows L now ph d : 0 ≤ d →
      step EvOther (mkCluster rows L now ph) (mkCluster rows L (now + d) ph)
  | st_insert rows L now ph r k :
      col r (pr_key p) = VText k → pr_key p ∈ r.*1 → pr_due p ∈ r.*1 →
      (∀ r', r' ∈ rows → col r' (pr_key p) ≠ VText k) →
      step EvOther (mkCluster rows L now ph) (mkCluster (rows ++ [r]) L now ph)
  | st_begin rows L now ph i : ph i = Idle →
      step EvOther (mkCluster rows L now ph) (mkCluster rows L now (<[i := InTx now]> ph))
  | st_select rows L now ph i t0 r k : ph i = InTx t0 →
      r ∈ rows → where_ (select_time t0 now) (pr_conds p) r = true →
      col r (pr_key p) = VText k → L !! k = None →
      step EvOther (mkCluster rows L now ph)
        (mkCluster rows (match pr_select p with RTx => <[k := i]> L | RDb => L end) now
           (<[i := Selected t0 k]> ph))
  (** nothing is ready, or an error: the transaction is rolled back *)
  | st_none rows L now ph i t0 : ph i = InTx t0 →
      step EvOther (mkCluster rows L now ph) (mkCluster rows L now (<[i := Idle]> ph))
  | st_extend rows L now ph i t0 k : ph i = Selected t0 k →
      (L !! k = None ∨ L !! k = Some i) →
      step EvOther (mkCluster rows L now ph)
        (mkCluster rows (<[k := i]> L) now (<[i := Extended t0 k]> ph))
  | st_commit rows L now ph i t0 k : ph i = Extended t0 k →
      step EvOther (mkCluster rows L now ph)
        (mkCluster (extend_at t0 k rows) (delete k L) now
           (<[i := Running k (t0 + pr_ext p)]> ph))
  | st_rollback rows L now ph i t0 k : ph i = Selected t0 k ∨ ph i = Extended t0 k →
      step EvOther (mkCluster rows L now ph)
        (mkCluster rows (if decide (L !! k = Some i) then delete k L else L) now
           (<[i := Idle]> ph))
  (** the update of a heartbeat that was sent at [t0] *)
  | st_beat rows L now ph i k t t0 : ph i = Running k t → t0 ≤ now → L !! k = None →
      step (EvBeat i k) (mkCluster rows L now ph)
        (mkCluster (extend_at t0 k rows) L now (<[i := Running k (t0 + pr_ext p)]> ph))
  (** the result of the work is written to the row *)
  | st_finish rows L now ph i k t f : ph i = Running k t → L !! k = None →
      (∀ r, (f r).*1 = r.*1 ∧ ∀ c, c ∉ pr_written p → col (f r) c = col r c) →
      step EvOther (mkCluster rows L now ph)
        (mkCluster (at_key k f rows) L now (<[i := Idle]> ph))
  (** the work failed, nothing is written *)
  | st_abandon rows L now ph i k t : ph i = Running k t →
      step EvOther (mkCluster rows L now ph) (mkCluster rows L now (<[i := Idle]> ph)).

(** A worker that works on [k] under a lease that has not run out. *)
Definition working (s : cluster) (i : nat) (k : string) : Prop :=
  ∃ t, cl_phase s i = Running k t ∧ cl_now s < t.

(** A heartbeat is timely when it takes effect while its worker's lease runs. *)
Definition timely (s : cluster) (e : event) : Prop :=
  match e with EvBeat i k => working s i k | EvOther => True end.

(** Runs of any steps, and of timely ones. *)
Definition any_step (s s' : cluster) : Prop := ∃ e, step e s s'.
Definition timely_step (s s' : cluster) : Prop := ∃ e, step e s s' ∧ timely s e.

(** ** The invariant of a select inside the transaction *)

Definition started (ph : phase) (now : Time) : Prop :=
  match ph with
  | InTx t0 | Selected t0 _ | Extended t0 _ => t0 ≤ now
  | _ => True
  end.

Definition holds (ph : phase) (k : string) : Prop :=
  match ph with Selected _ k' | Extended _ k' => k' = k | _ => False end.

Definition concerns (ph : phase) (k : string) : Prop :=
  match ph with Selected _ k' | Extended _ k' | Running k' _ => k' = k | _ => False end.

Record inv (s : cluster) : Prop := {
  inv_shape : ∀ r, r ∈ cl_rows s → pr_key p ∈ r.*1 ∧ pr_due p ∈ r.*1;
  inv_present : ∀ i k, concerns (cl_phase s i) k →
    ∃ r, r ∈ cl_rows s ∧ col r (pr_key p) = VText k;
  inv_started : ∀ i, started (cl_phase s i) (cl_now s);
  inv_lock : ∀ i k, holds (cl_phase s i) k → cl_locks s !! k = Some i;
  inv_lapsed : ∀ i j k t, cl_locks s !! k = Some i → cl_phase s j = Running k t → t ≤ cl_now s;
  inv_live : ∀ i k t r, cl_phase s i = Running k t → cl_now s < t → r ∈ cl_rows s →
    col r (pr_key p) = VText k → ∃ t', col r (pr_due p) = VTime t' ∧ t ≤ t';
  inv_excl : ∀ i j k, working s i k → working s j k → i = j;
}.

(** ** Preservation *)

Lemma elem_at_key k f rows r :
  r ∈ at_key k f rows →
  ∃ r0, r0 ∈ rows ∧ ((col r0 (pr_key p) = VText k ∧ r = f r0) ∨
                      (col r0 (pr_key p) ≠ VText k ∧ r = r0)).
Proof.
  unfold at_key. intros (r0 & -> & Hr0)%list_elem_of_fmap. exists r0. split; [done|].
  case_bool_decide; auto.
Qed.

Lemma at_key_elem k f rows r :
  r ∈ rows → (if bool_decide (col r (pr_key p) = VText k) then f r else r) ∈ at_key k f rows.
Proof. intros Hr. apply list_elem_of_fmap. eauto. Qed.

(** An update of the rows of a key that keeps their shape and key. *)
Definition keeps_key (f : row → row) (rows : list row) : Prop :=
  ∀ r, r ∈ rows → (f r).*1 = r.*1 ∧ col (f r) (pr_key p) = col r (pr_key p).

Lemma at_key_shape k f rows :
  keeps_key f rows → (∀ r, r ∈ rows → pr_key p ∈ r.*1 ∧ pr_due p ∈ r.*1) →
  ∀ r, r ∈ at_key k f rows → pr_key p ∈ r.*1 ∧ pr_due p ∈ r.*1.
Proof.
  intros Hf Hs r (r0 & Hr0 & [[_ ->]|[_ ->]])%elem_at_key; [|by apply Hs].
  destruct (Hf r0 Hr0) as [-> _]. by apply Hs.
Qed.

Lemma at_key_present k f rows k' :
  keeps_key f rows → (∃ r, r ∈ rows ∧ col r (pr_key p) = VText k') →
  ∃ r, r ∈ at_key k f rows ∧ col r (pr_key p) = VText k'.
Proof.
  intros Hf (r & Hr & Hk). eexists. split; [by apply at_key_elem|].
  case_bool_decide; [|done]. by destruct (Hf r Hr) as [_ ->].
Qed.

Lemma at_key_other k f rows r k' :
  keeps_key f rows → r ∈ at_key k f rows → col r (pr_key p) = VText k' → k' ≠ k → r ∈ rows.
Proof.
  intros Hf (r0 & Hr0 & [[Hk ->]|[_ ->]])%elem_at_key; [|done].
  destruct (Hf r0 Hr0) as [_ ->]. congruence.
Qed.

Hypothesis Hne : pr_key p ≠ pr_due p.

Lemma extend_keeps rows t0 :
  (∀ r, r ∈ rows → pr_key p ∈ r.*1 ∧ pr_due p ∈ r.*1) →
  keeps_key (set_cols t0 [(pr_due p, ENowPlus (pr_ext p))]) rows.
Proof.
  intros Hs r Hr. destruct (Hs r Hr) as [Hk Hd]. split; [apply set_cols_shape|].
  rewrite col_set_cols by done. cbn. by rewrite decide_False.
Qed.

Lemma extend_due rows t0 k r :
  (∀ r, r ∈ rows → pr_key p ∈ r.*1 ∧ pr_due p ∈ r.*1) →
  r ∈ extend_at t0 k rows → col r (pr_key p) = VText k →
  col r (pr_due p) = VTime (t0 + pr_ext p).
Proof.
  intros Hs (r0 & Hr0 & [[Hk ->]|[Hk ->]])%elem_at_key Hr; [|done].
  destruct (Hs r0 Hr0) as [_ Hd]. rewrite col_set_cols by done. cbn. by rewrite decide_True.
Qed.

(** Splits the phase of a worker after one worker moved. *)
Ltac phase_cases :=
  repeat match goal with
  | H : context [<[?i := ?v]> ?ph ?j] |- _ =>
      destruct (decide (i = j)) as [<-|];
        [rewrite (fn_lookup_insert ph i v) in H|rewrite fn_lookup_insert_ne in H by done]
  | |- context [<[?i := ?v]> ?ph ?j] =>
      destruct (decide (i = j)) as [<-|];
        [rewrite (fn_lookup_insert ph i v)|rewrite fn_lookup_insert_ne by done]
  end.

Lemma inv_init rows now :
  (∀ r, r ∈ rows → pr_key p ∈ r.*1 ∧ pr_due p ∈ r.*1) → inv (init rows now).
Proof. intros Hs. split; cbn; try done. by intros i j k (t & Ht & _). Qed.

(** A worker that moves to a phase without a lock, rows and locks untouched. *)
Lemma inv_quiet rows L now ph i v :
  (∀ k, ¬ concerns v k) → started v now →
  inv (mkCluster rows L now ph) → inv (mkCluster rows L now (<[i := v]> ph)).
Proof.
  intros Hv Hst [I1 I2 I3 I4 I5 I6 I7]. cbn in *. split; cbn.
  - done.
  - intros j k Hc. phase_cases; [by destruct (Hv k)|eauto].
  - intros j. phase_cases; [done|apply I3].
  - intros j k Hh. phase_cases; [destruct (Hv k); by destruct v|eauto].
  - intros j j' k t HL Hp. phase_cases; [destruct (Hv k); by rewrite Hp|eauto].
  - intros j k t r Hp. phase_cases; [destruct (Hv k); by rewrite Hp|eauto].
  - intros j j' k (t & Hp & Ht) (t' & Hp' & Ht'). cbn in *.
    phase_cases; try (destruct (Hv k); by rewrite ?Hp, ?Hp').
    apply (I7 j j' k); [by exists t|by exists t'].
Qed.

(** The clock only makes leases run out. *)
Lemma inv_tick rows L now ph d :
  0 ≤ d → inv (mkCluster rows L now ph) → inv (mkCluster rows L (now + d) ph).
Proof.
  intros Hd [I1 I2 I3 I4 I5 I6 I7]. cbn in *. split; cbn; [done|done| |done| | |].
  - intros i. specialize (I3 i). destruct (ph i); cbn in *; lia.
  - intros i j k t HL Hp. specialize (I5 i j k t HL Hp). lia.
  - intros i k t r Hp Ht. apply I6 with (i := i); [done|lia].
  - intros i j k (t & Hp & Ht) (t' & Hp' & Ht'). cbn in *.
    apply (I7 i j k); [exists t|exists t']; (split; [done|]); cbn; lia.
Qed.

Lemma inv_insert rows L now ph r k :
  col r (pr_key p) = VText k → pr_key p ∈ r.*1 → pr_due p ∈ r.*1 →
  (∀ r', r' ∈ rows → col r' (pr_key p) ≠ VText k) →
  inv (mkCluster rows L now ph) → inv (mkCluster (rows ++ [r]) L now ph).
Proof.
  intros Hk Hs1 Hs2 Hfresh [I1 I2 I3 I4 I5 I6 I7]. cbn in *. split; cbn; [| |done..| |done].
  - intros r' [Hr| ->%list_elem_of_singleton]%elem_of_app; [by apply I1|done].
  - intros i k' Hc. destruct (I2 i k' Hc) as (r' & Hr' & ?). exists r'. split; [|done].
    apply elem_of_app. by left.
  - intros i k' t r' Hp Ht [Hr| ->%list_elem_of_singleton]%elem_of_app Hk'; [by eapply I6|].
    assert (k' = k) as -> by congruence. destruct (I2 i k) as (r0 & Hr0 & Hk0); [by rewrite Hp|].
    by destruct (Hfresh r0).
Qed.

(** ** Selects inside the transaction *)

Hypothesis Hsel : pr_select p = RTx.
Hypothesis Hdue : ∀ now r, where_ now (pr_conds p) r = true →
  ∃ t, col r (pr_due p) = VTime t ∧ t ≤ now.

Lemma inv_select rows L now ph i t0 r k :
  ph i = InTx t0 → r ∈ rows → where_ t0 (pr_conds p) r = true →
  col r (pr_key p) = VText k → L !! k = None →
  inv (mkCluster rows L now ph) →
  inv (mkCluster rows (<[k := i]> L) now (<[i := Selected t0 k]> ph)).
Proof.
  intros Hi Hr Hw Hk HL [I1 I2 I3 I4 I5 I6 I7]. cbn in *. split; cbn; [done|..].
  - intros j k' Hc. phase_cases; [cbn in Hc; subst; eauto|eauto].
  - intros j. phase_cases; [|apply I3]. specialize (I3 i). by rewrite Hi in I3.
  - intros j k' Hh. phase_cases; [cbn in Hh; subst; apply lookup_insert_eq|].
    rewrite lookup_insert_ne; [eauto|]. intros <-. specialize (I4 _ _ Hh). congruence.
  - intros j j' k' t HL' Hp. phase_cases; [done|].
    destruct (decide (k' = k)) as [->|]; [|rewrite lookup_insert_ne in HL' by done; eauto].
    destruct (Z.le_gt_cases t now) as [|Hlive]; [done|exfalso].
    destruct (I6 _ _ _ _ Hp Hlive Hr Hk) as (t' & Hd & Hle).
    destruct (Hdue _ _ Hw) as (t1 & Hd1 & Hle1).
    specialize (I3 i). rewrite Hi in I3. cbn in I3. rewrite Hd in Hd1.
    injection Hd1 as <-. lia.
  - intros j k' t r' Hp. phase_cases; [done|eauto].
  - intros j j' k' (t & Hp & Ht) (t' & Hp' & Ht'). cbn in *. phase_cases; try done.
    apply (I7 j j' k'); [by exists t|by exists t'].
Qed.

Lemma inv_extend rows L now ph i t0 k :
  ph i = Selected t0 k → inv (mkCluster rows L now ph) →
  inv (mkCluster rows (<[k := i]> L) now (<[i := Extended t0 k]> ph)).
Proof.
  intros Hi [I1 I2 I3 I4 I5 I6 I7]. cbn in *.
  assert (L !! k = Some i) as HL by (apply I4; by rewrite Hi).
  rewrite insert_id by done. split; cbn; [done|..].
  - intros j k' Hc. phase_cases; [|eauto]. apply (I2 i). by rewrite Hi.
  - intros j. phase_cases; [|apply I3]. specialize (I3 i). by rewrite Hi in I3.
  - intros j k' Hh. phase_cases; [by cbn in Hh; subst|eauto].
  - intros j j' k' t HL' Hp. phase_cases; [done|eauto].
  - intros j k' t r' Hp. phase_cases; [done|eauto].
  - intros j j' k' (t & Hp & Ht) (t' & Hp' & Ht'). cbn in *. phase_cases; try done.
    apply (I7 j j' k'); [by exists t|by exists t'].
Qed.

Lemma inv_commit rows L now ph i t0 k :
  ph i = Extended t0 k → inv (mkCluster rows L now ph) →
  inv (mkCluster (extend_at t0 k rows) (delete k L) now (<[i := Running k (t0 + pr_ext p)]> ph)).
Proof.
  intros Hi [I1 I2 I3 I4 I5 I6 I7]. cbn in *.
  assert (L !! k = Some i) as HL by (apply I4; by rewrite Hi).
  pose proof (extend_keeps rows t0 I1) as Hf. split; cbn.
  - by apply at_key_shape.
  - intros j k' Hc. phase_cases; [|apply at_key_present; eauto].
    apply at_key_present; [done|]. apply (I2 i). by rewrite Hi.
  - intros j. phase_cases; [done|apply I3].
  - intros j k' Hh. phase_cases; [done|]. rewrite lookup_delete_ne; [eauto|].
    intros <-. specialize (I4 _ _ Hh). congruence.
  - intros j j' k' t HL' Hp. apply lookup_delete_Some in HL' as [Hkk HL'].
    phase_cases; [cbn in Hp; congruence|eauto].
  - intros j k' t r Hp Ht Hr Hk. phase_cases.
    + injection Hp as <- <-. exists (t0 + pr_ext p). split; [by eapply extend_due|done].
    + destruct (decide (k' = k)) as [->|].
      * specialize (I5 _ _ _ _ HL Hp). lia.
      * eapply I6; [done|done| |done]. by eapply at_key_other.
  - intros j j' k' (t & Hp & Ht) (t' & Hp' & Ht'). cbn in *. phase_cases; [done|..].
    + injection Hp' as -> _. specialize (I5 _ _ _ _ HL Hp). lia.
    + injection Hp as -> _. specialize (I5 _ _ _ _ HL Hp'). lia.
    + apply (I7 j j' k'); [by exists t|by exists t'].
Qed.

Lemma inv_rollback rows L now ph i t0 k :
  ph i = Selected t0 k ∨ ph i = Extended t0 k → inv (mkCluster rows L now ph) →
  inv (mkCluster rows (if decide (L !! k = Some i) then delete k L else L) now
         (<[i := Idle]> ph)).
Proof.
  intros Hi HI. pose proof HI as [I1 I2 I3 I4 I5 I6 I7]. cbn in *.
  assert (L !! k = Some i) as HL by (apply I4; destruct Hi as [Hi|Hi]; by rewrite Hi).
  rewrite decide_True by done.
  apply (inv_quiet rows L now ph i Idle) in HI; [|by intros ? []|done].
  destruct HI as [J1 J2 J3 J4 J5 J6 J7]. cbn in *. split; cbn; [done|done|done| | |done|done].
  - intros j k' Hh. rewrite lookup_delete_ne; [by apply J4|]. intros <-.
    phase_cases; [done|]. specialize (I4 _ _ Hh). congruence.
  - intros j j' k' t HL' Hp. apply lookup_delete_Some in HL' as [Hkk HL']. eauto.
Qed.

Lemma inv_beat rows L now ph i k t t0 :
  ph i = Running k t → now < t → L !! k = None → inv (mkCluster rows L now ph) →
  inv (mkCluster (extend_at t0 k rows) L now (<[i := Running k (t0 + pr_ext p)]> ph)).
Proof.
  intros Hi Ht HL [I1 I2 I3 I4 I5 I6 I7]. cbn in *.
  pose proof (extend_keeps rows t0 I1) as Hf. split; cbn.
  - by apply at_key_shape.
  - intros j k' Hc. phase_cases; [|apply at_key_present; eauto].
    apply at_key_present; [done|]. apply (I2 i). by rewrite Hi.
  - intros j. phase_cases; [done|apply I3].
  - intros j k' Hh. phase_cases; [done|eauto].
  - intros j j' k' t' HL' Hp. phase_cases; [|eauto]. injection Hp as -> _. congruence.
  - intros j k' t' r Hp Ht' Hr Hk. phase_cases.
    + injection Hp as <- <-. exists (t0 + pr_ext p). split; [by eapply extend_due|done].
    + destruct (decide (k' = k)) as [->|].
      * assert (i = j); [|done]. apply (I7 i j k); [by exists t|by exists t'].
      * eapply I6; [done|done| |done]. by eapply at_key_other.
  - intros j j' k' (t1 & Hp & Ht1) (t2 & Hp' & Ht2). cbn in *. phase_cases; [done|..].
    + injection Hp' as -> _. apply (I7 j i k'); [by exists t1|by exists t].
    + injection Hp as -> _. apply (I7 i j' k'); [by exists t|by exists t2].
    + apply (I7 j j' k'); [by exists t1|by exists t2].
Qed.

Hypothesis Hkey : pr_key p ∉ pr_written p.
Hypothesis Hfree : pr_due p ∉ pr_written p.

Lemma inv_finish rows L now ph i k t f :
  ph i = Running k t →
  (∀ r, (f r).*1 = r.*1 ∧ ∀ c, c ∉ pr_written p → col (f r) c = col r c) →
  inv (mkCluster rows L now ph) → inv (mkCluster (at_key k f rows) L now (<[i := Idle]> ph)).
Proof.
  intros Hi Hff HI. pose proof HI as [I1 I2 I3 I4 I5 I6 I7]. cbn in *.
  assert (keeps_key f rows) as Hf by (intros r _; destruct (Hff r) as (? & Hc); auto).
  apply (inv_quiet rows L now ph i Idle) in HI; [|by intros ? []|done].
  destruct HI as [J1 J2 J3 J4 J5 J6 J7]. cbn in *. split; cbn; [| |done|done|done| |done].
  - by apply at_key_shape.
  - intros j k' Hc. apply at_key_present; eauto.
  - intros j k' t' r Hp Ht' Hr Hk. phase_cases; [done|].
    destruct (decide (k' = k)) as [->|]; [|eapply I6; [done|done|by eapply at_key_other|done]].
    apply elem_at_key in Hr as (r0 & Hr0 & [[Hk0 ->]|[Hk0 ->]]); [|done].
    destruct (Hff r0) as (_ & Hc). rewrite Hc by done. by eapply I6.
Qed.

Lemma inv_step s s' : timely_step s s' → inv s → inv s'.
Proof.
  intros (e & Hst & Hev) HI. destruct Hst; unfold select_time in *; rewrite ?Hsel in *;
    eauto using inv_tick, inv_insert, inv_select, inv_extend, inv_commit, inv_rollback, inv_finish.
  - apply inv_quiet; [by intros ? []| |done]. cbn. lia.
  - apply inv_quiet; [by intros ? []|done|done].
  - destruct Hev as (t' & Hp & Ht'). cbn in *. assert (t' = t) as -> by congruence.
    by eapply inv_beat.
  - apply inv_quiet; [by intros ? []|done|done].
Qed.

Lemma inv_reachable rows now s :
  (∀ r, r ∈ rows → pr_key p ∈ r.*1 ∧ pr_due p ∈ r.*1) →
  rtc timely_step (init rows now) s → inv s.
Proof.
  intros Hs Hr. assert (inv (init rows now)) as HI by by apply inv_init.
  induction Hr as [|s1 s2 s3 H12 _ IH]; [done|]. apply IH. by eapply inv_step.
Qed.
End steps.

(** ** Runs of one worker *)

(** One worker, [i], moves to the phase [v]; the others wait. *)
Definition runs_to (p : protocol) (s : cluster) (rows : list row) (now : Time) (i : nat) (v : phase) :
    Prop :=
  ∃ s', rtc (timely_step p) s s' ∧ cl_rows s' = rows ∧ cl_locks s' = cl_locks s ∧ cl_now s' = now ∧
    cl_phase s' i = v ∧ ∀ j, j ≠ i → cl_phase s' j = cl_phase s j.

Lemma timely_other p s s' : step p EvOther s s' → timely_step p s s'.
Proof. intros H. by exists EvOther. Qed.

Lemma any_timely p s s' : rtc (timely_step p) s s' → rtc (any_step p) s s'.
Proof. induction 1 as [|s1 s2 s3 (e & H & _) _ IH]; [done|]. eapply rtc_l; [by exists e|done]. Qed.

Lemma tick_to p rows L now now' ph :
  now ≤ now' → timely_step p (mkCluster rows L now ph) (mkCluster rows L now' ph).
Proof.
  intros Hle. replace now' with (now + (now' - now)) by lia. apply timely_other, st_tick. lia.
Qed.

(** A worker alone takes the row that its select finds: [t0] is the start of its
    transaction, [ts] the time of the select. *)
Lemma takes_alone p rows now t0 ts now' ph i r k :
  now ≤ t0 → t0 ≤ ts → ts ≤ now' → ph i = Idle → r ∈ rows →
  where_ (select_time p t0 ts) (pr_conds p) r = true → col r (pr_key p) = VText k →
  runs_to p (mkCluster rows ∅ now ph) (extend_at p t0 k rows) now' i (Running k (t0 + pr_ext p)).
Proof.
  intros H1 H2 H3 Hi Hr Hw Hk. eexists. split; [|split_and!].
  - eapply rtc_l; [by apply (tick_to p _ _ now t0)|].
    eapply rtc_l; [apply timely_other, (st_begin p _ _ t0 ph i Hi)|].
    eapply rtc_l; [by apply (tick_to p _ _ t0 ts)|].
    eapply rtc_l; [eapply timely_other, (st_select p _ _ ts _ i t0 r k);
      [apply (fn_lookup_insert ph i)|done..]|].
    eapply rtc_l; [eapply timely_other, (st_extend p _ _ ts _ i t0 k);
      [apply (fn_lookup_insert _ i)|destruct (pr_select p); [by left|right; apply lookup_insert_eq]]|].
    eapply rtc_l; [eapply timely_other, (st_commit p _ _ ts _ i t0 k);
      apply (fn_lookup_insert _ i)|].
    eapply rtc_l; [by apply (tick_to p _ _ ts now')|]. apply rtc_refl.
  - done.
  - cbn. rewrite delete_insert_eq. destruct (pr_select p); [|rewrite delete_insert_eq];
      apply delete_empty.
  - done.
  - cbn. apply (fn_lookup_insert _ i).
  - intros j Hj. cbn. by rewrite !fn_lookup_insert_ne.
Qed.

(** ** The job queue *)

Section queue.
Context {W : Type} (q : Queue W) (sch : schema_def) {EN : Engine sch (q_db q)}.
Hypothesis Hsch : sch !! tableName q = Some queue_def.
Variable kinds : list string.

#[local] Notation jobs := (jobs_of q sch).
#[local] Notation p := (pgq_protocol q kinds).

(** The queue's table as the workers see it between two calls. *)
Definition shared (ph : nat → phase) (w : W) : cluster :=
  mkCluster (jobs w) ∅ (now_of RDb w) ph.

Lemma leased_extend t0 id rows : leased id (t0 + q_extendInterval q) rows = extend_at p t0 id rows.
Proof.
  unfold leased, extend_at, at_key. apply list_fmap_ext. intros _ r _. cbn [pr_key pgq_protocol].
  case_bool_decide; [|done]. unfold set_cols. apply list_fmap_ext. intros _ [c v] _. cbn.
  by case_decide.
Qed.

Lemma queue_picks w ph i j w' :
  pickupJob q kinds w = (Ok j, w') → ph i = Idle →
  runs_to p (shared ph w) (jobs w') (now_of RDb w') i
    (Running (job_ID j) (pickup_time q sch w + q_extendInterval q)).
Proof using Hsch.
  intros H Hi. pose proof (pickup_run q sch Hsch _ _ _ _ H) as (r & Hr & Hw & Hj & ->).
  destruct (pickup_clock q sch _ _ _ _ H) as (H1 & H2 & H3).
  rewrite leased_extend. apply (takes_alone p _ _ (pickup_time q sch w) _ _ _ _ r _ H1 H2 H3 Hi Hr).
  - apply ready_where. exact Hw.
  - by destruct (rowIntoJob_key q sch Hsch _ _ Hj).
Qed.

Lemma queue_beats w ph i id t w' :
  saved w = None → extendJob q RDb id w = (Ok tt, w') → ph i = Running id t → now_of RDb w < t →
  runs_to p (shared ph w) (jobs w') (now_of RDb w') i
    (Running id (now_of RDb w + q_extendInterval q)).
Proof using Hsch.
  intros Hs H Hi Ht. pose proof (extend_run q sch _ _ _ _ Hs H) as [_ ->]. rewrite leased_extend.
  assert (effects later (extendJob q RDb id)) as Hl by (unfold extendJob; effects_tac).
  pose proof (effects_run _ _ _ _ _ Hl H) as Hle. eexists. split; [|split_and!].
  - eapply rtc_l; [exists (EvBeat i id); split; [by apply (st_beat p _ _ _ _ i id t (now_of RDb w))|]|].
    { by exists t. }
    eapply rtc_l; [apply (tick_to p _ _ _ (now_of RDb w')); exact Hle|]. apply rtc_refl.
  - done.
  - done.
  - done.
  - cbn. apply (fn_lookup_insert _ i).
  - intros j Hj. cbn. by rewrite fn_lookup_insert_ne.
Qed.

Lemma result_sets_written job : (result_sets job).*1 = job_written.
Proof. done. Qed.

Lemma queue_saves w ph i job t w' :
  saved w = None → saveJobResult q job w = (Ok tt, w') → ph i = Running (job_ID job) t →
  runs_to p (shared ph w) (jobs w') (now_of RDb w') i Idle.
Proof using Hsch.
  intros Hs H Hi. pose proof (save_run q sch _ _ _ _ Hs H) as [_ [now ->]].
  assert (effects later (saveJobResult q job)) as Hl by (unfold saveJobResult; effects_tac).
  pose proof (effects_run _ _ _ _ _ Hl H) as Hle. eexists. split; [|split_and!].
  - eapply rtc_l.
    { eapply timely_other, (st_finish p _ _ _ _ i (job_ID job) t
        (λ r, if bool_decide (col r "status" = VText job_StatusPending)
              then set_cols now (result_sets job) r else r)); [exact Hi|done|].
      intros r. case_bool_decide; [|done]. split; [apply set_cols_shape|]. intros c Hc.
      apply col_set_cols_other. by rewrite result_sets_written. }
    eapply rtc_l; [apply (tick_to p _ _ _ (now_of RDb w')); exact Hle|]. apply rtc_refl.
  - cbn. unfold at_key. apply list_fmap_ext. intros _ r _. unfold saved_row. cbn [pr_key pgq_protocol].
    by repeat case_bool_decide.
  - done.
  - done.
  - cbn. apply (fn_lookup_insert _ i).
  - intros j Hj. cbn. by rewrite fn_lookup_insert_ne.
Qed.

(** Rows of new keys are inserted one by one. *)
Lemma inserts_run new rows L now ph :
  (∀ r, r ∈ new → ∃ k, col r "id" = VText k ∧ "id" ∈ r.*1 ∧ "run_at" ∈ r.*1) →
  NoDup ((λ r : row, col r "id") <$> rows ++ new) →
  rtc (timely_step p) (mkCluster rows L now ph) (mkCluster (rows ++ new) L now ph).
Proof.
  revert rows. induction new as [|r new IH]; intros rows Hn Hnd; [by rewrite app_nil_r|].
  destruct (Hn r) as (k & Hk & H1 & H2); [left|].
  replace (rows ++ r :: new) with ((rows ++ [r]) ++ new) in * by (by rewrite <- app_assoc). eapply rtc_l; [|apply IH; [|done]].
  - eapply timely_other, (st_insert p _ _ _ _ r k); [done..|]. cbn. intros r' Hr' Hk'.
    rewrite !fmap_app, NoDup_app in Hnd. destruct Hnd as (Hnd & _).
    rewrite NoDup_app in Hnd. destruct Hnd as (_ & Hd & _). apply (Hd (VText k)).
    + rewrite <- Hk'. by apply (list_elem_of_fmap_2 (λ r : row, col r "id")).
    + rewrite <- Hk. left.
  - intros x Hx. apply Hn. by right.
Qed.

Lemma queue_inserts w ph i js w' :
  saved w = None → pgq_Enqueue q js w = (Ok tt, w') →
  runs_to p (shared ph w) (jobs w') (now_of RDb w') i (ph i).
Proof using Hsch.
  intros Hs H. pose proof (pgq_Enqueue_correct q sch Hsch _ _ _ _ Hs H) as (now & new & Hj & Hnew).
  assert (effects later (pgq_Enqueue q js)) as Hl
    by (unfold pgq_Enqueue; effects_tac).
  pose proof (effects_run _ _ _ _ _ Hl H) as Hle. exists (shared ph w').
  split; [|split_and!; [done..|by intros]]. eapply rtc_l.
  - apply (tick_to p _ _ _ (now_of RDb w')). exact Hle.
  - unfold shared. rewrite Hj. apply inserts_run.
    + intros r Hr. apply list_elem_of_lookup in Hr as [n Hr].
      destruct (Forall2_lookup_r _ _ _ _ _ Hnew Hr) as (j & _ & -> & _). exists (job_ID j).
      split_and!; [done|cbn; set_solver..].
    + rewrite <- Hj. pose proof (rows_unique _ _ _ (queue_rows q sch Hsch w') ["id"] ltac:(cbn; set_solver)) as Hnd.
      apply (NoDup_fmap_1 (λ v, [v])). by rewrite <- list_fmap_compose.
Qed.

(** A heartbeat that comes after its lease ran out takes the row from the worker
    that has it by then. *)
Lemma late_beat rows now r k :
  r ∈ rows → "id" ∈ r.*1 → "run_at" ∈ r.*1 → col r "id" = VText k → ready now kinds r →
  0 < q_extendInterval q →
  ∃ s, rtc (any_step p) (init rows now) s ∧ working s 0 k ∧ working s 1 k.
Proof.
  intros Hr Hid Hra Hk Hrd He. set (e := q_extendInterval q) in *. set (now2 := now + e + 1).
  destruct (takes_alone p rows now now now now (λ _, Idle) 0 r k)
    as ([rows1 L1 n1 ph1] & Hrun1 & Hr1 & HL1 & Hn1 & Hp1 & Ho1); [lia..|done|done|by apply ready_where|done|].
  cbn in Hr1, HL1, Hn1, Hp1, Ho1. subst rows1 L1 n1.
  set (r1 := set_cols now [("run_at", ENowPlus e)] r).
  assert (∀ c, c ≠ "run_at" → col r1 c = col r c) as Hc.
  { intros c Hc. apply col_set_cols_other. cbn. set_solver. }
  assert (r1 ∈ extend_at p now k rows) as Hin.
  { pose proof (at_key_elem p k (set_cols now [("run_at", ENowPlus e)]) rows r Hr) as H.
    by rewrite bool_decide_true in H. }
  assert (ready now2 kinds r1) as Hrd1.
  { destruct Hrd as ((k' & ? & ?) & ? & _). split_and!.
    - exists k'. by rewrite Hc.
    - by rewrite Hc.
    - exists (now + e). split; [|lia]. unfold r1. by rewrite col_set_cols. }
  destruct (takes_alone p (extend_at p now k rows) now now2 now2 now2 ph1 1 r1 k)
    as ([rows2 L2 n2 ph2] & Hrun2 & Hr2 & HL2 & Hn2 & Hp2 & Ho2);
    [lia..|by apply Ho1|done|by apply ready_where|by rewrite Hc|].
  cbn in Hr2, HL2, Hn2, Hp2, Ho2. subst rows2 L2 n2. eexists. split.
  - etrans; [apply any_timely, Hrun1|]. etrans; [apply any_timely, Hrun2|].
    apply rtc_once. exists (EvBeat 0 k). apply (st_beat p _ _ now2 ph2 0%nat k (now + e) now2);
      [|done|done]. by rewrite Ho2.
  - split; [exists (now2 + e); cbn; split; [apply (fn_lookup_insert _ 0%nat)|lia]|].
    exists (now2 + e). cbn. split; [by rewrite fn_lookup_insert_ne|lia].
Qed.

Lemma timely_exclusive rows now s i j k :
  (∀ r, r ∈ rows → "id" ∈ r.*1 ∧ "run_at" ∈ r.*1) →
  rtc (timely_step p) (init rows now) s → working s i k → working s j k → i = j.
Proof.
  intros Hs Hr. apply (inv_excl p).
  eapply (inv_reachable p); [done|done| |cbn; set_solver|cbn; set_solver|exact Hs|exact Hr].
  intros now' r. unfold where_. cbn. rewrite !andb_true_iff. intros (_ & _ & Hw & _).
  destruct (col r "run_at") as [| | | |t|]; try done. exists t. split; [done|]. lia.
Qed.

(** C3. Workers that take jobs from the queue never work on one job at a time,
    as long as their heartbeats are timely: in every interleaving, statement by
    statement, of their picking up, heartbeats, results and failures, and of new
    jobs, in which a heartbeat takes effect only while its worker's lease still
    runs, at most one worker holds a job under a lease that still runs.  The
    queue's own calls are such runs: picking up takes the job until the
    extension interval after the start of its transaction, a heartbeat moves the
    lease, a result ends the work and new jobs are rows of their own.  The
    condition is needed: since a heartbeat does not look whether the job is
    still its worker's, from any due job there is a run with a late heartbeat
    after which two workers hold the job. *)
Theorem queue_lease_exclusive :
  (∀ rows now s i j k, (∀ r, r ∈ rows → "id" ∈ r.*1 ∧ "run_at" ∈ r.*1) →
     rtc (timely_step p) (init rows now) s → working s i k → working s j k → i = j) ∧
  (∀ w ph i j w', pickupJob q kinds w = (Ok j, w') → ph i = Idle →
     runs_to p (shared ph w) (jobs w') (now_of RDb w') i
       (Running (job_ID j) (pickup_time q sch w + q_extendInterval q))) ∧
  (∀ w ph i id t w', saved w = None → extendJob q RDb id w = (Ok tt, w') →
     ph i = Running id t → now_of RDb w < t →
     runs_to p (shared ph w) (jobs w') (now_of RDb w') i
       (Running id (now_of RDb w + q_extendInterval q))) ∧
  (∀ w ph i job t w', saved w = None → saveJobResult q job w = (Ok tt, w') →
     ph i = Running (job_ID job) t → runs_to p (shared ph w) (jobs w') (now_of RDb w') i Idle) ∧
  (∀ w ph i js w', saved w = None → pgq_Enqueue q js w = (Ok tt, w') →
     runs_to p (shared ph w) (jobs w') (now_of RDb w') i (ph i)) ∧
  (∀ rows now r k, r ∈ rows → "id" ∈ r.*1 → "run_at" ∈ r.*1 → col r "id" = VText k →
     ready now kinds r → 0 < q_extendInterval q →
     ∃ s, rtc (any_step p) (init rows now) s ∧ working s 0 k ∧ working s 1 k).
Proof using Hsch.
  split_and!; eauto using timely_exclusive, queue_picks, queue_beats, queue_saves, queue_inserts, late_beat.
Qed.
End queue.

(** ** The syncers *)

(** C18. Syncers of the Postgres store can take the same resource at the same
    time: from any table with a due resource there is a run, without any
    heartbeat, after which two workers both hold it under a running lease.  The
    select runs on the pool, so its row lock is gone before the update of the
    transaction.  The run consists of the statements of the store: taking a
    resource is, when nothing comes between its statements, a run of the same
    steps. *)
Theorem sync_picks_twice {MR : MapRange} {SJ : SyncJSON} {BD : Binding} {W} (st : pg_store W)
    {EN : Engine schema_sql (db st)} scope :
  (∀ rows now r urn, r ∈ rows → col r "urn" = VText urn →
     where_ now (pr_conds (sync_protocol st scope)) r = true → 0 < extendInterval st →
     ∃ s, rtc (timely_step (sync_protocol st scope)) (init rows now) s ∧
       working s 0 urn ∧ working s 1 urn) ∧
  (∀ w ph i u w', fetchResourceForSync st scope w = (Ok u, w') → ph i = Idle →
     runs_to (sync_protocol st scope)
       (mkCluster (rows_of (tabs w) tableResources) ∅ (now_of RDb w) ph)
       (rows_of (tabs w') tableResources) (now_of RDb w') i
       (Running u (now_of RTx (tx_world st w) + extendInterval st))).
Proof.
  set (p := sync_protocol st scope). split.
  - intros rows now r urn Hr Hk Hw He. eexists. split.
    + eapply rtc_l; [apply timely_other, (st_begin p rows ∅ now _ 0); done|].
      eapply rtc_l; [apply timely_other, (st_begin p rows ∅ now _ 1); done|].
      eapply rtc_l; [apply timely_other, (st_select p rows ∅ now _ 0 now r urn); done|].
      eapply rtc_l; [apply timely_other, (st_select p rows ∅ now _ 1 now r urn); done|].
      eapply rtc_l; [apply timely_other, (st_extend p rows ∅ now _ 0 now urn); [done|by left]|].
      eapply rtc_l; [apply timely_other, (st_commit p rows _ now _ 0 now urn); done|].
      eapply rtc_l; [apply timely_other, (st_extend p _ _ now _ 1 now urn);
        [done|left; apply lookup_delete_eq]|].
      eapply rtc_l; [apply timely_other, (st_commit p _ _ now _ 1 now urn); done|].
      apply rtc_refl.
    + split; (exists (now + extendInterval st); split; [reflexivity|cbn; lia]).
  - intros w ph i u w' H Hi.
    pose proof (fetchResourceForSync_run st scope _ _ _ H) as (_ & r & [Hr Hu] & Hd & _ & ->).
    destruct (fetchResourceForSync_clock st scope _ _ _ H) as (H1 & H2 & H3).
    pose proof (takes_alone p _ _ _ _ _ _ _ r _ H1 H2 H3 Hi Hr Hd Hu) as Hrun.
    replace (extended _ _ _ <$> _) with (extend_at p (now_of RTx (tx_world st w)) u
      (rows_of (tabs w) tableResources)); [exact Hrun|].
    apply list_fmap_ext. intros _ x _. unfold extended. cbn. by rewrite andb_true_r.
Qed.

(** ** Witnesses *)

(** A worker picks the job of the demo queue up: this is a run of the protocol,
    and no other worker holds the job after it. *)
Lemma queue_lease_exclusive_witness :
  let p := pgq_protocol demo_queue ["sync"] in
  ∃ s, rtc (timely_step p) (init (jobs_of (EN := demo_queue_engine) demo_queue (queue_schema "main") demo_queued)
              (1000 * Second)) s ∧
    working s 0 "job-1" ∧ ∀ j, working s j "job-1" → j = 0%nat.
Proof.
  intros p.
  destruct (queue_lease_exclusive (EN := demo_queue_engine) demo_queue (queue_schema "main")
    demo_queue_schema ["sync"]) as (Hex & Hpick & _).
  destruct (ok_run (pickupJob demo_queue ["sync"] demo_queued)) as (j & w' & H);
    [vm_compute; reflexivity|].
  assert (job_ID j = "job-1") as Hid.
  { assert (match (pickupJob demo_queue ["sync"] demo_queued).1 with
            | Ok j => bool_decide (job_ID j = "job-1") | _ => false end = true) as Hb
      by (vm_compute; reflexivity).
    rewrite H in Hb. exact (bool_decide_eq_true_1 _ Hb). }
  destruct (Hpick demo_queued (λ _, Idle) 0%nat j w' H eq_refl)
    as (s & Hrun & _ & _ & Hnow & Hph & _).
  rewrite Hid in Hph.
  assert (working s 0 "job-1") as Hw.
  { eexists. split; [exact Hph|]. rewrite Hnow. vm_compute. reflexivity. }
  exists s. split; [exact Hrun|]. split; [exact Hw|]. intros i Hi.
  refine (Hex _ _ s i 0%nat "job-1" _ Hrun Hi Hw). intros r Hr.
  split; apply (queue_shape demo_queue (queue_schema "main") demo_queue_schema demo_queued r _ Hr);
    queue_col.
Defined.

Definition demo_sync_row : row := [("urn", VText "orn:a"); ("state_next_sync", VTime 0)].

Lemma sync_picks_twice_witness :
  let p := sync_protocol (MR := range_sorted) demo_pg ∅ in
  ∃ s, rtc (timely_step p) (init [demo_sync_row] 5) s ∧
    working s 0 "orn:a" ∧ working s 1 "orn:a".
Proof.
  intros p.
  destruct (sync_picks_twice (MR := range_sorted) (SJ := demo_json) (BD := demo_binding) demo_pg
    (EN := demo_engine schema_sql 0) ∅) as [Htwice _].
  apply (Htwice [demo_sync_row] 5 demo_sync_row "orn:a"); [left|reflexivity..].
Defined.
