(* ===== verification/Server.v ===== *)
(** * Server: [internal/server]

    Models the gRPC handlers of [v1/resources] and [v1/modules] with their
    mappers between messages and the domain types, [serverutils] and the HTTP
    middlewares.  Protobuf's own types and JSON codecs are a parameter
    ([ProtoJSON]); messages are records with the fields of the generated
    structs.  A message that was unmarshalled holds no nil element in a repeated
    field, so those are plain lists; a single message field is an [option].
    Logging, tracing and the transport are not modelled. *)

From stdpp Require Import pretty.
From Stdlib Require Import Ascii.
From S2P Require Import Prelude GoLib Errors Resource Module Service.

#[local] Open Scope Z_scope.

(** ** Parameters *)

(** [google.golang.org/protobuf]: JSON values, structs and timestamps.  A nil
    message is [None]. *)
Class ProtoJSON : Type := {
  Value : Type;
  Struct : Type;
  NullValue : Value;
  UnmarshalValue : string → go Value;
  MarshalValue : option Value → go string;
  GetStructValue : option Value → option Struct;
  MarshalStruct : option Struct → go string;
  Timestamp : Type;
  timestamp_New : Time → Timestamp;
  AsTime : option Timestamp → Time;
  (** documented: the timestamp of a time is that time *)
  AsTime_New : ∀ t, AsTime (Some (timestamp_New t)) = t;
}.

(** ** serverutils *)

(** [ToRPCError]; codes by their names. *)
Definition rpc_code (err : Error) : string :=
  if errors_Is (EErr err) (EErr ErrNotFound) then "NotFound"
  else if errors_Is (EErr err) (EErr ErrConflict) then "AlreadyExists"
  else if errors_Is (EErr err) (EErr ErrInvalid) then "InvalidArgument"
  else "Internal".

Definition ToRPCError (e : error) : error :=
  let err := E e in EStatus (rpc_code err) (Error_Error err).

Definition userIDHeader : string := "user-id".

(** gRPC metadata of a context, if there is any. *)
Abbreviation metadata := (option (gmap string (list string))) (only parsing).

Definition GetUserIdentifier (ctx : metadata) : go string :=
  match ctx with
  | None => Err (EStatus "DataLoss" "failed to get metadata")
  | Some md =>
      match default [] (md !! userIDHeader) with
      | [] => Err (EStatus "InvalidArgument" "missing 'user-id' header")
      | xrid :: _ =>
          let userID := TrimSpace xrid in
          if decide (userID = "") then Err (EStatus "InvalidArgument" "empty 'user-id' header")
          else Ok userID
      end
  end.

(** [header] is the value of the HTTP header, empty when it is not there. *)
Definition ExtractRequestMetadata (header : string) : metadata := Some {[ userIDHeader := [header] ]}.

(** A call of a handler whose errors become RPC errors. *)
Definition rpc {W A} (m : io W A) : io W A := catch m ToRPCError.

(** ** Messages *)

Section messages.
Context {PJ : ProtoJSON}.

Record pbDependency := mkPbDependency { pb_Key : string; pb_Value : string }.

Record pbSpec := mkPbSpec {
  pb_Configs : option Value;
  pb_Dependencies : list pbDependency;
}.

Record pbState := mkPbState {
  pb_Status : Z;
  pb_Output : option Value;
  pb_ModuleData : RawMessage;
  pb_LogOptions : option (gomap (list string));
  SyncRetries : Z;
  SyncLastError : string;
  pb_NextSyncAt : option Timestamp;
}.

Record pbResource := mkPbResource {
  pb_Urn : string;
  pb_Kind : string;
  pb_Name : string;
  pb_Project : string;
  pb_Labels : gomap string;
  pb_CreatedAt : option Timestamp;
  pb_UpdatedAt : option Timestamp;
  pb_Spec : option pbSpec;
  pb_State : option pbState;
  pb_CreatedBy : string;
  pb_UpdatedBy : string;
}.

Record pbRevision := mkPbRevision {
  pbr_Id : string;
  pbr_Urn : string;
  pbr_Reason : string;
  pbr_Labels : gomap string;
  pbr_CreatedAt : option Timestamp;
  pbr_CreatedBy : string;
  pbr_Spec : option pbSpec;
}.

Record pbModule := mkPbModule {
  pbm_Urn : string;
  pbm_Name : string;
  pbm_Project : string;
  pbm_Configs : option Value;
  pbm_CreatedAt : option Timestamp;
  pbm_UpdatedAt : option Timestamp;
}.

(** [ResourceState_Status_value] *)
Definition Status_value : gmap string Z :=
  list_to_map [(StatusUnspecified, 0); (StatusPending, 1); (StatusError, 2); (StatusDeleted, 3);
               (StatusCompleted, 4)].

(** [ResourceState_Status.String]; an unknown number is printed. *)
Definition Status_String (z : Z) : string :=
  match z with
  | 0 => StatusUnspecified
  | 1 => StatusPending
  | 2 => StatusError
  | 3 => StatusDeleted
  | 4 => StatusCompleted
  | _ => pretty z
  end.

Record CreateResourceRequest := mkCreateReq { crq_Resource : option pbResource; crq_DryRun : bool }.
Record UpdateResourceRequest := mkUpdateReq {
  urq_Urn : string; urq_NewSpec : option pbSpec; urq_Labels : gomap string; urq_DryRun : bool;
}.
Record ListResourcesRequest := mkListReq {
  lrq_Project : string; lrq_Kind : string; lrq_Labels : gomap string;
  lrq_WithSpecConfigs : bool; lrq_PageSize : Z; lrq_PageNum : Z;
}.
Record ListResourcesResponse := mkListResp { lrs_Resources : list pbResource; lrs_Count : Z }.
Record ApplyActionRequest := mkApplyReq {
  arq_Urn : string; arq_Action : string; arq_Params : option Value; arq_Labels : gomap string;
  arq_DryRun : bool;
}.

(** ** v1/resources/mappers.go *)

Section mappers.
Context {MR : MapRange}.

Definition json_ws : list (list ascii) := [[b 9]; [b 10]; [b 13]; [b 32]].

Definition json_null (s : string) : bool :=
  bool_decide (trim_both json_ws (chars s) = chars "null").

(** [json.Unmarshal(data, &conf)] with [conf] a [*structpb.Value]: a JSON null
    sets the pointer to nil, anything else goes to the message's own codec. *)
Definition unmarshal_ptr (data : string) : go (option Value) :=
  if json_null data then Ok None else v ← UnmarshalValue data; Ok (Some v).

Definition resourceStateToProto (state : State) : go pbState :=
  outputVal ← (if bool_decide (raw_len (Output state) = 0%nat) then Ok None
               else match UnmarshalValue (raw_bytes (Output state)) with
                    | Ok v => Ok (Some v)
                    | Err err => Err (EErr (WithCausef
                        (WithMsgf ErrInternal "failed to unmarshal output") (error_string err)))
                    | Panic s => Panic s
                    end);
  let protoStatus := default 0 (Status_value !! Status state) in
  Ok (mkPbState protoStatus outputVal (ModuleData state) None
        (wrap32 (Retries (st_SyncResult state))) (LastError (st_SyncResult state))
        (timestamp_New <$> NextSyncAt state)).

Definition resourceSpecToProto (spec : Spec) : go pbSpec :=
  conf ← (match Configs spec with
          | None => Ok (Some NullValue)
          | Some c =>
              match unmarshal_ptr c with
              | Ok v => Ok v
              | Err err => Err (EErr (WithCausef
                  (WithMsgf ErrInternal "json.Unmarshal failed for spec.configs")
                  (error_string err)))
              | Panic s => Panic s
              end
          end);
  Ok (mkPbSpec conf ((λ kv, mkPbDependency kv.1 kv.2) <$> range (gm (Dependencies spec)))).

Definition to_proto_failed (what : string) (err : error) : error :=
  EErr (WithCausef (WithMsgf ErrInternal (what +:+ " to protobuf failed")) (error_string err)).

Definition resourceToProto (res : Resource) : go pbResource :=
  protoState ← on_err (resourceStateToProto (res_State res)) (to_proto_failed "state");
  spec ← on_err (resourceSpecToProto (res_Spec res)) (to_proto_failed "spec");
  Ok (mkPbResource (URN res) (Kind res) (Name res) (Project res) (Labels res)
        (Some (timestamp_New (CreatedAt res))) (Some (timestamp_New (UpdatedAt res)))
        (Some spec) (Some protoState) (CreatedBy res) (UpdatedBy res)).

Fixpoint deps_loop (l : list pbDependency) (deps : gmap string string) : go (gmap string string) :=
  match l with
  | [] => Ok deps
  | dep :: l =>
      match deps !! pb_Key dep with
      | Some _ => Err (EErr (WithMsgf ErrInvalid
          ("dependency key '" +:+ pb_Key dep +:+ "' is set more than once")))
      | None => deps_loop l (<[pb_Key dep := pb_Value dep]> deps)
      end
  end.

Definition resourceSpecFromProto (spec : option pbSpec) : go Spec :=
  deps ← deps_loop (default [] (pb_Dependencies <$> spec)) ∅;
  match MarshalValue (spec ≫= pb_Configs) with
  | Err err => Err (EErr (WithCausef (WithMsgf ErrInvalid "configs is not valid JSON")
                            (error_string err)))
  | Panic s => Panic s
  | Ok confJSON => Ok (mkSpec (Some confJSON) (Some deps))
  end.

(** A nil resource is dereferenced. *)
Definition resourceFromProto (res : option pbResource) (includeState : bool) : go Resource :=
  match res with
  | None => Panic "nil pointer dereference"
  | Some res =>
      spec ← resourceSpecFromProto (pb_Spec res);
      st ← (if includeState then
              match MarshalStruct (GetStructValue (pb_State res ≫= pb_Output)) with
              | Err err => Err (EErr (WithCausef
                  (WithMsgf ErrInvalid "state.output is not valid json") (error_string err)))
              | Panic s => Panic s
              | Ok jsonData =>
                  Ok (mkState (Status_String (default 0 (pb_Status <$> pb_State res)))
                        (Some jsonData) (pb_State res ≫= pb_ModuleData) None SyncResult_zero)
              end
            else Ok State_zero);
      Ok (mkResource (pb_Urn res) (pb_Kind res) (pb_Name res) (pb_Project res) (pb_Labels res)
            (AsTime (pb_CreatedAt res)) (AsTime (pb_UpdatedAt res)) "" "" spec st)
  end.

Definition revisionToProto (revision : Revision) : go pbRevision :=
  spec ← resourceSpecToProto (rev_Spec revision);
  Ok (mkPbRevision (pretty (rev_ID revision)) (rev_URN revision) (Reason revision)
        (rev_Labels revision) (Some (timestamp_New (rev_CreatedAt revision)))
        (rev_CreatedBy revision) (Some spec)).

(** ** v1/modules/mappers.go *)

Definition moduleToProto (md : Module) : go pbModule :=
  conf ← (if bool_decide (raw_len (mod_Configs md) = 0%nat) then Ok None
          else unmarshal_ptr (raw_bytes (mod_Configs md)));
  Ok (mkPbModule (mod_URN md) (mod_Name md) (mod_Project md) conf
        (Some (timestamp_New (mod_CreatedAt md))) (Some (timestamp_New (mod_UpdatedAt md)))).

(** [confVal] is what [GetConfigs] returns, for a request or a module. *)
Definition getConfigsAsRawJSON (confVal : option Value) : go string :=
  let errInvalidJSON :=
    WithMsgf ErrInvalid "'configs' field must be specified and must be valid JSON" in
  match confVal with
  | None => Err (EErr errInvalidJSON)
  | Some v => on_err (MarshalValue (Some v))
                (λ err, EErr (WithCausef errInvalidJSON (error_string err)))
  end.

(** Getters of a nil message give zero values. *)
Definition moduleFromProto (res : option pbModule) : go Module :=
  confJSON ← getConfigsAsRawJSON (res ≫= pbm_Configs);
  Ok (mkModule (default "" (pbm_Urn <$> res)) (default "" (pbm_Name <$> res))
        (default "" (pbm_Project <$> res)) (Some confJSON)
        (AsTime (res ≫= pbm_CreatedAt)) (AsTime (res ≫= pbm_UpdatedAt))).
End mappers.
End messages.

(** ** v1/resources/server.go *)

(** The [ResourceService] interface; what a call reads of the context besides
    the deadline is the request metadata, which only the handlers read. *)
Record ResourceService (W : Type) := mkResourceService {
  rs_GetResource : string → io W Resource;
  rs_ListResources : Filter → bool → io W PagedResource;
  rs_CreateResource : Resource → list Options → io W Resource;
  rs_UpdateResource : string → UpdateRequest → list Options → io W Resource;
  rs_DeleteResource : string → io W ();
  rs_ApplyAction : string → ActionRequest → list Options → io W Resource;
  rs_GetLog : string → gomap string → io W LogStream;
  rs_GetRevisions : RevisionsSelector → io W (list Revision);
}.

Arguments rs_GetResource {W}.
Arguments rs_ListResources {W}.
Arguments rs_CreateResource {W}.
Arguments rs_UpdateResource {W}.
Arguments rs_DeleteResource {W}.
Arguments rs_ApplyAction {W}.
Arguments rs_GetLog {W}.
Arguments rs_GetRevisions {W}.

(** The resource service of Service.v as the server's service. *)
Definition core_service {MR : MapRange} {W} (svc : Service W) (depth : nat) : ResourceService W := {|
  rs_GetResource := GetResource svc depth;
  rs_ListResources := ListResources svc;
  rs_CreateResource := Service.CreateResource svc depth;
  rs_UpdateResource := Service.UpdateResource svc depth;
  rs_DeleteResource := Service.DeleteResource svc depth;
  rs_ApplyAction := Service.ApplyAction svc depth;
  rs_GetLog := Service.GetLog svc depth;
  rs_GetRevisions := Service.GetRevisions svc;
|}.

Definition set_users (user : string) (r : Resource) : Resource :=
  set_stamps (CreatedAt r) (UpdatedAt r) user user r.

Section resources_server.
Context {PJ : ProtoJSON} {MR : MapRange} {W : Type}.
Variable svc : ResourceService W.

Definition rpc_CreateResource (ctx : metadata) (request : CreateResourceRequest) :
    io W pbResource :=
  res ← rpc (lift (resourceFromProto (crq_Resource request) false));
  userIdentifier ← rpc (lift (GetUserIdentifier ctx));
  result ← rpc (rs_CreateResource svc (set_users userIdentifier res)
                  [WithDryRun (crq_DryRun request)]);
  rpc (lift (resourceToProto result)).

Definition rpc_UpdateResource (ctx : metadata) (request : UpdateResourceRequest) :
    io W pbResource :=
  newSpec ← rpc (lift (resourceSpecFromProto (urq_NewSpec request)));
  userIdentifier ← rpc (lift (GetUserIdentifier ctx));
  let updateRequest := mkUpdateRequest newSpec (urq_Labels request) userIdentifier in
  res ← rpc (rs_UpdateResource svc (urq_Urn request) updateRequest
               [WithDryRun (urq_DryRun request)]);
  rpc (lift (resourceToProto res)).

Definition rpc_GetResource (urn : string) : io W pbResource :=
  res ← rpc (rs_GetResource svc urn);
  rpc (lift (resourceToProto res)).

(** The loop that appends a mapped value per element, up to the first failure. *)
Definition map_proto {A B} (f : A → go B) (l : list A) : io W (list B) :=
  fold_each (λ acc x, y ← rpc (lift (f x)); mret (acc ++ [y])) [] l.

Definition rpc_ListResources (request : ListResourcesRequest) : io W ListResourcesResponse :=
  let filter := mkFilter (lrq_Kind request) (lrq_Project request) (lrq_Labels request)
                  (lrq_PageSize request) (lrq_PageNum request) in
  resources ← rpc (rs_ListResources svc filter (lrq_WithSpecConfigs request));
  responseResources ← map_proto resourceToProto (Resources resources);
  mret (mkListResp responseResources (wrap32 (Z.of_nat (length responseResources)))).

Definition rpc_DeleteResource (urn : string) : io W () := rpc (rs_DeleteResource svc urn).

(** An error of the params is returned as it is. *)
Definition rpc_ApplyAction (ctx : metadata) (request : ApplyActionRequest) : io W pbResource :=
  paramsJSON ← lift (MarshalStruct (GetStructValue (arq_Params request)));
  userIdentifier ← rpc (lift (GetUserIdentifier ctx));
  let action := mkActionRequest (arq_Action request) (Some paramsJSON) (arq_Labels request)
                  userIdentifier in
  updatedRes ← rpc (rs_ApplyAction svc (arq_Urn request) action [WithDryRun (arq_DryRun request)]);
  rpc (lift (resourceToProto updatedRes)).

(** The loop of [GetLog].  Its [select] takes the context's end after [cancel]
    chunks, if ever; [send] is [stream.Send]. *)
Fixpoint send_logs (send : LogChunk → io W ()) (cancel : option nat) (logStream : LogStream) :
    io W () :=
  match cancel, logStream with
  | Some 0%nat, _ => mret tt
  | _, [] => mret tt
  | _, chunk :: logStream =>
      _ ← rpc (send chunk);
      send_logs send (Nat.pred <$> cancel) logStream
  end.

Definition rpc_GetLog (send : LogChunk → io W ()) (cancel : option nat) (urn : string)
    (filter : gomap string) : io W () :=
  logStream ← rpc (rs_GetLog svc urn filter);
  send_logs send cancel logStream.

Definition rpc_GetResourceRevisions (urn : string) : io W (list pbRevision) :=
  revisions ← rpc (rs_GetRevisions svc (mkSelector urn));
  map_proto revisionToProto revisions.
End resources_server.

(** ** v1/modules/server.go *)

(** The [ModuleService] interface of this package. *)
Record ModulesAPI (W : Type) := mkModulesAPI {
  ma_GetModule : string → io W Module;
  ma_ListModules : string → io W (list Module);
  ma_CreateModule : Module → io W Module;
  ma_UpdateModule : string → RawMessage → io W Module;
  ma_DeleteModule : string → io W ();
}.

Arguments ma_GetModule {W}.
Arguments ma_ListModules {W}.
Arguments ma_CreateModule {W}.
Arguments ma_UpdateModule {W}.
Arguments ma_DeleteModule {W}.

Section modules_server.
Context {PJ : ProtoJSON} {W : Type}.
Variable svc : ModulesAPI W.

Definition rpc_ListModules (project : string) : io W (list pbModule) :=
  mods ← rpc (ma_ListModules svc project);
  map_proto moduleToProto mods.

Definition rpc_GetModule (urn : string) : io W pbModule :=
  md ← rpc (ma_GetModule svc urn);
  rpc (lift (moduleToProto md)).

Definition rpc_CreateModule (module : option pbModule) : io W pbModule :=
  md ← rpc (lift (moduleFromProto module));
  createdMod ← rpc (ma_CreateModule svc md);
  rpc (lift (moduleToProto createdMod)).

Definition rpc_UpdateModule (urn : string) (configs : option Value) : io W pbModule :=
  newConfigs ← rpc (lift (getConfigsAsRawJSON configs));
  updatedMod ← rpc (ma_UpdateModule svc urn (Some newConfigs));
  rpc (lift (moduleToProto updatedMod)).

Definition rpc_DeleteModule (urn : string) : io W () := rpc (ma_DeleteModule svc urn).
End modules_server.

(** ** middlewares.go *)

(** HTTP headers by canonical name. *)
Abbreviation http_header := (gmap string (list string)) (only parsing).

Definition headerRequestID : string := "X-Request-Id".

Definition header_Get (h : http_header) (k : string) : string :=
  match h !! k with Some (v :: _) => v | _ => "" end.

(** [requestID]: the request's headers and the response's after it; [xid] is the
    fresh id. *)
Definition requestID (xid : string) (req wr : http_header) : http_header * http_header :=
  let rid := TrimSpace (header_Get req headerRequestID) in
  let rid := if decide (rid = "") then xid else rid in
  (<[headerRequestID := [rid]]> req, <[headerRequestID := [rid]]> wr).

Definition is2xx (status : Z) : bool := (200 <=? status) && (status <? 299).

(** [wrappedWriter]: the last status written and the captured body beside the
    underlying writer's calls. *)
Record wrappedWriter := mkWrapped {
  wr_Status : Z;
  ResponseBuffer : option string;
  underlying : list (Z + string);
}.

Definition WriteHeader (statusCode : Z) (wr : wrappedWriter) : wrappedWriter :=
  mkWrapped statusCode (ResponseBuffer wr) (underlying wr ++ [inl statusCode]).

Definition Write (data : string) (wr : wrappedWriter) : wrappedWriter :=
  mkWrapped (wr_Status wr) ((λ buf, buf +:+ data) <$> ResponseBuffer wr)
    (underlying wr ++ [inr data]).

(** ** v1/resources/logwrapper.go *)

(** The handlers as the generated [ResourceServiceServer] interface. *)
Record ResourceServiceServer {PJ : ProtoJSON} (W : Type) := mkServer {
  srv_ListResources : ListResourcesRequest → io W ListResourcesResponse;
  srv_GetResource : string → io W pbResource;
  srv_CreateResource : metadata → CreateResourceRequest → io W pbResource;
  srv_UpdateResource : metadata → UpdateResourceRequest → io W pbResource;
  srv_DeleteResource : string → io W ();
  srv_ApplyAction : metadata → ApplyActionRequest → io W pbResource;
  srv_GetLog : (LogChunk → io W ()) → option nat → string → gomap string → io W ();
  srv_GetResourceRevisions : string → io W (list pbRevision);
}.

Arguments srv_ListResources {_ W}.
Arguments srv_GetResource {_ W}.
Arguments srv_CreateResource {_ W}.
Arguments srv_UpdateResource {_ W}.
Arguments srv_DeleteResource {_ W}.
Arguments srv_ApplyAction {_ W}.
Arguments srv_GetLog {_ W}.
Arguments srv_GetResourceRevisions {_ W}.

Section logwrapper.
Context {PJ : ProtoJSON} {MR : MapRange} {W : Type}.

(** [zap.L().Error(msg, zap.Error(err))] *)
Variable log_Error : string → error → W → W.

Definition logged {A} (msg : string) (m : io W A) : io W A := λ w,
  match m w with
  | (Err err, w) => (Err err, log_Error msg err w)
  | r => r
  end.

Definition LogWrapper (lw : ResourceServiceServer W) : ResourceServiceServer W := {|
  srv_ListResources request := logged "ListResources() failed" (srv_ListResources lw request);
  srv_GetResource request := logged "GetResource() failed" (srv_GetResource lw request);
  srv_CreateResource ctx request :=
    logged "CreateResource() failed" (srv_CreateResource lw ctx request);
  srv_UpdateResource ctx request :=
    logged "UpdateResource() failed" (srv_UpdateResource lw ctx request);
  srv_DeleteResource request := logged "DeleteResource() failed" (srv_DeleteResource lw request);
  srv_ApplyAction ctx request := logged "ApplyAction() failed" (srv_ApplyAction lw ctx request);
  srv_GetLog send cancel urn filter :=
    logged "GetLog() failed" (srv_GetLog lw send cancel urn filter);
  srv_GetResourceRevisions request :=
    logged "GetResourceRevisions() failed" (srv_GetResourceRevisions lw request);
|}.

(** [NewAPIServer] *)
Definition NewAPIServer (svc : ResourceService W) : ResourceServiceServer W := {|
  srv_ListResources := rpc_ListResources svc;
  srv_GetResource := rpc_GetResource svc;
  srv_CreateResource := rpc_CreateResource svc;
  srv_UpdateResource := rpc_UpdateResource svc;
  srv_DeleteResource := rpc_DeleteResource svc;
  srv_ApplyAction := rpc_ApplyAction svc;
  srv_GetLog := rpc_GetLog svc;
  srv_GetResourceRevisions := rpc_GetResourceRevisions svc;
|}.
End logwrapper.

(** The module service of Module.v as the server's service. *)
Definition modules_api {JS : JSONSchema} {W} (registry : Registry W) (mstore : ModStore W)
    (now : W → Time) : ModulesAPI W := {|
  ma_GetModule := Module.GetModule mstore;
  ma_ListModules := Module.ListModules mstore;
  ma_CreateModule := Module.CreateModule registry mstore now;
  ma_UpdateModule := Module.UpdateModule mstore now;
  ma_DeleteModule := Module.DeleteModule mstore;
|}.
