(* ===== verification/ServerProps.v ===== *)
(** * ServerProps: the theorems about [internal/server]

    What reaches the resource service of a request, and which errors reach the
    client. *)

From S2P Require Import Prelude GoLib Errors Resource Module Service ServiceProps Server.
From Stdlib Require Import Ascii.

#[local] Open Scope Z_scope.

(** ** Lemmas *)

(** The errors of a call are gRPC status errors. *)
Definition status_only {W A} (m : io W A) : Prop :=
  ∀ w e w', m w = (Err e, w') → ∃ c msg, e = EStatus c msg.

Lemma status_rpc {W A} (m : io W A) : status_only (rpc m).
Proof.
  intros w e w' H. unfold rpc, catch in H. destruct (m w) as [[a|e'|s] w1]; cbn in H; [done| |done].
  injection H as <- <-. unfold ToRPCError. eauto.
Qed.

Lemma status_ret {W A} (a : A) : status_only (mret (M := M error W) a).
Proof. by intros w e w' [=]. Qed.

Lemma status_bind {W A B} (m : io W A) (f : A → io W B) :
  status_only m → (∀ a, status_only (f a)) → status_only (m ≫= f).
Proof.
  intros Hm Hf w e w' H. rewrite run_bind in H. destruct (m w) as [[a|e'|s] w1] eqn:H1.
  - by eapply Hf.
  - injection H as <- <-. by eapply Hm.
  - done.
Qed.

Lemma status_fold {W A B} (f : B → A → io W B) acc l :
  (∀ acc x, status_only (f acc x)) → status_only (fold_each f acc l).
Proof.
  intros Hf. revert acc. induction l as [|x l IH]; intros acc; cbn [fold_each];
    [apply status_ret|by apply status_bind].
Qed.

Lemma status_logged {W A} log msg (m : io W A) : status_only m → status_only (logged log msg m).
Proof.
  intros Hm w e w' H. unfold logged in H. destruct (m w) as [[a|e'|s] w1] eqn:H1; [done| |done].
  injection H as <- <-. by eapply Hm.
Qed.

#[export] Hint Resolve status_rpc status_ret status_bind status_fold status_logged : server.

Section mappers.
Context {PJ : ProtoJSON} {MR : MapRange}.

Lemma status_map_proto {W A B} (f : A → go B) (l : list A) : status_only (map_proto (W := W) f l).
Proof. unfold map_proto. auto with server. Qed.

Lemma status_send_logs {W} (send : LogChunk → io W ()) cancel chunks :
  status_only (send_logs send cancel chunks).
Proof.
  revert cancel. induction chunks as [|c chunks IH]; intros [[|n]|]; cbn [send_logs];
    auto with server.
Qed.

(** The loop over the dependencies of a message. *)
Lemma deps_loop_Ok l deps :
  NoDup (pb_Key <$> l) → (∀ d, d ∈ l → deps !! pb_Key d = None) →
  deps_loop l deps = Ok (list_to_map ((λ d, (pb_Key d, pb_Value d)) <$> l) ∪ deps).
Proof.
  revert deps. induction l as [|d l IH]; intros deps Hnd Hl; cbn [deps_loop fmap list_fmap].
  - cbn. by rewrite (left_id_L ∅ (∪)).
  - rewrite (Hl d) by set_solver. cbn in Hnd. apply NoDup_cons in Hnd as [Hn Hnd].
    rewrite IH; [|done|].
    + cbn [list_to_map foldr fst snd]. f_equal.
      rewrite <- insert_union_l, <- insert_union_r; [done|].
      apply not_elem_of_list_to_map_1. intros Hin. apply Hn.
      rewrite <- list_fmap_compose in Hin. exact Hin.
    + intros d' Hd'. rewrite lookup_insert_ne; [apply Hl; set_solver|].
      intros Heq. apply Hn. rewrite Heq. apply list_elem_of_fmap. eauto.
Qed.

Lemma deps_loop_app l1 l2 deps :
  deps_loop (l1 ++ l2) deps = (d ← deps_loop l1 deps; deps_loop l2 d).
Proof.
  revert deps. induction l1 as [|d l1 IH]; intros deps; cbn [deps_loop app]; [done|].
  destruct (deps !! pb_Key d); [done|]. apply IH.
Qed.

Lemma deps_loop_clash l d deps :
  d ∈ l → is_Some (deps !! pb_Key d) →
  ∃ err, deps_loop l deps = Err (EErr err) ∧ Code err = "bad_request".
Proof.
  revert deps. induction l as [|d0 l IH]; intros deps; [set_solver|]. intros Hd Hs.
  cbn [deps_loop]. destruct (deps !! pb_Key d0) as [v|] eqn:H0; [eauto|].
  apply elem_of_cons in Hd as [->|Hd]; [rewrite H0 in Hs; by destruct Hs|].
  apply IH; [done|]. destruct (decide (pb_Key d0 = pb_Key d)) as [->|Hne].
  - rewrite lookup_insert_eq. eauto.
  - by rewrite lookup_insert_ne.
Qed.

(** The dependencies of a message made from a map. *)
Definition deps_msg (m : gmap string string) : list pbDependency :=
  (λ kv, mkPbDependency kv.1 kv.2) <$> range m.

Lemma deps_msg_in m k v : m !! k = Some v → mkPbDependency k v ∈ deps_msg m.
Proof.
  intros H. unfold deps_msg. apply list_elem_of_fmap. exists (k, v).
  split; [done|]. by apply elem_of_range.
Qed.

Lemma spec_msg spec ps :
  resourceSpecToProto spec = Ok ps → pb_Dependencies ps = deps_msg (gm (Dependencies spec)).
Proof.
  unfold resourceSpecToProto. intros H. apply res_bind_ok_inv in H as (conf & _ & [= <-]). done.
Qed.

Lemma spec_carried spec ps :
  resourceSpecToProto spec = Ok ps →
  match Configs spec with
  | None => pb_Configs ps = Some NullValue
  | Some c => if json_null c then pb_Configs ps = None
              else ∃ x, UnmarshalValue c = Ok x ∧ pb_Configs ps = Some x
  end.
Proof.
  unfold resourceSpecToProto. intros H. apply res_bind_ok_inv in H as (conf & Hc & [= <-]).
  destruct (Configs spec) as [c|]; [|by injection Hc as <-]. unfold unmarshal_ptr in Hc.
  destruct (json_null c); [by injection Hc as <-|].
  destruct (UnmarshalValue c) as [v|e|s]; [|done..]. injection Hc as <-. by exists v.
Qed.

Lemma deps_loop_msg m : deps_loop (deps_msg m) ∅ = Ok m.
Proof.
  unfold deps_msg. rewrite deps_loop_Ok.
  - rewrite <- list_fmap_compose. unfold compose. cbn [pb_Key pb_Value].
    rewrite (list_fmap_ext _ id) by (by intros _ [k v] _).
    by rewrite list_fmap_id, range_to_map, (right_id_L ∅ (∪)).
  - rewrite <- list_fmap_compose. unfold compose. cbn [pb_Key]. apply NoDup_range_keys.
  - intros d _. apply lookup_empty.
Qed.
End mappers.

#[export] Hint Resolve status_map_proto status_send_logs : server.

Section props.
Context {PJ : ProtoJSON} {MR : MapRange} {W : Type}.

(** C34. Whatever a handler fails with reaches the client as a gRPC status; only
    the marshalling of an action's params escapes unmapped.  The status of an
    [Error] is the one of its category, and Internal for any other error. *)
Theorem rpc_errors_are_status (svc : ResourceService W) (mods : ModulesAPI W) :
  (∀ request, status_only (rpc_ListResources svc request)) ∧
  (∀ urn, status_only (rpc_GetResource svc urn)) ∧
  (∀ ctx request, status_only (rpc_CreateResource svc ctx request)) ∧
  (∀ ctx request, status_only (rpc_UpdateResource svc ctx request)) ∧
  (∀ urn, status_only (rpc_DeleteResource svc urn)) ∧
  (∀ ctx request w e w', rpc_ApplyAction svc ctx request w = (Err e, w') →
     (∃ c msg, e = EStatus c msg) ∨ MarshalStruct (GetStructValue (arq_Params request)) = Err e) ∧
  (∀ send cancel urn filter, status_only (rpc_GetLog svc send cancel urn filter)) ∧
  (∀ urn, status_only (rpc_GetResourceRevisions svc urn)) ∧
  (∀ project, status_only (rpc_ListModules mods project)) ∧
  (∀ md, status_only (rpc_CreateModule mods md)) ∧
  (∀ urn, status_only (rpc_GetModule mods urn)) ∧
  (∀ urn c, status_only (rpc_UpdateModule mods urn c)) ∧
  (∀ urn, status_only (rpc_DeleteModule mods urn)) ∧
  (∀ e, ToRPCError e = EStatus
     (match As_Error e with
      | Some x => if decide (Code x = "not_found") then "NotFound"
                  else if decide (Code x = "conflict") then "AlreadyExists"
                  else if decide (Code x = "bad_request") then "InvalidArgument"
                  else "Internal"
      | None => "Internal"
      end)
     (Error_Error (E e))).
Proof.
  split_and!; intros; try (unfold rpc_ListResources, rpc_GetResource, rpc_CreateResource,
    rpc_UpdateResource, rpc_DeleteResource, rpc_GetLog, rpc_GetResourceRevisions,
    rpc_ListModules, rpc_CreateModule, rpc_UpdateModule, rpc_GetModule, rpc_DeleteModule; solve [eauto 9 with server]).
  - match goal with H : rpc_ApplyAction _ _ _ _ = _ |- _ =>
      unfold rpc_ApplyAction in H; rewrite run_bind in H; unfold lift at 1 in H;
      destruct (MarshalStruct _) as [p|e'|s]; [left|right; congruence|done];
      match type of H with ?m w = _ =>
        assert (status_only m) as Hs by eauto 9 with server; exact (Hs _ _ _ H)
      end
    end.
  - unfold ToRPCError, rpc_code. f_equal. rewrite !errors_Is_code. unfold E.
    destruct (As_Error e) as [x|]; [|done]. cbn [Code ErrNotFound ErrConflict ErrInvalid].
    by repeat case_bool_decide; repeat case_decide.
Qed.

(** C30. A create request that is answered had a resource and a user: the
    service was given that resource stamped with the (trimmed, non-empty) user
    as creator and updater, once, with the request's dry-run flag, and the
    answer is the resource it returned.  A request without a resource panics;
    any other failure before the service is called changes nothing. *)
Theorem rpc_CreateResource_correct (svc : ResourceService W) ctx request w out w' :
  rpc_CreateResource svc ctx request w = (out, w') →
  (∃ res user created, resourceFromProto (crq_Resource request) false = Ok res ∧
     GetUserIdentifier ctx = Ok user ∧ user ≠ "" ∧ TrimSpace user = user ∧
     CreatedBy (set_users user res) = user ∧ UpdatedBy (set_users user res) = user ∧
     rs_CreateResource svc (set_users user res) [WithDryRun (crq_DryRun request)] w =
       (created, w') ∧
     out = on_err (created ≫= resourceToProto) ToRPCError) ∨
  (w' = w ∧ is_ok out = false ∧
   (crq_Resource request = None → is_panic out = true) ∧
   ((∃ err, resourceFromProto (crq_Resource request) false = Err err ∧ out = Err (ToRPCError err)) ∨
    (∃ err, GetUserIdentifier ctx = Err err ∧ is_ok (resourceFromProto (crq_Resource request) false) = true ∧
       out = Err (ToRPCError err)) ∨
    is_panic (resourceFromProto (crq_Resource request) false) = true)).
Proof.
  unfold rpc_CreateResource. rewrite run_bind. unfold rpc at 1, catch, lift at 1.
  destruct (resourceFromProto (crq_Resource request) false) as [res|err|s] eqn:Hres; cbn [on_err].
  - rewrite run_bind. unfold rpc at 1, catch, lift at 1.
    destruct (GetUserIdentifier ctx) as [user|err|s] eqn:Hu; cbn [on_err].
    + intros H. left.
      destruct (rs_CreateResource svc (set_users user res) [WithDryRun (crq_DryRun request)] w)
        as [created w1] eqn:Hc.
      assert (w' = w1 ∧ out = on_err (created ≫= resourceToProto) ToRPCError) as [-> ->].
      { rewrite run_bind in H. unfold rpc at 1, catch at 1 in H. rewrite Hc in H.
        destruct created as [r|e|s]; cbn [on_err] in H; [|by injection H as <- <-..].
        unfold rpc, catch, lift in H. cbn [mbind result_bind on_err].
        destruct (resourceToProto r) as [p|e|s]; by injection H as <- <-. }
      exists res, user, created. split_and!; [done|done| | |done|done|done|done].
      * unfold GetUserIdentifier in Hu. repeat case_match; by simplify_eq.
      * unfold GetUserIdentifier in Hu. repeat case_match; simplify_eq. apply TrimSpace_idemp.
    + intros [= <- <-]. right. split_and!; [done|done|..].
      * intros Hn. rewrite Hn in Hres. discriminate.
      * right. left. eauto.
    + exfalso. unfold GetUserIdentifier in Hu. repeat case_match; done.
  - intros [= <- <-]. right. split_and!; [done|done| |eauto].
    intros Hn. rewrite Hn in Hres. discriminate.
  - intros [= <- <-]. right. split_and!; [done|done|done|auto].
Qed.

(** A request of an identified resource without a usable user-id header is
    answered with Internal, not with the InvalidArgument the header check
    reports. *)
Theorem missing_user_is_internal (svc : ResourceService W) ctx request md w :
  is_ok (resourceFromProto (crq_Resource request) false) = true →
  ctx = Some md → TrimSpace (default "" (head (default [] (md !! userIDHeader)))) = "" →
  ∃ msg, GetUserIdentifier ctx = Err (EStatus "InvalidArgument" msg) ∧
    rpc_CreateResource svc ctx request w =
      (Err (EStatus "Internal" ("internal_error: some unexpected error occurred: " +:+
         "rpc error: code = InvalidArgument desc = " +:+ msg)), w).
Proof.
  intros Hok -> Hh. destruct (ok_res _ Hok) as [res Hres].
  assert (∃ msg, GetUserIdentifier (Some md) = Err (EStatus "InvalidArgument" msg)) as [msg Hm].
  { unfold GetUserIdentifier. destruct (default [] (md !! userIDHeader)) as [|x l]; [eauto|].
    cbn in Hh. rewrite decide_True by done. eauto. }
  exists msg. split; [done|]. unfold rpc_CreateResource. rewrite run_bind.
  unfold rpc at 1, catch, lift at 1. rewrite Hres. cbn [on_err]. rewrite run_bind.
  unfold rpc at 1, catch, lift at 1. rewrite Hm. reflexivity.
Qed.

(** What the message carries for the configs: null for none, nothing for a null
    document, and otherwise the document's value. *)
Definition carried (configs : RawMessage) (v : option Value) : Prop :=
  match configs with
  | None => v = Some NullValue
  | Some c => if json_null c then v = None else ∃ x, UnmarshalValue c = Ok x ∧ v = Some x
  end.

(** C35. The spec of a resource survives the trip through its message.  Every
    dependency arrives once with its URN, whatever the order the map was iterated
    in.  The message carries the configs' value as the codec reads it, or null
    when there are none; they arrive as the codec writes that value, so configs
    that the codec writes as they were arrive as they were, and a message whose
    value it cannot write is refused as invalid, like one that names a key
    twice. *)
Theorem spec_proto_roundtrip spec ps :
  resourceSpecToProto spec = Ok ps →
  carried (Configs spec) (pb_Configs ps) ∧
  (∀ c, MarshalValue (pb_Configs ps) = Ok c →
     resourceSpecFromProto (Some ps) = Ok (mkSpec (Some c) (Some (gm (Dependencies spec))))) ∧
  (∀ c v, Configs spec = Some c → json_null c = false → UnmarshalValue c = Ok v →
     MarshalValue (Some v) = Ok c →
     resourceSpecFromProto (Some ps) = Ok (mkSpec (Configs spec) (Some (gm (Dependencies spec))))) ∧
  (∀ e, MarshalValue (pb_Configs ps) = Err e →
     ∃ err, resourceSpecFromProto (Some ps) = Err (EErr err) ∧ Code err = "bad_request") ∧
  ∀ d1 d2 l, pb_Key d1 = pb_Key d2 → d1 ∈ pb_Dependencies ps → d2 ∈ l →
    ∃ err, resourceSpecFromProto (Some (mkPbSpec (pb_Configs ps) (pb_Dependencies ps ++ l))) =
      Err (EErr err) ∧ Code err = "bad_request".
Proof.
  intros H. pose proof (spec_msg _ _ H) as Hps. pose proof (spec_carried _ _ H) as Hcar.
  assert (∀ c, MarshalValue (pb_Configs ps) = Ok c →
     resourceSpecFromProto (Some ps) = Ok (mkSpec (Some c) (Some (gm (Dependencies spec))))) as Hok.
  { intros c Hc. unfold resourceSpecFromProto. cbn [fmap option_fmap option_map default from_option
      id]. rewrite Hps, deps_loop_msg. cbn. by rewrite Hc. }
  split_and!; [done|done|..].
  - intros c v Hc Hn Hu Hm. rewrite Hc in Hcar |- *. unfold carried in Hcar. rewrite Hn in Hcar.
    destruct Hcar as (x & Hx & Hv). rewrite Hu in Hx. injection Hx as <-. apply Hok. by rewrite Hv.
  - intros e He. unfold resourceSpecFromProto. cbn [fmap option_fmap option_map default from_option
      id]. rewrite Hps, deps_loop_msg. cbn. rewrite He. eauto.
  - intros d1 d2 l Hk Hd1 Hd2. unfold resourceSpecFromProto.
    cbn [fmap option_fmap option_map default from_option pb_Dependencies id].
    rewrite Hps, deps_loop_app, deps_loop_msg. cbn [mbind result_bind].
    destruct (deps_loop_clash l d2 (gm (Dependencies spec))) as (err & -> & He); [done| |eauto].
    rewrite <- Hk. rewrite Hps in Hd1. apply list_elem_of_fmap in Hd1 as ([k v] & -> & Hkv).
    apply elem_of_range in Hkv. cbn. eauto.
Qed.
End props.

(** ** Witnesses *)

Section witnesses.
(** A codec whose values are their JSON texts. *)
#[local] Instance demo_proto : ProtoJSON.
Proof.
  refine {| Value := string; Struct := string; NullValue := "null";
            UnmarshalValue s := if decide (s = "") then Err (ENew "unexpected end of JSON input")
                                else Ok s;
            MarshalValue v := match v with Some s => Ok s | None => Err (ENew "no value") end;
            GetStructValue v := v;
            MarshalStruct v := Ok (default "{}" v);
            Timestamp := Time; timestamp_New t := t; AsTime t := default 0 t |}.
  reflexivity.
Defined.

#[local] Instance demo_order : MapRange := range_sorted.

Definition demo_api : ResourceService (gmap string Resource) :=
  core_service (demo_service None) 3.

Definition demo_spec : Spec := mkSpec (Some "{}") (Some {[ "kube" := "orn:a"; "db" := "orn:b" ]}).

Definition demo_request (deps : list pbDependency) : CreateResourceRequest :=
  mkCreateReq (Some (mkPbResource "" "firehose" "a" "goto" None None None
    (Some (mkPbSpec (Some "{}") deps)) None "" "")) false.

Definition demo_ctx (user : string) : option (gmap string (list string)) :=
  Some {[ userIDHeader := [user] ]}.

Lemma rpc_CreateResource_correct_witness :
  ∃ p w', rpc_CreateResource demo_api (demo_ctx " jane ") (demo_request []) ∅ = (Ok p, w') ∧
    ∃ res user created, GetUserIdentifier (demo_ctx " jane ") = Ok user ∧
      rs_CreateResource demo_api (set_users user res) [WithDryRun false] ∅ = (created, w') ∧
      Ok p = on_err (created ≫= resourceToProto) ToRPCError.
Proof.
  destruct (ok_run (rpc_CreateResource demo_api (demo_ctx " jane ") (demo_request []) ∅))
    as (p & w' & H); [vm_compute; reflexivity|].
  exists p, w'. split; [exact H|].
  destruct (rpc_CreateResource_correct demo_api (demo_ctx " jane ") (demo_request []) ∅ (Ok p) w' H)
    as [(res & user & created & _ & Hu & _ & _ & _ & _ & Hc & Ho)|(_ & Ho & _)]; [|discriminate Ho].
  exists res, user, created. exact (conj Hu (conj Hc Ho)).
Defined.

Lemma missing_user_is_internal_witness :
  ∃ msg, (rpc_CreateResource demo_api (demo_ctx " ") (demo_request []) ∅).1 =
    Err (EStatus "Internal" msg).
Proof.
  destruct (missing_user_is_internal demo_api (demo_ctx " ") (demo_request [])
              {[ userIDHeader := [" "] ]} ∅) as (msg & _ & H);
    [vm_compute; reflexivity|reflexivity|vm_compute; reflexivity|].
  eexists. rewrite H. reflexivity.
Defined.

Lemma spec_proto_roundtrip_witness :
  ∃ ps, resourceSpecToProto demo_spec = Ok ps ∧
    resourceSpecFromProto (Some ps) = Ok demo_spec ∧
    ∃ err, resourceSpecFromProto (Some (mkPbSpec (pb_Configs ps)
      (pb_Dependencies ps ++ [mkPbDependency "db" "orn:c"]))) = Err (EErr err) ∧
      Code err = "bad_request".
Proof.
  destruct (ok_res (resourceSpecToProto demo_spec)) as [ps H]; [vm_compute; reflexivity|].
  exists ps. destruct (spec_proto_roundtrip demo_spec ps H) as (_ & Hr & _ & _ & Hd).
  assert (pb_Configs ps = Some "{}" ∧ mkPbDependency "db" "orn:b" ∈ pb_Dependencies ps) as [Hc Hin].
  { rewrite (spec_msg _ _ H). split; [injection H as <-; reflexivity|].
    apply deps_msg_in. vm_compute. reflexivity. }
  split; [exact H|]. split.
  - rewrite (Hr "{}"); [reflexivity|]. rewrite Hc. reflexivity.
  - exact (Hd (mkPbDependency "db" "orn:b") (mkPbDependency "db" "orn:c")
             [mkPbDependency "db" "orn:c"] eq_refl Hin (list_elem_of_here _ _)).
Defined.
End witnesses.
