(* ===== verification/Gateway.v ===== *)
(** * Gateway: the HTTP API

    Models the generated gateway ([resource.pb.gw.go], [module.pb.gw.go]) as
    [internal/server/server.go] registers it (the handlers are called directly),
    and the middlewares that wrap it ([middlewares.go]).  The gateway's runtime
    (net/http, the marshalers, the query parameters, the matching of patterns)
    is the parameter [GatewayRuntime]. *)

From S2P Require Import Prelude GoLib Errors Resource Module Service Server.

#[local] Open Scope Z_scope.

(** A request: the outcome of reading the body and of [ParseForm]. *)
Record http_Request := mkHTTP {
  rq_Method : string;
  rq_Path : string;
  rq_Header : http_header;
  rq_Body : go string;
  rq_Form : go (gmap string (list string));
}.

Definition rq_set_Header (h : http_header) (req : http_Request) : http_Request :=
  mkHTTP (rq_Method req) (rq_Path req) h (rq_Body req) (rq_Form req).

(** What a handler writes: status codes and pieces of the body. *)
Abbreviation writes := (list (Z + string)) (only parsing).

(** The outcome of a [Decode] of the body. *)
Inductive decoded (A : Type) : Type :=
  | DecodeOk (a : A)
  | DecodeEOF
  | DecodeErr (err : error).

Arguments DecodeOk {A}.
Arguments DecodeEOF {A}.
Arguments DecodeErr {A}.

(** The responses of the services' calls. *)
Inductive reply {PJ : ProtoJSON} : Type :=
  | ResourceReply (res : pbResource)
  | ResourcesReply (res : ListResourcesResponse)
  | RevisionsReply (revisions : list pbRevision)
  | ModuleReply (md : pbModule)
  | ModulesReply (mods : list pbModule)
  | EmptyReply.

Arguments reply {PJ}.

Record UpdateModuleRequest {PJ : ProtoJSON} := mkUpdateModuleReq {
  umr_Urn : string;
  umr_Configs : option Value;
}.

Arguments UpdateModuleRequest {PJ}.
Arguments mkUpdateModuleReq {PJ}.

(** [runtime] and [utilities] of grpc-gateway.  [PopulateQueryParameters] takes
    the fields of its filter; documented: it sets no field of the filter. *)
Class GatewayRuntime {PJ : ProtoJSON} : Type := {
  Decode_Resource : string → decoded (option pbResource);
  Decode_UpdateResource : string → decoded UpdateResourceRequest;
  Decode_Params : string → decoded (option Value);
  Decode_Module : string → decoded (option pbModule);
  Decode_UpdateModule : string → decoded UpdateModuleRequest;
  runtime_String : string → go string;
  Populate_ListResources : list string → ListResourcesRequest → gmap string (list string) →
    go ListResourcesRequest;
  Populate_CreateResource : list string → CreateResourceRequest → gmap string (list string) →
    go CreateResourceRequest;
  Populate_ApplyAction : list string → ApplyActionRequest → gmap string (list string) →
    go ApplyActionRequest;
  Populate_ListModules : list string → string → gmap string (list string) → go string;
  (** the metadata that an incoming context is annotated with *)
  AnnotateIncomingContext : http_Request → (http_Request → metadata) → go metadata;
  HTTPError : error → writes;
  ForwardResponseMessage : reply → writes;
  (** documented: a header is metadata if it has this prefix; the annotator's
      metadata are added *)
  Annotate_user : ∀ req annotator md,
    AnnotateIncomingContext req annotator = Ok md →
    (∀ k, k ∈ dom (rq_Header req) → String.prefix "Grpc-Metadata-" k = false) →
    default [] (default ∅ md !! userIDHeader) = default [] (default ∅ (annotator req) !! userIDHeader);
  runtime_String_id : ∀ s, runtime_String s = Ok s;
  Populate_CreateResource_filter : ∀ filter msg form msg',
    Populate_CreateResource filter msg form = Ok msg' →
    "resource" ∈ filter → crq_Resource msg' = crq_Resource msg;
  Populate_ApplyAction_filter : ∀ filter msg form msg',
    Populate_ApplyAction filter msg form = Ok msg' →
    ("urn" ∈ filter → arq_Urn msg' = arq_Urn msg) ∧
    ("action" ∈ filter → arq_Action msg' = arq_Action msg) ∧
    ("params" ∈ filter → arq_Params msg' = arq_Params msg);
}.

(** The annotator of [WithMetadata]; [Header.Get] finds the canonical name. *)
Definition request_metadata (req : http_Request) : metadata :=
  ExtractRequestMetadata (header_Get (rq_Header req) "User-Id").

(** ** The calls *)

Section gateway.
Context {PJ : ProtoJSON} {GR : GatewayRuntime}.

Definition invalid_argument (err : error) : error := EStatus "InvalidArgument" (error_string err).

(** Reading the body into a message, which stays as it is at the end of file. *)
Definition decode_body {A} (dec : string → decoded A) (zero : A) (req : http_Request) : go A :=
  body ← on_err (rq_Body req) invalid_argument;
  match dec body with
  | DecodeOk a => Ok a
  | DecodeEOF => Ok zero
  | DecodeErr err => Err (invalid_argument err)
  end.

Definition path_param (pathParams : gmap string string) (name : string) : go string :=
  match pathParams !! name with
  | None => Err (EStatus "InvalidArgument" ("missing parameter " +:+ name))
  | Some val => on_err (runtime_String val) (λ err,
      EStatus "InvalidArgument" ("type mismatch, parameter: " +:+ name +:+ ", error: " +:+
        error_string err))
  end.

Definition populate {A} (fill : A → gmap string (list string) → go A) (msg : A) (req : http_Request) :
    go A :=
  form ← on_err (rq_Form req) invalid_argument;
  on_err (fill msg form) invalid_argument.

Section resources.
Context {W : Type}.
Variable server : ResourceServiceServer W.

Definition local_request_ListResources (ctx : metadata) (req : http_Request)
    (pathParams : gmap string string) : io W reply :=
  protoReq ← lift (populate (Populate_ListResources []) (mkListReq "" "" None false 0 0) req);
  msg ← srv_ListResources server protoReq;
  mret (ResourcesReply msg).

Definition local_request_GetResource (ctx : metadata) (req : http_Request)
    (pathParams : gmap string string) : io W reply :=
  urn ← lift (path_param pathParams "urn");
  msg ← srv_GetResource server urn;
  mret (ResourceReply msg).

Definition local_request_CreateResource (ctx : metadata) (req : http_Request)
    (pathParams : gmap string string) : io W reply :=
  res ← lift (decode_body Decode_Resource None req);
  protoReq ← lift (populate (Populate_CreateResource ["resource"]) (mkCreateReq res false) req);
  msg ← srv_CreateResource server ctx protoReq;
  mret (ResourceReply msg).

Definition local_request_UpdateResource (ctx : metadata) (req : http_Request)
    (pathParams : gmap string string) : io W reply :=
  body ← lift (decode_body Decode_UpdateResource (mkUpdateReq "" None None false) req);
  urn ← lift (path_param pathParams "urn");
  msg ← srv_UpdateResource server ctx
          (mkUpdateReq urn (urq_NewSpec body) (urq_Labels body) (urq_DryRun body));
  mret (ResourceReply msg).

Definition local_request_DeleteResource (ctx : metadata) (req : http_Request)
    (pathParams : gmap string string) : io W reply :=
  urn ← lift (path_param pathParams "urn");
  _ ← srv_DeleteResource server urn;
  mret EmptyReply.

Definition local_request_ApplyAction (ctx : metadata) (req : http_Request)
    (pathParams : gmap string string) : io W reply :=
  params ← lift (decode_body Decode_Params None req);
  urn ← lift (path_param pathParams "urn");
  action ← lift (path_param pathParams "action");
  protoReq ← lift (populate (Populate_ApplyAction ["params"; "urn"; "action"])
                     (mkApplyReq urn action params None false) req);
  msg ← srv_ApplyAction server ctx protoReq;
  mret (ResourceReply msg).

Definition local_request_GetResourceRevisions (ctx : metadata) (req : http_Request)
    (pathParams : gmap string string) : io W reply :=
  urn ← lift (path_param pathParams "urn");
  revisions ← srv_GetResourceRevisions server urn;
  mret (RevisionsReply revisions).
End resources.

Section modules.
Context {W : Type}.
Variable server : ModulesAPI W.

Definition local_request_ListModules (ctx : metadata) (req : http_Request)
    (pathParams : gmap string string) : io W reply :=
  project ← lift (populate (Populate_ListModules []) "" req);
  mods ← rpc_ListModules server project;
  mret (ModulesReply mods).

Definition local_request_GetModule (ctx : metadata) (req : http_Request)
    (pathParams : gmap string string) : io W reply :=
  urn ← lift (path_param pathParams "urn");
  msg ← rpc_GetModule server urn;
  mret (ModuleReply msg).

Definition local_request_CreateModule (ctx : metadata) (req : http_Request)
    (pathParams : gmap string string) : io W reply :=
  module ← lift (decode_body Decode_Module None req);
  msg ← rpc_CreateModule server module;
  mret (ModuleReply msg).

Definition local_request_UpdateModule (ctx : metadata) (req : http_Request)
    (pathParams : gmap string string) : io W reply :=
  body ← lift (decode_body Decode_UpdateModule (mkUpdateModuleReq "" None) req);
  urn ← lift (path_param pathParams "urn");
  msg ← rpc_UpdateModule server urn (umr_Configs body);
  mret (ModuleReply msg).

Definition local_request_DeleteModule (ctx : metadata) (req : http_Request)
    (pathParams : gmap string string) : io W reply :=
  urn ← lift (path_param pathParams "urn");
  _ ← rpc_DeleteModule server urn;
  mret EmptyReply.
End modules.

(** ** The registered handlers *)

(** A pattern: the operations and the pool of [NewPattern], and the template
    that the context is annotated with. *)
Record Pattern := mkPattern { pat_ops : list Z; pat_pool : list string; pat_template : string }.

Record route (W : Type) := mkRoute {
  rt_Method : string;
  rt_Pattern : Pattern;
  rt_Handler : http_Request → gmap string string → io W writes;
}.

(** The body that every registration repeats. *)
Definition serve_local {W} (local : metadata → http_Request → gmap string string → io W reply)
    (req : http_Request) (pathParams : gmap string string) : io W writes :=
  annotated ← attempt (lift (AnnotateIncomingContext req request_metadata));
  match annotated with
  | inl err => mret (HTTPError err)
  | inr annotatedContext =>
      out ← attempt (local annotatedContext req pathParams);
      match out with
      | inl err => mret (HTTPError err)
      | inr resp => mret (ForwardResponseMessage resp)
      end
  end.

(** [GetLog] streams, which the in-process transport cannot do. *)
Definition serve_GetLog {W} (req : http_Request) (pathParams : gmap string string) : io W writes :=
  mret (HTTPError (EStatus "Unimplemented"
    "streaming calls are not yet supported in the in-process transport")).

Definition pattern_resources : Pattern :=
  mkPattern [2; 0; 2; 1] ["v1beta1"; "resources"] "/v1beta1/resources".
Definition pattern_resource : Pattern :=
  mkPattern [2; 0; 2; 1; 1; 0; 4; 1; 5; 2] ["v1beta1"; "resources"; "urn"] "/v1beta1/resources/{urn}".
Definition pattern_action : Pattern :=
  mkPattern [2; 0; 2; 1; 1; 0; 4; 1; 5; 2; 2; 3; 1; 0; 4; 1; 5; 4]
    ["v1beta1"; "resources"; "urn"; "actions"; "action"] "/v1beta1/resources/{urn}/actions/{action}".
Definition pattern_logs : Pattern :=
  mkPattern [2; 0; 2; 1; 1; 0; 4; 1; 5; 2; 2; 3] ["v1beta1"; "resources"; "urn"; "logs"]
    "/v1beta1/resources/{urn}/logs".
Definition pattern_revisions : Pattern :=
  mkPattern [2; 0; 2; 1; 1; 0; 4; 1; 5; 2; 2; 3] ["v1beta1"; "resources"; "urn"; "revisions"]
    "/v1beta1/resources/{urn}/revisions".
Definition pattern_modules : Pattern :=
  mkPattern [2; 0; 2; 1] ["v1beta1"; "modules"] "/v1beta1/modules".
Definition pattern_module : Pattern :=
  mkPattern [2; 0; 2; 1; 1; 0; 4; 1; 5; 2] ["v1beta1"; "modules"; "urn"] "/v1beta1/modules/{urn}".

Definition RegisterResourceServiceHandlerServer {W} (server : ResourceServiceServer W) :
    list (route W) :=
  [mkRoute W "GET" pattern_resources (serve_local (local_request_ListResources server));
   mkRoute W "GET" pattern_resource (serve_local (local_request_GetResource server));
   mkRoute W "POST" pattern_resources (serve_local (local_request_CreateResource server));
   mkRoute W "PATCH" pattern_resource (serve_local (local_request_UpdateResource server));
   mkRoute W "DELETE" pattern_resource (serve_local (local_request_DeleteResource server));
   mkRoute W "POST" pattern_action (serve_local (local_request_ApplyAction server));
   mkRoute W "GET" pattern_logs serve_GetLog;
   mkRoute W "GET" pattern_revisions (serve_local (local_request_GetResourceRevisions server))].

Definition RegisterModuleServiceHandlerServer {W} (server : ModulesAPI W) : list (route W) :=
  [mkRoute W "GET" pattern_modules (serve_local (local_request_ListModules server));
   mkRoute W "GET" pattern_module (serve_local (local_request_GetModule server));
   mkRoute W "POST" pattern_modules (serve_local (local_request_CreateModule server));
   mkRoute W "PATCH" pattern_module (serve_local (local_request_UpdateModule server));
   mkRoute W "DELETE" pattern_module (serve_local (local_request_DeleteModule server))].
End gateway.

Arguments rt_Method {W}.
Arguments rt_Pattern {W}.
Arguments rt_Handler {W}.

(** ** The middlewares *)

Section middlewares.
Context {W : Type}.

(** A handler leaves the response's headers and the writes it made. *)
Abbreviation http_handler := (http_Request → http_header → io W (http_header * writes)) (only parsing).

Definition requestID_handler (xid : W → string * W) (next : http_handler) : http_handler :=
  λ req wr w,
  let '(id, w) := if decide (TrimSpace (header_Get (rq_Header req) headerRequestID) = "") then xid w
                  else ("", w) in
  let '(headers, wr) := requestID id (rq_Header req) wr in
  next (rq_set_Header headers req) wr w.

Definition write_to (wr : wrappedWriter) (x : Z + string) : wrappedWriter :=
  match x with inl statusCode => WriteHeader statusCode wr | inr data => Write data wr end.

(** What is logged of a request: the status and, unless it is a success, the
    response; an unreadable body is logged and answered with nothing. *)
Variable log_request : http_Request → Z → option string → W → W.
Variable log_Error : string → error → W → W.

Definition requestLogger (next : http_handler) : http_handler := λ req wr w,
  match rq_Body req with
  | Err err => (Ok (wr, []), log_Error "error reading request body: %v" err w)
  | Panic s => (Panic s, w)
  | Ok bodyBytes =>
      match next req wr w with
      | (Ok (wr, ws), w) =>
          let wrapped := foldl write_to (mkWrapped 200 (Some "") []) ws in
          let w := if bool_decide (rq_Path req = "/ping") then w
                   else log_request req (wr_Status wrapped)
                          (if is2xx (wr_Status wrapped) then None else ResponseBuffer wrapped) w in
          (Ok (wr, underlying wrapped), w)
      | (Err err, w) => (Err err, w)
      | (Panic s, w) => (Panic s, w)
      end
  end.
End middlewares.
