(* ===== verification/GatewayProps.v ===== *)
(** * GatewayProps: what an HTTP request does

    An HTTP request that writes is refused or becomes one call of the gRPC
    handler, on the resource that its path names; without a user it is refused. *)

From S2P Require Import Prelude GoLib Errors Resource Module Service Server ServerProps ServiceProps Gateway.

#[local] Open Scope Z_scope.

Section gateway.
Context {PJ : ProtoJSON} {GR : GatewayRuntime} {W : Type}.
Implicit Types (req : http_Request) (w : W) (params : gmap string string).

(** How an outcome is answered. *)
Definition answered {A} (reply_of : A → reply) (r : go A * W) : go (list (Z + string)) * W :=
  (match r.1 with
   | Ok a => Ok (ForwardResponseMessage (reply_of a))
   | Err err => Ok (HTTPError err)
   | Panic s => Panic s
   end, r.2).

Definition invalid (err : error) : Prop := ∃ msg, err = EStatus "InvalidArgument" msg.

(** Refused without a call: the request is invalid, or its context cannot be
    annotated. *)
Definition refused_in req w (r : go (list (Z + string)) * W) : Prop :=
  (∃ err, r = (Ok (HTTPError err), w) ∧
     (invalid err ∨ AnnotateIncomingContext req request_metadata = Err err)) ∨
  ∃ s, r = (Panic s, w).

Lemma serve_local_cases local req params w :
  refused_in req w (serve_local local req params w) ∨
  ∃ md, AnnotateIncomingContext req request_metadata = Ok md ∧
    serve_local local req params w = answered id (local md req params w).
Proof.
  unfold serve_local. rewrite run_bind. unfold lift.
  destruct (AnnotateIncomingContext req request_metadata) as [md|err|s] eqn:Ha;
    unfold attempt; cbn beta iota.
  - right. exists md. split; [done|]. rewrite run_bind. unfold answered.
    by destruct (local md req params w) as [[r|e|s] w1].
  - left. left. exists err. split; [done|by right].
  - left. right. by exists s.
Qed.

(** A computation that ends before the call it would make. *)
Definition checked {A} (r : go A) : Prop := ∀ err, r = Err err → invalid err.

Lemma checked_on_err {A} (r : go A) : checked (on_err r invalid_argument).
Proof. intros err. destruct r as [a|e|s]; intros [= <-]. exists (error_string e). reflexivity. Qed.

Lemma checked_bind {A B} (r : go A) (f : A → go B) :
  checked r → (∀ a, checked (f a)) → checked (r ≫= f).
Proof.
  intros Hr Hf err. destruct r as [a|e|s]; cbn; intros H;
  [by eapply Hf|injection H as <-; by apply Hr|done].
Qed.

Lemma checked_decode_body {A} dec (zero : A) req : checked (decode_body dec zero req).
Proof.
  apply checked_bind; [apply checked_on_err|]. intros body err. destruct (dec body) as [a| |e]; intros [= <-].
  exists (error_string e). reflexivity.
Qed.

Lemma checked_path_param params name : checked (path_param params name).
Proof.
  intros err. unfold path_param. destruct (params !! name) as [v|]; [|intros [= <-]; eexists; reflexivity].
  destruct (runtime_String v); intros [= <-]. eexists. reflexivity.
Qed.

Lemma checked_populate {A} (fill : A → _ → go A) msg req : checked (populate fill msg req).
Proof. apply checked_bind; [apply checked_on_err|]. intros form. apply checked_on_err. Qed.

Lemma lift_bind_cases {A B} (r : go A) (f : A → io W B) w : checked r →
  (∃ a, r = Ok a ∧ (lift r ≫= f) w = f a w) ∨
  (∃ e, (lift r ≫= f) w = (Err e, w) ∧ invalid e) ∨ (∃ s, (lift r ≫= f) w = (Panic s, w)).
Proof.
  intros Hr. destruct r as [a|e|s]; [left; eauto| |right; right; eauto].
  right; left. exists e. split; [done|by apply Hr].
Qed.

Lemma reply_run {A} (m : io W A) (reply_of : A → reply) w :
  answered id ((msg ← m; mret (reply_of msg)) w) = answered reply_of (m w).
Proof. rewrite run_bind. by destruct (m w) as [[a|e|s] w1]. Qed.

Lemma path_param_Ok params name v : path_param params name = Ok v → params !! name = Some v.
Proof.
  unfold path_param. destruct (params !! name) as [x|]; [|done]. rewrite runtime_String_id.
  cbn. by intros [= ->].
Qed.
End gateway.

#[export] Hint Resolve checked_decode_body checked_path_param checked_populate : gateway.

(** One step of a call of the gateway: it goes on with a value, or is refused. *)
Ltac gateway_step :=
  match goal with
  | |- context [answered _ ((lift ?r ≫= ?f) ?w)] =>
      let H := fresh "Hr" in
      destruct (lift_bind_cases r f w) as [(? & H & ->)|[(? & -> & ?)|[? ->]]];
      [solve [auto with gateway]| |left; left; eexists; split; [reflexivity|by left]
      |left; right; eexists; reflexivity]
  end.

Ltac gateway_start :=
  match goal with |- context [serve_local ?l ?req ?params ?w] =>
    destruct (serve_local_cases l req params w) as [H|(md & Hmd & ->)]; [by left|] end.

Section routes.
Context {PJ : ProtoJSON} {GR : GatewayRuntime} {W : Type}.
Variable server : ResourceServiceServer W.
Implicit Types (req : http_Request) (w : W) (params : gmap string string).

#[local] Notation route_of local := (serve_local (local server)).

Lemma create_route req params w :
  let r := route_of local_request_CreateResource req params w in
  refused_in req w r ∨ ∃ md msg, AnnotateIncomingContext req request_metadata = Ok md ∧
    decode_body Decode_Resource None req = Ok (crq_Resource msg) ∧
    r = answered ResourceReply (srv_CreateResource server md msg w).
Proof.
  cbv zeta. gateway_start. unfold local_request_CreateResource. do 2 gateway_step. right.
  unfold populate in Hr0. apply res_bind_ok_inv in Hr0 as (form & _ & Hp).
  unfold on_err in Hp. destruct (Populate_CreateResource _ _ _) as [msg|e|s] eqn:Hm; simplify_eq.
  eexists md, _. apply Populate_CreateResource_filter in Hm; [|set_solver]. rewrite Hm.
  split_and!; [done|done|apply reply_run].
Qed.

Lemma update_route req params w :
  let r := route_of local_request_UpdateResource req params w in
  refused_in req w r ∨ ∃ md urn body, AnnotateIncomingContext req request_metadata = Ok md ∧
    params !! "urn" = Some urn ∧
    decode_body Decode_UpdateResource (mkUpdateReq "" None None false) req = Ok body ∧
    r = answered ResourceReply (srv_UpdateResource server md
      (mkUpdateReq urn (urq_NewSpec body) (urq_Labels body) (urq_DryRun body)) w).
Proof.
  cbv zeta. gateway_start. unfold local_request_UpdateResource. do 2 gateway_step. right.
  eexists md, _, _. split_and!; [done|by apply path_param_Ok|exact Hr|apply reply_run].
Qed.

Lemma action_route req params w :
  let r := route_of local_request_ApplyAction req params w in
  refused_in req w r ∨ ∃ md msg, AnnotateIncomingContext req request_metadata = Ok md ∧
    params !! "urn" = Some (arq_Urn msg) ∧ params !! "action" = Some (arq_Action msg) ∧
    decode_body Decode_Params None req = Ok (arq_Params msg) ∧
    r = answered ResourceReply (srv_ApplyAction server md msg w).
Proof.
  cbv zeta. gateway_start. unfold local_request_ApplyAction. do 4 gateway_step. right.
  unfold populate in Hr2. apply res_bind_ok_inv in Hr2 as (form & _ & Hp).
  unfold on_err in Hp. destruct (Populate_ApplyAction _ _ _) as [msg|e|s] eqn:Hm; simplify_eq.
  apply Populate_ApplyAction_filter in Hm as (Hu & Ha & Hps).
  eexists md, _. rewrite Hu, Ha, Hps by set_solver. cbn [arq_Urn arq_Action arq_Params].
  split_and!; [done|by apply path_param_Ok..|done|apply reply_run].
Qed.

Lemma delete_route req params w :
  let r := route_of local_request_DeleteResource req params w in
  refused_in req w r ∨ ∃ urn, params !! "urn" = Some urn ∧
    r = answered (λ _, EmptyReply) (srv_DeleteResource server urn w).
Proof.
  cbv zeta. gateway_start. unfold local_request_DeleteResource. gateway_step. right.
  eexists. split; [by apply path_param_Ok|apply reply_run].
Qed.

(** C32. An HTTP request that writes is refused before anything is called, or is
    answered with what one call of the gRPC handler gives, in the context that
    the request is annotated with.  The resource is the one that the path
    names, and so is the action: neither body nor query can name another. *)
Theorem http_writes_are_grpc_calls req params w :
  (let r := route_of local_request_CreateResource req params w in
   refused_in req w r ∨ ∃ md msg, AnnotateIncomingContext req request_metadata = Ok md ∧
     decode_body Decode_Resource None req = Ok (crq_Resource msg) ∧
     r = answered ResourceReply (srv_CreateResource server md msg w)) ∧
  (let r := route_of local_request_UpdateResource req params w in
   refused_in req w r ∨ ∃ md urn body, AnnotateIncomingContext req request_metadata = Ok md ∧
     params !! "urn" = Some urn ∧
     decode_body Decode_UpdateResource (mkUpdateReq "" None None false) req = Ok body ∧
     r = answered ResourceReply (srv_UpdateResource server md
      (mkUpdateReq urn (urq_NewSpec body) (urq_Labels body) (urq_DryRun body)) w)) ∧
  (let r := route_of local_request_ApplyAction req params w in
   refused_in req w r ∨ ∃ md msg, AnnotateIncomingContext req request_metadata = Ok md ∧
     params !! "urn" = Some (arq_Urn msg) ∧ params !! "action" = Some (arq_Action msg) ∧
     decode_body Decode_Params None req = Ok (arq_Params msg) ∧
     r = answered ResourceReply (srv_ApplyAction server md msg w)) ∧
  (let r := route_of local_request_DeleteResource req params w in
   refused_in req w r ∨ ∃ urn, params !! "urn" = Some urn ∧
     r = answered (λ _, EmptyReply) (srv_DeleteResource server urn w)).
Proof. split_and!; [apply create_route|apply update_route|apply action_route|apply delete_route]. Qed.
End routes.

(** ** Requests that are refused *)

Section refusals.
Context {PJ : ProtoJSON} {GR : GatewayRuntime} {MR : MapRange} {W : Type}.
Variables (log_Error : string → error → W → W) (svc : ResourceService W).
Implicit Types (req : http_Request) (w : W) (params : gmap string string).

#[local] Notation server := (LogWrapper log_Error (NewAPIServer svc)).
#[local] Notation route_of local := (serve_local (local server)).

(** A request without a user: its header is empty or missing, and it has no
    header that the gateway takes for metadata. *)
Definition anonymous_request req : Prop :=
  TrimSpace (header_Get (rq_Header req) "User-Id") = "" ∧
  ∀ k, k ∈ dom (rq_Header req) → String.prefix "Grpc-Metadata-" k = false.

Lemma anonymous_user req md :
  anonymous_request req → AnnotateIncomingContext req request_metadata = Ok md →
  ∃ e, GetUserIdentifier md = Err e.
Proof.
  intros [Hu Hp] Ha. apply Annotate_user in Ha; [|done].
  change (default ∅ (request_metadata req)) with
    ({[ userIDHeader := [header_Get (rq_Header req) "User-Id"] ]} : gmap string (list string)) in Ha.
  rewrite lookup_singleton_eq in Ha. unfold GetUserIdentifier. destruct md as [m|]; [|eauto].
  change (default ∅ (Some m)) with m in Ha. rewrite Ha. cbn [default from_option id].
  rewrite Hu, decide_True by done. eauto.
Qed.

(** Answered with an error, and nothing done but logged. *)
Definition turned_away w (r : go (list (Z + string)) * W) : Prop :=
  (∃ err, r.1 = Ok (HTTPError err) ∧ (r.2 = w ∨ ∃ msg e, r.2 = log_Error msg e w)) ∨
  ∃ s, r = (Panic s, w).

Lemma refused_turned_away req w r : refused_in req w r → turned_away w r.
Proof. intros [(err & -> & _)|[s ->]]; [left; exists err; auto|right; by exists s]. Qed.

(** A handler that checks something and then the user. *)
Lemma anonymous_turned_away {A B} (reply_of : B → reply) (name : string) md (m : io W A) (r : go A)
    (f : A → string → io W B) w e :
  GetUserIdentifier md = Err e → (m = lift r ∨ ∃ h, m = catch (lift r) h) →
  turned_away w (answered reply_of
    (logged log_Error name (a ← m; u ← rpc (lift (GetUserIdentifier md)); f a u) w)).
Proof.
  intros He Hm. unfold logged. rewrite He.
  destruct Hm as [->|[h ->]]; destruct r as [a|e1|s]; cbn;
    [left|left|right; by eexists|left|left|right; by eexists]; eexists; split; try done; right; eauto.
Qed.

(** C33. What the HTTP API refuses.  Whoever creates, updates or acts on a
    resource without a user is answered with an error, and the service is not
    called; the logs of a resource are never served; a create request without
    a body panics. *)
Theorem http_refusals req params w :
  (anonymous_request req →
     turned_away w (route_of local_request_CreateResource req params w) ∧
     turned_away w (route_of local_request_UpdateResource req params w) ∧
     turned_away w (route_of local_request_ApplyAction req params w)) ∧
  (∀ rt, rt ∈ RegisterResourceServiceHandlerServer server → rt_Pattern rt = pattern_logs →
     rt_Handler rt req params w = (Ok (HTTPError (EStatus "Unimplemented"
       "streaming calls are not yet supported in the in-process transport")), w)) ∧
  (∀ md body form msg, AnnotateIncomingContext req request_metadata = Ok md →
     rq_Body req = Ok body → Decode_Resource body = DecodeEOF → rq_Form req = Ok form →
     Populate_CreateResource ["resource"] (mkCreateReq None false) form = Ok msg →
     route_of local_request_CreateResource req params w = (Panic "nil pointer dereference", w)).
Proof.
  split_and!.
  - intros Ha. split_and!.
    + destruct (create_route server req params w) as [H|(md & msg & Hmd & _ & ->)];
        [by eapply refused_turned_away|].
      apply anonymous_user in Hmd as [e He]; [|done].
      eapply anonymous_turned_away; [exact He|right; by eexists].
    + destruct (update_route server req params w) as [H|(md & u & body & Hmd & _ & _ & ->)];
        [by eapply refused_turned_away|].
      apply anonymous_user in Hmd as [e He]; [|done].
      eapply anonymous_turned_away; [exact He|right; by eexists].
    + destruct (action_route server req params w) as [H|(md & msg & Hmd & _ & _ & _ & ->)];
        [by eapply refused_turned_away|].
      apply anonymous_user in Hmd as [e He]; [|done].
      eapply anonymous_turned_away; [exact He|by left].
  - intros rt Hrt Hp. unfold RegisterResourceServiceHandlerServer in Hrt.
    repeat (apply elem_of_cons in Hrt as [->|Hrt]; [first [discriminate Hp|reflexivity]|]).
    by apply not_elem_of_nil in Hrt.
  - intros md body form msg Hmd Hb Hd Hf Hp.
    pose proof (Populate_CreateResource_filter _ _ _ _ Hp ltac:(set_solver)) as Hr. cbn in Hr.
    unfold serve_local. rewrite run_bind. unfold lift. rewrite Hmd. unfold attempt at 1. cbn beta iota.
    rewrite run_bind. unfold attempt, local_request_CreateResource. rewrite run_bind.
    unfold lift at 1, decode_body. rewrite Hb. cbn. rewrite Hd. rewrite run_bind.
    unfold lift at 1, populate. rewrite Hf. cbn. rewrite Hp. cbn.
    unfold rpc_CreateResource. rewrite Hr. done.
Qed.
End refusals.

(** ** The middlewares *)

Section middlewares.
Context {W : Type}.
Variables (log_request : http_Request → Z → option string → W → W)
  (log_Error : string → error → W → W).

Lemma underlying_writes wr ws : underlying (foldl write_to wr ws) = underlying wr ++ ws.
Proof.
  revert wr. induction ws as [|x ws IH]; intros wr; cbn [foldl]; [by rewrite app_nil_r|].
  rewrite IH. destruct x; cbn [write_to WriteHeader Write underlying]; by rewrite <- (assoc_L (++)).
Qed.

(** The logger passes on what the handler answers; a request whose body cannot
    be read is answered with nothing, which the client sees as a success. *)
Lemma requestLogger_transparent next req wr w :
  match rq_Body req with
  | Ok _ => (requestLogger log_request log_Error next req wr w).1 = (next req wr w).1
  | Err _ => (requestLogger log_request log_Error next req wr w).1 = Ok (wr, [])
  | Panic _ => True
  end.
Proof.
  unfold requestLogger. destruct (rq_Body req); [|done..].
  destruct (next req wr w) as [[[wr' ws]|e|s] w1]; cbn [fst]; [|done..].
  by rewrite underlying_writes.
Qed.
End middlewares.

(** ** Witnesses *)

Section witnesses.
#[local] Existing Instance demo_proto.
#[local] Existing Instance demo_order.

(** A body is the name of a resource, the configs of an update, the params of an
    action; the query is not used. *)
Definition demo_decode {A} (f : string → A) (body : string) : decoded A :=
  if decide (body = "") then DecodeEOF else DecodeOk (f body).

#[local] Instance demo_gateway : GatewayRuntime.
Proof.
  refine {|
    Decode_Resource := demo_decode (λ name, Some (mkPbResource "" "firehose" name "goto" None None None
      (Some (mkPbSpec (Some "{}") [])) None "" ""));
    Decode_UpdateResource := demo_decode (λ c, mkUpdateReq "other" (Some (mkPbSpec (Some c) [])) None false);
    Decode_Params := demo_decode (λ p, Some p : option Value);
    Decode_Module := demo_decode (λ _, None);
    Decode_UpdateModule := demo_decode (λ c, mkUpdateModuleReq "" (Some c : option Value));
    runtime_String := Ok;
    Populate_ListResources _ msg _ := Ok msg;
    Populate_CreateResource _ msg _ := Ok msg;
    Populate_ApplyAction _ msg _ := Ok msg;
    Populate_ListModules _ msg _ := Ok msg;
    AnnotateIncomingContext req annotator := Ok (annotator req);
    HTTPError err := [inl 500; inr (error_string err)];
    ForwardResponseMessage r := [inl 200];
  |}.
  - by intros req annotator md [= <-].
  - done.
  - by intros filter msg form msg' [= <-].
  - by intros filter msg form msg' [= <-].
Defined.

Definition demo_http (user body : string) : http_Request :=
  mkHTTP "POST" "/v1beta1/resources" {[ "User-Id" := [user] ]} (Ok body) (Ok ∅).

Definition demo_server : ResourceServiceServer (gmap string Resource) :=
  LogWrapper (λ _ _ w, w) (NewAPIServer demo_api).

(** A create request of a user is answered by the call. *)
Lemma http_writes_are_grpc_calls_witness :
  ∃ md msg, GetUserIdentifier md = Ok "jane" ∧ is_Some (crq_Resource msg) ∧
    serve_local (local_request_CreateResource demo_server) (demo_http "jane" "a") ∅ ∅ =
      answered ResourceReply (srv_CreateResource demo_server md msg ∅).
Proof.
  destruct (proj1 (http_writes_are_grpc_calls demo_server (demo_http "jane" "a") ∅ ∅))
    as [H|(md & msg & Hmd & Hd & H)].
  - exfalso. destruct H as [(err & H & _)|(s & H)]; apply (f_equal fst) in H; vm_compute in H; discriminate H.
  - exists md, msg. injection Hmd as <-. injection Hd as Hd.
    split; [reflexivity|]. split; [rewrite <- Hd; eexists; reflexivity|exact H].
Defined.

Lemma http_refusals_witness :
  turned_away (λ _ _ w, w) ∅ (serve_local (local_request_UpdateResource demo_server) (demo_http " " "c")
    {[ "urn" := "orn:a" ]} ∅) ∧
  serve_local (local_request_CreateResource demo_server) (demo_http "jane" "") ∅ ∅ =
    (Panic "nil pointer dereference", ∅).
Proof.
  split.
  - apply (proj1 (http_refusals (λ _ _ w, w) demo_api (demo_http " " "c") {[ "urn" := "orn:a" ]} ∅)).
    split; [reflexivity|]. intros k Hk. unfold demo_http in Hk. cbn [rq_Header] in Hk.
    rewrite dom_singleton_L in Hk. apply elem_of_singleton in Hk as ->. reflexivity.
  - exact (proj2 (proj2 (http_refusals (λ _ _ w, w) demo_api (demo_http "jane" "") ∅ ∅))
      (request_metadata (demo_http "jane" "")) "" ∅ (mkCreateReq None false)
      eq_refl eq_refl eq_refl eq_refl eq_refl).
Defined.
End witnesses.
