(* ===== verification/Cli.v ===== *)
(** * Cli: the client commands of [cli]

    The commands of [cli/resource.go] and [cli/module.go] with the helpers of
    [client.go], [utils.go] and [display.go], over the handlers of Server.v.  A
    command takes the values of its flags.  Files, the terminal, dialling and the
    encoders of the output formats are parameters ([Terminal], [Formats]); the
    spinner is left out.  A panic in a unary handler is recovered by the server
    (the interceptor of [internal/server/server.go]). *)

From stdpp Require Import pretty.
From Stdlib Require Import Ascii.
From S2P Require Import Prelude GoLib Errors Resource Module Json Service Server.

#[local] Open Scope Z_scope.

(** ** Parameters *)

(** What a command reads and writes. *)
Class Terminal (W : Type) : Type := {
  ReadFile : string → io W string;
  stdout : string → W → W;
  (** [fmt.Printf(format)] without arguments *)
  Sprintf0 : string → string;
  (** [grpc.DialContext] *)
  DialContext : string → Duration → io W ();
}.

(** What a command displays. *)
Inductive shown {PJ : ProtoJSON} : Type :=
  | ShResource (r : pbResource)
  | ShResources (l : list pbResource)
  | ShRevisions (l : list pbRevision)
  | ShModule (m : pbModule)
  | ShChunk (data : string)
  | ShNil.

(** Protobuf's JSON for files, and the encoders of the output. *)
Class Formats {PJ : ProtoJSON} : Type := {
  YAMLToJSON : string → go string;
  protojson_Resource : string → go pbResource;
  protojson_Spec : string → go pbSpec;
  protojson_Value : string → go Value;
  protojson_Module : string → go pbModule;
  json_Marshal : shown → go string;
  json_Indent : shown → go string;
  toml_Encode : shown → go string;
  yaml_Encode : json → go string;
  printer_Table : list (list string) → string;
  Fprintln : shown → string;
  (** [AsTime().String()] *)
  time_String : Time → string;
  GetStringValue : option Value → string;
}.

(** ** [utils.go] *)

(** [filepath.Ext]: from the last dot of the last element. *)
Fixpoint ext_rev (rev_path acc : list ascii) : list ascii :=
  match rev_path with
  | [] => []
  | c :: p =>
      if Ascii.eqb c "/" then []
      else if Ascii.eqb c "." then c :: acc else ext_rev p (c :: acc)
  end.

Definition filepath_Ext (path : string) : string := str (ext_rev (reverse (chars path)) []).

Definition newline : string := String "010" "".

Section cli.
Context {GJ : GoJSON} {PJ : ProtoJSON} {FM : Formats} {MR : MapRange} {W : Type} {TM : Terminal W}.

(** [v] is what [unmarshal] makes of the file. *)
Definition parseFile {A} (unmarshal : string → go A) (filePath : string) : io W A :=
  content ← ReadFile filePath;
  let wrapped what := λ err, EWrap (what +:+ error_string err) err in
  let ext := filepath_Ext filePath in
  if decide (ext = ".json") then
    lift (on_err (unmarshal content) (wrapped "invalid json: "))
  else if decide (ext ∈ [".yaml"; ".yml"]) then
    j ← lift (on_err (YAMLToJSON content) (wrapped "invalid yaml: "));
    lift (on_err (unmarshal j) (wrapped "invalid yaml: "))
  else throw (ENew "unsupported file type").

Definition print (s : string) : io W () := λ w, (Ok tt, stdout s w).
Definition println (s : string) : io W () := print (s +:+ newline).

(** [fatalExitf] gives the message of the error to [Printf] as its format; the
    result is the exit status (2: a panic). *)
Definition handleErr (fn : io W ()) : W → Z * W := λ w,
  match fn w with
  | (Ok _, w) => (0, w)
  | (Err err, w) => (1, stdout (Sprintf0 (error_string err +:+ newline)) w)
  | (Panic _, w) => (2, w)
  end.

(** ** [display.go] *)

Definition FormatFn : Type := shown → io W ().

Definition print_encoded (encode : shown → go string) : FormatFn := λ v,
  s ← lift (encode v);
  print s.

Definition JSONFormat : FormatFn := print_encoded json_Indent.
Definition TOMLFormat : FormatFn := print_encoded toml_Encode.

Definition jsonConvert (v : shown) : go json :=
  data ← json_Marshal v;
  json_parse data.

Definition YAMLFormat : FormatFn := print_encoded (λ v, val ← jsonConvert v; yaml_Encode val).

Definition GoFormat : FormatFn := λ v, println (Fprintln v).

Definition Display (format : string) (v : shown) (prettyFormatter : option FormatFn) : io W () :=
  let format := ToLower (TrimSpace format) in
  let formatter :=
    if decide (format = "json") then Some JSONFormat
    else if decide (format ∈ ["yaml"; "yml"]) then Some YAMLFormat
    else if decide (format = "toml") then Some TOMLFormat
    else if decide (format ∈ ["pretty"; "human"]) then Some (default GoFormat prettyFormatter)
    else None in
  match formatter with
  | None => throw (Errorf ("--format value '" +:+ format +:+ "' is not valid"))
  | Some formatter => formatter v
  end.

Definition table (report : list (list string)) : io W () := print (printer_Table report).

(** ** [client.go] *)

Record client_flags := mkFlags {
  flagEntropyHost : string;
  flagDialTimeout : Duration;
  flagOutFormat : string;
}.

(** The metadata that gRPC sends with a call of a context without outgoing
    metadata. *)
Variable grpc_headers : gmap string (list string).
(** The handlers of the server at the other end. *)
Variable server : ResourceServiceServer W.
Variable modules : ModulesAPI W.

Definition client_ctx : option (gmap string (list string)) := Some grpc_headers.

(** A unary call: a panic of the handler is recovered. *)
Definition unary {A} (call : io W A) : io W A := λ w,
  match call w with
  | (Panic s, w) => (Err (EStatus "Internal" s), w)
  | r => r
  end.

Definition createResourceServiceClient (flags : client_flags) : io W (ResourceServiceServer W) :=
  _ ← DialContext (flagEntropyHost flags) (flagDialTimeout flags);
  mret server.

Definition createModuleServiceClient (flags : client_flags) : io W (ModulesAPI W) :=
  _ ← DialContext (flagEntropyHost flags) (flagDialTimeout flags);
  mret modules.

(** ** The validation that the generated code does

    No field of these messages has a rule, and [structpb] and [timestamppb]
    have no validator. *)

Definition embedded (field : string) (errs : list string) : list string :=
  match errs with [] => [] | _ => [field +:+ ": embedded message failed validation"] end.

Definition validate_Dependency (d : pbDependency) : list string := [].

Definition validate_Spec (s : pbSpec) : list string :=
  concat (imap (λ i d, embedded ("Dependencies[" +:+ pretty i +:+ "]") (validate_Dependency d))
            (pb_Dependencies s)).

Definition validate_UpdateResourceRequest (r : UpdateResourceRequest) : list string :=
  match urq_NewSpec r with None => [] | Some s => embedded "NewSpec" (validate_Spec s) end.

Definition validate_ApplyActionRequest (r : ApplyActionRequest) : list string := [].

Definition validate_GetLogRequest (urn : string) (filter : gomap string) : list string := [].

Definition validate_Module (m : pbModule) : list string := [].

Definition ValidateAll (errs : list string) : go () :=
  match errs with [] => Ok tt | _ => Err (ENew (Join errs "; ")) end.

(** ** [resource.go] *)

(** [r.State.Status.String()]; a nil state is dereferenced. *)
Definition status_cell (r : pbResource) : go string :=
  match pb_State r with
  | Some s => Ok (Status_String (pb_Status s))
  | None => Panic "nil pointer dereference"
  end.

Definition resource_row (r : pbResource) : go (list string) :=
  status ← status_cell r;
  Ok [pb_Urn r; pb_Name r; pb_Kind r; pb_Project r; status].

Fixpoint resource_rows (l : list pbResource) : go (list (list string)) :=
  match l with
  | [] => Ok []
  | r :: l => row ← resource_row r; rows ← resource_rows l; Ok (row :: rows)
  end.

Definition resource_header : list string := ["URN"; "NAME"; "KIND"; "PROJECT"; "STATUS"].

Definition cmdViewResource (flags : client_flags) (kind project : string) (pageNum pageSize : Z)
    (urn : string) : io W () :=
  client ← createResourceServiceClient flags;
  if bool_decide (urn = "") then
    res ← unary (srv_ListResources client (mkListReq project kind None false pageSize pageNum));
    let resources := lrs_Resources res in
    Display (flagOutFormat flags) (ShResources resources) (Some (λ _,
      rows ← lift (resource_rows resources);
      _ ← println ("Total: " +:+ pretty (Z.of_nat (length rows)));
      table (resource_header :: rows)))
  else
    r ← unary (srv_GetResource client urn);
    Display (flagOutFormat flags) (ShResource r) (Some (λ _,
      row ← lift (resource_row r);
      table [resource_header; row])).

(** What the pretty format prints after a request. *)
Definition notice (lines : list string) : option FormatFn := Some (λ _, for_each println lines).

Definition cmdCreateResource (flags : client_flags) (file : string) : io W () :=
  reqBody ← parseFile protojson_Resource file;
  client ← createResourceServiceClient flags;
  resource ← unary (srv_CreateResource client client_ctx (mkCreateReq (Some reqBody) false));
  Display (flagOutFormat flags) (ShResource resource)
    (notice ["Resource created with URN '" +:+ pb_Urn resource +:+ "'.";
             "Use 'entropy resource get <urn>' to view resource."]).

Definition cmdEditResource (flags : client_flags) (file urn : string) : io W () :=
  newSpec ← parseFile protojson_Spec file;
  let reqBody := mkUpdateReq urn (Some newSpec) None false in
  _ ← lift (ValidateAll (validate_UpdateResourceRequest reqBody));
  client ← createResourceServiceClient flags;
  resource ← unary (srv_UpdateResource client client_ctx reqBody);
  Display (flagOutFormat flags) (ShResource resource)
    (notice ["Update request placed successfully.";
             "Use 'entropy resource get <urn>' to view status."]).

(** Without a file the params are a value without a kind: [zero_value]. *)
Variable zero_value : Value.

Definition cmdApplyAction (flags : client_flags) (urn file actionName : string) : io W () :=
  params ← (if bool_decide (file = "") then mret zero_value else parseFile protojson_Value file);
  let reqBody := mkApplyReq urn actionName (Some params) None false in
  _ ← lift (ValidateAll (validate_ApplyActionRequest reqBody));
  client ← createResourceServiceClient flags;
  resource ← unary (srv_ApplyAction client client_ctx reqBody);
  Display (flagOutFormat flags) (ShResource resource)
    (notice ["Action request placed successfully.";
             "Use 'entropy resource get <urn>' to view status."]).

Definition cmdDeleteResource (flags : client_flags) (urn : string) : io W () :=
  client ← createResourceServiceClient flags;
  _ ← unary (srv_DeleteResource client urn);
  Display (flagOutFormat flags) ShNil (notice ["Delete request placed successfully"]).

Definition revision_row (rev : pbRevision) : list string :=
  [pbr_Id rev; pbr_Urn rev; time_String (AsTime (pbr_CreatedAt rev))].

Definition cmdListRevisions (flags : client_flags) (urn : string) : io W () :=
  client ← createResourceServiceClient flags;
  revisions ← unary (srv_GetResourceRevisions client urn);
  Display (flagOutFormat flags) (ShRevisions revisions) (Some (λ _,
    let report := ["ID"; "URN"; "CREATED AT"] :: (revision_row <$> revisions) in
    _ ← table report;
    println ("Total: " +:+ pretty (Z.of_nat (length report) - 1)))).

(** [filters[keyValue[0]] = keyValue[1]] *)
Definition filter_entry (f : string) : go (string * string) :=
  match Split f ":"%char with
  | k :: v :: _ => Ok (k, v)
  | _ => Panic "index out of range"
  end.

Definition parse_filters (filter : list string) : go (gmap string string) :=
  res_fold (λ acc f, kv ← filter_entry f; Ok (<[kv.1 := kv.2]> acc)) ∅ filter.

(** A chunk is displayed as it arrives; what [Display] returns is dropped.  The
    end of the stream is no error, any other failure is one. *)
Definition cmdStreamLogs (flags : client_flags) (urn : string) (filter : list string) : io W () :=
  client ← createResourceServiceClient flags;
  filters ← lift (parse_filters filter);
  _ ← lift (ValidateAll (validate_GetLogRequest urn (Some filters)));
  catch (srv_GetLog client (λ chunk,
           _ ← attempt (Display (flagOutFormat flags) (ShChunk (Data chunk))
                  (Some (λ _, println (Data chunk))));
           mret tt) None urn (Some filters))
    (λ err, EWrap ("failed to read stream: " +:+ error_string err) err).

(** ** [module.go] *)

Definition cmdModuleCreate (flags : client_flags) (filePath : string) : io W () :=
  reqBody ← parseFile protojson_Module filePath;
  _ ← lift (ValidateAll (validate_Module reqBody));
  client ← createModuleServiceClient flags;
  module ← unary (rpc_CreateModule client (Some reqBody));
  Display (flagOutFormat flags) (ShModule module)
    (notice ["Module created with URN '" +:+ pbm_Urn module +:+ "'.";
             "Use 'entropy module view <urn>' to view module."]).

Definition cmdModuleUpdate (flags : client_flags) (filePath urn : string) : io W () :=
  reqBody ← parseFile protojson_Module filePath;
  _ ← lift (ValidateAll (validate_Module reqBody));
  client ← createModuleServiceClient flags;
  module ← unary (rpc_UpdateModule client urn (pbm_Configs reqBody));
  Display (flagOutFormat flags) (ShModule module)
    (notice ["Module updated with URN '" +:+ pbm_Urn module +:+ "'.";
             "Use 'entropy module view <urn>' to view module."]).

Definition cmdModuleView (flags : client_flags) (urn : string) : io W () :=
  client ← createModuleServiceClient flags;
  module ← unary (rpc_GetModule client urn);
  Display (flagOutFormat flags) (ShModule module) (Some (λ _,
    table [["URN"; "NAME"; "PROJECT"; "Config"];
           [pbm_Urn module; pbm_Name module; pbm_Project module; GetStringValue (pbm_Configs module)]])).
End cli.
