(* ===== verification/CliProps.v ===== *)
(** * CliProps: what a client command can do

    The client sends no metadata with its calls, but the handlers that write
    want to know the user ([GetUserIdentifier]). *)

From S2P Require Import Prelude GoLib Errors Resource Module Json Service Server ServerProps Cli.
From Stdlib Require Import Ascii.

#[local] Open Scope Z_scope.

(** What reading files, dialling, printing and logging leave alone. *)
Class TerminalFrame {W} (R : relation W) {TM : Terminal W} : Prop := {
  frame_ReadFile : ∀ f, effects R (ReadFile f);
  frame_DialContext : ∀ a d, effects R (DialContext a d);
  frame_stdout : ∀ s w, R w (stdout s w);
}.

Section refused.
Context {GJ : GoJSON} {PJ : ProtoJSON} {FM : Formats} {MR : MapRange} {W : Type} {TM : Terminal W}.
Variables (R : relation W).
Context {PO : PreOrder R} {TF : TerminalFrame R}.
Implicit Types (w : W).

(** A call that fails, whatever the world. *)
Definition refused {A} (m : io W A) : Prop :=
  effects R m ∧ ∀ w a, (m w).1 ≠ Ok a.

Lemma refused_bind {A B} (m : io W A) (f : A → io W B) :
  effects R m → (∀ a, refused (f a)) → refused (m ≫= f).
Proof using PO.
  intros Hm Hf. split; [apply effects_bind; [exact _|done|apply Hf]|]. intros w b.
  rewrite run_bind. destruct (m w) as [[a|e|s] w1]; [apply Hf|done..].
Qed.

Lemma refused_bind_l {A B} (m : io W A) (f : A → io W B) : refused m → refused (m ≫= f).
Proof.
  intros [Hm Hn]. split.
  - intros w. specialize (Hm w). specialize (Hn w). rewrite run_bind.
    destruct (m w) as [[a|e|s] w1]; [by destruct (Hn a)|done..].
  - intros w b. specialize (Hn w). rewrite run_bind.
    destruct (m w) as [[a|e|s] w1]; [by destruct (Hn a)|done..].
Qed.

Lemma refused_catch {A} (m : io W A) h : refused m → refused (catch m h).
Proof.
  intros [Hm Hn]. split; [by apply effects_catch|]. intros w a. specialize (Hn w a). unfold catch.
  by destruct (m w) as [[?|?|?] ?].
Qed.

Lemma refused_lift {A} (r : go A) : (∀ a, r ≠ Ok a) → refused (lift r).
Proof using PO. intros H. split; [auto with effects|]. intros w a. apply H. Qed.

Lemma refused_unary {A} (m : io W A) : refused m → refused (unary m).
Proof.
  intros [Hm Hn]. split; intros w; [specialize (Hm w)|intros a; specialize (Hn w a)]; unfold unary;
    by destruct (m w) as [[?|?|?] ?].
Qed.

Lemma refused_logged {A} log msg (m : io W A) :
  (∀ s e w, R w (log s e w)) → refused m → refused (logged log msg m).
Proof using PO.
  intros Hl [Hm Hn]. split; intros w; [specialize (Hm w)|intros a; specialize (Hn w a)]; unfold logged;
    destruct (m w) as [[?|?|?] ?]; cbn in *; try done. by etrans.
Qed.

Lemma effects_parseFile {A} (unmarshal : string → go A) file : effects R (parseFile unmarshal file).
Proof using All.
  unfold parseFile. apply effects_bind; [exact _|apply frame_ReadFile|]. intros c.
  repeat case_decide; effects_tac.
Qed.

Lemma refused_client {A} server flags (f : ResourceServiceServer W → io W A) :
  refused (f server) → refused (createResourceServiceClient server flags ≫= f).
Proof using All.
  intros [Hf Hn]. pose proof (frame_DialContext (flagEntropyHost flags) (flagDialTimeout flags)) as Hd.
  split; intros w; [specialize (Hd w)|intros a]; unfold createResourceServiceClient; rewrite !run_bind;
    destruct (DialContext _ _ w) as [[[]|e|s] w1]; try done; cbn in *; [|apply Hn].
  etrans; [exact Hd|apply Hf].
Qed.

(** A command that fails exits with a status that says so. *)
Lemma handleErr_refused (m : io W ()) w :
  refused m → (handleErr m w).1 ≠ 0 ∧ R w (handleErr m w).2.
Proof using All.
  intros [Hm Hn]. specialize (Hm w). specialize (Hn w tt). unfold handleErr.
  destruct (m w) as [[[]|e|s] w1]; cbn in *; [done| |done]. split; [done|].
  etrans; [exact Hm|apply frame_stdout].
Qed.

Section server.
Variables (grpc_headers : gmap string (list string)) (log_Error : string → error → W → W)
  (svc : ResourceService W) (zero_value : Value).
Hypothesis no_user : grpc_headers !! userIDHeader = None.
Hypothesis frame_log : ∀ s e w, R w (log_Error s e w).

#[local] Notation server := (LogWrapper log_Error (NewAPIServer svc)).
#[local] Notation ctx := (client_ctx grpc_headers).

Lemma anonymous {A} (f : string → io W A) : refused (user ← rpc (lift (GetUserIdentifier ctx)); f user).
Proof using PO no_user.
  apply refused_bind_l, refused_catch, refused_lift. unfold GetUserIdentifier, client_ctx.
  by rewrite no_user.
Qed.

Lemma create_refused request : refused (srv_CreateResource server ctx request).
Proof using PO no_user frame_log.
  apply refused_logged; [done|]. cbn. unfold rpc_CreateResource.
  apply refused_bind; [unfold rpc; auto with effects|]. intros res. apply anonymous.
Qed.

Lemma update_refused request : refused (srv_UpdateResource server ctx request).
Proof using PO no_user frame_log.
  apply refused_logged; [done|]. cbn. unfold rpc_UpdateResource.
  apply refused_bind; [unfold rpc; auto with effects|]. intros res. apply anonymous.
Qed.

Lemma action_refused request : refused (srv_ApplyAction server ctx request).
Proof using PO no_user frame_log.
  apply refused_logged; [done|]. cbn. unfold rpc_ApplyAction.
  apply refused_bind; [auto with effects|]. intros res. apply anonymous.
Qed.

(** C31. The client cannot write.  gRPC does not send a user-id header of its own
    and the commands do not add one, so whatever the flags, the file and the
    state of the server are, the create, edit and action commands exit with a
    failure and never reach the resource service: they read the file, dial,
    print and have the error logged, and nothing else changes. *)
Theorem client_cannot_write flags file urn actionName w :
  let create := cmdCreateResource grpc_headers server flags file in
  let edit := cmdEditResource grpc_headers server flags file urn in
  let action := cmdApplyAction grpc_headers server zero_value flags urn file actionName in
  Forall (λ cmd, (handleErr cmd w).1 ≠ 0 ∧ R w (handleErr cmd w).2) [create; edit; action].
Proof using All.
  intros create edit action. repeat (apply Forall_cons; split); [..|constructor]; apply handleErr_refused.
  - apply refused_bind; [apply effects_parseFile|intros r]. apply refused_client.
    apply refused_bind_l, refused_unary, create_refused.
  - apply refused_bind; [apply effects_parseFile|intros r].
    apply refused_bind; [auto with effects|intros _]. apply refused_client.
    apply refused_bind_l, refused_unary, update_refused.
  - apply refused_bind; [case_bool_decide; [auto with effects|apply effects_parseFile]|intros r].
    apply refused_bind; [auto with effects|intros _]. apply refused_client.
    apply refused_bind_l, refused_unary, action_refused.
Qed.
End server.
End refused.

(** ** A terminal and a service that counts its calls *)

Section witnesses.
#[local] Existing Instance demo_proto.
#[local] Existing Instance demo_gojson.
#[local] Existing Instance range_sorted.

Definition demo_terminal : Type := list string * Z.

Definition counted {A} : io demo_terminal A := λ w, (Err (ENew "not there"), (w.1, w.2 + 1)).

Definition counting_service : ResourceService demo_terminal := {|
  rs_GetResource _ := counted;
  rs_ListResources _ _ := counted;
  rs_CreateResource _ _ := counted;
  rs_UpdateResource _ _ _ := counted;
  rs_DeleteResource _ := counted;
  rs_ApplyAction _ _ _ := counted;
  rs_GetLog _ _ := counted;
  rs_GetRevisions _ := counted;
|}.

#[local] Instance demo_tty : Terminal demo_terminal := {|
  ReadFile _ := mret "{}";
  stdout s w := (w.1 ++ [s], w.2);
  Sprintf0 s := s;
  DialContext _ _ := mret tt;
|}.

#[local] Instance demo_formats : Formats := {|
  YAMLToJSON := Ok;
  protojson_Resource _ := Ok (mkPbResource "" "firehose" "a" "goto" None None None
    (Some (mkPbSpec (Some "{}") [])) None "" "");
  protojson_Spec _ := Ok (mkPbSpec (Some "{}") []);
  protojson_Value := Ok;
  protojson_Module _ := Ok (mkPbModule "" "firehose" "goto" None None None);
  json_Marshal _ := Ok "null";
  json_Indent _ := Ok "null";
  toml_Encode _ := Ok "";
  yaml_Encode _ := Ok "";
  printer_Table _ := "";
  Fprintln _ := "";
  time_String _ := "";
  GetStringValue v := default "" v;
|}.

Definition same_calls : relation demo_terminal := λ w w', w'.2 = w.2.

#[local] Instance same_calls_preorder : PreOrder same_calls.
Proof. split; [done|]. unfold same_calls. intros w1 w2 w3 H1 H2. by rewrite H2. Qed.

#[local] Instance demo_tty_frame : TerminalFrame same_calls.
Proof. by split. Qed.

Definition demo_flags : client_flags := mkFlags "localhost:8080" (5 * Second) "pretty".

Definition demo_server : ResourceServiceServer demo_terminal :=
  LogWrapper (λ _ _ w, w) (NewAPIServer counting_service).

(** Creating fails with a message and without a call; deleting makes its call. *)
Lemma client_cannot_write_witness :
  let create := handleErr (cmdCreateResource ∅ demo_server demo_flags "a.json") ([], 0) in
  let delete := handleErr (cmdDeleteResource demo_server demo_flags "orn:a") ([], 0) in
  create.1 ≠ 0 ∧ create.2.2 = 0 ∧ length create.2.1 = 1%nat ∧ delete.2.2 = 1.
Proof.
  intros create delete.
  assert ((∅ : gmap string (list string)) !! userIDHeader = None) as Hn by reflexivity.
  assert (∀ (s : string) (e : error) (w : demo_terminal), same_calls w w) as Hl by reflexivity.
  pose proof (client_cannot_write same_calls ∅ (λ _ _ w, w) counting_service "null" Hn Hl
    demo_flags "a.json" "orn:a" "stop" ([], 0)) as H.
  apply Forall_cons in H as [[Hc Hs] _].
  split; [exact Hc|]. split; [exact Hs|]. split; vm_compute; reflexivity.
Defined.
End witnesses.
