(* ===== verification/StepMachine.v ===== *)
(** * StepMachine: drivers that take one pending step per sync

    The drivers keep the steps of a planned action in the module data of the
    resource's state.  A sync takes the first and leaves the rest; a sync that
    finds none completes the resource.  What a sequence of syncs does then
    follows from what one sync does, for every such driver alike. *)

From S2P Require Import Prelude GoLib Errors Resource Module.

(** The resource with the state a sync left. *)
Definition after (st : State) (exr : ExpandedResource) : ExpandedResource :=
  mkExpanded (Resource.set_State st (exr_Resource exr)) (exr_Dependencies exr).

Definition state_of (exr : ExpandedResource) : State := res_State (exr_Resource exr).

Lemma after_after st st' exr : after st (after st' exr) = after st exr.
Proof. done. Qed.

(** A state that is written with the time of writing. *)
Definition leave {W} (now : W → Time) (st : Time → State) : io W State := λ w, (Ok (st (now w)), w).

Section syncs.
Context {W : Type} (sync : ExpandedResource → io W State).

(** A number of syncs, each on the state that the one before left. *)
Fixpoint syncs (n : nat) (exr : ExpandedResource) : io W ExpandedResource :=
  match n with
  | O => mret exr
  | S n => st ← sync exr; syncs n (after st exr)
  end.
End syncs.

(** [inv] holds of the resource as long as only syncs touch it; [pend steps t]
    is the state with [steps] left, written when the clock read [t]. *)
Section machine.
Context {W : Type} (sync : ExpandedResource → io W State) (now : W → Time).
Context (inv : ExpandedResource → Prop) (ok : string → Prop).
Context (pend : list string → Time → State) (step : string → io W ()) (finish : io W State).
Hypothesis inv_after : ∀ exr steps t, inv exr → inv (after (pend steps t) exr).
Hypothesis sync_takes : ∀ exr s steps t w,
  inv exr → Forall ok (s :: steps) → state_of exr = pend (s :: steps) t →
  sync exr w = (_ ← step s; leave now (pend steps)) w.
Hypothesis sync_ends : ∀ exr t w, inv exr → state_of exr = pend [] t → sync exr w = finish w.

(** One sync more than there are steps takes every step in order and then
    finishes; a step that fails ends the run with its error. *)
Lemma machine_runs steps exr t w :
  inv exr → Forall ok steps → state_of exr = pend steps t →
  syncs sync (S (length steps)) exr w =
  (_ ← for_each step steps; st ← finish; mret (after st exr)) w.
Proof.
  revert exr t w. induction steps as [|s steps IH]; intros exr t w Hi Hok Hst.
  - change ((st ← sync exr; mret (after st exr)) w = (st ← finish; mret (after st exr)) w).
    by rewrite !run_bind, (sync_ends _ _ _ Hi Hst).
  - change (syncs sync (S (length (s :: steps))) exr w) with
      ((st ← sync exr; syncs sync (S (length steps)) (after st exr)) w).
    rewrite run_bind, (sync_takes _ _ _ _ _ Hi Hok Hst). cbn [for_each]. rewrite !run_bind.
    destruct (step s w) as [[[]|e|m] w1]; [|done..].
    unfold leave. cbv beta iota. rewrite (IH (after (pend steps (now w1)) exr) (now w1) w1);
      [done|by apply inv_after|by inversion Hok|done].
Qed.

(** On the way the steps that were taken are the ones that are gone. *)
Lemma machine_states steps exr t w n exr' w' :
  inv exr → Forall ok steps → state_of exr = pend steps t → (n ≤ length steps)%nat →
  syncs sync n exr w = (Ok exr', w') → ∃ t', state_of exr' = pend (drop n steps) t'.
Proof.
  revert exr t w n. induction steps as [|s steps IH]; intros exr t w n Hi Hok Hst Hn H;
    (destruct n as [|n]; [injection H as <- <-; by exists t|]); cbn in Hn; [lia|].
  cbn [syncs] in H. rewrite run_bind, (sync_takes _ _ _ _ _ Hi Hok Hst), run_bind in H.
  destruct (step s w) as [[[]|e|m] w1]; [|done..].
  eapply (IH (after (pend steps (now w1)) exr) (now w1) w1 n);
    [by apply inv_after|by inversion Hok|done|lia|done].
Qed.
End machine.
