(* ===== verification/Validator.v ===== *)
(** * Validator: [pkg/validator]

    Checks against an embedded JSON schema and against the [validate] tags of a
    struct.  The schema library is [JSONSchema] (Module.v), the tag library the
    parameter [TagValidator]. *)

From S2P Require Import Prelude GoLib Errors Resource Module.

(** [FromJSONSchema]: the schema is compiled once; a bad one makes every check
    fail. *)
Definition FromJSONSchema {JS : JSONSchema} (schemaVal : string) (jsonVal : RawMessage) : go () :=
  match NewSchema schemaVal with
  | Err schemaErr => Err (EErr (WithCausef ErrInternal (error_string schemaErr)))
  | Panic s => Panic s
  | Ok schema =>
      match schema_Validate schema jsonVal with
      | Err err => Err (EErr (WithCausef ErrInternal (error_string err)))
      | Panic s => Panic s
      | Ok [] => Ok tt
      | Ok errorStrings => Err (EErr (WithMsgf ErrInvalid (Join errorStrings (String (b 10) ""))))
      end
  end.

(** What [validator.New().Struct] returns: a pointer to field errors (field and
    tag), or any other error. *)
Inductive tag_error := FieldErrors (fields : list (string * string)) | OtherError (text : string).

Class TagValidator (A : Type) : Type := { validate_tags : A → option tag_error }.

Definition TaggedStruct {A} `{TV : !TagValidator A} (structVal : A) : go () :=
  match validate_tags structVal with
  | None => Ok tt
  | Some (FieldErrors fields) =>
      Err (EErr (WithCausef (WithMsgf ErrInvalid "invalid values for fields")
        (Join ((λ f, f.1 +:+ ": " +:+ f.2) <$> fields) ", ")))
  | Some (OtherError text) => Err (EErr (WithCausef ErrInvalid text))
  end.

(** A document passes when the schema compiles and lists no error for it. *)
Definition passes {JS : JSONSchema} (schemaVal : string) (jsonVal : RawMessage) : Prop :=
  ∃ s, NewSchema schemaVal = Ok s ∧ schema_Validate s jsonVal = Ok [].

Lemma FromJSONSchema_Ok {JS : JSONSchema} schemaVal jsonVal :
  FromJSONSchema schemaVal jsonVal = Ok tt ↔ passes schemaVal jsonVal.
Proof.
  unfold FromJSONSchema, passes. destruct (NewSchema schemaVal) as [s|e|p];
    [|by split; [|intros (? & ? & _)]..].
  destruct (schema_Validate s jsonVal) as [[|]|e|p] eqn:E; split; try done; eauto;
    by intros (s' & [= <-] & H); rewrite E in H.
Qed.

Lemma TaggedStruct_Ok {A} `{TV : !TagValidator A} (v : A) :
  TaggedStruct v = Ok tt ↔ validate_tags v = None.
Proof. unfold TaggedStruct. destruct (validate_tags v) as [[]|]; by split. Qed.
