(* ===== verification/Kubernetes.v ===== *)
(** * Kubernetes: [modules/kubernetes]

    The module whose resources are clusters: planning one checks the
    connection settings against the cluster and records them, with the
    tolerations and affinities of the module, as its output.  Other drivers read
    that output to reach the cluster. *)

From S2P Require Import Prelude GoLib Errors Resource Module Json Kube.

#[local] Open Scope Z_scope.

(** [k8s.io/apimachinery/pkg/version.Info] and the call that fetches it. *)
Class VersionAPI (W : Type) : Type := {
  version_Info : Type;
  Info_zero : version_Info;
  dec_Info : dec version_Info;
  enc_Info : version_Info → json;
  ServerVersion : rest_Config → io W version_Info;
  dec_enc_Info : ∀ i, dec_Info (enc_Info i) Info_zero = Ok i;
}.

Record kubeDriver := mkKubeDriver {
  TolerationMode : gomap string;
  Tolerations : gomap (option (list Toleration));
  AffinityMode : gomap string;
  Affinities : gomap NodeAffinityMatchExpressions;
}.

Definition kubeDriver_zero : kubeDriver := mkKubeDriver None None None None.
Definition Affinity_zero : NodeAffinityMatchExpressions := mkAffinity None None.
Definition Toleration_zero : Toleration := mkToleration "" "" "" "".

Section kubernetes.
Context {GJ : GoJSON} {JS : JSONSchema} {W : Type} {KA : KubeAPI W} {VA : VersionAPI W}.

(** ** [output.go] *)

Record Output := mkOutput {
  out_Configs : Kube.Config;
  ServerInfo : version_Info;
  out_Driver : kubeDriver;
}.

Definition Output_zero : Output := mkOutput Config_zero Info_zero kubeDriver_zero.

Definition dec_tolerations : dec (gomap (option (list Toleration))) :=
  dec_map None (dec_slice Toleration_zero dec_Toleration).
Definition enc_tolerations : gomap (option (list Toleration)) → json :=
  enc_map (enc_slice enc_Toleration).

Definition dec_kubeDriver : dec kubeDriver :=
  dec_record "kubernetes.kubeDriver"
    (λ d, (TolerationMode d, (Tolerations d, (AffinityMode d, (Affinities d, tt)))))
    (λ '(tm, (t, (am, (a, tt)))), mkKubeDriver tm t am a)
    [f ("toleration_mode", dec_str_map); ("tolerations", dec_tolerations);
       ("affinity_mode", dec_str_map); ("affinities", dec_map Affinity_zero dec_Affinity)].

Definition dec_Output : dec Output :=
  dec_record "kubernetes.Output"
    (λ o, (out_Configs o, (ServerInfo o, (TolerationMode (out_Driver o),
      (Tolerations (out_Driver o), (AffinityMode (out_Driver o), (Affinities (out_Driver o), tt)))))))
    (λ '(c, (i, (tm, (t, (am, (a, tt)))))), mkOutput c i (mkKubeDriver tm t am a))
    [f ("configs", dec_Config); ("server_info", dec_Info); ("toleration_mode", dec_str_map);
       ("tolerations", dec_tolerations); ("affinity_mode", dec_str_map);
       ("affinities", dec_map Affinity_zero dec_Affinity)].

Definition enc_Output (o : Output) : json :=
  obj [mem "configs" (enc_Config (out_Configs o)); mem "server_info" (enc_Info (ServerInfo o));
       mem "toleration_mode" (enc_map JStr (TolerationMode (out_Driver o)));
       mem "tolerations" (enc_tolerations (Tolerations (out_Driver o)));
       mem "affinity_mode" (enc_map JStr (AffinityMode (out_Driver o)));
       mem "affinities" (enc_map enc_Affinity (Affinities (out_Driver o)))].

(** The structs as mapstructure decodes them: fields by their names, which the
    code then puts in lower case. *)
Definition PreferenceSliceToInterfaceSlice (prefs : option (list Preference)) : any :=
  AList ((λ p, AMap (list_to_map [(ToLower "Key", AStr (pref_Key p));
                                  (ToLower "Operator", AStr (pref_Operator p));
                                  (ToLower "Values", AStrs (pref_Values p))]))
           <$> default [] prefs).

Definition WeightedPreferencesToInterfaceSlice (prefs : option (list WeightedPreference)) : any :=
  AList ((λ p, AMap (list_to_map [(ToLower "Weight", AInt (wp_Weight p));
                                  ("preference", PreferenceSliceToInterfaceSlice (wp_Preference p))]))
           <$> default [] prefs).

(** ** [driver.go] *)

(** The receiver is nil when the module's configs are null. *)
Definition kube_Output (m : option kubeDriver) (res : ExpandedResource) : io W RawMessage :=
  conf ← lift (on_err (Unmarshal dec_Config (Configs (res_Spec (exr_Resource res))) DefaultClientConfig)
           (caused (WithMsgf ErrInvalid "invalid json config value")));
  conf ← lift (Sanitise conf);
  rcc ← catch (RESTConfig conf) (caused (WithMsgf ErrInternal
          "failed to create new kube client on kube driver output"));
  let '(restConfig, conf) := rcc in
  _ ← lift (on_err (NewForConfig restConfig) (λ err,
        EErr (WithMsgf ErrInvalid ("failed to create client: " +:+ error_string err))));
  info ← catch (ServerVersion restConfig) (λ err,
        EErr (WithMsgf ErrInvalid ("failed to fetch server info: " +:+ error_string err)));
  match m with
  | None => panic "nil pointer dereference"
  | Some d => mret (MustJSON (enc_Output (mkOutput conf info d)))
  end.

Definition completed (output : RawMessage) : State :=
  mkState StatusCompleted output None None SyncResult_zero.

Definition kube_Plan (m : option kubeDriver) (res : ExpandedResource) (act : ActionRequest) :
    io W Resource :=
  let r := set_Spec (mkSpec (Params act) None) (exr_Resource res) in
  output ← kube_Output m (mkExpanded r (exr_Dependencies res));
  mret (set_State (completed output) r).

Definition kube_Sync (res : ExpandedResource) : io W State :=
  mret (completed (Resource.Output (res_State (exr_Resource res)))).

(** ** [module.go] *)

Definition kube_driver (m : option kubeDriver) : Driver W := {|
  Plan := kube_Plan m;
  Sync := kube_Sync;
  drv_Output := kube_Output m;
  Log := None;
|}.

Definition kube_factory (conf : RawMessage) : go (option kubeDriver) :=
  on_err (Unmarshal (dec_ptr kubeDriver_zero dec_kubeDriver) conf (Some kubeDriver_zero))
    (λ err, EErr (WithMsgf ErrInvalid
       ("failed to unmarshal module config: " +:+ error_string err))).

Definition kubernetes_Module : Descriptor W := mkDescriptor "kubernetes"
  [mkActionDesc CreateAction "" "" None; mkActionDesc UpdateAction "" "" None] None
  (λ conf, kd ← kube_factory conf; Ok (kube_driver kd)).
End kubernetes.

(** ** Reading the output back *)

(** An empty list is left out of an affinity. *)
Definition norm_list {A} (l : option (list A)) : option (list A) := if no_list l then None else l.

Definition norm_affinity (a : NodeAffinityMatchExpressions) : NodeAffinityMatchExpressions :=
  mkAffinity (norm_list (RequiredDuringScheduling a)) (norm_list (PreferredDuringScheduling a)).

Definition norm_driver (d : kubeDriver) : kubeDriver :=
  mkKubeDriver (TolerationMode d) (Tolerations d) (AffinityMode d)
    (match Affinities d with None => None | Some m => Some (norm_affinity <$> m) end).

Definition weights_ok (a : NodeAffinityMatchExpressions) : Prop :=
  Forall (λ p, in_bits 64 (wp_Weight p) = true) (default [] (PreferredDuringScheduling a)).

Definition driver_wf (d : kubeDriver) : Prop := map_Forall (λ _ a, weights_ok a) (gm (Affinities d)).

Section readback.
Context {GJ : GoJSON} {W : Type} {VA : VersionAPI W}.

Lemma dec_enc_strings l : dec_strings (enc_slice JStr l) None = Ok l.
Proof. apply dec_slice_enc. by apply Forall_true. Qed.

Lemma dec_enc_str_map m : dec_str_map (enc_map JStr m) None = Ok m.
Proof. by apply dec_map_enc. Qed.

Lemma dec_enc_Toleration t : dec_Toleration (enc_Toleration t) Toleration_zero = Ok t.
Proof. by destruct t. Qed.

Lemma dec_enc_Preference p : dec_Preference (enc_Preference p) Preference_zero = Ok p.
Proof.
  unfold dec_Preference, enc_Preference. pose proof (dec_enc_strings (pref_Values p)) as H.
  erewrite dec_record_obj; [|cbn [Preference_zero]; dec_fields]. by destruct p.
Qed.

Lemma dec_enc_Preferences l :
  dec_slice Preference_zero dec_Preference (enc_slice enc_Preference l) None = Ok l.
Proof. apply dec_slice_enc, Forall_true. intros p. apply dec_enc_Preference. Qed.

Lemma dec_enc_Weighted p :
  in_bits 64 (wp_Weight p) = true →
  dec_WeightedPreference (enc_WeightedPreference p) (mkWeighted 0 None) = Ok p.
Proof.
  intros Hw%ParseInt_Sprint. unfold dec_WeightedPreference, enc_WeightedPreference.
  pose proof (dec_enc_Preferences (wp_Preference p)) as H.
  erewrite dec_record_obj; [|dec_fields]. by destruct p.
Qed.

Lemma dec_enc_Affinity a :
  weights_ok a → dec_Affinity (enc_Affinity a) Affinity_zero = Ok (norm_affinity a).
Proof.
  intros Hw. destruct a as [r p]. unfold dec_Affinity, enc_Affinity, weights_ok in *. cbn in Hw.
  pose proof (dec_enc_Preferences r) as Hr.
  assert (dec_slice (mkWeighted 0 None) dec_WeightedPreference (enc_slice enc_WeightedPreference p) None
          = Ok p) as Hp.
  { apply dec_slice_enc. eapply Forall_impl; [exact Hw|]. intros x. apply dec_enc_Weighted. }
  erewrite dec_record_obj; [|cbn [concat]].
  2:{ erewrite (dec_members_omit _ _ _ _ _ _ (norm_list r, (None, tt))); [|reflexivity|..].
      - erewrite (dec_members_omit _ _ _ _ _ _ (norm_list r, (norm_list p, tt)));
          [reflexivity|reflexivity|..]; unfold norm_list; cbn; intros Hn; rewrite Hn;
          [done|dec_leaf].
      - unfold norm_list. cbn. by intros ->.
      - unfold norm_list. cbn. intros ->. dec_leaf. }
  done.
Qed.

#[local] Arguments dec_str_map : simpl never.
#[local] Arguments dec_tolerations : simpl never.
#[local] Arguments dec_Config : simpl never.
#[local] Arguments dec_Affinity : simpl never.
#[local] Arguments dec_map : simpl never.
#[local] Arguments enc_map : simpl never.

Lemma dec_enc_Output o :
  Config_wf (out_Configs o) → driver_wf (out_Driver o) →
  dec_Output (enc_Output o) Output_zero =
    Ok (mkOutput (out_Configs o) (ServerInfo o) (norm_driver (out_Driver o))).
Proof.
  intros Hc Hd. destruct o as [c i [tm t am a]]. cbn in Hc, Hd.
  pose proof (dec_enc_Config c Config_zero Hc) as H1. pose proof (dec_enc_Info i) as H2.
  pose proof (dec_enc_str_map tm) as H3. pose proof (dec_enc_str_map am) as H5.
  assert (dec_tolerations (enc_tolerations t) None = Ok t) as H4.
  { apply dec_map_enc. intros k x _. apply dec_slice_enc, Forall_true. apply dec_enc_Toleration. }
  assert (dec_map Affinity_zero dec_Affinity (enc_map enc_Affinity a) None =
          Ok (match a with None => None | Some m => Some (norm_affinity <$> m) end)) as H6.
  { rewrite (dec_map_norm _ _ _ norm_affinity).
    - destruct a as [a|]; [|done]. cbn. by rewrite (right_id_L ∅ (∪)).
    - intros k x Hx. apply dec_enc_Affinity. exact (Hd k x Hx). }
  unfold dec_Output, enc_Output. erewrite dec_record_obj; [|dec_fields]. done.
Qed.
End readback.

(** ** What decoding guarantees *)

Section decoded.
Context {GJ : GoJSON} {W : Type} {KA : KubeAPI W} {VA : VersionAPI W}.

Lemma decodes_Config : decodes Config_wf dec_Config.
Proof.
  eapply decodes_record.
  - do 12 (apply fields_ok_cons;
      [first [ apply decodes_int | apply decodes_float
             | eapply (decodes_record (λ c, in_bits 64 (MaxHistory c) = true));
                 [apply fields_ok_cons; [apply decodes_int|apply fields_ok_nil]|..];
                 [by intros ?|by intros [? []] [? _]]
             | apply decodes_True ]|]).
    apply fields_ok_nil.
  - intros c (Ht & Hm & Hb & Hq). cbn. split_and!; done.
  - intros t Ht. destruct t as (?&?&?&?&?&?&?&?&?&?&?&?&[]). cbn in *. unfold Config_wf. cbn.
    naive_solver.
Qed.

Lemma DefaultClientConfig_wf : Config_wf DefaultClientConfig.
Proof. split_and!; [reflexivity..|]. by apply (float_text_digit 32 5). Qed.

Lemma decodes_Affinity : decodes weights_ok dec_Affinity.
Proof.
  eapply decodes_record.
  - apply fields_ok_cons; [apply decodes_True|]. apply fields_ok_cons; [|apply fields_ok_nil].
    apply (decodes_slice (λ p, in_bits 64 (wp_Weight p) = true)); [|done].
    eapply decodes_record.
    + apply fields_ok_cons; [apply decodes_int|].
      apply fields_ok_cons; [apply decodes_True|apply fields_ok_nil].
    + intros p Hp. cbn. split_and!; done.
    + intros t Ht. destruct t as (?&?&[]). cbn in *. naive_solver.
  - intros a Ha. cbn. split_and!; done.
  - intros t Ht. destruct t as (?&?&[]). cbn in *. naive_solver.
Qed.

Lemma kube_factory_wf mc m : kube_factory mc = Ok (Some m) → driver_wf m.
Proof.
  unfold kube_factory. rewrite res_on_err_ok. intros H.
  assert (decodes (λ p : option kubeDriver, ∀ d, p = Some d → driver_wf d)
    (dec_ptr kubeDriver_zero dec_kubeDriver)) as Hd.
  { assert (decodes driver_wf dec_kubeDriver) as Hk.
    { eapply decodes_record.
      - do 3 (apply fields_ok_cons; [apply decodes_True|]).
        apply fields_ok_cons; [|apply fields_ok_nil].
        apply (decodes_map weights_ok); [apply decodes_Affinity|constructor].
      - intros d Hd. cbn. split_and!; done.
      - intros t Ht. destruct t as (?&?&?&?&[]). cbn in *. naive_solver. }
    intros j old x Hold Hx d ->. unfold dec_ptr in Hx.
    destruct j; [done|..]; apply res_bind_ok_inv in Hx as (y & Hy & Hx); simplify_eq;
      (eapply Hk; [|exact Hy]); (destruct old; [by apply Hold|apply map_Forall_empty]). }
  eapply decodes_Unmarshal in H; [|exact Hd|]; [by apply H|].
  intros d [= <-]. apply map_Forall_empty.
Qed.

(** The token that a cluster is called with: the one of its settings, or for GKE
    the one that is fetched. *)
Definition token_of (conf : Kube.Config) (w : W) (t : string) (w' : W) : Prop :=
  (ProviderType conf = "" ∧ t = Token conf ∧ w' = w) ∨
  (ProviderType conf = "gke" ∧ ∃ w1, DefaultTokenSource w = (Ok tt, w1) ∧
     TokenSource_Token w1 = (Ok t, w')).

(** How it is called with the token. *)
Definition rest_of (conf : Kube.Config) (t : string) : rest_Config :=
  mkRest (Host conf) (Timeout conf) (Insecure conf) (ClusterCACertificate conf) (ClientKey conf)
    (ClientCertificate conf) t (Burst conf) (QPS conf).

Lemma RESTConfig_token conf w rc conf' w' :
  RESTConfig conf w = (Ok (rc, conf'), w') →
  ∃ t, token_of conf w t w' ∧ conf' = set_Token t conf ∧ rc = rest_of conf t.
Proof.
  unfold RESTConfig. destruct (decide (ProviderType conf = "")) as [Hp|].
  - intros [= <- <- <-]. exists (Token conf). split; [by left|]. split; [by destruct conf|done].
  - destruct (decide (ProviderType conf = providerTypeGKE)) as [Hp|]; [|done]. intros H.
    apply bind_ok_inv in H as ([] & w1 & Hd & H). apply run_catch_ok in Hd.
    apply bind_ok_inv in H as (t & w2 & Ht & [= <- <- <-]). apply run_catch_ok in Ht.
    exists t. split; [right; eauto|done].
Qed.

Lemma set_Token_wf t c : Config_wf c → Config_wf (set_Token t c).
Proof. done. Qed.

(** C37. Planning a cluster succeeds only after its settings were sanitised and
    the cluster, called with them and with a fetched token for GKE, told its
    version; it keeps the resource's identity, replaces its spec by the request's,
    and is completed at once.  Its output is readable by the drivers that depend
    on it: when its texts are UTF-8, so that JSON keeps them, decoding it gives
    the settings with that token in place, the version that the server gave and
    the module's tolerations and affinities. *)
Theorem kube_Plan_correct mc m res act w r w' :
  kube_factory mc = Ok (Some m) →
  kube_Plan (Some m) res act w = (Ok r, w') →
  ∃ conf0 conf info t w1,
    Unmarshal dec_Config (Params act) DefaultClientConfig = Ok conf0 ∧
    Sanitise conf0 = Ok conf ∧ Host conf ≠ "" ∧ Timeout conf ≠ 0 ∧
    token_of conf w t w1 ∧ ServerVersion (rest_of conf t) w1 = (Ok info, w') ∧
    let out := mkOutput (set_Token t conf) info m in
    r = set_State (completed (MustJSON (enc_Output out)))
          (set_Spec (mkSpec (Params act) None) (exr_Resource res)) ∧
    (json_wf (enc_Output out) = true →
     Unmarshal dec_Output (Resource.Output (res_State r)) Output_zero =
       Ok (mkOutput (set_Token t conf) info (norm_driver m))).
Proof.
  intros Hm%kube_factory_wf H. unfold kube_Plan in H. go_inv.
  unfold kube_Output in Hrun. go_inv.
  match goal with Ho : on_err _ _ = Ok _ |- _ => rename Ho into Hd end.
  match goal with Ho : Sanitise _ = Ok _ |- _ => rename Ho into Hsan end.
  rewrite res_on_err_ok in Hd. rename a0 into conf0, a1 into conf. destruct a2 as [rc conf'].
  apply RESTConfig_token in Hrun2 as (t & Ht & -> & ->).
  cbv beta iota in Hrun. go_inv.
  match goal with Hi : ServerVersion _ ?w1 = (Ok ?i, _) |- _ => exists conf0, conf, i, t, w1 end.
  assert (Config_wf conf) as Hwf.
  { eapply decodes_Unmarshal in Hd; [|apply decodes_Config|apply DefaultClientConfig_wf].
    pose proof (Sanitise_correct conf0) as Hs. rewrite Hsan in Hs.
    destruct Hs as (_ & _ & Hs & Hid & _).
    destruct (decide (Timeout conf0 = 0)) as [Hz|Hz]; [|by rewrite Hid].
    unfold Sanitise in Hsan. rewrite Hz in Hsan. cbn in Hsan.
    unfold Config_wf in *. repeat case_match; simplify_eq; cbn; naive_solver. }
  pose proof (Sanitise_correct conf0) as Hs. rewrite Hsan in Hs.
  destruct Hs as ((Hh & _) & Hti & Hs & _).
  split_and!; [done|done| |done|done|done|done|].
  - rewrite <- Hs in Hh. done.
  - intros Hj. unfold completed, MustJSON. cbn [res_State set_State Resource.Output].
    rewrite Unmarshal_print by done. by rewrite dec_enc_Output.
Qed.
End decoded.
