(* ===== verification/KafkaModule.v ===== *)
(** * KafkaModule: [modules/kafka]

    Kafka clusters as resources: nothing is deployed, planning merges the
    settings of the module, of the resource and of the request, and the output
    is the bootstrap address made from the brokers. *)

From S2P Require Import Prelude GoLib Errors Resource Module Json Validator.

#[local] Open Scope Z_scope.

Record AdvertiseMode := mkAdvertise { adv_Host : string; adv_Address : string }.

Record Broker := mkBroker { br_Name : string; br_Host : string; br_Address : string }.

Record Config := mkConfig {
  Entity : string;
  Environment : string;
  Landscape : string;
  Organization : string;
  cfg_AdvertiseMode : AdvertiseMode;
  Brokers : option (list Broker);
  cfg_Type : string;
}.

Record driverConf := mkDriverConf {
  dc_Type : string;
  dc_Entity : string;
  dc_Organization : string;
  dc_Landscape : string;
  dc_Environment : string;
}.

Definition defaultDriverConf : driverConf := mkDriverConf "source" "" "" "" "".

Definition Broker_zero : Broker := mkBroker "" "" "".

Section kafka.
Context {GJ : GoJSON} {JS : JSONSchema}.
(** The embedded [schema/config.json]. *)
Variable configSchemaRaw : string.

Definition dec_AdvertiseMode : dec AdvertiseMode :=
  dec_record "kafka.AdvertiseMode" (λ m, (adv_Host m, (adv_Address m, tt)))
    (λ '(h, (a, tt)), mkAdvertise h a) [f ("host", dec_string); ("address", dec_string)].

Definition enc_AdvertiseMode (m : AdvertiseMode) : json :=
  obj [mem "host" (JStr (adv_Host m)); mem "address" (JStr (adv_Address m))].

Definition dec_Broker : dec Broker :=
  dec_record "kafka.Broker" (λ m, (br_Name m, (br_Host m, (br_Address m, tt))))
    (λ '(n, (h, (a, tt))), mkBroker n h a)
    [f ("name", dec_string); ("host", dec_string); ("address", dec_string)].

Definition enc_Broker (m : Broker) : json :=
  obj [mem "name" (JStr (br_Name m)); mem "host" (JStr (br_Host m));
       mem "address" (JStr (br_Address m))].

Definition Config_tup (c : Config) :=
  (Entity c, (Environment c, (Landscape c, (Organization c, (cfg_AdvertiseMode c,
   (Brokers c, (cfg_Type c, tt))))))).
Definition Config_untup t : Config :=
  let '(e, (v, (l, (o, (a, (b, (y, tt))))))) := t in mkConfig e v l o a b y.

Definition dec_Config : dec Config :=
  dec_record "kafka.Config" Config_tup Config_untup
    [f ("entity", dec_string); ("environment", dec_string); ("landscape", dec_string);
       ("organization", dec_string); ("advertise_mode", dec_AdvertiseMode);
       ("brokers", dec_slice Broker_zero dec_Broker); ("type", dec_string)].

Definition enc_Config (c : Config) : json :=
  obj [omit (no_str (Entity c)) "entity" (JStr (Entity c));
       omit (no_str (Environment c)) "environment" (JStr (Environment c));
       omit (no_str (Landscape c)) "landscape" (JStr (Landscape c));
       omit (no_str (Organization c)) "organization" (JStr (Organization c));
       mem "advertise_mode" (enc_AdvertiseMode (cfg_AdvertiseMode c));
       omit (no_list (Brokers c)) "brokers" (enc_slice enc_Broker (Brokers c));
       mem "type" (JStr (cfg_Type c))].

Definition dec_driverConf : dec driverConf :=
  dec_record "kafka.driverConf"
    (λ c, (dc_Type c, (dc_Entity c, (dc_Organization c, (dc_Landscape c, (dc_Environment c, tt))))))
    (λ '(t, (e, (o, (l, (v, tt))))), mkDriverConf t e o l v)
    [f ("type", dec_string); ("entity", dec_string); ("organization", dec_string);
       ("landscape", dec_string); ("environment", dec_string)].

(** ** [config.go] *)

Definition readConfig (res : Resource) (confJSON : RawMessage) (dc : driverConf) : go Config :=
  let cfg := mkConfig (dc_Entity dc) (dc_Environment dc) (dc_Landscape dc) (dc_Organization dc)
               (mkAdvertise "" "") None (dc_Type dc) in
  let failed := caused (WithMsgf ErrInvalid "failed to unmarshal") in
  cfg ← match Configs (res_Spec res) with
        | None => Ok cfg
        | Some _ => on_err (Unmarshal dec_Config (Configs (res_Spec res)) cfg) failed
        end;
  cfg ← on_err (Unmarshal dec_Config confJSON cfg) failed;
  _ ← FromJSONSchema configSchemaRaw (MustJSON (enc_Config cfg));
  Ok cfg.

(** ** [driver.go] *)

Definition mapUrl (cfg : Config) : string :=
  let m := cfg_AdvertiseMode cfg in
  let address := negb (bool_decide (adv_Address m = "")) in
  let port := if address then adv_Address m else adv_Host m in
  Join ((λ br, (if address then br_Address br else br_Host br) +:+ ":" +:+ port)
          <$> default [] (Brokers cfg)) ",".

Definition enc_Output (url : string) : json := obj [mem "url" (JStr url)].

Section driver.
Context {W : Type}.

Definition kafka_completed (output : RawMessage) : State :=
  mkState StatusCompleted output None None SyncResult_zero.

Definition kafka_Plan (conf : driverConf) (res : ExpandedResource) (act : ActionRequest) :
    io W Resource :=
  cfg ← lift (readConfig (exr_Resource res) (Params act) conf);
  let r := set_Spec (mkSpec (MustJSON (enc_Config cfg)) None) (exr_Resource res) in
  mret (set_State (kafka_completed (MustJSON (enc_Output (mapUrl cfg)))) r).

Definition kafka_Sync (res : ExpandedResource) : io W State :=
  mret (kafka_completed (Output (res_State (exr_Resource res)))).

Definition kafka_Output (conf : driverConf) (res : ExpandedResource) : io W RawMessage :=
  cfg ← lift (readConfig (exr_Resource res) (Configs (res_Spec (exr_Resource res))) conf);
  mret (MustJSON (enc_Output (mapUrl cfg))).

Definition kafka_driver (conf : driverConf) : Driver W := {|
  Plan := kafka_Plan conf;
  Sync := kafka_Sync;
  drv_Output := kafka_Output conf;
  Log := None;
|}.

(** ** [module.go] *)

Definition kafka_Module : Descriptor W := mkDescriptor "kafka"
  [mkActionDesc CreateAction "" "" None; mkActionDesc UpdateAction "" "" None] None
  (λ confJSON, conf ← Unmarshal dec_driverConf confJSON defaultDriverConf; Ok (kafka_driver conf)).
End driver.
End kafka.

(** ** Properties *)

Section kafka_props.
Context {GJ : GoJSON} {JS : JSONSchema} {W : Type}.
Variable configSchemaRaw : string.

Lemma dec_enc_Broker br old : dec_Broker (enc_Broker br) old = Ok br.
Proof.
  destruct old. unfold dec_Broker, enc_Broker. erewrite dec_record_obj; [|dec_fields]. by destruct br.
Qed.

Lemma dec_enc_AdvertiseMode m old : dec_AdvertiseMode (enc_AdvertiseMode m) old = Ok m.
Proof.
  destruct old. unfold dec_AdvertiseMode, enc_AdvertiseMode.
  erewrite dec_record_obj; [|dec_fields]. by destruct m.
Qed.

Lemma dec_enc_Brokers l old :
  dec_slice Broker_zero dec_Broker (enc_slice enc_Broker (Some l)) old = Ok (Some l).
Proof. cbn -[dec_Broker enc_Broker]. rewrite dec_elems_over; [done|]. apply dec_enc_Broker. Qed.

(** Members left out keep what the target holds. *)
Definition or_old (s old : string) : string := if no_str s then old else s.

Definition over (c old : Config) : Config :=
  mkConfig (or_old (Entity c) (Entity old)) (or_old (Environment c) (Environment old))
    (or_old (Landscape c) (Landscape old)) (or_old (Organization c) (Organization old))
    (cfg_AdvertiseMode c) (if no_list (Brokers c) then Brokers old else Brokers c) (cfg_Type c).

#[local] Arguments dec_AdvertiseMode : simpl never.
#[local] Arguments enc_AdvertiseMode : simpl never.
#[local] Arguments dec_slice : simpl never.
#[local] Arguments enc_slice : simpl never.
#[local] Hint Rewrite dec_enc_AdvertiseMode : json.

Lemma dec_enc_kafka_Config c old : dec_Config (enc_Config c) old = Ok (over c old).
Proof.
  destruct c as [e v l o a br y], old as [e' v' l' o' a' br' y']. unfold dec_Config, enc_Config.
  erewrite dec_record_obj; [|cbn [concat]].
  2:{ unfold Config_tup. cbn [Entity Environment Landscape Organization cfg_AdvertiseMode Brokers cfg_Type].
      erewrite (dec_members_omit _ _ _ _ _ _ (or_old e e', (v', (l', (o', (a', (br', (y', tt))))))));
        [|reflexivity|unfold or_old; cbn; intros H; rewrite H; reflexivity..].
      erewrite (dec_members_omit _ _ _ _ _ _
        (or_old e e', (or_old v v', (l', (o', (a', (br', (y', tt))))))));
        [|reflexivity|unfold or_old; cbn; intros H; rewrite H; reflexivity..].
      erewrite (dec_members_omit _ _ _ _ _ _
        (or_old e e', (or_old v v', (or_old l l', (o', (a', (br', (y', tt))))))));
        [|reflexivity|unfold or_old; cbn; intros H; rewrite H; reflexivity..].
      erewrite (dec_members_omit _ _ _ _ _ _
        (or_old e e', (or_old v v', (or_old l l', (or_old o o', (a', (br', (y', tt))))))));
        [|reflexivity|unfold or_old; cbn; intros H; rewrite H; reflexivity..].
      erewrite dec_members_mem; [|reflexivity|dec_leaf].
      erewrite (dec_members_omit _ _ _ _ _ _
        (or_old e e', (or_old v v', (or_old l l', (or_old o o', (a,
          (if no_list br then br' else br, (y', tt))))))));
        [|reflexivity|cbn; intros H; rewrite H; reflexivity|].
      2:{ cbn. destruct br as [[|x br]|]; [done| |done]. intros _.
          rewrite dec_enc_Brokers. reflexivity. }
      dec_fields. }
  done.
Qed.

Lemma mapUrl_over c old :
  default [] (Brokers old) = [] ∨ default [] (Brokers old) = default [] (Brokers c) →
  mapUrl (over c old) = mapUrl c.
Proof.
  intros H. unfold mapUrl, over. cbn. do 2 f_equal.
  destruct (no_list (Brokers c)) eqn:E; [|done].
  assert (default [] (Brokers c) = []) as Hc by by destruct (Brokers c) as [[|]|].
  rewrite Hc in *. by destruct H as [->| ->].
Qed.

(** Planning a Kafka cluster touches nothing but the resource: it is
    completed at once, its identity is kept, its config passed the schema, and
    its output is the bootstrap address of that config.  The address is stable:
    computed again from the stored resource it can only be the same, although
    the config is then merged with the module's defaults anew. *)
Theorem kafka_Plan_correct conf res act (w : W) r w' :
  kafka_Plan configSchemaRaw conf res act w = (Ok r, w') →
  w' = w ∧ Status (res_State r) = StatusCompleted ∧
  (URN r, Kind r, Name r, Project r, Labels r) =
    (URN (exr_Resource res), Kind (exr_Resource res), Name (exr_Resource res),
     Project (exr_Resource res), Labels (exr_Resource res)) ∧
  ∃ cfg, passes configSchemaRaw (Configs (res_Spec r)) ∧
    Configs (res_Spec r) = MustJSON (enc_Config cfg) ∧
    Output (res_State r) = MustJSON (enc_Output (mapUrl cfg)) ∧
    (json_wf (enc_Config cfg) = true → ∀ deps (w1 : W),
     match kafka_Output configSchemaRaw conf (mkExpanded r deps) w1 with
     | (Ok out, w2) => out = Output (res_State r) ∧ w2 = w1
     | (_, w2) => w2 = w1
     end).
Proof.
  intros H. unfold kafka_Plan in H. go_inv. split_and!; [done..|].
  rename a into cfg.
  assert (passes configSchemaRaw (MustJSON (enc_Config cfg))) as Hp.
  { match goal with Hr : readConfig _ _ _ _ = Ok _ |- _ => unfold readConfig in Hr;
      repeat (apply res_bind_ok_inv in Hr as (? & ? & Hr)) end.
    simplify_eq. match goal with u : () |- _ => destruct u end. by apply FromJSONSchema_Ok. }
  exists cfg. split_and!; [done..|]. intros Hwf deps w1.
  unfold kafka_Output. rewrite run_bind. cbn [exr_Resource]. unfold readConfig, MustJSON, lift.
  cbn [res_Spec set_State set_Spec Configs].
  rewrite Unmarshal_print by done. rewrite dec_enc_kafka_Config. cbn [on_err mbind result_bind].
  rewrite Unmarshal_print by done. rewrite dec_enc_kafka_Config. cbn [on_err mbind result_bind].
  set (c0 := mkConfig _ _ _ _ _ None _). set (c2 := over _ _).
  assert (mapUrl c2 = mapUrl cfg) as Hu.
  { subst c2. apply mapUrl_over. cbn. destruct (no_list (Brokers cfg)); cbn; auto. }
  destruct (FromJSONSchema _ _) as [[]|e|s]; cbn; [|done..].
  by rewrite <- Hu.
Qed.
End kafka_props.

(** ** A planned cluster, evaluated *)

Definition demo_kafka_schema : string := "accept".
Definition demo_accept : JSONSchema := {|
  schema := string;
  NewSchema s := Ok s;
  schema_Validate s p := if decide (s = "accept") then Ok [] else Ok ["(root): no match"];
|}.

Definition demo_kafka_params : json :=
  obj [mem "advertise_mode" (obj [mem "host" (JStr "9092")]);
       mem "brokers" (JArr [obj [mem "name" (JStr "a"); mem "host" (JStr "h1")];
                            obj [mem "host" (JStr "h2")]])].

Lemma kafka_Plan_correct_witness :
  ∃ r, kafka_Plan (GJ := demo_gojson) (JS := demo_accept) demo_kafka_schema defaultDriverConf
         (mkExpanded (demo_resource "kafka" "goto" "main") None)
         (mkActionRequest CreateAction (MustJSON (GJ := demo_gojson) demo_kafka_params) None "u") tt
       = (Ok r, tt) ∧
    Status (res_State r) = StatusCompleted ∧
    Output (res_State r) = MustJSON (GJ := demo_gojson) (enc_Output "h1:9092,h2:9092").
Proof.
  destruct (ok_run (kafka_Plan (GJ := demo_gojson) (JS := demo_accept) demo_kafka_schema
    defaultDriverConf (mkExpanded (demo_resource "kafka" "goto" "main") None)
    (mkActionRequest CreateAction (MustJSON (GJ := demo_gojson) demo_kafka_params) None "u") tt))
    as (r & [] & H); [vm_compute; reflexivity|].
  exists r. split; [exact H|].
  split; [exact (proj1 (proj2 (kafka_Plan_correct (GJ := demo_gojson) (JS := demo_accept) _ _ _ _ _ _ _ H)))|].
  assert (Output <$> (res_State <$> match (kafka_Plan (GJ := demo_gojson) (JS := demo_accept)
    demo_kafka_schema defaultDriverConf (mkExpanded (demo_resource "kafka" "goto" "main") None)
    (mkActionRequest CreateAction (MustJSON (GJ := demo_gojson) demo_kafka_params) None "u") tt).1
    with Ok r => Some r | _ => None end) =
    Some (MustJSON (GJ := demo_gojson) (enc_Output "h1:9092,h2:9092"))) as E
    by (vm_compute; reflexivity).
  rewrite H in E. cbn in E. injection E as E. exact E.
Defined.
