(* ===== verification/Flink.v ===== *)
(** * Flink: [modules/flink]

    Flink clusters as resources: the config is the request's, completed from
    the module's, and the output joins it with the output of the Kubernetes
    cluster.  Nothing is deployed. *)

From S2P Require Import Prelude GoLib Errors Resource Module Json Kube Kubernetes.

#[local] Open Scope Z_scope.

Definition keyKubeDependency : string := "kube_cluster".

Record Influx := mkInflux {
  inf_URL : string;
  inf_Username : string;
  inf_Password : string;
  inf_DatabaseName : string;
}.

Record Config := mkConfig {
  KubeNamespace : string;
  cfg_Influx : Influx;
  SinkKafkaStream : string;
  PrometheusURL : string;
  FlinkName : string;
  ExtraStreams : option (list string);
}.

Record driverConf := mkDriverConf {
  dc_Influx : Influx;
  dc_SinkKafkaStream : string;
  dc_KubeNamespace : string;
  dc_PrometheusURL : string;
  dc_FlinkName : string;
}.

Definition Influx_zero : Influx := mkInflux "" "" "" "".
Definition Config_zero : Config := mkConfig "" Influx_zero "" "" "" None.
Definition driverConf_zero : driverConf := mkDriverConf Influx_zero "" "" "" "".

(** [dep_Output] of [m[key]], which is nil when the key is missing. *)
Definition dep_output (deps : gomap ResolvedDependency) (key : string) : RawMessage :=
  gm deps !! key ≫= dep_Output.

Section flink.
Context {GJ : GoJSON} {JS : JSONSchema} {W : Type} {VA : VersionAPI W}.

Record flink_Output := mkFlinkOutput {
  fo_KubeCluster : Kubernetes.Output;
  fo_Config : Config;
}.

Definition flink_Output_zero : flink_Output := mkFlinkOutput Output_zero Config_zero.

Definition dec_Influx : dec Influx :=
  dec_record "flink.Influx" (λ i, (inf_URL i, (inf_Username i, (inf_Password i, (inf_DatabaseName i, tt)))))
    (λ '(u, (n, (p, (d, tt)))), mkInflux u n p d)
    [f ("url", dec_string); ("username", dec_string); ("password", dec_string);
       ("database_name", dec_string)].

Definition enc_Influx (i : Influx) : json :=
  obj [omit (no_str (inf_URL i)) "url" (JStr (inf_URL i));
       omit (no_str (inf_Username i)) "username" (JStr (inf_Username i));
       omit (no_str (inf_Password i)) "password" (JStr (inf_Password i));
       omit (no_str (inf_DatabaseName i)) "database_name" (JStr (inf_DatabaseName i))].

Definition Config_tup (c : Config) :=
  (KubeNamespace c, (cfg_Influx c, (SinkKafkaStream c, (PrometheusURL c, (FlinkName c,
   (ExtraStreams c, tt)))))).
Definition Config_untup t : Config :=
  let '(k, (i, (s, (p, (n, (e, tt)))))) := t in mkConfig k i s p n e.

Definition dec_Config : dec Config :=
  dec_record "flink.Config" Config_tup Config_untup
    [f ("kube_namespace", dec_string); ("influx", dec_Influx); ("sink_kafka_stream", dec_string);
       ("prometheus_url", dec_string); ("flink_name", dec_string); ("extra_streams", dec_strings)].

Definition Config_members (c : Config) : list (string * json) :=
  concat [omit (no_str (KubeNamespace c)) "kube_namespace" (JStr (KubeNamespace c));
          mem "influx" (enc_Influx (cfg_Influx c));
          omit (no_str (SinkKafkaStream c)) "sink_kafka_stream" (JStr (SinkKafkaStream c));
          omit (no_str (PrometheusURL c)) "prometheus_url" (JStr (PrometheusURL c));
          omit (no_str (FlinkName c)) "flink_name" (JStr (FlinkName c));
          omit (no_list (ExtraStreams c)) "extra_streams" (enc_slice JStr (ExtraStreams c))].

Definition dec_flink_Output : dec flink_Output :=
  dec_record "flink.Output" (λ o, (fo_KubeCluster o, Config_tup (fo_Config o)))
    (λ '(k, c), mkFlinkOutput k (Config_untup c))
    (fcons ("kube_cluster", dec_Output)
      [f ("kube_namespace", dec_string); ("influx", dec_Influx); ("sink_kafka_stream", dec_string);
         ("prometheus_url", dec_string); ("flink_name", dec_string); ("extra_streams", dec_strings)]).

Definition enc_flink_Output (o : flink_Output) : json :=
  JObj (mem "kube_cluster" (Kubernetes.enc_Output (fo_KubeCluster o)) ++ Config_members (fo_Config o)).

(** ** [config.go] *)

Definition or_default (s d : string) : string := if decide (s = "") then d else s.

Definition readConfig (confJSON : RawMessage) (dc : driverConf) : go Config :=
  cfg ← on_err (Unmarshal dec_Config confJSON Config_zero)
          (caused (WithMsgf ErrInvalid "invalid config json"));
  Ok (mkConfig (or_default (KubeNamespace cfg) (dc_KubeNamespace dc))
        (if decide (inf_URL (cfg_Influx cfg) = "") then dc_Influx dc else cfg_Influx cfg)
        (or_default (SinkKafkaStream cfg) (dc_SinkKafkaStream dc))
        (or_default (PrometheusURL cfg) (dc_PrometheusURL dc))
        (or_default (FlinkName cfg) (dc_FlinkName dc)) (ExtraStreams cfg)).

(** ** [driver.go], [driver_output.go], [driver_plan.go], [driver_sync.go]

    The receiver is nil when the module's configs are null. *)

Definition readOutputData (exr : ExpandedResource) : go flink_Output :=
  let out := Resource.Output (res_State (exr_Resource exr)) in
  if (raw_len out =? 0)%nat then Ok flink_Output_zero
  else on_err (Unmarshal dec_flink_Output out flink_Output_zero)
         (caused (WithMsgf ErrInternal "corrupted output")).

(** [fd.conf], for a receiver that may be nil. *)
Definition receiver (fd : option driverConf) : go driverConf :=
  match fd with Some conf => Ok conf | None => Panic "nil pointer dereference" end.

Definition refresh_output (fd : option driverConf) (exr : ExpandedResource) : go RawMessage :=
  output ← readOutputData exr;
  dc ← receiver fd;
  conf ← on_err (readConfig (Configs (res_Spec (exr_Resource exr))) dc)
           (λ err, if errors_Is err (EErr ErrInvalid) then err else caused ErrInternal err);
  kubeOut ← on_err (Unmarshal dec_Output (dep_output (exr_Dependencies exr) keyKubeDependency)
                      Output_zero)
              (caused (WithMsgf ErrInternal "invalid kube state"));
  Ok (MustJSON (enc_flink_Output (mkFlinkOutput kubeOut conf))).

Definition flink_drv_Output (fd : option driverConf) (exr : ExpandedResource) : io W RawMessage :=
  lift (refresh_output fd exr).

Definition flink_Plan (fd : option driverConf) (res : ExpandedResource) (act : ActionRequest) :
    io W Resource :=
  let spec := res_Spec (exr_Resource res) in
  let r := set_Spec (mkSpec (Params act) (Dependencies spec)) (exr_Resource res) in
  dc ← lift (receiver fd);
  conf ← lift (readConfig (Configs (res_Spec r)) dc);
  let r := set_Configs (MustJSON (JObj (Config_members conf))) r in
  output ← flink_drv_Output fd (mkExpanded r (exr_Dependencies res));
  mret (set_State (completed output) r).

Definition flink_Sync (res : ExpandedResource) : io W State :=
  mret (completed (Resource.Output (res_State (exr_Resource res)))).

Definition flink_driver (fd : option driverConf) : Driver W := {|
  Plan := flink_Plan fd;
  Sync := flink_Sync;
  drv_Output := flink_drv_Output fd;
  Log := None;
|}.

(** ** [module.go]

    The driver struct has no exported field for the decoder to set. *)

Definition dec_flinkDriver : dec driverConf := dec_struct "flink.flinkDriver" [].

Definition flink_factory (conf : RawMessage) : go (option driverConf) :=
  on_err (Unmarshal (dec_ptr driverConf_zero dec_flinkDriver) conf (Some driverConf_zero))
    (λ err, EErr (WithMsgf ErrInvalid
       ("failed to unmarshal module config: " +:+ error_string err))).

Definition flink_Module : Descriptor W := mkDescriptor "flink"
  [mkActionDesc CreateAction "" "" None; mkActionDesc UpdateAction "" "" None] None
  (λ conf, fd ← flink_factory conf; Ok (flink_driver fd)).

(** ** Properties *)

Lemma flink_factory_zero conf fd : flink_factory conf = Ok (Some fd) → fd = driverConf_zero.
Proof.
  unfold flink_factory. rewrite res_on_err_ok. unfold Unmarshal. intros H.
  apply res_bind_ok_inv in H as (j & _ & H). unfold dec_ptr in H.
  assert (∀ l, dec_members [] l driverConf_zero = Ok driverConf_zero) as Hl
    by by induction l as [|kv l IH].
  destruct j; try done; apply res_bind_ok_inv in H as (x & Hx & H); simplify_eq.
  cbn in Hx. rewrite Hl in Hx. by simplify_eq.
Qed.

(** The module's settings never reach a flink resource: whatever configs the
    module has, the driver made from them completes a config with empty
    defaults, so a planned config is the request's own.  And although the kind
    declares no dependency, planning without a resolved [kube_cluster] fails. *)
Theorem flink_conf_ignored mc fd res act (w : W) :
  flink_factory mc = Ok (Some fd) →
  readConfig (Params act) fd =
    on_err (Unmarshal dec_Config (Params act) Config_zero)
      (caused (WithMsgf ErrInvalid "invalid config json"))
    ≫= (λ cfg, Ok (mkConfig (KubeNamespace cfg)
         (if decide (inf_URL (cfg_Influx cfg) = "") then Influx_zero else cfg_Influx cfg)
         (SinkKafkaStream cfg) (PrometheusURL cfg) (FlinkName cfg) (ExtraStreams cfg))) ∧
  validateDependencies (MR := range_sorted) flink_Module (exr_Dependencies res) = Ok tt ∧
  (gm (exr_Dependencies res) !! keyKubeDependency = None →
   is_ok (flink_Plan (Some fd) res act w).1 = false).
Proof.
  intros ->%flink_factory_zero. split_and!.
  - unfold readConfig. destruct (on_err _ _) as [cfg|e|s]; [|done..]. cbn.
    unfold or_default. by repeat case_decide; repeat f_equal.
  - done.
  - intros Hn.
    assert (∀ r, is_ok (refresh_output (Some driverConf_zero) (mkExpanded r (exr_Dependencies res))) = false)
      as Href.
    { intros r. unfold refresh_output. destruct (readOutputData _); [|done..]. cbn.
      destruct (readConfig _ _) as [c|e|s];
        [cbn [on_err mbind result_bind]|by cbn [on_err mbind result_bind]|done].
      unfold dep_output. rewrite Hn. cbn [mbind option_bind].
      by rewrite Unmarshal_empty. }
    unfold flink_Plan. rewrite run_bind. cbn [lift receiver]. rewrite run_bind. unfold lift at 1.
    destruct (readConfig _ _) as [cfg|e|s]; [|done..].
    rewrite run_bind. unfold flink_drv_Output, lift.
    match goal with |- context [refresh_output ?a (mkExpanded ?r ?d)] =>
      specialize (Href r); destruct (refresh_output a (mkExpanded r d)) end; done.
Qed.
End flink.
