(* ===== verification/Helm.v ===== *)
(** * Helm: [pkg/helm]

    Installing and upgrading releases.  The Helm SDK is the parameter
    [HelmAPI]; what is modelled is which calls are made, with which options, and
    how their errors are classified. *)

From S2P Require Import Prelude GoLib Errors Json Kube.
From Stdlib Require Import Ascii.

#[local] Open Scope Z_scope.

(** ** [release.go] *)

Definition typeApplication : string := "application".
Definition ErrChartNotApplication : error :=
  ESentinel "helm.ErrChartNotApplication" "helm chart is not an application chart".

Record ReleaseConfig := mkReleaseConfig {
  rel_Name : string;
  Repository : string;
  Chart : string;
  Version : string;
  Values : gmap string any;
  rel_Namespace : string;
  rel_Timeout : Z;
  ForceUpdate : bool;
  RecreatePods : bool;
  Wait : bool;
  WaitForJobs : bool;
  Replace : bool;
  Description : string;
  CreateNamespace : bool;
}.

(** The values of the [default] tags. *)
Definition DefaultReleaseConfig : ReleaseConfig :=
  mkReleaseConfig "" "" "" "" ∅ "default" 300 false false true false false "" false.

(** ** The Helm SDK *)

Record release := mkRelease { release_Name : string; release_Config : gmap string any }.

(** The fields of [action.Install] and [action.Upgrade] that the code sets to
    something else than a constant. *)
Record action_options := mkOptions {
  opt_RepoURL : string;
  opt_Version : string;
  opt_Wait : bool;
  opt_WaitForJobs : bool;
  opt_Timeout : Duration;
  opt_Namespace : string;
  opt_Description : string;
  opt_ReleaseName : string;
  opt_Replace : bool;
  opt_CreateNamespace : bool;
  opt_MaxHistory : Z;
}.

Class HelmAPI (W : Type) : Type := {
  action_config : Type;
  chart : Type;
  chart_Type : chart → string;
  DefaultServerURL : string → bool → go string;
  (** the server, the settings of the cluster, the namespace *)
  action_Init : string → Kube.Config → string → io W action_config;
  action_Get : action_config → string → io W release;
  action_Install : action_config → action_options → chart → gmap string any → io W release;
  action_Upgrade : action_config → action_options → chart → gmap string any → io W release;
  action_Uninstall : action_config → string → io W ();
  ParseRequestURI : string → bool;
  LocateChart : string → string → string → io W string;
  loader_Load : string → io W chart;
}.

(** ** [helm.go] *)

Fixpoint contains_list (sub l : list ascii) : bool :=
  bool_decide (take (length sub) l = sub)
  || match l with [] => false | _ :: l => contains_list sub l end.

(** [strings.Contains]. *)
Definition Contains_str (s sub : string) : bool := contains_list (chars sub) (chars s).

Definition isReleaseNotFoundErr (err : error) : bool :=
  Contains_str (error_string err) "release: not found".

Definition getVersion (version : string) : string :=
  if decide (version = "") then ">0.0.0-0" else TrimSpace version.

Section helm.
Context {W : Type} {HA : HelmAPI W}.

Definition resolveChartName (repository name : string) : string * string :=
  if ParseRequestURI repository then (repository, name)
  else if negb (Contains name "/") && negb (bool_decide (repository = ""))
  then ("", repository +:+ "/" +:+ name)
  else ("", name).

(** The chart with its repository and version. *)
Definition getChart (config : ReleaseConfig) : io W (chart * (string * string)) :=
  let '(repositoryURL, chartName) := resolveChartName (Repository config) (TrimSpace (Chart config)) in
  let version := getVersion (Version config) in
  path ← LocateChart repositoryURL version chartName;
  fetchedChart ← loader_Load path;
  if decide (chart_Type fetchedChart = typeApplication)
  then mret (fetchedChart, (repositoryURL, version))
  else throw ErrChartNotApplication.

Definition getActionConfiguration (k : Kube.Config) (namespace : string) : io W action_config :=
  let defaultTLS := negb (bool_decide (ClusterCACertificate k = ""))
                    || negb (bool_decide (ClientCertificate k = "")) || Insecure k in
  host ← lift (DefaultServerURL (Host k) defaultTLS);
  action_Init host k namespace.

Definition fetchRelease (cfg : action_config) (name : string) : io W release :=
  catch (action_Get cfg name) (λ err,
    if isReleaseNotFoundErr err then caused ErrNotFound err else err).

Definition chart_failed : error → error := caused (WithMsgf ErrInternal "error while getting chart").

Definition doCreate (cfg : action_config) (config : ReleaseConfig) : io W release :=
  ch ← catch (getChart config) chart_failed;
  let '(fetchedChart, (repoURL, version)) := ch in
  catch (action_Install cfg
           (mkOptions repoURL version true true (wrap64 (rel_Timeout config * Second))
              (rel_Namespace config) (Description config) (rel_Name config) (Replace config)
              (CreateNamespace config) 0)
           fetchedChart (Values config))
    (caused (WithMsgf ErrInternal "create-release failed")).

Definition doUpdate (k : Kube.Config) (cfg : action_config) (config : ReleaseConfig) : io W release :=
  ch ← catch (getChart config) chart_failed;
  let '(fetchedChart, (repoURL, version)) := ch in
  catch (action_Upgrade cfg
           (mkOptions repoURL version (Wait config) (WaitForJobs config)
              (wrap64 (rel_Timeout config * Second)) (rel_Namespace config) (Description config)
              (rel_Name config) false false (MaxHistory (kc_HelmConfig k)))
           fetchedChart (Values config))
    (λ err,
       if isReleaseNotFoundErr err
       then EErr (WithCausef (WithMsgf ErrNotFound "update-release failed")
              "release with given name not found")
       else caused (WithMsgf ErrInternal "update-release failed") err).

Definition config_failed (err : error) : error :=
  EErr (WithMsgf ErrInternal ("error while getting action configuration  : " +:+ error_string err)).

(** [k] are the cluster's settings of the client. *)
Definition Upsert (k : Kube.Config) (config : ReleaseConfig) (canUpdateCheck : release → bool) :
    io W release :=
  actionConfig ← catch (getActionConfiguration k (rel_Namespace config)) config_failed;
  rel ← attempt (fetchRelease actionConfig (rel_Name config));
  match rel with
  | inl err =>
      if errors_Is err (EErr ErrNotFound) then doCreate actionConfig config
      else throw (caused (WithMsgf ErrInternal "failed to find release") err)
  | inr rel =>
      if canUpdateCheck rel then doUpdate k actionConfig config
      else throw (EErr (WithMsgf ErrConflict "release with same name exists, but update not possible"))
  end.

Definition helm_Delete (k : Kube.Config) (config : ReleaseConfig) : io W () :=
  actionConfig ← catch (getActionConfiguration k (rel_Namespace config)) config_failed;
  catch (action_Uninstall actionConfig (rel_Name config)) (λ err,
    EErr (WithMsgf ErrInternal ("unable to uninstall release " +:+ error_string err))).

(** ** Properties *)

Lemma isReleaseNotFound_Is err :
  errors_Is (if isReleaseNotFoundErr err then caused ErrNotFound err else err) (EErr ErrNotFound) =
  isReleaseNotFoundErr err || errors_Is err (EErr ErrNotFound).
Proof.
  destruct (isReleaseNotFoundErr err); [|done].
  unfold caused. by rewrite errors_Is_WithCausef, errors_Is_refl.
Qed.

(** An upsert looks the release up first.  It installs only what was not
    found, upgrades only what was found and approved by the caller's check, and
    in every other case - the release belongs to someone else, the lookup or
    the configuration failed - it ends there: no chart is fetched and neither
    call is made. *)
Theorem Upsert_guarded k config check w :
  let cfg := getActionConfiguration k (rel_Namespace config) w in
  (∃ c w1 err w2, cfg = (Ok c, w1) ∧ action_Get c (rel_Name config) w1 = (Err err, w2) ∧
     (isReleaseNotFoundErr err = true ∨ errors_Is err (EErr ErrNotFound) = true) ∧
     Upsert k config check w = doCreate c config w2) ∨
  (∃ c w1 rel w2, cfg = (Ok c, w1) ∧ action_Get c (rel_Name config) w1 = (Ok rel, w2) ∧
     ((check rel = true ∧ Upsert k config check w = doUpdate k c config w2) ∨
      (check rel = false ∧ ∃ e, Code e = Code ErrConflict ∧
         Upsert k config check w = (Err (EErr e), w2)))) ∨
  (is_ok (Upsert k config check w).1 = false ∧
   ((Upsert k config check w).2 = cfg.2 ∨
    ∃ c w1, cfg = (Ok c, w1) ∧
      (Upsert k config check w).2 = (action_Get c (rel_Name config) w1).2)).
Proof.
  cbv zeta.
  destruct (Upsert k config check w) as [out w'] eqn:HU. revert HU.
  unfold Upsert. rewrite run_bind. unfold catch at 1.
  destruct (getActionConfiguration k (rel_Namespace config) w) as [[c|e|s] w1] eqn:Hc;
    [|intros [= <- <-]; right; right; split; [done|by left]..].
  rewrite run_bind. unfold attempt, fetchRelease, catch.
  destruct (action_Get c (rel_Name config) w1) as [[rel|err|s] w2] eqn:Hg.
  - intros HU. right. left. exists c, w1, rel, w2. split_and!; [done|done|].
    revert HU. destruct (check rel) eqn:Hk; intros HU; [by left|right].
    injection HU as <- <-. split; [done|]. eexists. split; [|reflexivity]. reflexivity.
  - rewrite isReleaseNotFound_Is.
    destruct (isReleaseNotFoundErr err || errors_Is err (EErr ErrNotFound)) eqn:Hn; intros HU.
    + left. exists c, w1, err, w2. split_and!; [done|done|by apply orb_true_iff|done].
    + injection HU as <- <-. right. right. split; [done|]. right. exists c, w1. by rewrite Hg.
  - intros [= <- <-]. right. right. split; [done|]. right. exists c, w1. by rewrite Hg.
Qed.

(** A lookup's error that says that there is no such release. *)
Definition says_not_found (err : error) : Prop :=
  isReleaseNotFoundErr err = true ∨ errors_Is err (EErr ErrNotFound) = true.

(** What an upsert does to the cluster, for the releases that are [mine]: whether
    it succeeds, and the world after it. *)
Inductive upserted (k : Kube.Config) (config : ReleaseConfig) (mine : release → Prop) (w : W) :
    bool → W → Prop :=
  | up_no_config out w' :
      getActionConfiguration k (rel_Namespace config) w = (out, w') → is_ok out = false →
      upserted k config mine w false w'
  (** the lookup failed: nothing is called *)
  | up_unknown cfg w1 out w' :
      getActionConfiguration k (rel_Namespace config) w = (Ok cfg, w1) →
      action_Get cfg (rel_Name config) w1 = (out, w') → is_ok out = false →
      (∀ err, out = Err err → ¬ says_not_found err) →
      upserted k config mine w false w'
  (** there is no such release: it is installed *)
  | up_install cfg w1 err w2 out w' :
      getActionConfiguration k (rel_Namespace config) w = (Ok cfg, w1) →
      action_Get cfg (rel_Name config) w1 = (Err err, w2) → says_not_found err →
      doCreate cfg config w2 = (out, w') →
      upserted k config mine w (is_ok out) w'
  (** it is upgraded when it is mine *)
  | up_upgrade cfg w1 found w2 out w' :
      getActionConfiguration k (rel_Namespace config) w = (Ok cfg, w1) →
      action_Get cfg (rel_Name config) w1 = (Ok found, w2) → mine found →
      doUpdate k cfg config w2 = (out, w') →
      upserted k config mine w (is_ok out) w'
  (** and left as it is when it is not *)
  | up_foreign cfg w1 found w' :
      getActionConfiguration k (rel_Namespace config) w = (Ok cfg, w1) →
      action_Get cfg (rel_Name config) w1 = (Ok found, w') → ¬ mine found →
      upserted k config mine w false w'.

Lemma Upsert_upserted k config check mine w out w' :
  (∀ rel, check rel = true ↔ mine rel) → Upsert k config check w = (out, w') →
  upserted k config mine w (is_ok out) w'.
Proof.
  intros Hm. unfold Upsert. rewrite run_bind. unfold catch at 1.
  destruct (getActionConfiguration k (rel_Namespace config) w) as [[cfg|e|s] w1] eqn:Hc;
    [|intros [= <- <-]; by eapply up_no_config..].
  rewrite run_bind. unfold attempt, fetchRelease, catch.
  destruct (action_Get cfg (rel_Name config) w1) as [[found|err|s] w2] eqn:Hg.
  - destruct (check found) eqn:Hk; intros H.
    + eapply up_upgrade; [done..|by apply Hm|done].
    + injection H as <- <-. eapply up_foreign; [done..|]. by intros Hf%Hm; rewrite Hk in Hf.
  - rewrite isReleaseNotFound_Is.
    destruct (isReleaseNotFoundErr err || errors_Is err (EErr ErrNotFound)) eqn:Hn; intros H.
    + eapply up_install; [done..|by apply orb_true_iff|done].
    + injection H as <- <-. eapply up_unknown; [done..|]. intros err' [= <-] Hf%orb_true_iff. congruence.
  - intros [= <- <-]. by eapply up_unknown.
Qed.
End helm.
