(* ===== verification/Charts.v ===== *)
(** * Charts: what the drivers put into Helm charts

    Values built as [map[string]any], labels rendered by Go's templates
    ([Template]), and the tolerations and affinities of a cluster, for the
    drivers that deploy releases. *)

From S2P Require Import Prelude GoLib Errors Json Kube Kubernetes.

#[local] Open Scope Z_scope.

(** [text/template] or [html/template] with the option [missingkey=zero]. *)
Class Template : Type := {
  template : Type;
  template_Parse : string → go template;
  template_Execute : template → gmap string string → go string;
}.

Definition nil_deref {A} : go A := Panic "invalid memory address or nil pointer dereference".

(** [m[k] = v], which panics on a nil map. *)
Definition map_put {A} (k : string) (v : A) (m : gomap A) : go (gomap A) :=
  match m with
  | Some m => Ok (Some (<[k := v]> m))
  | None => Panic "assignment to entry in nil map"
  end.

Lemma map_put_Ok {A} k (v : A) m m' : map_put k v m = Ok m' → m' = Some (<[k := v]> (gm m)).
Proof. destruct m; [by intros [= <-]|done]. Qed.

(** [map[string]any{...}] *)
Definition vmap (l : list (string * any)) : any := AMap (list_to_map l).

Definition toleration_value (t : Toleration) : any :=
  vmap [("key", AStr (tol_Key t)); ("value", AStr (tol_Value t)); ("effect", AStr (tol_Effect t));
        ("operator", AStr (tol_Operator t))].

(** What the module prefers over what the cluster says. *)
Definition preferred {A} (own other : option A) : option A :=
  match own with Some _ => own | None => other end.

Definition affinity_values (own : NodeAffinityMatchExpressions)
    (found : option NodeAffinityMatchExpressions) : any :=
  let found := default (mkAffinity (Some []) (Some [])) found in
  vmap [("requiredDuringSchedulingIgnoredDuringExecution", PreferenceSliceToInterfaceSlice
           (preferred (RequiredDuringScheduling own) (RequiredDuringScheduling found)));
        ("preferredDuringSchedulingIgnoredDuringExecution", WeightedPreferencesToInterfaceSlice
           (preferred (PreferredDuringScheduling own) (PreferredDuringScheduling found)))].

Section templates.
Context {MR : MapRange} {TP : Template}.

Definition renderTpl (labelsTpl labelsValues : gomap string) : go (gomap string) :=
  m ← res_fold (λ acc kv,
        t ← on_err (template_Parse kv.2)
              (caused (WithMsgf ErrInvalid ("label template for '" +:+ kv.1 +:+ "' is invalid")));
        v ← on_err (template_Execute t (gm labelsValues))
              (caused (WithMsgf ErrInvalid "failed to render label template"));
        Ok (<[kv.1 := v]> acc)) ∅ (range (gm labelsTpl));
  Ok (Some m).
End templates.
