(* ===== verification/GoText.v ===== *)
(** * GoText: [encoding/base64], [%q] and padded numbers

    What the dagger module uses of Go's text encodings. *)

From S2P Require Import Prelude GoLib Errors Json.
From Stdlib Require Import Ascii.

#[local] Open Scope Z_scope.

(** ** [base64.StdEncoding] *)

Definition alphabet64 : list ascii :=
  chars "ABCDEFGHIJKLMNOPQRSTUVWXYZabcdefghijklmnopqrstuvwxyz0123456789+/".

(** Six bits, the highest first. *)
Record sextet := mkSextet { s5 : bool; s4 : bool; s3 : bool; s2 : bool; s1 : bool; s0 : bool }.

Definition index64 (s : sextet) : nat :=
  Ascii.nat_of_ascii (Ascii (s0 s) (s1 s) (s2 s) (s3 s) (s4 s) (s5 s) false false).

Definition digit64 (s : sextet) : ascii := default "="%char (alphabet64 !! index64 s).

Fixpoint base64_list (l : list ascii) : list ascii :=
  match l with
  | Ascii a0 a1 a2 a3 a4 a5 a6 a7 :: l =>
      digit64 (mkSextet a7 a6 a5 a4 a3 a2) ::
      match l with
      | [] => [digit64 (mkSextet a1 a0 false false false false); "="%char; "="%char]
      | Ascii b0 b1 b2 b3 b4 b5 b6 b7 :: l =>
          digit64 (mkSextet a1 a0 b7 b6 b5 b4) ::
          match l with
          | [] => [digit64 (mkSextet b3 b2 b1 b0 false false); "="%char]
          | Ascii c0 c1 c2 c3 c4 c5 c6 c7 :: l =>
              digit64 (mkSextet b3 b2 b1 b0 c7 c6) :: digit64 (mkSextet c5 c4 c3 c2 c1 c0) ::
              base64_list l
          end
      end
  | [] => []
  end.

Definition EncodeToString (s : string) : string := str (base64_list (chars s)).

(** ** Decoding, to state that nothing is lost *)

Definition sextet_of (n : nat) : sextet :=
  match Ascii.ascii_of_nat n with Ascii x0 x1 x2 x3 x4 x5 _ _ => mkSextet x5 x4 x3 x2 x1 x0 end.

Definition value64 (c : ascii) : option sextet :=
  sextet_of ∘ fst <$> list_find (eq c) alphabet64.

Lemma value64_digit s : value64 (digit64 s) = Some s.
Proof. destruct s as [[] [] [] [] [] []]; vm_compute; reflexivity. Qed.

Fixpoint decode64 (l : list ascii) : option (list ascii) :=
  match l with
  | [] => Some []
  | x :: y :: z :: t :: l =>
      a ← value64 x;
      k ← value64 y;
      let first := Ascii (s4 k) (s5 k) (s0 a) (s1 a) (s2 a) (s3 a) (s4 a) (s5 a) in
      if decide (z = "="%char) then if decide (l = []) then Some [first] else None
      else
        c ← value64 z;
        let second := Ascii (s2 c) (s3 c) (s4 c) (s5 c) (s0 k) (s1 k) (s2 k) (s3 k) in
        if decide (t = "="%char) then if decide (l = []) then Some [first; second] else None
        else
          d ← value64 t;
          rest ← decode64 l;
          Some (first :: second ::
                Ascii (s0 d) (s1 d) (s2 d) (s3 d) (s4 d) (s5 d) (s0 c) (s1 c) :: rest)
  | _ => None
  end.

Definition DecodeString (s : string) : option string := str <$> decode64 (chars s).

Lemma digit64_pad s : digit64 s ≠ "="%char.
Proof. destruct s as [[] [] [] [] [] []]; vm_compute; discriminate. Qed.

Lemma decode64_base64 : ∀ l, decode64 (base64_list l) = Some l.
Proof.
  fix IH 1. intros [|[a0 a1 a2 a3 a4 a5 a6 a7] [|[b0 b1 b2 b3 b4 b5 b6 b7] [|[c0 c1 c2 c3 c4 c5 c6 c7] l]]];
    [done|..]; cbn [base64_list decode64]; rewrite !value64_digit; cbn [mbind option_bind].
  - by rewrite !decide_True.
  - rewrite decide_False by apply digit64_pad. by rewrite !decide_True.
  - rewrite !decide_False by apply digit64_pad. by rewrite IH.
Qed.

Lemma DecodeString_Encode s : DecodeString (EncodeToString s) = Some s.
Proof.
  unfold DecodeString, EncodeToString. rewrite chars_str, decode64_base64. cbn. by rewrite str_chars.
Qed.

(** ** [strconv.Quote], which [%q] is *)

(** [unicode.IsPrint] beyond ASCII: the tables of Unicode. *)
Class Unicode : Type := { IsPrint_table : Z → bool }.

Definition byte_val (c : ascii) : Z := Z.of_nat (Ascii.nat_of_ascii c).

Definition RuneError : Z := 65533.

(** [utf8.DecodeRuneInString]: the rune and its width, [RuneError] and 1 for a
    byte that starts no valid encoding. *)
Definition next_rune (l : list ascii) : Z * nat :=
  match l with
  | [] => (RuneError, 0%nat)
  | c :: rest =>
      let n := Ascii.nat_of_ascii c in
      let x := byte_val c in
      let bits y := Z.land (byte_val y) 63 in
      let two lo hi :=
        match rest with
        | c1 :: _ => if cont_byte lo hi c1 then (Z.land x 31 * 64 + bits c1, 2%nat) else (RuneError, 1%nat)
        | _ => (RuneError, 1%nat)
        end in
      let three lo hi :=
        match rest with
        | c1 :: c2 :: _ =>
            if cont_byte lo hi c1 && cont_byte 128 191 c2
            then (Z.land x 15 * 4096 + bits c1 * 64 + bits c2, 3%nat) else (RuneError, 1%nat)
        | _ => (RuneError, 1%nat)
        end in
      let four lo hi :=
        match rest with
        | c1 :: c2 :: c3 :: _ =>
            if cont_byte lo hi c1 && cont_byte 128 191 c2 && cont_byte 128 191 c3
            then (Z.land x 7 * 262144 + bits c1 * 4096 + bits c2 * 64 + bits c3, 4%nat)
            else (RuneError, 1%nat)
        | _ => (RuneError, 1%nat)
        end in
      if (n <? 128)%nat then (x, 1%nat)
      else if (194 <=? n)%nat && (n <=? 223)%nat then two 128%nat 191%nat
      else if (n =? 224)%nat then three 160%nat 191%nat
      else if (n =? 237)%nat then three 128%nat 159%nat
      else if (225 <=? n)%nat && (n <=? 239)%nat then three 128%nat 191%nat
      else if (n =? 240)%nat then four 144%nat 191%nat
      else if (241 <=? n)%nat && (n <=? 243)%nat then four 128%nat 191%nat
      else if (n =? 244)%nat then four 128%nat 143%nat
      else (RuneError, 1%nat)
  end.

Definition hex_digit (z : Z) : ascii :=
  default "0"%char (chars "0123456789abcdef" !! Z.to_nat (Z.land z 15)).

Fixpoint hex (width : nat) (z : Z) : list ascii :=
  match width with
  | O => []
  | S width => hex width (Z.shiftr z 4) ++ [hex_digit z]
  end.

Section quote.
Context {UC : Unicode}.

Definition IsPrint (r : Z) : bool := if r <? 128 then (32 <=? r) && (r <? 127) else IsPrint_table r.

(** [appendEscapedRune]; [bytes] is the encoding of the rune. *)
Definition escape_rune (r : Z) (bytes : list ascii) : list ascii :=
  let esc c := ["\"%char; c] in
  if (r =? 34) || (r =? 92) then "\"%char :: bytes
  else if IsPrint r then bytes
  else if r =? 7 then esc "a"%char
  else if r =? 8 then esc "b"%char
  else if r =? 12 then esc "f"%char
  else if r =? 10 then esc "n"%char
  else if r =? 13 then esc "r"%char
  else if r =? 9 then esc "t"%char
  else if r =? 11 then esc "v"%char
  else if (r <? 32) || (r =? 127) then esc "x"%char ++ hex 2 r
  else if r <? 65536 then esc "u"%char ++ hex 4 r
  else esc "U"%char ++ hex 8 r.

(** Every rune is at least one byte, so the length of the text is enough. *)
Fixpoint quote_list (fuel : nat) (l : list ascii) : list ascii :=
  match fuel, l with
  | S fuel, c :: rest =>
      let '(r, width) := next_rune l in
      if (width =? 1)%nat && (r =? RuneError) then
        ["\"%char; "x"%char] ++ hex 2 (byte_val c) ++ quote_list fuel rest
      else escape_rune r (take width l) ++ quote_list fuel (drop width l)
  | _, _ => []
  end.

Definition Quote (s : string) : string :=
  str (b 34 :: quote_list (String.length s) (chars s) ++ [b 34]).

Lemma next_rune_width l : l ≠ [] → (1 ≤ (next_rune l).2)%nat.
Proof. intros Hl. destruct l as [|c rest]; [done|]. unfold next_rune. repeat case_match; cbn; lia. Qed.

(** More fuel changes nothing. *)
Lemma quote_list_fuel n m l :
  (length l ≤ n)%nat → (length l ≤ m)%nat → quote_list n l = quote_list m l.
Proof.
  revert m l. induction n as [|n IH]; intros m l Hn Hm.
  { destruct l as [|c l]; [by destruct m|cbn in Hn; lia]. }
  destruct m as [|m]; [destruct l as [|c l]; [done|cbn in Hm; lia]|].
  destruct l as [|c l]; [done|]. cbn [quote_list].
  destruct (next_rune (c :: l)) as [r width] eqn:E.
  pose proof (next_rune_width (c :: l) ltac:(done)) as Hw. rewrite E in Hw. cbn in Hn, Hm, Hw.
  destruct (_ && _).
  - do 2 f_equal. apply IH; lia.
  - f_equal. apply IH; rewrite length_drop; cbn; lia.
Qed.
End quote.

(** ** Numbers in texts *)

(** The value of [strconv.Atoi] when its error is ignored: 0 for a text that is
    no number, the nearest [int] for one that is out of range. *)
Definition atoi_value (s : string) : Z :=
  match signed (chars s) with
  | None => 0
  | Some z => Z.max (- 2 ^ 63) (Z.min (2 ^ 63 - 1) z)
  end.

(** [%04d]: the sign counts. *)
Definition pad4 (z : Z) : string :=
  let digits := chars (Sprint (Z.abs z)) in
  let sign := if z <? 0 then ["-"%char] else [] in
  str (sign ++ replicate (4 - length sign - length digits) "0"%char ++ digits).

Lemma digits_val_zeros n l : digits_val 0 (replicate n "0"%char ++ l) = digits_val 0 l.
Proof. by induction n as [|n IH]. Qed.

Lemma Sprint_digits z :
  0 ≤ z → ∃ c l, chars (Sprint z) = c :: l ∧ is_digit c = true ∧ digits_val 0 (c :: l) = Some z.
Proof.
  intros Hz. pose proof (signed_Sprint z) as Hs.
  assert (∃ c l, chars (Sprint z) = c :: l ∧ is_digit c = true) as (c & l & Hc & Hd).
  { unfold Sprint. destruct z as [|p|p]; [by exists "0"%char, []| |lia].
    change (pretty (Z.pos p)) with (pretty (N.pos p)). apply pretty_N_head. }
  exists c, l. split_and!; [done..|]. by rewrite Hc, signed_unsigned in Hs.
Qed.

(** A padded number reads as itself. *)
Lemma atoi_pad4 z : 0 ≤ z < 2 ^ 63 → atoi_value (pad4 z) = z.
Proof.
  intros Hz. unfold atoi_value, pad4. destruct (Z.ltb_spec z 0) as [?|_]; [lia|].
  rewrite chars_str, Z.abs_eq by lia. cbn [app length].
  destruct (Sprint_digits z) as (c & l & -> & Hd & Hv); [lia|].
  assert (signed (replicate (4 - 0 - length (c :: l)) "0"%char ++ c :: l) = Some z) as ->.
  { destruct (4 - 0 - length (c :: l))%nat as [|n].
    - cbn [replicate app]. by rewrite signed_unsigned.
    - cbn [replicate app]. rewrite signed_unsigned by done. unfold unsigned.
      change ("0"%char :: replicate n "0"%char ++ c :: l) with
        (replicate (S n) "0"%char ++ c :: l). by rewrite digits_val_zeros. }
  lia.
Qed.
