(* ===== verification/ConsumerReset.v ===== *)
(** * ConsumerReset: [pkg/kafka]

    Resetting the offsets of a consumer group: parsing the request and running
    the Kafka tool as a job in the cluster. *)

From S2P Require Import Prelude GoLib Errors Json Kube.

#[local] Open Scope Z_scope.

Definition kafkaImage : string := "bitnami/kafka:2.0.0".
Definition retries : Z := 6.

Definition resetLatest : string := "latest".
Definition resetEarliest : string := "earliest".
Definition resetDatetime : string := "datetime".

Record ResetV2Params := mkResetV2Params { v2_To : string; v2_Datetime : string }.

Section reset.
Context {GJ : GoJSON}.

Definition dec_ResetV2Params : dec ResetV2Params :=
  dec_record "kafka.ResetV2Params" (λ p, (v2_To p, (v2_Datetime p, tt)))
    (λ '(t, (d, tt)), mkResetV2Params t d) [f ("to", dec_string); ("datetime", dec_string)].

(** [ResetParams] has the one field [To]. *)
Definition dec_ResetParams : dec string :=
  dec_record "kafka.ResetParams" (λ t, (t, tt)) (λ '(t, tt), t) [f ("to", dec_string)].

Definition invalid_params : error → error := caused (WithMsgf ErrInvalid "invalid reset params").

Definition ParseResetV2Params (bytes : RawMessage) : go string :=
  params ← on_err (Unmarshal dec_ResetV2Params bytes (mkResetV2Params "" "")) invalid_params;
  let resetValue := ToLower (v2_To params) in
  if decide (v2_To params = resetDatetime) then Ok (v2_Datetime params)
  else if negb (bool_decide (resetValue = resetLatest)) && negb (bool_decide (resetValue = resetEarliest))
  then Err (EErr (WithMsgf ErrInvalid "reset_value must be one of [earliest latest datetime]"))
  else Ok resetValue.

Definition ParseResetParams (bytes : RawMessage) : go string :=
  to ← on_err (Unmarshal dec_ResetParams bytes "") invalid_params;
  let resetValue := ToLower to in
  if negb (bool_decide (resetValue = resetLatest)) && negb (bool_decide (resetValue = resetEarliest))
  then Err (EErr (WithMsgf ErrInvalid "reset_value must be one of [earliest latest]"))
  else Ok resetValue.

Definition prepCommand (brokers consumerID kafkaResetValue : string) : list string :=
  ["kafka-consumer-groups.sh"; "--bootstrap-server"; brokers; "--group"; consumerID;
   "--reset-offsets"; "--execute"; "--all-topics"] ++
  (if decide (kafkaResetValue = resetLatest) then ["--to-latest"]
   else if decide (kafkaResetValue = resetEarliest) then ["--to-earliest"]
   else ["--to-datetime"; kafkaResetValue]).

Definition DoReset {W} {KA : KubeAPI W} (polls : nat) (jobCluster : Client)
    (kubeNamespace kafkaBrokers kafkaConsumerID kafkaResetValue resetJobName : string) : io W () :=
  RunJob polls jobCluster kubeNamespace (TrimSuffix resetJobName "-firehose" +:+ "-reset")
    kafkaImage (prepCommand kafkaBrokers kafkaConsumerID kafkaResetValue) retries true.

Lemma ParseResetParams_value bytes v :
  ParseResetParams bytes = Ok v → v = resetLatest ∨ v = resetEarliest.
Proof.
  unfold ParseResetParams. intros H. apply res_bind_ok_inv in H as (t & _ & H).
  destruct (negb _ && _) eqn:E; simplify_eq.
  apply andb_false_iff in E as [E%negb_false_iff%bool_decide_eq_true|E%negb_false_iff%bool_decide_eq_true];
    auto.
Qed.
(** What a request asks to reset to: a time for "datetime", written just so, and
    otherwise "latest" or "earliest", in any case. *)
Definition asks_reset_to (p : ResetV2Params) (v : string) : Prop :=
  (v2_To p = "datetime" ∧ v = v2_Datetime p) ∨
  (v2_To p ≠ "datetime" ∧ v = ToLower (v2_To p) ∧ (v = "latest" ∨ v = "earliest")).

Lemma ParseResetV2Params_asks bytes v :
  ParseResetV2Params bytes = Ok v →
  ∃ p, Unmarshal dec_ResetV2Params bytes (mkResetV2Params "" "") = Ok p ∧ asks_reset_to p v.
Proof.
  unfold ParseResetV2Params. intros H. apply res_bind_ok_inv in H as (p & Hp & H).
  apply res_on_err_ok in Hp. exists p. split; [done|]. unfold asks_reset_to.
  change "datetime" with resetDatetime. case_decide; [left; by injection H as <-|right].
  destruct (negb _ && _) eqn:E; simplify_eq. split_and!; [done..|].
  apply andb_false_iff in E as [E%negb_false_iff%bool_decide_eq_true|E%negb_false_iff%bool_decide_eq_true];
    rewrite E; auto.
Qed.

Lemma ParseResetParams_asks bytes v :
  ParseResetParams bytes = Ok v →
  ∃ to, Unmarshal dec_ResetParams bytes "" = Ok to ∧ v = ToLower to ∧ (v = "latest" ∨ v = "earliest").
Proof.
  intros H. pose proof (ParseResetParams_value _ _ H) as Hv. revert H. unfold ParseResetParams.
  intros H. apply res_bind_ok_inv in H as (p & Hp & H). apply res_on_err_ok in Hp. exists p.
  split; [done|]. destruct (negb _ && _); simplify_eq. done.
Qed.

(** The value to reset to is UTF-8, as the texts of the request are. *)
Lemma ParseResetV2Params_utf8 {TJ : TextJSON} bytes v :
  ParseResetV2Params bytes = Ok v → valid_utf8 v = true.
Proof.
  unfold ParseResetV2Params. intros H. apply res_bind_ok_inv in H as (p & Hp & H).
  unfold on_err in Hp. destruct (Unmarshal _ _ _) as [p'|e|s] eqn:Hu; simplify_eq.
  apply (decodes_texts_Unmarshal (λ p, valid_utf8 (v2_To p) = true ∧ valid_utf8 (v2_Datetime p) = true))
    in Hu as [Ht Hd]; [| |done].
  - case_decide; [by simplify_eq|]. destruct (negb _ && _) eqn:E; simplify_eq.
    by apply andb_false_iff in E as [->%negb_false_iff%bool_decide_eq_true|
                                     ->%negb_false_iff%bool_decide_eq_true].
  - set (ok := λ s, valid_utf8 s = true).
    eapply (decodes_texts_record _ (λ t, ok t.1 ∧ ok t.2.1 ∧ True));
      [|by intros ? [? ?]|by intros [? [? []]] (? & ? & _)].
    apply (texts_cons ok (λ t, ok t.1 ∧ True)); [apply decodes_texts_string|].
    apply (texts_cons ok (λ _, True)); [apply decodes_texts_string|constructor].
Qed.

Lemma asks_utf8 {TJ : TextJSON} bytes p v :
  Unmarshal dec_ResetV2Params bytes (mkResetV2Params "" "") = Ok p → asks_reset_to p v →
  valid_utf8 v = true.
Proof.
  intros Hp [[Ht ->]|(Ht & -> & [-> | ->])]; [|done..].
  apply (ParseResetV2Params_utf8 bytes). unfold ParseResetV2Params. rewrite Hp. cbn.
  by rewrite decide_True.
Qed.
End reset.
