(* ===== verification/FirehoseTypes.v ===== *)
(** * FirehoseTypes: the data of [modules/firehose]

    The structs of [config.go], [driver.go], [keda.go] and [autoscaler.go] with
    their JSON form.  A [*Keda] in an [AutoscalerSpec] interface may be nil. *)

From S2P Require Import Prelude GoLib Errors Json Kube.

#[local] Open Scope Z_scope.

(** ** [keda.go] *)

Definition KAFKA : string := "kafka".
Definition PROMETHEUS : string := "prometheus".

Record AuthenticationRef := mkAuthRef { auth_Name : string; auth_Kind : string }.

Record Trigger := mkTrigger {
  trg_Type : string;
  Metadata : gomap string;
  trg_AuthenticationRef : AuthenticationRef;
}.

Record Fallback := mkFallback { Behavior : string; fb_Replicas : Z; FailureThreshold : Z }.

Record Policy := mkPolicy { pol_Type : string; pol_Value : string; PeriodSeconds : Z }.

Record ScaleBehaviour := mkScaleBehaviour {
  Policies : option (list Policy);
  StabilizationWindowSeconds : option Z;
  Tolerance : option string;
}.

Record HorizontalPodAutoscaler := mkHPA { ScaleDown : ScaleBehaviour; ScaleUp : ScaleBehaviour }.

Record Keda := mkKeda {
  Paused : bool;
  PausedWithReplica : bool;
  PausedReplica : Z;
  MinReplicas : Z;
  MaxReplicas : Z;
  PollingInterval : Z;
  CooldownPeriod : Z;
  Triggers : gomap Trigger;
  RestoreToOriginalReplica : bool;
  keda_Fallback : option Fallback;
  HPA : option HorizontalPodAutoscaler;
}.

Definition AuthRef_zero : AuthenticationRef := mkAuthRef "" "".
Definition Trigger_zero : Trigger := mkTrigger "" None AuthRef_zero.
Definition Policy_zero : Policy := mkPolicy "" "0" 0.
Definition ScaleBehaviour_zero : ScaleBehaviour := mkScaleBehaviour None None None.
Definition HPA_zero : HorizontalPodAutoscaler := mkHPA ScaleBehaviour_zero ScaleBehaviour_zero.
Definition Keda_zero : Keda := mkKeda false false 0 0 0 0 0 None false None None.

(** ** [autoscaler.go] *)

Definition KEDA : string := "keda".

Record Autoscaler := mkAutoscaler { as_Enabled : bool; as_Type : string; as_Spec : option Keda }.

(** ** [config.go], [driver.go] *)

Record UsageSpec := mkUsage { CPU : string; Memory : string }.
Record RequestsAndLimits := mkRL { rl_Limits : UsageSpec; rl_Requests : UsageSpec }.

Record InitContainer := mkInitContainer {
  ic_Enabled : bool;
  ic_Args : option (list string);
  ic_Command : option (list string);
  ic_Repository : string;
  ic_ImageTag : string;
  ic_PullPolicy : string;
}.

Record TelegrafConf := mkTelegrafConf {
  tc_Output : gomap any;
  AdditionalGlobalTags : gomap string;
}.

Record Telegraf := mkTelegraf {
  tel_Enabled : bool;
  tel_Image : gomap any;
  tel_Config : TelegrafConf;
}.

Record ChartValues := mkChartValues {
  ImageRepository : string;
  ImageTag : string;
  ChartVersion : string;
  ImagePullPolicy : string;
}.

Record Config := mkConfig {
  Stopped : bool;
  StopTime : option Time;
  Replicas : Z;
  Namespace : string;
  DeploymentID : string;
  EnvVariables : gomap string;
  ResetOffset : string;
  Limits : UsageSpec;
  Requests : UsageSpec;
  cfg_Telegraf : option Telegraf;
  cfg_ChartValues : option ChartValues;
  cfg_InitContainer : InitContainer;
  cfg_Autoscaler : option Autoscaler;
}.

Definition Usage_zero : UsageSpec := mkUsage "" "".
Definition RL_zero : RequestsAndLimits := mkRL Usage_zero Usage_zero.
Definition InitContainer_zero : InitContainer := mkInitContainer false None None "" "" "".
Definition TelegrafConf_zero : TelegrafConf := mkTelegrafConf None None.
Definition Telegraf_zero : Telegraf := mkTelegraf false None TelegrafConf_zero.
Definition ChartValues_zero : ChartValues := mkChartValues "" "" "" "".
Definition Config_zero : Config :=
  mkConfig false None 0 "" "" None "" Usage_zero Usage_zero None None InitContainer_zero None.

Record driverConf := mkDriverConf {
  dc_Labels : gomap string;
  dc_Telegraf : option Telegraf;
  dc_Namespace : gomap string;
  dc_ChartValues : ChartValues;
  dc_Tolerations : gomap Toleration;
  dc_EnvVariables : gomap string;
  dc_InitContainer : InitContainer;
  GCSSinkCredential : string;
  DLQGCSSinkCredential : string;
  BigQuerySinkCredential : string;
  dc_RequestsAndLimits : gomap RequestsAndLimits;
  dc_NodeAffinity : NodeAffinityMatchExpressions;
  OffsetResetDelaySeconds : Z;
  KubeDeployTimeout : Z;
  dc_Keda : gomap Keda;
}.

Record Output := mkOutput {
  out_Pods : option (list Pod);
  out_Namespace : string;
  ReleaseName : string;
  out_Deployment : option Deployment;
  DesiredStatus : string;
  AutoscalerEnabled : bool;
}.

Definition Output_zero : Output := mkOutput None "" "" None "" false.

Record transientData := mkTransient {
  PendingSteps : option (list string);
  ResetOffsetTo : string;
}.

Definition transient_zero : transientData := mkTransient None "".

Record ScaleParams := mkScaleParams { sp_Replicas : Z }.
Record StartParams := mkStartParams { sp_StopTime : option Time }.

(** ** JSON *)

Section codecs.
Context {GJ : GoJSON}.

Definition dec_UsageSpec : dec UsageSpec :=
  dec_record "firehose.UsageSpec" (λ u, (CPU u, (Memory u, tt))) (λ '(c, (m, tt)), mkUsage c m)
    [f ("cpu", dec_string); ("memory", dec_string)].
Definition enc_UsageSpec (u : UsageSpec) : json :=
  obj [omit (no_str (CPU u)) "cpu" (JStr (CPU u)); omit (no_str (Memory u)) "memory" (JStr (Memory u))].

Definition dec_RL : dec RequestsAndLimits :=
  dec_record "firehose.RequestsAndLimits" (λ r, (rl_Limits r, (rl_Requests r, tt)))
    (λ '(l, (r, tt)), mkRL l r) [f ("limits", dec_UsageSpec); ("requests", dec_UsageSpec)].

Definition dec_InitContainer : dec InitContainer :=
  dec_record "firehose.InitContainer"
    (λ c, (ic_Enabled c, (ic_Args c, (ic_Command c, (ic_Repository c, (ic_ImageTag c,
           (ic_PullPolicy c, tt)))))))
    (λ '(e, (a, (c, (r, (t, (p, tt)))))), mkInitContainer e a c r t p)
    [f ("enabled", dec_bool); ("args", dec_strings); ("command", dec_strings);
       ("repository", dec_string); ("image_tag", dec_string); ("pull_policy", dec_string)].
Definition enc_InitContainer (c : InitContainer) : json :=
  obj [mem "enabled" (JBool (ic_Enabled c)); mem "args" (enc_slice JStr (ic_Args c));
       mem "command" (enc_slice JStr (ic_Command c)); mem "repository" (JStr (ic_Repository c));
       mem "image_tag" (JStr (ic_ImageTag c)); mem "pull_policy" (JStr (ic_PullPolicy c))].

Definition dec_any_map : dec (gomap any) := dec_map ANil dec_any.

Definition dec_TelegrafConf : dec TelegrafConf :=
  dec_record "firehose.TelegrafConf" (λ c, (tc_Output c, (AdditionalGlobalTags c, tt)))
    (λ '(o, (t, tt)), mkTelegrafConf o t)
    [f ("output", dec_any_map); ("additional_global_tags", dec_str_map)].
Definition enc_TelegrafConf (c : TelegrafConf) : json :=
  obj [mem "output" (enc_map enc_any (tc_Output c));
       mem "additional_global_tags" (enc_map JStr (AdditionalGlobalTags c))].

Definition dec_Telegraf : dec Telegraf :=
  dec_record "firehose.Telegraf" (λ t, (tel_Enabled t, (tel_Image t, (tel_Config t, tt))))
    (λ '(e, (i, (c, tt))), mkTelegraf e i c)
    [f ("enabled", dec_bool); ("image", dec_any_map); ("config", dec_TelegrafConf)].
Definition enc_Telegraf (t : Telegraf) : json :=
  obj [omit (negb (tel_Enabled t)) "enabled" (JBool (tel_Enabled t));
       omit (no_map (tel_Image t)) "image" (enc_map enc_any (tel_Image t));
       mem "config" (enc_TelegrafConf (tel_Config t))].

Definition dec_ChartValues : dec ChartValues :=
  dec_record "firehose.ChartValues"
    (λ c, (ImageRepository c, (ImageTag c, (ChartVersion c, (ImagePullPolicy c, tt)))))
    (λ '(r, (t, (v, (p, tt)))), mkChartValues r t v p)
    [f ("image_repository", dec_string); ("image_tag", dec_string);
       ("chart_version", dec_string); ("image_pull_policy", dec_string)].
Definition enc_ChartValues (c : ChartValues) : json :=
  obj [mem "image_repository" (JStr (ImageRepository c)); mem "image_tag" (JStr (ImageTag c));
       mem "chart_version" (JStr (ChartVersion c)); mem "image_pull_policy" (JStr (ImagePullPolicy c))].

Definition dec_AuthRef : dec AuthenticationRef :=
  dec_record "firehose.AuthenticationRef" (λ a, (auth_Name a, (auth_Kind a, tt)))
    (λ '(n, (k, tt)), mkAuthRef n k) [f ("name", dec_string); ("kind", dec_string)].
Definition enc_AuthRef (a : AuthenticationRef) : json :=
  obj [omit (no_str (auth_Name a)) "name" (JStr (auth_Name a));
       omit (no_str (auth_Kind a)) "kind" (JStr (auth_Kind a))].

Definition dec_Trigger : dec Trigger :=
  dec_record "firehose.Trigger" (λ t, (trg_Type t, (Metadata t, (trg_AuthenticationRef t, tt))))
    (λ '(y, (m, (a, tt))), mkTrigger y m a)
    [f ("type", dec_string); ("metadata", dec_str_map); ("authentication_ref", dec_AuthRef)].
Definition enc_Trigger (t : Trigger) : json :=
  obj [omit (no_str (trg_Type t)) "type" (JStr (trg_Type t));
       omit (no_map (Metadata t)) "metadata" (enc_map JStr (Metadata t));
       mem "authentication_ref" (enc_AuthRef (trg_AuthenticationRef t))].

Definition dec_Fallback : dec Fallback :=
  dec_record "firehose.Fallback" (λ x, (Behavior x, (fb_Replicas x, (FailureThreshold x, tt))))
    (λ '(x, (r, (t, tt))), mkFallback x r t)
    [f ("behavior", dec_string); ("replicas", dec_int); ("failure_threshold", dec_int)].
Definition no_int (z : Z) : bool := z =? 0.
Definition no_float (lit : string) : bool := bool_decide (lit = "0") || bool_decide (lit = "-0").

Definition enc_Fallback (x : Fallback) : json :=
  obj [omit (no_str (Behavior x)) "behavior" (JStr (Behavior x));
       omit (no_int (fb_Replicas x)) "replicas" (enc_int (fb_Replicas x));
       omit (no_int (FailureThreshold x)) "failure_threshold" (enc_int (FailureThreshold x))].

Definition dec_Policy : dec Policy :=
  dec_record "firehose.Policy" (λ p, (pol_Type p, (pol_Value p, (PeriodSeconds p, tt))))
    (λ '(t, (v, (s, tt))), mkPolicy t v s)
    [f ("type", dec_string); ("value", dec_float 32); ("period_seconds", dec_int)].
Definition enc_Policy (p : Policy) : json :=
  obj [omit (no_str (pol_Type p)) "type" (JStr (pol_Type p));
       omit (no_float (pol_Value p)) "value" (JNum (pol_Value p));
       omit (no_int (PeriodSeconds p)) "period_seconds" (enc_int (PeriodSeconds p))].

Definition dec_ScaleBehaviour : dec ScaleBehaviour :=
  dec_record "firehose.ScaleBehaviour"
    (λ s, (Policies s, (StabilizationWindowSeconds s, (Tolerance s, tt))))
    (λ '(p, (w, (t, tt))), mkScaleBehaviour p w t)
    [f ("policies", dec_slice Policy_zero dec_Policy);
       ("stabilization_window_seconds", dec_ptr 0 dec_int);
       ("tolerance", dec_ptr "0" (dec_float 32))].
Definition enc_ScaleBehaviour (s : ScaleBehaviour) : json :=
  obj [omit (no_list (Policies s)) "policies" (enc_slice enc_Policy (Policies s));
       omit (no_ptr (StabilizationWindowSeconds s)) "stabilization_window_seconds"
         (enc_ptr enc_int (StabilizationWindowSeconds s));
       omit (no_ptr (Tolerance s)) "tolerance" (enc_ptr JNum (Tolerance s))].

Definition dec_HPA : dec HorizontalPodAutoscaler :=
  dec_record "firehose.HorizontalPodAutoscaler" (λ h, (ScaleDown h, (ScaleUp h, tt)))
    (λ '(d, (u, tt)), mkHPA d u)
    [f ("scale_down", dec_ScaleBehaviour); ("scale_up", dec_ScaleBehaviour)].
Definition enc_HPA (h : HorizontalPodAutoscaler) : json :=
  obj [mem "scale_down" (enc_ScaleBehaviour (ScaleDown h));
       mem "scale_up" (enc_ScaleBehaviour (ScaleUp h))].

Definition dec_Keda : dec Keda :=
  dec_record "firehose.Keda"
    (λ k, (Paused k, (PausedWithReplica k, (PausedReplica k, (MinReplicas k, (MaxReplicas k,
           (PollingInterval k, (CooldownPeriod k, (Triggers k, (RestoreToOriginalReplica k,
           (keda_Fallback k, (HPA k, tt))))))))))))
    (λ '(p, (pw, (pr, (mi, (ma, (po, (co, (t, (r, (fb, (h, tt))))))))))),
      mkKeda p pw pr mi ma po co t r fb h)
    [f ("paused", dec_bool); ("paused_with_replica", dec_bool); ("paused_replica", dec_int);
       ("min_replicas", dec_int); ("max_replicas", dec_int); ("polling_interval", dec_int);
       ("cooldown_period", dec_int); ("triggers", dec_map Trigger_zero dec_Trigger);
       ("restore_to_original_replica_count", dec_bool);
       ("fallback", dec_ptr (mkFallback "" 0 0) dec_Fallback); ("hpa", dec_ptr HPA_zero dec_HPA)].
Definition enc_Keda (k : Keda) : json :=
  obj [omit (negb (Paused k)) "paused" (JBool (Paused k));
       omit (negb (PausedWithReplica k)) "paused_with_replica" (JBool (PausedWithReplica k));
       omit (no_int (PausedReplica k)) "paused_replica" (enc_int (PausedReplica k));
       mem "min_replicas" (enc_int (MinReplicas k)); mem "max_replicas" (enc_int (MaxReplicas k));
       omit (no_int (PollingInterval k)) "polling_interval" (enc_int (PollingInterval k));
       omit (no_int (CooldownPeriod k)) "cooldown_period" (enc_int (CooldownPeriod k));
       omit (no_map (Triggers k)) "triggers" (enc_map enc_Trigger (Triggers k));
       omit (negb (RestoreToOriginalReplica k)) "restore_to_original_replica_count"
         (JBool (RestoreToOriginalReplica k));
       omit (no_ptr (keda_Fallback k)) "fallback" (enc_ptr enc_Fallback (keda_Fallback k));
       omit (no_ptr (HPA k)) "hpa" (enc_ptr enc_HPA (HPA k))].

(** [Autoscaler.UnmarshalJSON]: the spec is kept as a raw document and decoded
    by the type. *)
Definition dec_raw : dec (option json) := λ j _, Ok (Some j).

Definition UnmarshalJSON : dec Autoscaler := λ j old,
  t ← on_err
        (dec_struct "firehose.Autoscaler"
           [f ("spec", dec_raw); ("enabled", dec_bool); ("type", dec_string)] j
           (None, (as_Enabled old, (as_Type old, tt))))
        (caused (WithMsgf ErrInvalid "invalid autoscaler config"));
  let '(spec, (enabled, (type, _))) := t in
  if decide (type = KEDA) then
    kedaSpec ← on_err
      (match spec with
       | None => Err (ENew "unexpected end of JSON input")
       | Some j => dec_ptr Keda_zero dec_Keda j None
       end)
      (caused (WithMsgf ErrInvalid "invalid keda config"));
    Ok (mkAutoscaler enabled type kedaSpec)
  else Err (EErr (WithMsgf ErrInvalid ("unsupported autoscaler type: " +:+ type))).

Definition enc_Autoscaler (a : Autoscaler) : json :=
  obj [mem "enabled" (JBool (as_Enabled a));
       omit (no_str (as_Type a)) "type" (JStr (as_Type a));
       mem "spec" (enc_ptr enc_Keda (as_Spec a))].

Definition Config_tup (c : Config) :=
  (Stopped c, (StopTime c, (Replicas c, (Namespace c, (DeploymentID c, (EnvVariables c,
  (ResetOffset c, (Limits c, (Requests c, (cfg_Telegraf c, (cfg_ChartValues c,
  (cfg_InitContainer c, (cfg_Autoscaler c, tt))))))))))))).
Definition Config_untup t : Config :=
  let '(s, (st, (r, (n, (d, (e, (ro, (l, (rq, (t, (cv, (ic, (a, tt))))))))))))) := t in
  mkConfig s st r n d e ro l rq t cv ic a.

Definition dec_Config : dec Config :=
  dec_record "firehose.Config" Config_tup Config_untup
    [f ("stopped", dec_bool); ("stop_time", dec_ptr zero_time dec_time); ("replicas", dec_int);
       ("namespace", dec_string); ("deployment_id", dec_string); ("env_variables", dec_str_map);
       ("reset_offset", dec_string); ("limits", dec_UsageSpec); ("requests", dec_UsageSpec);
       ("telegraf", dec_ptr Telegraf_zero dec_Telegraf);
       ("chart_values", dec_ptr ChartValues_zero dec_ChartValues);
       ("init_container", dec_InitContainer);
       ("autoscaler", dec_ptr (mkAutoscaler false "" None) UnmarshalJSON)].

Definition enc_time (t : Time) : json := JStr (time_print t).

Definition enc_Config (c : Config) : json :=
  obj [mem "stopped" (JBool (Stopped c));
       omit (no_ptr (StopTime c)) "stop_time" (enc_ptr enc_time (StopTime c));
       mem "replicas" (enc_int (Replicas c));
       omit (no_str (Namespace c)) "namespace" (JStr (Namespace c));
       omit (no_str (DeploymentID c)) "deployment_id" (JStr (DeploymentID c));
       omit (no_map (EnvVariables c)) "env_variables" (enc_map JStr (EnvVariables c));
       omit (no_str (ResetOffset c)) "reset_offset" (JStr (ResetOffset c));
       mem "limits" (enc_UsageSpec (Limits c)); mem "requests" (enc_UsageSpec (Requests c));
       omit (no_ptr (cfg_Telegraf c)) "telegraf" (enc_ptr enc_Telegraf (cfg_Telegraf c));
       omit (no_ptr (cfg_ChartValues c)) "chart_values" (enc_ptr enc_ChartValues (cfg_ChartValues c));
       mem "init_container" (enc_InitContainer (cfg_InitContainer c));
       omit (no_ptr (cfg_Autoscaler c)) "autoscaler" (enc_ptr enc_Autoscaler (cfg_Autoscaler c))].

Definition driverConf_tup (c : driverConf) :=
  (dc_Labels c, (dc_Telegraf c, (dc_Namespace c, (dc_ChartValues c, (dc_Tolerations c,
  (dc_EnvVariables c, (dc_InitContainer c, (GCSSinkCredential c, (DLQGCSSinkCredential c,
  (BigQuerySinkCredential c, (dc_RequestsAndLimits c, (dc_NodeAffinity c,
  (OffsetResetDelaySeconds c, (KubeDeployTimeout c, (dc_Keda c, tt))))))))))))))).
Definition driverConf_untup t : driverConf :=
  let '(l, (te, (n, (cv, (to, (ev, (ic, (g, (d, (bq, (rl, (na, (o, (k, (ke, tt))))))))))))))) := t in
  mkDriverConf l te n cv to ev ic g d bq rl na o k ke.

(** [FirehoseAutoscaler] has the one field [Keda]. *)
Definition dec_FirehoseAutoscaler : dec (gomap Keda) :=
  dec_record "firehose.FirehoseAutoscaler" (λ k, (k, tt)) (λ '(k, tt), k)
    [f ("keda", dec_map Keda_zero dec_Keda)].

Definition dec_driverConf : dec driverConf :=
  dec_record "firehose.driverConf" driverConf_tup driverConf_untup
    [f ("labels", dec_str_map); ("telegraf", dec_ptr Telegraf_zero dec_Telegraf);
       ("namespace", dec_str_map); ("chart_values", dec_ChartValues);
       ("tolerations", dec_map (mkToleration "" "" "" "") dec_Toleration);
       ("env_variables", dec_str_map); ("init_container", dec_InitContainer);
       ("gcs_sink_credential", dec_string); ("dlq_gcs_sink_credential", dec_string);
       ("big_query_sink_credential", dec_string);
       ("requests_and_limits", dec_map RL_zero dec_RL);
       ("node_affinity_match_expressions", dec_Affinity);
       ("offset_reset_delay_seconds", dec_int); ("kube_deploy_timeout_seconds", dec_int);
       ("autoscaler", dec_FirehoseAutoscaler)].

Definition dec_Output : dec Output :=
  dec_record "firehose.Output"
    (λ o, (out_Pods o, (out_Namespace o, (ReleaseName o, (out_Deployment o, (DesiredStatus o,
           (AutoscalerEnabled o, tt)))))))
    (λ '(p, (n, (r, (d, (s, (a, tt)))))), mkOutput p n r d s a)
    [f ("pods", dec_slice Pod_zero dec_Pod); ("namespace", dec_string);
       ("release_name", dec_string); ("deployment", dec_ptr Deployment_zero dec_Deployment);
       ("desired_status", dec_string); ("autoscaler_enabled", dec_bool)].

Definition enc_Output (o : Output) : json :=
  obj [omit (no_list (out_Pods o)) "pods" (enc_slice enc_Pod (out_Pods o));
       omit (no_str (out_Namespace o)) "namespace" (JStr (out_Namespace o));
       omit (no_str (ReleaseName o)) "release_name" (JStr (ReleaseName o));
       omit (no_ptr (out_Deployment o)) "deployment" (enc_ptr enc_Deployment (out_Deployment o));
       omit (no_str (DesiredStatus o)) "desired_status" (JStr (DesiredStatus o));
       omit (negb (AutoscalerEnabled o)) "autoscaler_enabled" (JBool (AutoscalerEnabled o))].

Definition dec_transient : dec transientData :=
  dec_record "firehose.transientData" (λ t, (PendingSteps t, (ResetOffsetTo t, tt)))
    (λ '(p, (r, tt)), mkTransient p r)
    [f ("pending_steps", dec_strings); ("reset_offset_to", dec_string)].

Definition enc_transient (t : transientData) : json :=
  obj [mem "pending_steps" (enc_slice JStr (PendingSteps t));
       omit (no_str (ResetOffsetTo t)) "reset_offset_to" (JStr (ResetOffsetTo t))].

Definition dec_ScaleParams : dec ScaleParams :=
  dec_record "firehose.ScaleParams" (λ p, (sp_Replicas p, tt)) (λ '(r, tt), mkScaleParams r)
    [f ("replicas", dec_int)].

Definition dec_StartParams : dec StartParams :=
  dec_record "firehose.StartParams" (λ p, (sp_StopTime p, tt)) (λ '(t, tt), mkStartParams t)
    [f ("stop_time", dec_ptr zero_time dec_time)].
End codecs.
