(* ===== verification/FirehoseConfig.v ===== *)
(** * FirehoseConfig: [config.go], [keda.go], [autoscaler.go] of [modules/firehose]

    Reading a firehose's config against the module's settings, and the Keda
    autoscaler.  The parts of charts and
    templates that modules share are in Charts.v. *)

From S2P Require Import Prelude GoLib Errors Resource Module Json Names Validator Kube Kubernetes Charts FirehoseTypes.
From Stdlib Require Import Ascii.

#[local] Open Scope Z_scope.

Definition confSinkType : string := "SINK_TYPE".
Definition confKeyConsumerID : string := "SOURCE_KAFKA_CONSUMER_GROUP_ID".
Definition confKeyKafkaBrokers : string := "SOURCE_KAFKA_BROKERS".
Definition confKeyKafkaTopic : string := "SOURCE_KAFKA_TOPIC".
Definition helmReleaseNameMaxLength : Z := 53.
Definition defaultKey : string := "default".

Definition KedaPausedAnnotationKey : string := "autoscaling.keda.sh/paused".
Definition KedaPausedReplicaAnnotationKey : string := "autoscaling.keda.sh/paused-replicas".
Definition KedaKafkaMetadataBootstrapServersKey : string := "bootstrapServers".
Definition KedaKafkaMetadataTopicKey : string := "topic".
Definition KedaKafkaMetadataConsumerGroupKey : string := "consumerGroup".
Definition KafkaTopicDelimiter : ascii := "|".

(** ** Setters *)

Definition set_Metadata (m : gomap string) (t : Trigger) : Trigger :=
  mkTrigger (trg_Type t) m (trg_AuthenticationRef t).

Definition set_Triggers (t : gomap Trigger) (k : Keda) : Keda :=
  mkKeda (Paused k) (PausedWithReplica k) (PausedReplica k) (MinReplicas k) (MaxReplicas k)
    (PollingInterval k) (CooldownPeriod k) t (RestoreToOriginalReplica k) (keda_Fallback k) (HPA k).

Definition set_paused (p pw : bool) (pr : Z) (k : Keda) : Keda :=
  mkKeda p pw pr (MinReplicas k) (MaxReplicas k) (PollingInterval k) (CooldownPeriod k)
    (Triggers k) (RestoreToOriginalReplica k) (keda_Fallback k) (HPA k).

Definition set_Spec (s : option Keda) (a : Autoscaler) : Autoscaler :=
  mkAutoscaler (as_Enabled a) (as_Type a) s.

Definition set_run (stopped : bool) (stop : option Time) (replicas : Z) (c : Config) : Config :=
  mkConfig stopped stop replicas (Namespace c) (DeploymentID c) (EnvVariables c) (ResetOffset c)
    (Limits c) (Requests c) (cfg_Telegraf c) (cfg_ChartValues c) (cfg_InitContainer c)
    (cfg_Autoscaler c).
Definition set_place (ns id : string) (c : Config) : Config :=
  mkConfig (Stopped c) (StopTime c) (Replicas c) ns id (EnvVariables c) (ResetOffset c)
    (Limits c) (Requests c) (cfg_Telegraf c) (cfg_ChartValues c) (cfg_InitContainer c)
    (cfg_Autoscaler c).
Definition set_EnvVariables (e : gomap string) (c : Config) : Config :=
  mkConfig (Stopped c) (StopTime c) (Replicas c) (Namespace c) (DeploymentID c) e (ResetOffset c)
    (Limits c) (Requests c) (cfg_Telegraf c) (cfg_ChartValues c) (cfg_InitContainer c)
    (cfg_Autoscaler c).
Definition set_ResetOffset (o : string) (c : Config) : Config :=
  mkConfig (Stopped c) (StopTime c) (Replicas c) (Namespace c) (DeploymentID c) (EnvVariables c) o
    (Limits c) (Requests c) (cfg_Telegraf c) (cfg_ChartValues c) (cfg_InitContainer c)
    (cfg_Autoscaler c).
Definition set_usage (l r : UsageSpec) (c : Config) : Config :=
  mkConfig (Stopped c) (StopTime c) (Replicas c) (Namespace c) (DeploymentID c) (EnvVariables c)
    (ResetOffset c) l r (cfg_Telegraf c) (cfg_ChartValues c) (cfg_InitContainer c) (cfg_Autoscaler c).
Definition set_chart (t : option Telegraf) (v : option ChartValues) (i : InitContainer) (c : Config) :
    Config :=
  mkConfig (Stopped c) (StopTime c) (Replicas c) (Namespace c) (DeploymentID c) (EnvVariables c)
    (ResetOffset c) (Limits c) (Requests c) t v i (cfg_Autoscaler c).
Definition set_Autoscaler (a : option Autoscaler) (c : Config) : Config :=
  mkConfig (Stopped c) (StopTime c) (Replicas c) (Namespace c) (DeploymentID c) (EnvVariables c)
    (ResetOffset c) (Limits c) (Requests c) (cfg_Telegraf c) (cfg_ChartValues c)
    (cfg_InitContainer c) a.

Section config.
Context {GJ : GoJSON} {JS : JSONSchema} {MR : MapRange} {DG : Digests} {TP : Template}.

(** ** Templates ([driver.go]) *)

(** The text entries of the map, rendered in place. *)
Definition renderTplOfMapStringAny (labelsTpl : gmap string any) (labelsValues : gomap string) :
    go (gmap string any) :=
  let texts := omap (λ v, match v with AStr s => Some s | _ => None end) labelsTpl in
  rendered ← renderTpl (Some texts) labelsValues;
  Ok (copy_into (prod_map id AStr <$> range (gm rendered)) labelsTpl).

(** ** [keda.go] *)

Definition deepCopyTriggers (src : gomap Trigger) : gomap Trigger :=
  Some ((λ t, set_Metadata (Some (gm (Metadata t))) t) <$> gm src).

(** One entry of the request's triggers merged into the defaults. *)
Definition merge_trigger (merged : gmap string Trigger) (kv : string * Trigger) : gmap string Trigger :=
  let '(key, trigger) := kv in
  match merged !! key with
  | Some t =>
      <[key := mkTrigger
                 (if decide (trg_Type trigger = "") then trg_Type t else trg_Type trigger)
                 (Some (gm (Metadata trigger) ∪ gm (Metadata t)))
                 (if decide (auth_Name (trg_AuthenticationRef trigger) = "")
                  then trg_AuthenticationRef t else trg_AuthenticationRef trigger)]> merged
  | None => <[key := trigger]> merged
  end.

(** The assignments for one trigger. *)
Definition kafka_metadata (cfg : gomap string) (t : Trigger) : go Trigger :=
  if decide (trg_Type t = KAFKA) then
    m ← res_fold (λ m kv,
          match gm cfg !! kv.1 with Some v => map_put kv.2 v m | None => Ok m end)
        (Metadata t)
        [(confKeyConsumerID, KedaKafkaMetadataConsumerGroupKey);
         (confKeyKafkaTopic, KedaKafkaMetadataTopicKey);
         (confKeyKafkaBrokers, KedaKafkaMetadataBootstrapServersKey)];
    Ok (set_Metadata m t)
  else Ok t.

Definition updateTriggersMetadata (keda : Keda) (cfg : gomap string) : go Keda :=
  ts ← res_fold (λ acc kv, t ← kafka_metadata cfg kv.2; Ok (<[kv.1 := t]> acc))
         (gm (Triggers keda)) (range (gm (Triggers keda)));
  Ok (match Triggers keda with None => keda | Some _ => set_Triggers (Some ts) keda end).

(** [Keda.ReadConfig]; the receiver may be nil. *)
Definition keda_ReadConfig (keda : option Keda) (cfg : Config) (dc : driverConf) : go Keda :=
  let base := default Keda_zero (gm (dc_Keda dc) !! defaultKey) in
  let base := default base (gm (dc_Keda dc) !! gm_get (EnvVariables cfg) confSinkType) in
  match keda with
  | None => nil_deref
  | Some keda =>
      let merged := foldl merge_trigger (gm (deepCopyTriggers (Triggers base)))
                      (range (gm (Triggers keda))) in
      base ← updateTriggersMetadata (set_Triggers (Some merged) base) (EnvVariables cfg);
      Ok (mkKeda (Paused keda) (PausedWithReplica keda) (PausedReplica keda) (MinReplicas keda)
            (MaxReplicas keda) (PollingInterval base) (CooldownPeriod base) (Triggers base)
            (RestoreToOriginalReplica base)
            (match keda_Fallback keda with
             | Some x => if decide (Behavior x = "") then keda_Fallback base else keda_Fallback keda
             | None => keda_Fallback base
             end)
            (match HPA keda with None => HPA base | h => h end))
  end.

(** [Pause], with the replicas to keep if given. *)
Definition keda_Pause (replica : option Z) (keda : option Keda) : go Keda :=
  match keda, replica with
  | None, _ => nil_deref
  | Some k, None => Ok (set_paused true (PausedWithReplica k) (PausedReplica k) k)
  | Some k, Some r => Ok (set_paused (Paused k) true r k)
  end.

Definition keda_Resume (keda : option Keda) : go Keda :=
  match keda with
  | None => nil_deref
  | Some k => Ok (set_paused false false (PausedReplica k) k)
  end.

Definition keda_Validate (keda : option Keda) : go () :=
  let invalid msg := Err (EErr (WithMsgf ErrInvalid msg)) in
  match keda with
  | None => nil_deref
  | Some k =>
      if (MinReplicas k =? 0) && (MaxReplicas k =? 0) then
        invalid "min_replicas and max_replicas must be set when autoscaler is enabled"
      else if MinReplicas k <? 0 then invalid "min_replicas must be greater than or equal to 0"
      else if MaxReplicas k <? 1 then invalid "max_replicas must be greater than or equal to 1"
      else if MaxReplicas k <? MinReplicas k then
        invalid "min_replicas must be less than or equal to max_replicas"
      else if (gm_len (Triggers k) =? 0)%nat then
        invalid "at least one trigger must be defined when autoscaler is enabled"
      else Ok tt
  end.

Definition trigger_value (t : Trigger) (metadata : gomap string) : any :=
  vmap [("type", AStr (trg_Type t)); ("metadata", AStrMap metadata);
        ("authenticationRef", vmap [("name", AStr (auth_Name (trg_AuthenticationRef t)));
                                    ("kind", AStr (auth_Kind (trg_AuthenticationRef t)))])].

(** One Kafka trigger per topic when the topic is a list. *)
Definition trigger_values (t : Trigger) (metadata : gomap string) : list any :=
  match gm metadata !! KedaKafkaMetadataTopicKey with
  | Some topics =>
      if bool_decide (trg_Type t = KAFKA) && Contains topics KafkaTopicDelimiter then
        (λ topic, trigger_value t (Some (<[KedaKafkaMetadataTopicKey := topic]> (gm metadata))))
          <$> Split topics KafkaTopicDelimiter
      else [trigger_value t metadata]
  | None => [trigger_value t metadata]
  end.

Definition policy_value (p : Policy) : any :=
  vmap [("type", AStr (pol_Type p)); ("value", AFloat (pol_Value p));
        ("periodSeconds", AInt (PeriodSeconds p))].

Definition any_of {A} (v : A → any) (p : option A) : any :=
  match p with None => ANil | Some x => v x end.

Definition behaviour_value (s : ScaleBehaviour) : any :=
  vmap [("policies", AList (policy_value <$> default [] (Policies s)));
        ("stabilizationWindowSeconds", any_of AInt (StabilizationWindowSeconds s));
        ("tolerance", any_of AFloat (Tolerance s))].

Definition keda_GetHelmValues (keda : option Keda) (cfg : Config) : go any :=
  match keda with
  | None => nil_deref
  | Some k =>
      let annotations := copy_into
        ((if Paused k then [(KedaPausedAnnotationKey, "true")] else []) ++
         (if PausedWithReplica k then [(KedaPausedReplicaAnnotationKey, Sprint (PausedReplica k))]
          else [])) ∅ in
      let firehoseConfigs := Some (list_to_map
        [("namespace", Namespace cfg); ("replicas", Sprint (Replicas cfg))]) in
      triggers ← res_fold (λ acc kv,
        rendered ← renderTpl (Metadata kv.2) (CloneAndMergeMaps firehoseConfigs (EnvVariables cfg));
        Ok (acc ++ trigger_values kv.2 rendered)) [] (range (gm (Triggers k)));
      Ok (vmap [("annotations", AStrMap (Some annotations)); ("maxReplicaCount", AInt (MaxReplicas k));
                ("minReplicaCount", AInt (MinReplicas k)); ("pollingInterval", AInt (PollingInterval k));
                ("cooldownPeriod", AInt (CooldownPeriod k));
                ("restoreToOriginalReplicaCount", ABool (RestoreToOriginalReplica k));
                ("fallback", any_of (λ x, vmap [("behavior", AStr (Behavior x));
                     ("failureThreshold", AInt (FailureThreshold x));
                     ("replicas", AInt (fb_Replicas x))]) (keda_Fallback k));
                ("triggers", AList triggers);
                ("hpa", any_of (λ h, vmap [("scaleUp", behaviour_value (ScaleUp h));
                                           ("scaleDown", behaviour_value (ScaleDown h))]) (HPA k))])
  end.

(** ** [autoscaler.go] *)

Definition autoscaler_GetHelmValues (a : Autoscaler) (cfg : Config) : go any :=
  typeValues ← keda_GetHelmValues (as_Spec a) cfg;
  Ok (AMap (<[as_Type a := typeValues]>
       (list_to_map [("enabled", ABool (as_Enabled a)); ("type", AStr (as_Type a))]))).

Definition autoscaler_Validate (a : Autoscaler) : go () :=
  if negb (as_Enabled a) then Ok tt else keda_Validate (as_Spec a).

(** ** [config.go] *)

(** [UsageSpec.merge]. *)
Definition merge (us overide : UsageSpec) : UsageSpec :=
  mkUsage (if decide (CPU overide = "") then CPU us else CPU overide)
    (if decide (Memory overide = "") then Memory us else Memory overide).

(** The embedded [schema/config.json]. *)
Variable configSchemaRaw : string.

Definition validateConfig : RawMessage → go () := FromJSONSchema configSchemaRaw.

(** The release name given, or one made from the resource's. *)
Definition read_DeploymentID (r : Resource) (id : string) : go string :=
  if (String.length id =? 0)%nat
  then SafeName (Project r +:+ "-" +:+ Resource.Name r) "-firehose" helmReleaseNameMaxLength
  else if helmReleaseNameMaxLength <? Z.of_nat (String.length id)
  then Err (EErr (WithMsgf ErrInvalid "deployment_id must not have more than 53 chars"))
  else Ok id.

Definition usage_for (dc : driverConf) (sink : string) : RequestsAndLimits :=
  let rl := default RL_zero (gm (dc_RequestsAndLimits dc) !! defaultKey) in
  match gm (dc_RequestsAndLimits dc) !! sink with
  | Some o => mkRL (merge (rl_Limits rl) (rl_Limits o)) (merge (rl_Requests rl) (rl_Requests o))
  | None => rl
  end.

Definition namespace_for (dc : driverConf) (sink : string) : string :=
  match gm (dc_Namespace dc) !! sink with
  | Some override => override
  | None => gm_get (dc_Namespace dc) defaultKey
  end.

Definition read_autoscaler (cfg : Config) (dc : driverConf) : go Config :=
  match cfg_Autoscaler cfg with
  | Some a =>
      if as_Enabled a then
        k ← keda_ReadConfig (as_Spec a) cfg dc;
        let a := set_Spec (Some k) a in
        _ ← autoscaler_Validate a;
        Ok (set_Autoscaler (Some a) cfg)
      else Ok cfg
  | None => Ok cfg
  end.

Definition readConfig (r : Resource) (confJSON : RawMessage) (dc : driverConf) : go Config :=
  cfg ← on_err (Unmarshal dec_Config confJSON Config_zero)
          (caused (WithMsgf ErrInvalid "invalid config json"));
  let cfg := set_EnvVariables (CloneAndMergeMaps (dc_EnvVariables dc) (EnvVariables cfg)) cfg in
  let cfg := set_chart (cfg_Telegraf cfg) (cfg_ChartValues cfg) (dc_InitContainer dc) cfg in
  let cfg := if Replicas cfg <=? 0 then set_run (Stopped cfg) (StopTime cfg) 1 cfg else cfg in
  _ ← validateConfig confJSON;
  id ← read_DeploymentID r (DeploymentID cfg);
  let cfg := set_place (Namespace cfg) id cfg in
  env ← (if decide (gm_get (EnvVariables cfg) confKeyConsumerID = "")
         then map_put confKeyConsumerID (id +:+ "-1") (EnvVariables cfg)
         else Ok (EnvVariables cfg));
  let cfg := set_EnvVariables env cfg in
  let sink := gm_get env confSinkType in
  let rl := usage_for dc sink in
  let cfg := set_usage (merge (rl_Limits rl) (Limits cfg)) (merge (rl_Requests rl) (Requests cfg)) cfg in
  let cfg := if no_str (Namespace cfg) then set_place (namespace_for dc sink) id cfg else cfg in
  read_autoscaler cfg dc.
End config.
