(* ===== verification/Firehose.v ===== *)
(** * Firehose: the driver of [modules/firehose]

    [driver.go], [driver_plan.go], [driver_sync.go], [driver_output.go],
    [driver_log.go] and [module.go]: planning an action writes the config and
    the steps that are pending; every sync takes one step against the cluster;
    when none is pending the output is refreshed and the resource completed. *)

From S2P Require Import Prelude GoLib Errors Resource Module Json Names Validator Worker Kube Kubernetes Helm ConsumerReset Charts FirehoseTypes FirehoseConfig.
From Stdlib Require Import Ascii.

#[local] Open Scope Z_scope.

Definition desiredStatusRunning : string := "RUNNING".
Definition desiredStatusStopped : string := "STOPPED".
Definition kubeConfigModeAutoscaler : string := "AUTOSCALER".
Definition resourceName : string := "firehose".
Definition firehoseAutoscalerTaintKey : string := "firehose_autoscaler".
Definition firehoseNonAutoscalerTaintKey : string := "firehose_non_autoscaler".
Definition stepReleaseCreate : string := "release_create".
Definition stepReleaseUpdate : string := "release_update".
Definition stepReleaseStop : string := "release_stop".
Definition stepKafkaReset : string := "consumer_reset".
Definition chartRepo : string := "https://goto.github.io/charts/".
Definition chartName : string := "firehose".
Definition imageRepo : string := "gotocompany/firehose".
Definition labelsConfKey : string := "labels".
Definition labelDeployment : string := "deployment".
Definition labelOrchestrator : string := "orchestrator".
Definition orchestratorLabelValue : string := "entropy".
Definition keyKubeDependency : string := "kube_cluster".

Definition ScaleAction : string := "scale".
Definition StartAction : string := "start".
Definition StopAction : string := "stop".
Definition ResetAction : string := "reset".
Definition ResetV2Action : string := "reset-v2".
Definition UpgradeAction : string := "upgrade".

Definition SourceKafkaConsumerAutoOffsetReset : string :=
  "SOURCE_KAFKA_CONSUMER_CONFIG_AUTO_OFFSET_RESET".

Definition defaultDriverConf : driverConf :=
  mkDriverConf None None (Some {["default" := "firehose"]})
    (mkChartValues imageRepo "latest" "0.1.3" "IfNotPresent") None None InitContainer_zero "" "" ""
    (Some {["default" := mkRL (mkUsage "200m" "512Mi") (mkUsage "200m" "512Mi")]})
    (mkAffinity None None) 0 0 None.

(** ** [driver.go] *)

Record firehoseDriver `{VA : VersionAPI W} := mkDriver {
  timeNow : W → Time;
  conf : driverConf;
  kubeDeploy : bool → Kube.Config → ReleaseConfig → io W ();
  kubeGetPod : Kube.Config → string → gomap string → io W (option (list Pod));
  kubeGetDeployment : Kube.Config → string → string → io W Deployment;
  consumerReset : Config → Kubernetes.Output → string → Z → io W ();
}.

Arguments firehoseDriver W {VA}.

Section release.
Context {GJ : GoJSON} {JS : JSONSchema} {MR : MapRange} {DG : Digests} {TP : Template} {W : Type}
  {VA : VersionAPI W}.

(** The telegraf part: the environment of the release, the telegraf values, and
    the config's telegraf, whose outputs are rendered in place. *)
Definition render_outputs (labelsValues : gomap string) (out : gomap any) : go (gomap any) :=
  m ← res_fold (λ acc kv,
        match kv.2 with
        | AMap m => m ← renderTplOfMapStringAny m labelsValues; Ok (<[kv.1 := AMap m]> acc)
        | _ => Ok acc
        end) (gm out) (range (gm out));
  Ok (match out with None => None | Some _ => Some m end).

Definition telegraf_on (c : Config) : option Telegraf :=
  match cfg_Telegraf c with
  | Some t => if tel_Enabled t then Some t else None
  | None => None
  end.

Definition render_telegraf (t : Telegraf) (env labelsValues : gomap string) :
    go (gomap string * Telegraf * Telegraf) :=
  env ← renderTpl env labelsValues;
  tags ← renderTpl (AdditionalGlobalTags (tel_Config t)) labelsValues;
  out ← render_outputs labelsValues (tc_Output (tel_Config t));
  Ok (env, mkTelegraf true (tel_Image t) (mkTelegrafConf out tags),
      mkTelegraf (tel_Enabled t) (tel_Image t)
        (mkTelegrafConf out (AdditionalGlobalTags (tel_Config t)))).

(** The taint a firehose runs on, for tolerations and affinities alike. *)
Definition taint_key (mode : string) (c : Config) (env : gomap string) : string :=
  if decide (mode = kubeConfigModeAutoscaler) then
    match cfg_Autoscaler c with
    | Some a => if as_Enabled a then firehoseAutoscalerTaintKey else firehoseNonAutoscalerTaintKey
    | None => firehoseNonAutoscalerTaintKey
    end
  else "firehose_" +:+ gm_get env "SINK_TYPE".

(** A credential's mount, and the variables that point to it. *)
Definition mount (cred key mountFile : string) (vars : list string) (acc : list any * gomap string) :
    go (list any * gomap string) :=
  if decide (cred = "") then Ok acc
  else
    env ← res_fold (λ env v, map_put v ("/etc/secret/" +:+ mountFile) env) acc.2 vars;
    Ok (acc.1 ++ [vmap [("value", AStr cred); ("key", AStr key); ("path", AStr mountFile)]], env).

Definition mounts (dc : driverConf) (env : gomap string) : go (list any * gomap string) :=
  acc ← mount (GCSSinkCredential dc) "gcs_credential" "gcs_auth.json"
          ["SINK_BLOB_GCS_CREDENTIAL_PATH"; "SINK_BIGTABLE_CREDENTIAL_PATH"] ([], env);
  acc ← mount (DLQGCSSinkCredential dc) "dlq_gcs_credential" "dlq_gcs_auth.json"
          ["DLQ_GCS_CREDENTIAL_PATH"] acc;
  mount (BigQuerySinkCredential dc) "bigquery_credential" "bigquery_auth.json"
    ["SINK_BIGQUERY_CREDENTIAL_PATH"] acc.

Definition affinity_value (dc : driverConf) (kubeOut : Kubernetes.Output) (key : string) : any :=
  affinity_values (dc_NodeAffinity dc) (gm (Affinities (out_Driver kubeOut)) !! key).

Definition usage_value (u : UsageSpec) : any :=
  vmap [("cpu", AStr (CPU u)); ("memory", AStr (Memory u))].

Definition init_value (c : InitContainer) : any :=
  vmap [("enabled", ABool (ic_Enabled c));
        ("image", vmap [("repository", AStr (ic_Repository c)); ("pullPolicy", AStr (ic_PullPolicy c));
                        ("tag", AStr (ic_ImageTag c))]);
        ("command", AStrs (ic_Command c)); ("args", AStrs (ic_Args c))].

Definition telegraf_value (t : Telegraf) : any :=
  vmap [("enabled", ABool (tel_Enabled t)); ("image", AMap (gm (tel_Image t)));
        ("config", vmap [("output", AMap (gm (tc_Output (tel_Config t))));
                         ("additional_global_tags", AStrMap (AdditionalGlobalTags (tel_Config t)))])].

Definition entropyLabels (c : Config) : gomap string :=
  Some (list_to_map [(labelDeployment, DeploymentID c); (labelOrchestrator, orchestratorLabelValue)]).

Definition otherLabels (res : Resource) (c : Config) : gomap string :=
  Some (list_to_map [("urn", URN res); ("name", Resource.Name res); ("namespace", Namespace c)]).

(** The values of the chart, before the autoscaler's. *)
Definition chart_values (dc : driverConf) (c : Config) (cv : ChartValues) (env labels : gomap string)
    (tolerations mountSecrets : list any) (affinity : any) (telegrafConf : Telegraf) : gmap string any :=
  let repository := if decide (ImageRepository cv = "")
                    then ImageRepository (dc_ChartValues dc) else ImageRepository cv in
  list_to_map
    [(labelsConfKey, AStrMap (CloneAndMergeMaps labels (entropyLabels c)));
     ("replicaCount", AInt (Replicas c));
     ("firehose", vmap
        [("image", vmap [("repository", AStr repository); ("pullPolicy", AStr (ImagePullPolicy cv));
                         ("tag", AStr (ImageTag cv))]);
         ("config", AStrMap env);
         ("resources", vmap [("limits", usage_value (Limits c)); ("requests", usage_value (Requests c))])]);
     ("tolerations", AList tolerations);
     ("nodeAffinityMatchExpressions", affinity);
     ("init-firehose", init_value (dc_InitContainer dc));
     ("telegraf", telegraf_value telegrafConf);
     ("mountSecrets", AList mountSecrets)].

(** The release, and the config as the caller sees it afterwards: the
    environment is written in place unless telegraf had it rendered into a new
    map. *)
Definition getHelmRelease (dc : driverConf) (res : Resource) (c : Config) (kubeOut : Kubernetes.Output) :
    go (ReleaseConfig * Config) :=
  deploymentLabels ← renderTpl (dc_Labels dc)
    (CloneAndMergeMaps (Labels res) (CloneAndMergeMaps (entropyLabels c) (otherLabels res c)));
  let merged := CloneAndMergeMaps
    (CloneAndMergeMaps (EnvVariables c)
       (CloneAndMergeMaps deploymentLabels (CloneAndMergeMaps (Labels res) (entropyLabels c))))
    (otherLabels res c) in
  rendered ← match telegraf_on c with
             | Some t => x ← render_telegraf t (EnvVariables c) merged; Ok (Some x)
             | None => Ok None
             end;
  let env := match rendered with Some (env, _, _) => env | None => EnvVariables c end in
  let telegrafConf := match rendered with Some (_, t, _) => t | None => Telegraf_zero end in
  let mode m := gm_get m resourceName in
  let tolerations := default []
    (mjoin (gm (Tolerations (out_Driver kubeOut)) !!
              taint_key (mode (TolerationMode (out_Driver kubeOut))) c env)) in
  let affinityKey := taint_key (mode (AffinityMode (out_Driver kubeOut))) c env in
  mounted ← mounts dc env;
  cv ← match cfg_ChartValues c with Some cv => Ok cv | None => nil_deref end;
  let values := chart_values dc c cv mounted.2 deploymentLabels (toleration_value <$> tolerations)
                  mounted.1 (affinity_value dc kubeOut affinityKey) telegrafConf in
  let callee := set_EnvVariables mounted.2 c in
  let callee := match rendered with
                | Some (_, _, t) =>
                    set_chart (Some t) (cfg_ChartValues c) (cfg_InitContainer c) callee
                | None => callee
                end in
  values ← match cfg_Autoscaler c with
           | Some a => v ← autoscaler_GetHelmValues a callee; Ok (<["autoscaler" := v]> values)
           | None => Ok values
           end;
  let d := DefaultReleaseConfig in
  Ok (mkReleaseConfig (DeploymentID c) chartRepo chartName (ChartVersion cv) values (Namespace c)
        (KubeDeployTimeout dc) true (RecreatePods d) (Wait d) (WaitForJobs d) (Replace d)
        (Description d) (CreateNamespace d),
      match rendered with
      | Some _ => set_EnvVariables (EnvVariables c) callee
      | None => callee
      end).

Definition mergeChartValues (cur newVal : option ChartValues) : go (option ChartValues) :=
  match newVal with
  | None => Ok cur
  | Some newVal =>
      match cur with
      | None => nil_deref
      | Some cur =>
          let newTag := TrimSpace (ImageTag newVal) in
          if decide (newTag = "") then Ok (Some cur)
          else if Contains newTag ":" && negb (HasPrefix newTag imageRepo) then
            Err (EErr (WithMsgf ErrInvalid
              ("unknown image repo: '" +:+ newTag +:+ "', must start with '" +:+ imageRepo +:+ "'")))
          else Ok (Some (mkChartValues (ImageRepository cur) (TrimPrefix newTag (imageRepo +:+ ":"))
                           (ChartVersion cur) (ImagePullPolicy cur)))
      end
  end.

Definition readOutputData (exr : ExpandedResource) : go Output :=
  let out := Resource.Output (res_State (exr_Resource exr)) in
  if (raw_len out =? 0)%nat then Ok Output_zero
  else on_err (Unmarshal dec_Output out Output_zero) (caused (WithMsgf ErrInternal "corrupted output")).

Definition readTransientData (exr : ExpandedResource) : go transientData :=
  let data := ModuleData (res_State (exr_Resource exr)) in
  if (raw_len data =? 0)%nat then Ok transient_zero
  else on_err (Unmarshal dec_transient data transient_zero)
         (caused (WithMsgf ErrInternal "corrupted transient data")).

(** [exr.Dependencies[keyKubeDependency].Output], decoded. *)
Definition read_kubeOut (exr : ExpandedResource) : go Kubernetes.Output :=
  on_err (Unmarshal Kubernetes.dec_Output
            (gm (exr_Dependencies exr) !! keyKubeDependency ≫= dep_Output) Kubernetes.Output_zero)
    (caused (WithMsgf ErrInternal "invalid kube state")).
End release.

(** ** [driver_plan.go] *)

(** [suffixRegex]: a prefix of letters, digits and hyphens, the last hyphen,
    and a sequence of digits. *)
Fixpoint last_hyphen (l : list ascii) : option (list ascii * list ascii) :=
  match l with
  | [] => None
  | c :: l =>
      match last_hyphen l with
      | Some (p, s) => Some (c :: p, s)
      | None => if decide (c = "-"%char) then Some ([], l) else None
      end
  end.

Definition prefix_char (c : ascii) : bool := is_alpha c || is_digit c || bool_decide (c = "-"%char).

Definition suffix_match (s : string) : option (string * string) :=
  match last_hyphen (chars s) with
  | Some (p, d) =>
      if negb (bool_decide (p = [])) && negb (bool_decide (d = [])) && forallb prefix_char p
         && forallb is_digit d
      then Some (str p, str d) else None
  | None => None
  end.

Definition getNewConsumerGroupID (curGroup : string) : go string :=
  match suffix_match curGroup with
  | None => Ok (curGroup +:+ "-1")
  | Some (prefix, sequence) =>
      match Atoi sequence with
      | Ok seq => Ok (prefix +:+ "-" +:+ Sprint (wrap64 (seq + 1)))
      | Err err =>
          Err (Errorf ("error converting group sequence " +:+ sequence +:+ " to int: " +:+
                 error_string err))
      | Panic s => Panic s
      end
  end.

Section plan.
Context {GJ : GoJSON} {JS : JSONSchema} {MR : MapRange} {DG : Digests} {TP : Template} {W : Type}
  {VA : VersionAPI W}.
Variable configSchemaRaw : string.

Abbreviation readConfig := (readConfig configSchemaRaw) (only parsing).

Definition validateHelmReleaseConfigs (dc : driverConf) (exr : ExpandedResource) (r : Resource)
    (c : Config) : go () :=
  kubeOut ← read_kubeOut exr;
  _ ← getHelmRelease dc r c kubeOut;
  Ok tt.

Definition pending (output : RawMessage) (steps : list string) (resetTo : string) (now : Time) : State :=
  mkState StatusPending output (MustJSON (enc_transient (mkTransient (Some steps) resetTo)))
    (Some now) SyncResult_zero.

Definition set_Configs_State (configs : RawMessage) (s : State) (r : Resource) : Resource :=
  Resource.set_State s (set_Configs configs r).

(** The new config of an action on an existing resource. *)
Definition change_update (dc : driverConf) (exr : ExpandedResource) (params : RawMessage)
    (curConf : Config) : go Config :=
  newConf ← readConfig (exr_Resource exr) params dc;
  chartVals ← mergeChartValues (cfg_ChartValues curConf) (cfg_ChartValues newConf);
  let newConf := set_chart (dc_Telegraf dc) chartVals (dc_InitContainer dc) newConf in
  let ns := namespace_for dc (gm_get (EnvVariables newConf) confSinkType) in
  kubeOut ← read_kubeOut exr;
  let ns := if decide (kc_Namespace (out_Configs kubeOut) = "") then ns
            else kc_Namespace (out_Configs kubeOut) in
  let newConf := set_place ns (DeploymentID curConf) newConf in
  if negb (bool_decide (Namespace curConf = ns)) && negb (Stopped curConf) then
    Err (EErr (WithCausef ErrInvalid "cannot update kube namespace of a running firehose"))
  else Ok newConf.

Definition change_autoscaler (op : option Keda → go Keda) (c : Config) : go Config :=
  match cfg_Autoscaler c with
  | Some a => k ← op (as_Spec a); Ok (set_Autoscaler (Some (set_Spec (Some k) a)) c)
  | None => Ok c
  end.

Definition change_config (dc : driverConf) (exr : ExpandedResource) (act : ActionRequest)
    (curConf : Config) : go Config :=
  let name := act_Name act in
  if decide (name = UpdateAction) then change_update dc exr (Params act) curConf
  else if decide (name = ScaleAction) then
    p ← on_err (Unmarshal dec_ScaleParams (Params act) (mkScaleParams 0))
          (caused (WithMsgf ErrInvalid "invalid params for scale action"));
    if sp_Replicas p <? 1 then Err (EErr (WithMsgf ErrInvalid "replicas must be >= 1"))
    else Ok (set_run (Stopped curConf) (StopTime curConf) (sp_Replicas p) curConf)
  else if decide (name = StartAction) then
    p ← on_err (Unmarshal dec_StartParams (Params act) (mkStartParams None))
          (caused (WithMsgf ErrInvalid "invalid params for start action"));
    let stop := match sp_StopTime p with Some t => Some t | None => StopTime curConf end in
    change_autoscaler keda_Resume (set_run false stop (Replicas curConf) curConf)
  else if decide (name = StopAction) then
    change_autoscaler (keda_Pause (Some 0)) (set_run true (StopTime curConf) (Replicas curConf) curConf)
  else if decide (name = UpgradeAction) then
    Ok (set_chart (cfg_Telegraf curConf) (Some (dc_ChartValues dc)) (cfg_InitContainer curConf) curConf)
  else Ok curConf.

Definition planChange (dc : driverConf) (exr : ExpandedResource) (act : ActionRequest) (now : Time) :
    go Resource :=
  let res := exr_Resource exr in
  curConf ← readConfig res (Configs (res_Spec res)) dc;
  c ← change_config dc exr act curConf;
  let r := set_Configs (MustJSON (enc_Config c)) res in
  _ ← validateHelmReleaseConfigs dc exr r c;
  Ok (Resource.set_State (pending (Resource.Output (res_State res)) [stepReleaseUpdate] "" now) r).

Definition planCreate (dc : driverConf) (exr : ExpandedResource) (act : ActionRequest) (now : Time) :
    go Resource :=
  let res := exr_Resource exr in
  c ← readConfig res (Params act) dc;
  chartVals ← mergeChartValues (Some (dc_ChartValues dc)) (cfg_ChartValues c);
  let c := set_chart (dc_Telegraf dc) chartVals (cfg_InitContainer c) c in
  kubeOut ← read_kubeOut exr;
  let ns := kc_Namespace (out_Configs kubeOut) in
  let c := if decide (ns = "") then c else set_place ns (DeploymentID c) c in
  let r := set_Configs (MustJSON (enc_Config c)) res in
  _ ← validateHelmReleaseConfigs dc exr r c;
  let out := mkOutput None (Namespace c) (DeploymentID c) None "" false in
  Ok (Resource.set_State (pending (MustJSON (enc_Output out)) [stepReleaseCreate] "" now) r).

Definition planResetV2 (dc : driverConf) (exr : ExpandedResource) (act : ActionRequest) (now : Time) :
    go Resource :=
  let res := exr_Resource exr in
  resetValue ← ParseResetV2Params (Params act);
  curConf ← readConfig res (Configs (res_Spec res)) dc;
  let c := set_ResetOffset resetValue curConf in
  Ok (set_Configs_State (MustJSON (enc_Config c))
        (pending (Resource.Output (res_State res)) [stepReleaseStop; stepKafkaReset; stepReleaseUpdate]
           resetValue now) res).

Definition planReset (dc : driverConf) (exr : ExpandedResource) (act : ActionRequest) (now : Time) :
    go Resource :=
  let res := exr_Resource exr in
  resetValue ← ParseResetParams (Params act);
  curConf ← readConfig res (Configs (res_Spec res)) dc;
  let c := set_ResetOffset resetValue curConf in
  env ← map_put SourceKafkaConsumerAutoOffsetReset resetValue (EnvVariables c);
  group ← getNewConsumerGroupID (gm_get env confKeyConsumerID);
  env ← map_put confKeyConsumerID group env;
  let c := set_EnvVariables env c in
  c ← match cfg_Autoscaler c with
      | Some a =>
          if decide (as_Type a = KEDA) then
            match as_Spec a with
            | None => nil_deref
            | Some k =>
                k ← updateTriggersMetadata k env;
                Ok (set_Autoscaler (Some (set_Spec (Some k) a)) c)
            end
          else Ok c
      | None => Ok c
      end;
  Ok (set_Configs_State (MustJSON (enc_Config c))
        (pending (Resource.Output (res_State res)) [stepReleaseStop; stepReleaseUpdate] "" now) res).

Definition firehose_Plan (fd : firehoseDriver W) (exr : ExpandedResource) (act : ActionRequest) :
    io W Resource := λ w,
  let plan :=
    if decide (act_Name act = CreateAction) then planCreate
    else if decide (act_Name act = ResetAction) then planReset
    else if decide (act_Name act = ResetV2Action) then planResetV2
    else planChange in
  (plan (conf fd) exr act (timeNow fd w), w).

(** ** [driver_sync.go] *)

Definition releaseSync (fd : firehoseDriver W) (r : Resource) (isCreate : bool) (c : Config)
    (kubeOut : Kubernetes.Output) : io W Config :=
  rc ← lift (getHelmRelease (conf fd) r c kubeOut);
  _ ← catch (kubeDeploy fd isCreate (out_Configs kubeOut) rc.1) (caused ErrInternal);
  mret rc.2.

Definition desiredStatus (c : Config) : string :=
  if Stopped c then desiredStatusStopped else desiredStatusRunning.

(** [driver_output.go]. *)
Definition refreshOutput (fd : firehoseDriver W) (r : Resource) (c : Config) (output : Output)
    (kubeOut : Kubernetes.Output) : io W RawMessage :=
  rc ← lift (getHelmRelease (conf fd) r c kubeOut);
  pods ← catch (kubeGetPod fd (out_Configs kubeOut) (rel_Namespace rc.1)
                  (Some {["app" := rel_Name rc.1]})) (caused ErrInternal);
  deployment ← catch (kubeGetDeployment fd (out_Configs kubeOut) (rel_Namespace rc.1) (DeploymentID c))
    (caused ErrInternal);
  mret (MustJSON (enc_Output
    (mkOutput pods (Namespace c) (ReleaseName output) (Some deployment) (desiredStatus c)
       (match cfg_Autoscaler c with Some a => as_Enabled a | None => false end)))).

(** One pending step. *)
Definition sync_step (fd : firehoseDriver W) (r : Resource) (c : Config) (kubeOut : Kubernetes.Output)
    (resetTo step : string) : io W () :=
  if bool_decide (step ∈ [stepReleaseCreate; stepReleaseUpdate; stepReleaseStop]) then
    c ← lift (if bool_decide (step = stepReleaseStop) || Stopped c
              then change_autoscaler (keda_Pause (Some 0)) (set_run (Stopped c) (StopTime c) 0 c)
              else Ok c);
    _ ← releaseSync fd r (bool_decide (step = stepReleaseCreate)) c kubeOut;
    mret tt
  else if decide (step = stepKafkaReset) then
    consumerReset fd c kubeOut resetTo (OffsetResetDelaySeconds (conf fd))
  else throw (EErr (WithMsgf ErrInternal ("unknown step: '" +:+ step +:+ "'"))).

Definition read_clock (fd : firehoseDriver W) : io W Time := λ w, (Ok (timeNow fd w), w).

Definition is_due (stop : option Time) (now : Time) : bool :=
  match stop with Some t => t <? now | None => false end.

Definition firehose_Sync (fd : firehoseDriver W) (exr : ExpandedResource) : io W State :=
  let res := exr_Resource exr in
  modData ← lift (readTransientData exr);
  out ← lift (on_err (readOutputData exr) (caused ErrInternal));
  c ← lift (on_err (readConfig res (Configs (res_Spec res)) (conf fd)) (caused ErrInternal));
  kubeOut ← lift (read_kubeOut exr);
  match default [] (PendingSteps modData) with
  | pendingStep :: steps =>
      _ ← sync_step fd res c kubeOut (ResetOffsetTo modData) pendingStep;
      immediately ← read_clock fd;
      mret (pending (Resource.Output (res_State res)) steps (ResetOffsetTo modData) immediately)
  | [] =>
      now ← (match StopTime c with None => mret 0 | Some _ => read_clock fd end);
      let due := is_due (StopTime c) now in
      c ← (if due then releaseSync fd res false (set_run true (StopTime c) 0 c) kubeOut
           else mret c);
      finalOut ← refreshOutput fd res c out kubeOut;
      mret (mkState StatusCompleted finalOut None (if due then None else StopTime c) SyncResult_zero)
  end.

(** ** [driver_output.go], [driver_log.go] *)

Definition firehose_Output (fd : firehoseDriver W) (exr : ExpandedResource) : io W RawMessage :=
  let res := exr_Resource exr in
  output ← lift (readOutputData exr);
  c ← lift (on_err (readConfig res (Configs (res_Spec res)) (conf fd)) (caused ErrInternal));
  kubeOut ← lift (read_kubeOut exr);
  refreshOutput fd res c output kubeOut.

Definition firehose_Log {KA : KubeAPI W} (fd : firehoseDriver W) (exr : ExpandedResource)
    (filter : gomap string) : io W LogStream :=
  let res := exr_Resource exr in
  c ← lift (on_err (readConfig res (Configs (res_Spec res)) (conf fd)) (caused ErrInternal));
  let filter := Some (<["app" := DeploymentID c]> (gm filter)) in
  kubeOut ← lift (on_err
    (Unmarshal Kubernetes.dec_Output (gm (exr_Dependencies exr) !! keyKubeDependency ≫= dep_Output)
       Kubernetes.Output_zero) (caused ErrInternal));
  kubeCl ← catch (NewClient (out_Configs kubeOut)) (caused (WithMsgf ErrInternal
    "failed to create new kube client on firehose driver Log"));
  logs ← client_StreamLogs kubeCl (Namespace c) filter;
  mret ((λ ch, mkLogChunk (chunk_Data ch) (Kube.chunk_Labels ch)) <$> logs).

Definition firehose_driver {KA : KubeAPI W} (fd : firehoseDriver W) : Driver W := {|
  Plan := firehose_Plan fd;
  Sync := firehose_Sync fd;
  drv_Output := firehose_Output fd;
  Log := Some (firehose_Log fd);
|}.
End plan.

(** ** [module.go] *)

(** The maps of [defaultDriverConf] that every module's configs are decoded
    into: copying the struct copies the references. *)
Definition globals : Type := gomap string * gomap RequestsAndLimits.

Definition initial_globals : globals :=
  (dc_Namespace defaultDriverConf, dc_RequestsAndLimits defaultDriverConf).

Definition default_conf (g : globals) : driverConf :=
  let d := defaultDriverConf in
  mkDriverConf (dc_Labels d) (dc_Telegraf d) g.1 (dc_ChartValues d) (dc_Tolerations d)
    (dc_EnvVariables d) (dc_InitContainer d) (GCSSinkCredential d) (DLQGCSSinkCredential d)
    (BigQuerySinkCredential d) g.2 (dc_NodeAffinity d) (OffsetResetDelaySeconds d)
    (KubeDeployTimeout d) (dc_Keda d).

(** What a decoder has put into a default map: the map it ends with, unless
    the document replaced it by null. *)
Definition left_in {A} (before after : gomap A) : gomap A :=
  match after with Some _ => after | None => before end.

Section module.
Context {GJ : GoJSON} {JS : JSONSchema} {MR : MapRange} {DG : Digests} {TP : Template} {W : Type}
  {KA : KubeAPI W} {VA : VersionAPI W} {HA : HelmAPI W} {TV : TagValidator driverConf}.
Variable configSchemaRaw : string.
(** Readings of the clock; the polls a job wait is given; whether the request's
    context ends within a delay. *)
Variables (time_Now : W → Time) (polls : nat) (ctx_ends_within : Duration → io W bool).

Definition canUpdate (hc : ReleaseConfig) (rel : release) : bool :=
  match release_Config rel !! labelsConfKey, Values hc !! labelsConfKey with
  | Some (AMap curLabels), Some (AStrMap newLabels) =>
      let isManagedByEntropy :=
        match curLabels !! labelOrchestrator with
        | Some (AStr s) => bool_decide (s = orchestratorLabelValue)
        | _ => false
        end in
      let isSameDeployment :=
        match curLabels !! labelDeployment with
        | Some (AStr s) => bool_decide (s = gm_get newLabels labelDeployment)
        | _ => false
        end in
      isManagedByEntropy && isSameDeployment
  | _, _ => false
  end.

Definition kube_deploy (isCreate : bool) (kubeConf : Kube.Config) (hc : ReleaseConfig) : io W () :=
  _ ← Upsert kubeConf hc (canUpdate hc);
  mret tt.

Definition kube_get_pod (kc : Kube.Config) (ns : string) (labels : gomap string) :
    io W (option (list Pod)) :=
  kubeCl ← catch (NewClient kc) (caused (WithMsgf ErrInternal
    "failed to create new kube client on firehose driver kube get pod"));
  GetPodDetails kubeCl ns labels
    (λ p, bool_decide (kp_Phase p = "Running") && bool_decide (kp_DeletionTimestamp p = None)).

Definition kube_get_deployment (kc : Kube.Config) (ns name : string) : io W Deployment :=
  kubeCl ← catch (NewClient kc) (caused (WithMsgf ErrInternal
    "failed to create new kube client on firehose driver kube get deployment"));
  GetDeploymentDetails kubeCl ns name.

(** The classification of a failed reset. *)
Definition reset_error (err : error) : error :=
  if errors_Is err (EErr ErrJobCreationFailed) then WithCause (5 * Second) err
  else if errors_Is err (EErr ErrJobNotFound) then WithCause (30 * Second) err
  else if errors_Is err (EErr ErrJobExecutionFailed) then WithCause (30 * Second) err
  else err.

Definition consumer_reset (c : Config) (out : Kubernetes.Output) (resetTo : string)
    (offsetResetDelaySeconds : Z) : io W () :=
  let brokerAddr := gm_get (EnvVariables c) confKeyKafkaBrokers in
  let consumerID := gm_get (EnvVariables c) confKeyConsumerID in
  kubeClient ← NewClient (out_Configs out);
  cancelled ← ctx_ends_within (wrap64 (offsetResetDelaySeconds * Second));
  if cancelled : bool then throw (WithCause (30 * Second) (ENew "context cancelled while reset"))
  else catch (DoReset polls kubeClient (Namespace c) brokerAddr consumerID resetTo (DeploymentID c))
         reset_error.

(** [DriverFactory], with the default maps before and after. *)
Definition firehose_factory (g : globals) (confJSON : RawMessage) : go (firehoseDriver W) * globals :=
  match Unmarshal dec_driverConf confJSON (default_conf g) with
  | Ok c =>
      ((_ ← TaggedStruct c;
        Ok (mkDriver W VA time_Now c kube_deploy kube_get_pod kube_get_deployment consumer_reset)),
       (left_in g.1 (dc_Namespace c), left_in g.2 (dc_RequestsAndLimits c)))
  | Err err => (Err err, g)
  | Panic s => (Panic s, g)
  end.

Definition firehose_actions : list ActionDesc :=
  [mkActionDesc CreateAction "Creates a new firehose" "" None;
   mkActionDesc UpdateAction "Update all configurations of firehose" "" None;
   mkActionDesc ResetAction "Stop firehose, reset consumer group, restart" "" None;
   mkActionDesc ResetV2Action "Stop firehose, reset consumer group, restart with datetime option" "" None;
   mkActionDesc StopAction "Stop all replicas of this firehose." "" None;
   mkActionDesc StartAction "Start the firehose if it is currently stopped." "" None;
   mkActionDesc ScaleAction "Scale the number of replicas to given number." "" None;
   mkActionDesc UpgradeAction "Upgrade firehose version" "" None].

(** The descriptor, for the default maps as they are when a driver is made. *)
Definition firehose_Module (g : globals) : Descriptor W := mkDescriptor "firehose" firehose_actions
  (Some {[keyKubeDependency := "kubernetes"]})
  (λ confJSON, fd ← (firehose_factory g confJSON).1; Ok (firehose_driver configSchemaRaw fd)).
End module.
