(* ===== verification/FirehoseProps.v ===== *)
(** * FirehoseProps: what a firehose's configs, plans and syncs guarantee *)

From S2P Require Import Prelude GoLib Errors Resource Module Json Names Validator Worker Kube Kubernetes Helm ConsumerReset Charts FirehoseTypes FirehoseConfig Firehose.
From Stdlib Require Import Ascii.

#[local] Open Scope Z_scope.

(** ** Consumer groups *)

Lemma last_hyphen_Some l p s : last_hyphen l = Some (p, s) → l = p ++ "-"%char :: s ∧ "-"%char ∉ s.
Proof.
  revert p s. induction l as [|c l IH]; intros p s H; cbn in H; [done|].
  destruct (last_hyphen l) as [[p' s']|] eqn:E.
  - simplify_eq. destruct (IH _ _ eq_refl) as [-> ?]. done.
  - case_decide; simplify_eq. split; [done|]. clear -E. revert E.
    induction s as [|x s IH]; cbn; [set_solver|].
    destruct (last_hyphen s) as [[]|]; [done|]. case_decide; [done|]. set_solver.
Qed.

Lemma last_hyphen_app p s : "-"%char ∉ s → last_hyphen (p ++ "-"%char :: s) = Some (p, s).
Proof.
  intros Hs. assert (last_hyphen s = None) as Hn.
  { clear p. induction s as [|x s IH]; [done|]. cbn. rewrite IH by set_solver.
    by rewrite decide_False by set_solver. }
  induction p as [|c p IH]; cbn.
  - rewrite Hn. done.
  - by rewrite IH.
Qed.

Lemma suffix_match_Some s p d :
  suffix_match s = Some (p, d) →
  s = p +:+ "-" +:+ d ∧ p ≠ "" ∧ d ≠ "" ∧ Forall (λ c, is_digit c = true) (chars d).
Proof.
  unfold suffix_match. destruct (last_hyphen (chars s)) as [[lp ld]|] eqn:E; [|done].
  apply last_hyphen_Some in E as [Hs _].
  destruct (negb _ && negb _ && _ && _) eqn:Hc; [|done]. intros [= <- <-].
  repeat (apply andb_true_iff in Hc as [Hc ?]).
  rewrite !negb_true_iff, !bool_decide_eq_false in *.
  split_and!.
  - apply chars_inj. by rewrite Hs, !chars_app, !chars_str.
  - intros Hn. apply (f_equal chars) in Hn. rewrite chars_str in Hn. done.
  - intros Hn. apply (f_equal chars) in Hn. rewrite chars_str in Hn. done.
  - rewrite chars_str. by apply Forall_forall; intros c Hc'; eapply forallb_forall; [done|apply list_elem_of_In].
Qed.

Lemma strlen_pos s : s ≠ "" → (0 < String.length s)%nat.
Proof. destruct s; [done|]. cbn. lia. Qed.

(** Resetting the offsets moves a firehose to a new consumer group: a name
    that ends in a hyphen and a sequence number gets the next number, any other
    name gets the suffix "-1"; the new name is never the old one.  The only
    failure is a sequence number that is not a machine integer. *)
Theorem getNewConsumerGroupID_correct g :
  match suffix_match g with
  | None => getNewConsumerGroupID g = Ok (g +:+ "-1") ∧ g +:+ "-1" ≠ g
  | Some (p, d) =>
      g = p +:+ "-" +:+ d ∧
      match unsigned (chars d) with
      | Some n =>
          (n < 2 ^ 63 - 1 → getNewConsumerGroupID g = Ok (p +:+ "-" +:+ Sprint (n + 1))) ∧
          (n < 2 ^ 63 → ∃ g', getNewConsumerGroupID g = Ok g' ∧ g' ≠ g) ∧
          (2 ^ 63 ≤ n → is_ok (getNewConsumerGroupID g) = false)
      | None => False
      end
  end.
Proof.
  unfold getNewConsumerGroupID. destruct (suffix_match g) as [[p d]|] eqn:E.
  2:{ split; [done|]. intros H. apply (f_equal String.length) in H.
      rewrite strlen_app in H. cbn in H. lia. }
  apply suffix_match_Some in E as (-> & Hp & Hd & Hds). split; [done|].
  assert (∃ c l, chars d = c :: l ∧ is_digit c = true) as (c & l & Hcd & Hc).
  { destruct d as [|c d]; [done|]. cbn in *. apply Forall_cons in Hds as [Hc _]. eauto. }
  assert (∀ acc k, 0 ≤ acc → Forall (λ c, is_digit c = true) k →
    ∃ n, digits_val acc k = Some n ∧ acc ≤ n) as Hdv.
  { intros acc k. revert acc. induction k as [|x k IH]; intros acc Ha Hk; cbn.
    - exists acc. split; [done|lia].
    - apply Forall_cons in Hk as [Hx Hk]. unfold digit_val. rewrite Hx.
      unfold is_digit, in_range in Hx. apply andb_true_iff in Hx as [Hx _].
      apply Nat.leb_le in Hx. change (Ascii.nat_of_ascii "0") with 48%nat in Hx.
      destruct (IH (acc * 10 + (Z.of_nat (Ascii.nat_of_ascii x) - 48))) as (n & Hn & Hle);
        [lia|done|]. exists n. split; [done|lia]. }
  destruct (Hdv 0 (chars d)) as (n & Hn & Hn0); [lia|done|].
  assert (unsigned (chars d) = Some n) as Hu by (unfold unsigned; by rewrite Hcd, <- Hcd).
  rewrite Hu.
  assert (ParseInt d 64 = if in_bits 64 n then Ok n
    else Err (EWrap ("strconv.ParseInt: parsing " +:+ quoted d +:+ ": value out of range")
                (ENew "value out of range"))) as HP.
  { unfold ParseInt. by rewrite Hcd, signed_unsigned, <- Hcd, Hu by done. }
  unfold Atoi. rewrite HP. unfold in_bits. change (- 2 ^ (64 - 1)) with (- 2 ^ 63).
  change (2 ^ (64 - 1)) with (2 ^ 63). rewrite (proj2 (Z.leb_le _ _)) by lia. cbn [andb].
  split_and!.
  - intros Hlt. rewrite (proj2 (Z.ltb_lt _ _)) by lia. by rewrite wrap64_id by lia.
  - intros Hlt. rewrite (proj2 (Z.ltb_lt _ _)) by lia. eexists. split; [done|].
    intros H. apply sapp_inj_l in H. apply (sapp_inj_l "-") in H.
    assert (signed (chars d) = Some (wrap64 (n + 1))) as Hs by (rewrite <- H; apply signed_Sprint).
    rewrite Hcd, signed_unsigned, <- Hcd, Hu in Hs by done. simplify_eq.
    destruct (decide (n = 2 ^ 63 - 1)) as [->|].
    { exfalso. revert Hs. vm_compute. discriminate. }
    rewrite wrap64_id in Hs by lia. lia.
  - intros Hge. by rewrite (proj2 (Z.ltb_ge _ _)) by lia.
Qed.

(** ** Chart values *)

Lemma HasPrefix_spec s p : HasPrefix s p = true ↔ ∃ r, s = p +:+ r.
Proof.
  unfold HasPrefix. revert s. induction p as [|c p IH]; intros s.
  - split; [by exists s|]. by destruct s.
  - destruct s as [|d s]; cbn.
    { split; [done|]. intros [r Hr]. discriminate. }
    destruct (ascii_dec c d) as [->|Hn].
    + rewrite IH. split; intros [r Hr]; exists r; [by rewrite Hr|by injection Hr].
    + split; [done|]. intros [r Hr]. injection Hr as -> _. done.
Qed.

Lemma TrimPrefix_app p r : TrimPrefix (p +:+ r) p = r.
Proof.
  unfold TrimPrefix. rewrite (proj2 (HasPrefix_spec _ _)) by eauto.
  rewrite chars_app, <- length_chars, drop_app_length. apply str_chars.
Qed.

Lemma TrimPrefix_none s p : HasPrefix s p = false → TrimPrefix s p = s.
Proof. unfold TrimPrefix. by intros ->. Qed.

(** The image of a running firehose can only be retagged: of the chart
    values in a request only the tag counts, an empty one changes nothing, and
    one with a repository must start with the known one, which is then cut
    off; repository, chart version and pull policy stay. *)
Theorem mergeChartValues_correct cur newVal :
  match newVal with
  | None => mergeChartValues (Some cur) None = Ok (Some cur)
  | Some v =>
      let tag := TrimSpace (ImageTag v) in
      (tag = "" → mergeChartValues (Some cur) (Some v) = Ok (Some cur)) ∧
      (tag ≠ "" →
       (∃ t, mergeChartValues (Some cur) (Some v) =
               Ok (Some (mkChartValues (ImageRepository cur) t (ChartVersion cur) (ImagePullPolicy cur))) ∧
             (":"%char ∉ chars tag ∧ t = tag ∨
              ∃ rest, tag = imageRepo +:+ rest ∧
                      (∀ r, rest = ":" +:+ r → t = r) ∧ (HasPrefix rest ":" = false → t = tag))) ∨
       (":"%char ∈ chars tag ∧ HasPrefix tag imageRepo = false ∧
        ∃ e, mergeChartValues (Some cur) (Some v) = Err (EErr e) ∧ Code e = Code ErrInvalid))
  end.
Proof.
  destruct newVal as [v|]; [|done]. cbv zeta. unfold mergeChartValues.
  set (tag := TrimSpace (ImageTag v)). split; intros Ht; [by rewrite decide_True|].
  rewrite decide_False by done. unfold Contains. case_bool_decide as Hc; cbn [andb].
  - destruct (HasPrefix tag imageRepo) eqn:Hp; [left|by right; eauto].
    eexists. split; [done|]. right. apply HasPrefix_spec in Hp as [rest Hr].
    exists rest. split_and!; [done| |].
    + intros r ->. rewrite Hr, <- sapp_assoc. apply TrimPrefix_app.
    + intros Hn. apply TrimPrefix_none. apply not_true_iff_false. intros [r Hr']%HasPrefix_spec.
      rewrite Hr, sapp_assoc in Hr'. apply sapp_inj_l in Hr'.
      rewrite Hr' in Hn. apply not_true_iff_false in Hn. apply Hn, HasPrefix_spec. eauto.
  - left. eexists. split; [done|]. left. split; [done|]. apply TrimPrefix_none.
    apply not_true_iff_false. intros [r Hr]%HasPrefix_spec. apply Hc. rewrite Hr.
    rewrite !chars_app. set_solver.
Qed.

(** ** Reading configs *)

Section config_props.
Context {GJ : GoJSON} {JS : JSONSchema} {MR : MapRange} {DG : Digests} {TP : Template}.
Variable configSchemaRaw : string.

(** A loop that rebuilds the entries of a map. *)
Lemma res_fold_entries {A B} (f : A → go B) (l : list (string * A)) (m m' : gmap string B) :
  res_fold (λ acc kv, t ← f kv.2; Ok (<[kv.1 := t]> acc)) m l = Ok m' → NoDup l.*1 →
  (∀ k v, (k, v) ∈ l → ∃ t, f v = Ok t ∧ m' !! k = Some t) ∧
  (∀ k, k ∉ l.*1 → m' !! k = m !! k).
Proof.
  revert m. induction l as [|[k0 v0] l IH]; intros m H Hn; cbn in H.
  { simplify_eq. split; [set_solver|done]. }
  apply res_bind_ok_inv in H as (m1 & Hm1 & H). apply res_bind_ok_inv in Hm1 as (t & Ht & Hm1).
  simplify_eq. cbn in Hn. apply NoDup_cons in Hn as [Hk0 Hn].
  destruct (IH _ H Hn) as [Hin Hout]. split.
  - intros k v [Heq|Hl]%elem_of_cons; [|by apply Hin]. simplify_eq.
    exists t. split; [done|]. rewrite Hout by done. apply lookup_insert_eq.
  - intros k Hk. cbn in Hk. rewrite Hout by set_solver. apply lookup_insert_ne. set_solver.
Qed.

Lemma map_put_lookup {A} k (v : A) m m' :
  map_put k v m = Ok m' → gm m' !! k = Some v ∧ (∀ k', k' ≠ k → gm m' !! k' = gm m !! k').
Proof.
  destruct m as [m|]; cbn; [|done]. intros [= <-]. cbn. split; [apply lookup_insert_eq|].
  intros k' Hk. by apply lookup_insert_ne.
Qed.

Lemma kafka_metadata_Ok cfg t t' :
  kafka_metadata cfg t = Ok t' →
  trg_Type t' = trg_Type t ∧ trg_AuthenticationRef t' = trg_AuthenticationRef t ∧
  (trg_Type t = KAFKA → ∀ id, gm cfg !! confKeyConsumerID = Some id →
     gm (Metadata t') !! KedaKafkaMetadataConsumerGroupKey = Some id).
Proof.
  unfold kafka_metadata. case_decide as Ht; [|by intros [= <-]].
  intros H. apply res_bind_ok_inv in H as (m & Hm & H). simplify_eq. split_and!; [done..|].
  intros _ id Hid. cbn [res_fold fst snd] in Hm. rewrite Hid in Hm.
  apply res_bind_ok_inv in Hm as (m1 & H1 & Hm). apply map_put_lookup in H1 as [H1 _].
  apply res_bind_ok_inv in Hm as (m2 & H2 & Hm). apply res_bind_ok_inv in Hm as (m3 & H3 & Hm).
  simplify_eq. cbn [Metadata set_Metadata].
  assert (∀ k (v : option string) a a', k ≠ KedaKafkaMetadataConsumerGroupKey →
    (match v with Some v => map_put k v a | None => Ok a end) = (Ok a' : go _) →
    gm a' !! KedaKafkaMetadataConsumerGroupKey = gm a !! KedaKafkaMetadataConsumerGroupKey) as Hk.
  { intros k [v|] a a' Hne Ha; [|by simplify_eq]. apply map_put_lookup in Ha as [_ Ha]. by apply Ha. }
  apply Hk in H2; [|done]. apply Hk in H3; [|done]. by rewrite H3, H2.
Qed.

Lemma updateTriggersMetadata_Ok k cfg k' :
  updateTriggersMetadata k cfg = Ok k' →
  dom (gm (Triggers k')) = dom (gm (Triggers k)) ∧
  set_Triggers (Triggers k') k = k' ∧
  (∀ name t, gm (Triggers k') !! name = Some t → trg_Type t = KAFKA →
     ∀ id, gm cfg !! confKeyConsumerID = Some id →
     gm (Metadata t) !! KedaKafkaMetadataConsumerGroupKey = Some id).
Proof.
  unfold updateTriggersMetadata. intros H. apply res_bind_ok_inv in H as (ts & Hts & H).
  apply res_fold_entries in Hts as [Hin Hout]; [|apply NoDup_range_keys].
  assert (∀ name t, ts !! name = Some t →
    ∃ t0, gm (Triggers k) !! name = Some t0 ∧ kafka_metadata cfg t0 = Ok t) as Hts.
  { intros name t Ht. destruct (gm (Triggers k) !! name) as [t0|] eqn:E.
    - apply elem_of_range in E. destruct (Hin _ _ E) as (t1 & Hf & Ht1). naive_solver.
    - rewrite Hout in Ht; [naive_solver|]. intros Hk. apply list_elem_of_fmap in Hk as ([n v] & -> & Hk).
      apply elem_of_range in Hk. cbn in E. congruence. }
  assert (dom ts = dom (gm (Triggers k))) as Hdom.
  { apply set_eq. intros name. rewrite !elem_of_dom. split.
    - intros [t Ht]. destruct (Hts _ _ Ht) as (t0 & H0 & _). eauto.
    - intros [t0 H0]. apply elem_of_range in H0. destruct (Hin _ _ H0) as (t & _ & Ht). eauto. }
  destruct (Triggers k) as [m|] eqn:E; simplify_eq.
  - cbn. split_and!; [done|by destruct k|]. intros name t Ht Hk id Hid.
    destruct (Hts _ _ Ht) as (t0 & _ & Hm). apply kafka_metadata_Ok in Hm as (Hty & _ & Hm).
    apply Hm; [congruence|done].
  - rewrite E. split_and!; [done| |done]. rewrite <- E. by destruct k'.
Qed.

Lemma keda_Validate_Ok k :
  keda_Validate (Some k) = Ok tt ↔
  0 ≤ MinReplicas k ≤ MaxReplicas k ∧ 1 ≤ MaxReplicas k ∧ gm (Triggers k) ≠ ∅.
Proof.
  cbn. unfold gm_len.
  destruct (Z.eqb_spec (MinReplicas k) 0), (Z.eqb_spec (MaxReplicas k) 0); cbn;
    destruct (Z.ltb_spec (MinReplicas k) 0), (Z.ltb_spec (MaxReplicas k) 1),
      (Z.ltb_spec (MaxReplicas k) (MinReplicas k)); try (split; [done|lia]);
    destruct (Nat.eqb_spec (size (gm (Triggers k))) 0) as [Hs|Hs];
    (split; [intros; try done|intros (? & ? & Hne); try done]);
    rewrite ?map_size_empty_iff in *; try done; split_and!; try lia; try done.
Qed.

(** What an enabled autoscaler is like once it was read. *)
Definition autoscaler_ok (env : gomap string) (a : Autoscaler) : Prop :=
  as_Enabled a = true → ∃ k, as_Spec a = Some k ∧
    0 ≤ MinReplicas k ≤ MaxReplicas k ∧ 1 ≤ MaxReplicas k ∧ gm (Triggers k) ≠ ∅ ∧
    ∀ name t, gm (Triggers k) !! name = Some t → trg_Type t = KAFKA →
      ∀ id, gm env !! confKeyConsumerID = Some id →
      gm (Metadata t) !! KedaKafkaMetadataConsumerGroupKey = Some id.

Lemma keda_ReadConfig_Ok s c dc k :
  keda_ReadConfig s c dc = Ok k →
  ∃ k0, s = Some k0 ∧ MinReplicas k = MinReplicas k0 ∧ MaxReplicas k = MaxReplicas k0 ∧
    (∀ name t, gm (Triggers k) !! name = Some t → trg_Type t = KAFKA →
       ∀ id, gm (EnvVariables c) !! confKeyConsumerID = Some id →
       gm (Metadata t) !! KedaKafkaMetadataConsumerGroupKey = Some id).
Proof.
  unfold keda_ReadConfig. destruct s as [k0|]; [|done]. intros H.
  apply res_bind_ok_inv in H as (b & Hb & H). apply updateTriggersMetadata_Ok in Hb as (_ & _ & Hb).
  injection H as <-. by exists k0.
Qed.

Lemma read_autoscaler_Ok c dc c' :
  read_autoscaler c dc = Ok c' →
  c' = set_Autoscaler (cfg_Autoscaler c') c ∧
  (∀ a, cfg_Autoscaler c' = Some a → autoscaler_ok (EnvVariables c) a) ∧
  (∀ a, cfg_Autoscaler c = Some a → as_Enabled a = false → c' = c).
Proof.
  unfold read_autoscaler. destruct (cfg_Autoscaler c) as [a|] eqn:Ha.
  2:{ intros [= <-]. rewrite Ha. split_and!; [destruct c; cbn in *; by subst|done|done]. }
  destruct (as_Enabled a) eqn:He.
  - intros H. apply res_bind_ok_inv in H as (k & Hk & H). apply res_bind_ok_inv in H as ([] & Hv & H).
    injection H as <-. split_and!; [done| |intros a' [= <-] Hf; congruence].
    intros a' Ha' _. cbn in Ha'. injection Ha' as <-. exists k. split; [done|].
    unfold autoscaler_Validate in Hv. cbn [as_Enabled set_Spec as_Spec] in Hv. rewrite He in Hv.
    cbn [negb] in Hv. apply keda_Validate_Ok in Hv as (H1 & H2 & H3).
    split_and!; [lia|lia|lia|done|].
    apply keda_ReadConfig_Ok in Hk as (_ & _ & _ & _ & Hk). exact Hk.
  - intros [= <-]. rewrite Ha. split_and!; [destruct c; cbn in *; by subst| |done].
    intros a' [= <-] Ht. congruence.
Qed.

Lemma read_DeploymentID_Ok r id id' :
  read_DeploymentID r id = Ok id' →
  id' ≠ "" ∧ Z.of_nat (String.length id') ≤ 53 ∧ (id ≠ "" → id' = id).
Proof.
  unfold read_DeploymentID. destruct (Nat.eqb_spec (String.length id) 0) as [Hz|Hz].
  - intros H. pose proof (SafeName_cases (Project r +:+ "-" +:+ Resource.Name r) "-firehose"
      helmReleaseNameMaxLength) as Hs. rewrite H in Hs. destruct Hs as (Hl & Hsuf & _).
    split_and!; [|done|by destruct id]. intros ->. discriminate.
  - destruct (Z.ltb_spec helmReleaseNameMaxLength (Z.of_nat (String.length id))); [done|].
    intros [= <-]. split_and!; [by intros ->|done|done].
Qed.

(** The environment a config is read with: the request's variables over the
    module's, and a consumer group. *)
Definition env_ok (dc : driverConf) (given : gomap string) (id : string) (env : gomap string) : Prop :=
  let merged := gm given ∪ gm (dc_EnvVariables dc) in
  gm_get env confKeyConsumerID =
    (let group := default "" (merged !! confKeyConsumerID) in
     if decide (group = "") then id +:+ "-1" else group) ∧
  ∀ k, k ≠ confKeyConsumerID → gm env !! k = merged !! k.

(** The consumer group is filled in last. *)
Lemma consumer_group_Ok dc given id env :
  (if decide (gm_get (CloneAndMergeMaps (dc_EnvVariables dc) given) confKeyConsumerID = "")
   then map_put confKeyConsumerID (id +:+ "-1") (CloneAndMergeMaps (dc_EnvVariables dc) given)
   else Ok (CloneAndMergeMaps (dc_EnvVariables dc) given)) = Ok env → id ≠ "" →
  gm_get env confKeyConsumerID ≠ "" ∧ env_ok dc given id env.
Proof.
  intros Henv Hne. unfold env_ok, CloneAndMergeMaps, gm_get in *.
  rewrite !copy_range_spec, (right_id_L ∅ (∪)) in Henv.
  set (merged := gm given ∪ gm (dc_EnvVariables dc)) in *.
  change (gm (Some merged)) with merged in Henv. destruct (decide _) as [Hg|Hg] in Henv.
  - apply map_put_lookup in Henv as [Hk Hother]. rewrite Hk.
    split; [by destruct id|]. rewrite Hg, decide_True by done. by split.
  - injection Henv as <-. change (gm (Some merged)) with merged. split; [done|].
    by rewrite decide_False.
Qed.

(** The release name made from a resource's: project and name, cut to leave room
    for a hash of all of it when they are too long, and the suffix "-firehose". *)
Definition release_name (r : Resource) : string :=
  let base := TrimSuffix (Project r +:+ "-" +:+ Resource.Name r) "-firehose" in
  if decide (String.length base ≤ 44)%nat then base +:+ "-firehose"
  else Trim (str (take 37 (chars base))) "-" +:+ "-" +:+ str (take 6 (chars (sha256_hex base)))
       +:+ "-firehose".

Lemma read_DeploymentID_made r id' : read_DeploymentID r "" = Ok id' → id' = release_name r.
Proof.
  unfold read_DeploymentID, SafeName, release_name. change (String.length "" =? 0)%nat with true.
  cbv iota. set (base := TrimSuffix _ _). clearbody base. cbv zeta.
  change (helmReleaseNameMaxLength - Z.of_nat (String.length "-firehose")) with 44.
  destruct (Z.leb_spec (Z.of_nat (String.length base)) 44) as [Hl|Hl].
  { rewrite decide_True by lia. intros H. by injection H. }
  rewrite decide_False by lia. rewrite !strlen_app, length_hash6.
  change (helmReleaseNameMaxLength - _) with 37. intros H.
  apply res_bind_ok_inv in H as (t & Ht & H). injection H as <-.
  destruct (slice_to_cases base 37) as [[Hs _]|[Hs _]]; rewrite Ht in Hs; [|done].
  by injection Hs as ->.
Qed.

(** The first text that is not empty. *)
Fixpoint first_nonempty (l : list string) : string :=
  match l with
  | [] => ""
  | s :: l => if decide (s = "") then first_nonempty l else s
  end.

(** Resources, each figure from the first that gives one. *)
Definition usage_from (u : UsageSpec) (l : list UsageSpec) : Prop :=
  CPU u = first_nonempty (CPU <$> l) ∧ Memory u = first_nonempty (Memory <$> l).

Lemma usage_for_from dc sink (sel : RequestsAndLimits → UsageSpec) u0 :
  sel = rl_Limits ∨ sel = rl_Requests →
  let given k := sel (default RL_zero (gm (dc_RequestsAndLimits dc) !! k)) in
  usage_from (merge (sel (usage_for dc sink)) u0) [u0; given sink; given "default"].
Proof.
  intros Hsel. cbv zeta. unfold usage_for, usage_from, merge. change defaultKey with "default".
  destruct (gm (dc_RequestsAndLimits dc) !! sink) as [o|]; destruct Hsel as [-> | ->]; cbn;
    split; repeat case_decide; cbn in *; congruence.
Qed.

(** C24. A config that was read is fit to deploy, whatever the request left out:
    it passed the schema; it asks for at least one replica; its release name is
    its own, or the resource's project and name with the suffix "-firehose"
    (shortened, with a hash, when that is too long), and fits Helm's limit of 53;
    its environment is the request's over the module's and always names a
    consumer group; a namespace that was left out is the module's for the sink,
    or else its default one, and so is each of the resource figures; and an
    enabled autoscaler has valid bounds, a trigger, and Kafka triggers on that
    consumer group. *)
Theorem readConfig_correct r confJSON dc c :
  readConfig configSchemaRaw r confJSON dc = Ok c →
  ∃ c0, Unmarshal dec_Config confJSON Config_zero = Ok c0 ∧ passes configSchemaRaw confJSON ∧
    (Stopped c, StopTime c, ResetOffset c, cfg_Telegraf c, cfg_ChartValues c) =
      (Stopped c0, StopTime c0, ResetOffset c0, cfg_Telegraf c0, cfg_ChartValues c0) ∧
    cfg_InitContainer c = dc_InitContainer dc ∧ Replicas c = Z.max 1 (Replicas c0) ∧
    DeploymentID c ≠ "" ∧ Z.of_nat (String.length (DeploymentID c)) ≤ 53 ∧
    DeploymentID c = (if decide (DeploymentID c0 = "") then release_name r else DeploymentID c0) ∧
    gm_get (EnvVariables c) confKeyConsumerID ≠ "" ∧
    env_ok dc (EnvVariables c0) (DeploymentID c) (EnvVariables c) ∧
    (let sink := gm_get (EnvVariables c) "SINK_TYPE" in
     (Namespace c0 ≠ "" → Namespace c = Namespace c0) ∧
     (Namespace c0 = "" → Namespace c =
        default (default "" (gm (dc_Namespace dc) !! "default")) (gm (dc_Namespace dc) !! sink)) ∧
     let given k := default RL_zero (gm (dc_RequestsAndLimits dc) !! k) in
     usage_from (Limits c) [Limits c0; rl_Limits (given sink); rl_Limits (given "default")] ∧
     usage_from (Requests c) [Requests c0; rl_Requests (given sink); rl_Requests (given "default")]) ∧
    (∀ a, cfg_Autoscaler c = Some a → autoscaler_ok (EnvVariables c) a).
Proof.
  unfold readConfig. intros H. apply res_bind_ok_inv in H as (c0 & H0 & H).
  rewrite res_on_err_ok in H0. exists c0. split; [done|].
  apply res_bind_ok_inv in H as ([] & Hv & H). apply FromJSONSchema_Ok in Hv. split; [done|].
  apply res_bind_ok_inv in H as (id & Hid & H). apply res_bind_ok_inv in H as (env & Henv & H).
  apply read_autoscaler_Ok in H as (Hc & Hauto & _).
  pose proof (read_DeploymentID_made r id) as Hmade.
  pose proof Hid as (Hne & Hlen & Hkeep)%read_DeploymentID_Ok.
  set (c1 := if Replicas _ <=? 0 then _ else _) in *.
  assert (Replicas c1 = Z.max 1 (Replicas c0) ∧ Stopped c1 = Stopped c0 ∧ StopTime c1 = StopTime c0 ∧
    Namespace c1 = Namespace c0 ∧ DeploymentID c1 = DeploymentID c0 ∧
    EnvVariables c1 = CloneAndMergeMaps (dc_EnvVariables dc) (EnvVariables c0) ∧
    ResetOffset c1 = ResetOffset c0 ∧ Limits c1 = Limits c0 ∧ Requests c1 = Requests c0 ∧
    cfg_Telegraf c1 = cfg_Telegraf c0 ∧ cfg_ChartValues c1 = cfg_ChartValues c0 ∧
    cfg_InitContainer c1 = dc_InitContainer dc)
    as (E1 & E2 & E3 & E4 & E5 & E6 & E7 & E8 & E9 & E10 & E11 & E12).
  { subst c1. cbn. destruct (Z.leb_spec (Replicas c0) 0); cbn; split_and!; try done; lia. }
  clearbody c1. cbn [EnvVariables set_place] in Henv. rewrite E6 in Henv. rewrite E5 in Hkeep, Hid.
  apply consumer_group_Ok in Henv as [Hgroup Hok]; [|done].
  assert (EnvVariables c = env ∧ Namespace c =
     (if no_str (Namespace c0) then namespace_for dc (gm_get env confSinkType) else Namespace c0) ∧
     DeploymentID c = id) as (F1 & F2 & F3).
  { rewrite Hc. cbn. rewrite E4. by destruct (no_str (Namespace c0)). }
  assert (id = if decide (DeploymentID c0 = "") then release_name r else DeploymentID c0) as Hname.
  { case_decide as Hd; [apply Hmade; by rewrite <- Hd|by apply Hkeep]. }
  assert (Limits c = merge (rl_Limits (usage_for dc (gm_get env confSinkType))) (Limits c0) ∧
    Requests c = merge (rl_Requests (usage_for dc (gm_get env confSinkType))) (Requests c0)) as [U1 U2].
  { rewrite Hc; cbn; rewrite E4; destruct (no_str (Namespace c0)); cbn; by rewrite ?E8, ?E9. }
  rewrite F1, F3. split_and!; try done.
  all: try (rewrite Hc; cbn; rewrite E4; destruct (no_str (Namespace c0)); cbn; congruence).
  - intros Hns. rewrite F2. unfold no_str. by rewrite bool_decide_false.
  - intros Hns. rewrite F2. unfold no_str. rewrite bool_decide_true by done. unfold namespace_for.
    by destruct (gm (dc_Namespace dc) !! _).
  - rewrite U1. apply (usage_for_from dc _ rl_Limits). by left.
  - rewrite U2. apply (usage_for_from dc _ rl_Requests). by right.
  - intros a Ha. specialize (Hauto a Ha). revert Hauto. by destruct (no_str _).
Qed.

(** What every config that was read is, and every config that is stored. *)
Record fit (c : Config) : Prop := mkFit {
  fit_Replicas : 1 ≤ Replicas c;
  fit_named : DeploymentID c ≠ "";
  fit_short : Z.of_nat (String.length (DeploymentID c)) ≤ 53;
  fit_group : gm_get (EnvVariables c) confKeyConsumerID ≠ "";
}.

Lemma readConfig_fit r confJSON dc c : readConfig configSchemaRaw r confJSON dc = Ok c → fit c.
Proof.
  unfold readConfig. intros H. apply res_bind_ok_inv in H as (c0 & H0 & H).
  apply res_bind_ok_inv in H as ([] & _ & H).
  apply res_bind_ok_inv in H as (id & Hid & H). apply res_bind_ok_inv in H as (env & Henv & H).
  apply read_autoscaler_Ok in H as (-> & _). apply read_DeploymentID_Ok in Hid as (Hne & Hlen & _).
  assert (gm_get env confKeyConsumerID ≠ "") as Hg.
  { eapply (consumer_group_Ok dc (EnvVariables c0) id); [|done].
    rewrite <- Henv. cbn. by destruct (Replicas c0 <=? 0). }
  split; cbn; (destruct (no_str _); cbn); try done;
    destruct (Z.leb_spec (Replicas c0) 0); cbn; lia.
Qed.
End config_props.
