(* ===== verification/FirehoseRun.v ===== *)
(** * FirehoseRun: what planning and syncing a firehose guarantee *)

From S2P Require Import Prelude GoLib Errors Resource Module Json Names Validator Worker Kube Kubernetes Helm ConsumerReset Charts FirehoseTypes FirehoseConfig Firehose FirehoseProps PendingSteps.
From Stdlib Require Import Ascii.

#[local] Open Scope Z_scope.

(** ** Plans *)

(** The steps an action leaves to the syncs. *)
Definition steps_of (action : string) : list string :=
  if decide (action = CreateAction) then [stepReleaseCreate]
  else if decide (action = ResetAction) then [stepReleaseStop; stepReleaseUpdate]
  else if decide (action = ResetV2Action) then [stepReleaseStop; stepKafkaReset; stepReleaseUpdate]
  else [stepReleaseUpdate].

Section plans.
Context {GJ : GoJSON} {JS : JSONSchema} {MR : MapRange} {DG : Digests} {TP : Template} {W : Type}
  {VA : VersionAPI W}.
Variable configSchemaRaw : string.
Implicit Types (fd : firehoseDriver W) (exr : ExpandedResource) (act : ActionRequest) (c cur : Config).

Lemma fit_keeps c c' :
  1 ≤ Replicas c' → DeploymentID c' = DeploymentID c → EnvVariables c' = EnvVariables c →
  fit c → fit c'.
Proof. intros Hr Hd He []. split; congruence || done. Qed.

Lemma getNewConsumerGroupID_nonempty g g' : getNewConsumerGroupID g = Ok g' → g' ≠ "".
Proof.
  unfold getNewConsumerGroupID. destruct (suffix_match g) as [[p d]|].
  - destruct (Atoi d); [|done..]. intros [= <-]. by destruct p.
  - intros [= <-]. by destruct g.
Qed.

Lemma change_autoscaler_Ok op c c' :
  change_autoscaler op c = Ok c' → c' = set_Autoscaler (cfg_Autoscaler c') c.
Proof.
  unfold change_autoscaler. destruct (cfg_Autoscaler c) as [a|] eqn:Ha; intros H.
  - by apply res_bind_ok_inv in H as (k & _ & [= <-]).
  - injection H as <-. rewrite Ha. destruct c; cbn in *; by subst.
Qed.

(** What a change keeps of the config it starts from. *)
Definition keeps_place exr act (cur c : Config) : Prop :=
  DeploymentID c = DeploymentID cur ∧
  (Namespace c ≠ Namespace cur → act_Name act = UpdateAction ∧ Stopped cur = true).

(** A cluster that names a namespace decides it. *)
Definition cluster_decides exr c : Prop :=
  ∃ kubeOut, read_kubeOut exr = Ok kubeOut ∧
    let ns := kc_Namespace (out_Configs kubeOut) in ns ≠ "" → Namespace c = ns.

Lemma change_update_Ok dc exr params cur c :
  change_update configSchemaRaw dc exr params cur = Ok c → fit cur →
  fit c ∧ DeploymentID c = DeploymentID cur ∧ cluster_decides exr c ∧
  (Namespace c ≠ Namespace cur → Stopped cur = true).
Proof.
  unfold change_update. intros H Hcur. apply res_bind_ok_inv in H as (n & Hn & H).
  apply readConfig_fit in Hn as []. apply res_bind_ok_inv in H as (cv & _ & H).
  apply res_bind_ok_inv in H as (ko & Hko & H). destruct (negb _ && _) eqn:Hns; [done|].
  injection H as <-. destruct Hcur. split_and!.
  - by split.
  - done.
  - exists ko. split; [done|]. cbv zeta. intros Hne. cbn. by rewrite decide_False.
  - intros Hne. destruct (Stopped cur); [done|]. apply andb_false_iff in Hns as [Hns|]; [|done].
    apply negb_false_iff, bool_decide_eq_true in Hns. destruct (Hne (eq_sym Hns)).
Qed.

Lemma change_config_Ok dc exr act cur c :
  change_config configSchemaRaw dc exr act cur = Ok c → fit cur →
  fit c ∧ keeps_place exr act cur c ∧ (act_Name act = UpdateAction → cluster_decides exr c).
Proof.
  unfold change_config, keeps_place. intros H Hcur. pose proof (fit_Replicas _ Hcur) as Hr.
  destruct (decide (act_Name act = UpdateAction)) as [Hu|Hu].
  { apply change_update_Ok in H as (? & ? & ? & ?); [|done]. naive_solver. }
  assert (∀ c', Replicas c' = Replicas cur → DeploymentID c' = DeploymentID cur →
    EnvVariables c' = EnvVariables cur → Namespace c' = Namespace cur →
    fit c' ∧ (DeploymentID c' = DeploymentID cur ∧ (Namespace c' ≠ Namespace cur →
      act_Name act = UpdateAction ∧ Stopped cur = true)) ∧
      (act_Name act = UpdateAction → cluster_decides exr c')) as Hk.
  { intros c' E1 E2 E3 E4. split_and!; try done. eapply (fit_keeps cur); try done. lia. }
  destruct (decide (act_Name act = ScaleAction)) as [_|_].
  { apply res_bind_ok_inv in H as (p & _ & H). destruct (Z.ltb_spec (sp_Replicas p) 1); [done|].
    injection H as <-. split_and!; try done. by eapply (fit_keeps cur). }
  destruct (decide (act_Name act = StartAction)) as [_|_].
  { apply res_bind_ok_inv in H as (p & _ & H). apply change_autoscaler_Ok in H as ->. by apply Hk. }
  destruct (decide (act_Name act = StopAction)) as [_|_].
  { apply change_autoscaler_Ok in H as ->. by apply Hk. }
  destruct (decide (act_Name act = UpgradeAction)) as [_|_]; injection H as <-; by apply Hk.
Qed.

(** Another config that asks for the same to be run. *)
Definition same_request (n c : Config) : Prop :=
  Stopped c = Stopped n ∧ StopTime c = StopTime n ∧ Replicas c = Replicas n ∧
  EnvVariables c = EnvVariables n ∧ Limits c = Limits n ∧ Requests c = Requests n.

(** The config [c] that an action makes of the current one, [cur]; [resetTo] is
    what a reset to any offset leaves for its sync. *)
Definition asks_for fd exr act (cur c : Config) (resetTo : string) : Prop :=
  let res := exr_Resource exr in
  let name := act_Name act in
  (name = UpdateAction → ∃ n, readConfig configSchemaRaw res (Params act) (conf fd) = Ok n ∧
     same_request n c ∧ cfg_Autoscaler c = cfg_Autoscaler n) ∧
  (name = ScaleAction → ∃ p, Unmarshal dec_ScaleParams (Params act) (mkScaleParams 0) = Ok p ∧
     1 ≤ sp_Replicas p ∧ c = set_run (Stopped cur) (StopTime cur) (sp_Replicas p) cur) ∧
  (name = StartAction → ∃ p, Unmarshal dec_StartParams (Params act) (mkStartParams None) = Ok p ∧
     Stopped c = false ∧ EnvVariables c = EnvVariables cur ∧ Replicas c = Replicas cur ∧
     StopTime c = match sp_StopTime p with Some t => Some t | None => StopTime cur end) ∧
  (name = StopAction → Stopped c = true ∧ EnvVariables c = EnvVariables cur ∧
     Replicas c = Replicas cur ∧ StopTime c = StopTime cur) ∧
  (name = UpgradeAction → same_request cur c ∧ cfg_ChartValues c = Some (dc_ChartValues (conf fd))) ∧
  (name = ResetAction → ∃ to v g, Unmarshal dec_ResetParams (Params act) "" = Ok to ∧
     v = ToLower to ∧ (v = "latest" ∨ v = "earliest") ∧ ResetOffset c = v ∧
     getNewConsumerGroupID (gm_get (EnvVariables cur) confKeyConsumerID) = Ok g ∧
     gm (EnvVariables c) = <[confKeyConsumerID := g]>
       (<[SourceKafkaConsumerAutoOffsetReset := v]> (gm (EnvVariables cur))) ∧
     Stopped c = Stopped cur ∧ Replicas c = Replicas cur ∧ StopTime c = StopTime cur) ∧
  (name = ResetV2Action → ∃ p, Unmarshal dec_ResetV2Params (Params act) (mkResetV2Params "" "") = Ok p ∧
     asks_reset_to p resetTo ∧ c = set_ResetOffset resetTo cur).

(** What planning an action does, the action told apart. *)
Definition planned fd exr act (now : Time) (r : Resource) : Prop :=
  let res := exr_Resource exr in
  let name := act_Name act in
  ∃ c out resetTo,
    r = Resource.set_State (pending out (steps_of name) resetTo now)
          (set_Configs (MustJSON (enc_Config c)) res) ∧
    fit c ∧
    (name ≠ ResetV2Action → resetTo = "") ∧
    (name = CreateAction →
       out = MustJSON (enc_Output (mkOutput None (Namespace c) (DeploymentID c) None "" false)) ∧
       ∃ n, readConfig configSchemaRaw res (Params act) (conf fd) = Ok n ∧ same_request n c ∧
         DeploymentID c = DeploymentID n ∧ cfg_Autoscaler c = cfg_Autoscaler n) ∧
    (name ≠ CreateAction → out = Resource.Output (res_State res) ∧
       ∃ cur, readConfig configSchemaRaw res (Configs (res_Spec res)) (conf fd) = Ok cur ∧
         keeps_place exr act cur c ∧ asks_for fd exr act cur c resetTo) ∧
    (name = CreateAction ∨ name = UpdateAction → cluster_decides exr c) ∧
    (name ≠ ResetAction → name ≠ ResetV2Action → ∃ kubeOut rel,
       read_kubeOut exr = Ok kubeOut ∧
       getHelmRelease (conf fd) (set_Configs (MustJSON (enc_Config c)) res) c kubeOut = Ok rel).

Lemma change_autoscaler_run op c c' :
  change_autoscaler op c = Ok c' → Stopped c' = Stopped c ∧ EnvVariables c' = EnvVariables c ∧
  Replicas c' = Replicas c ∧ StopTime c' = StopTime c.
Proof. by intros ->%change_autoscaler_Ok. Qed.

Lemma change_config_asks fd exr act cur c :
  act_Name act ≠ ResetAction → act_Name act ≠ ResetV2Action →
  change_config configSchemaRaw (conf fd) exr act cur = Ok c → asks_for fd exr act cur c "".
Proof.
  intros N1 N2 H. unfold change_config in H. unfold asks_for. cbv zeta in *.
  destruct (decide (act_Name act = UpdateAction)) as [E|?].
  { rewrite E. split_and!; try done. intros _. unfold change_update in H.
    apply res_bind_ok_inv in H as (n & Hn & H). apply res_bind_ok_inv in H as (cv & _ & H).
    apply res_bind_ok_inv in H as (ko & _ & H). destruct (negb _ && _); [done|]. injection H as <-.
    by exists n. }
  destruct (decide (act_Name act = ScaleAction)) as [E|?].
  { rewrite E. split_and!; try done. intros _. apply res_bind_ok_inv in H as (p & Hp & H).
    apply res_on_err_ok in Hp. destruct (Z.ltb_spec (sp_Replicas p) 1); [done|]. injection H as <-.
    by exists p. }
  destruct (decide (act_Name act = StartAction)) as [E|?].
  { rewrite E. split_and!; try done. intros _. apply res_bind_ok_inv in H as (p & Hp & H).
    apply res_on_err_ok in Hp. apply change_autoscaler_run in H as (? & ? & ? & ?). by exists p. }
  destruct (decide (act_Name act = StopAction)) as [E|?].
  { rewrite E. split_and!; try done. intros _. by apply change_autoscaler_run in H as (? & ? & ? & ?). }
  destruct (decide (act_Name act = UpgradeAction)) as [E|?]; [|by split_and!].
  rewrite E. split_and!; try done. intros _. by injection H as <-.
Qed.

Lemma validated dc exr r c u :
  validateHelmReleaseConfigs dc exr r c = Ok u →
  ∃ kubeOut rel, read_kubeOut exr = Ok kubeOut ∧ getHelmRelease dc r c kubeOut = Ok rel.
Proof.
  unfold validateHelmReleaseConfigs. intros H. apply res_bind_ok_inv in H as (ko & Hko & H).
  apply res_bind_ok_inv in H as (rel & Hrel & _). eauto.
Qed.

Lemma planCreate_planned fd exr act now r :
  act_Name act = CreateAction → planCreate configSchemaRaw (conf fd) exr act now = Ok r →
  planned fd exr act now r.
Proof.
  intros Hn H. unfold planCreate in H. apply res_bind_ok_inv in H as (c0 & Hc0 & H).
  apply readConfig_fit in Hc0 as Hfit. apply res_bind_ok_inv in H as (cv & _ & H).
  apply res_bind_ok_inv in H as (ko & Hko & H). apply res_bind_ok_inv in H as (u & Hv & H).
  set (c := if decide _ then _ else _) in *. injection H as <-. apply validated in Hv.
  eexists c, _, "". unfold steps_of. rewrite decide_True by done. split_and!; try done.
  - subst c. destruct Hfit. destruct (decide _); by split.
  - intros _. split; [done|]. exists c0. split; [done|]. subst c. unfold same_request.
    by destruct (decide _).
  - intros _. exists ko. split; [done|]. cbv zeta. intros Hne. subst c. by rewrite decide_False.
Qed.

Lemma planChange_planned fd exr act now r :
  act_Name act ≠ CreateAction → act_Name act ≠ ResetAction → act_Name act ≠ ResetV2Action →
  planChange configSchemaRaw (conf fd) exr act now = Ok r → planned fd exr act now r.
Proof.
  intros N1 N2 N3 H. unfold planChange in H. apply res_bind_ok_inv in H as (cur & Hcur & H).
  apply readConfig_fit in Hcur as Hfit. apply res_bind_ok_inv in H as (c & Hc & H).
  pose proof (change_config_asks _ _ _ _ _ N2 N3 Hc) as Ha.
  apply change_config_Ok in Hc as (Hfc & Hk & Hd); [|done].
  apply res_bind_ok_inv in H as (u & Hv & H). injection H as <-. apply validated in Hv.
  eexists c, _, "". unfold steps_of. rewrite !decide_False by done. split_and!; try done.
  - intros _. split; [done|]. by exists cur.
  - intros [?|?]; [done|by apply Hd].
Qed.

Lemma planResetV2_planned fd exr act now r :
  act_Name act = ResetV2Action →
  planResetV2 configSchemaRaw (conf fd) exr act now = Ok r → planned fd exr act now r.
Proof.
  intros Hn H. unfold planResetV2 in H. apply res_bind_ok_inv in H as (v & Hv & H).
  apply ParseResetV2Params_asks in Hv as (p & Hp & Hv).
  apply res_bind_ok_inv in H as (cur & Hcur & H). injection H as <-.
  apply readConfig_fit in Hcur as Hfit.
  exists (set_ResetOffset v cur), (Resource.Output (res_State (exr_Resource exr))), v.
  unfold steps_of. rewrite Hn, !decide_False by done. split_and!; try done.
  - eapply (fit_keeps cur); try done. apply Hfit.
  - intros _. split; [done|]. exists cur. split_and!; [done..|]. unfold asks_for. rewrite Hn.
    split_and!; try done. intros _. by exists p.
  - by intros [].
Qed.

Lemma gm_get_insert k v (m : gmap string string) : gm_get (Some (<[k := v]> m)) k = v.
Proof. unfold gm_get. change (gm (Some (<[k := v]> m))) with (<[k := v]> m). by rewrite lookup_insert_eq. Qed.

Lemma gm_get_insert_ne k k' v (m : gomap string) :
  k ≠ k' → gm_get (Some (<[k := v]> (gm m))) k' = gm_get m k'.
Proof.
  intros Hk. unfold gm_get. change (gm (Some (<[k := v]> (gm m)))) with (<[k := v]> (gm m)).
  by rewrite lookup_insert_ne.
Qed.

Lemma planReset_planned fd exr act now r :
  act_Name act = ResetAction →
  planReset configSchemaRaw (conf fd) exr act now = Ok r → planned fd exr act now r.
Proof.
  intros Hn H. unfold planReset in H. apply res_bind_ok_inv in H as (v & Hv & H).
  apply ParseResetParams_asks in Hv as (to & Hto & Hv & Hv').
  apply res_bind_ok_inv in H as (cur & Hcur & H). apply readConfig_fit in Hcur as Hfit.
  apply res_bind_ok_inv in H as (env1 & He1 & H). apply res_bind_ok_inv in H as (g & Hg & H).
  apply res_bind_ok_inv in H as (env & He & H). apply res_bind_ok_inv in H as (c & Hc & H).
  injection H as <-. apply map_put_Ok in He1 as ->. apply map_put_Ok in He as ->. pose proof Hg as Hg'.
  apply getNewConsumerGroupID_nonempty in Hg.
  assert (∃ a env, c = set_Autoscaler a (set_EnvVariables env (set_ResetOffset v cur)) ∧
    env = Some (<[confKeyConsumerID := g]>
      (<[SourceKafkaConsumerAutoOffsetReset := v]> (gm (EnvVariables cur))))) as (a & env & -> & ->).
  { cbn in Hc. destruct (cfg_Autoscaler cur) as [a|] eqn:Ha; [destruct (decide _)|].
    - destruct (as_Spec a); [|done]. apply res_bind_ok_inv in Hc as (k1 & _ & [= <-]).
      eexists _, _. split; reflexivity.
    - injection Hc as <-. eexists (Some a), _. split; [|reflexivity]. rewrite <- Ha. reflexivity.
    - injection Hc as <-. eexists None, _. split; [|reflexivity]. rewrite <- Ha. reflexivity. }
  eexists _, (Resource.Output (res_State (exr_Resource exr))), "".
  unfold steps_of. rewrite Hn, decide_False by done. split_and!; try done.
  - destruct Hfit. split; try done.
    cbn [EnvVariables set_Autoscaler set_EnvVariables]. by rewrite gm_get_insert.
  - intros _. split; [done|]. exists cur. split_and!; [done..|]. unfold asks_for. rewrite Hn.
    split_and!; try done. intros _. exists to, v, g. split_and!; try done.
    rewrite <- Hg'. by rewrite gm_get_insert_ne.
  - by intros [].
Qed.

#[local] Arguments dec_strings : simpl never.
#[local] Arguments enc_slice : simpl never.

Lemma readTransient_print r deps steps resetTo :
  ModuleData (res_State r) = MustJSON (enc_transient (mkTransient (Some steps) resetTo)) →
  json_wf (enc_transient (mkTransient (Some steps) resetTo)) = true →
  readTransientData (mkExpanded r deps) = Ok (mkTransient (Some steps) resetTo).
Proof.
  intros HM Hw. unfold readTransientData. cbn [exr_Resource]. rewrite HM. unfold MustJSON.
  rewrite (proj2 (Nat.eqb_neq _ _)) by by apply json_print_nonempty.
  rewrite Unmarshal_print by done.
  pose proof (dec_enc_strings (Some steps)) as Hs.
  assert (dec_transient (enc_transient (mkTransient (Some steps) resetTo)) transient_zero =
    Ok (mkTransient (Some steps) resetTo)) as ->; [|done].
  unfold dec_transient, enc_transient. erewrite dec_record_obj; [|cbn [concat]].
  2:{ erewrite dec_members_mem; [|reflexivity|dec_leaf].
      erewrite (dec_members_omit _ _ _ _ _ _ (Some steps, (resetTo, tt))); [reflexivity..| |].
      - cbn. by intros ->%bool_decide_eq_true.
      - done. }
  done.
Qed.

End plans.
