(* ===== verification/FirehoseSync.v ===== *)
(** * FirehoseSync: what the syncs of a firehose do to the cluster *)

From S2P Require Import Prelude GoLib Errors Resource Module StepMachine Json Names Validator Worker Kube Kubernetes Helm ConsumerReset Charts FirehoseTypes FirehoseConfig Firehose FirehoseProps FirehoseRun PendingSteps.
From Stdlib Require Import Ascii.

#[local] Open Scope Z_scope.

Section release.
Context {GJ : GoJSON} {JS : JSONSchema} {MR : MapRange} {DG : Digests} {TP : Template} {W : Type}
  {VA : VersionAPI W}.
Implicit Types (fd : firehoseDriver W) (c : Config).

(** ** The release *)

(** Rendering a release may write to the environment and the telegraf part of
    the config it is rendered from, and to nothing else. *)
Definition same_run (c c' : Config) : Prop :=
  Stopped c' = Stopped c ∧ StopTime c' = StopTime c ∧ Replicas c' = Replicas c ∧
  Namespace c' = Namespace c ∧ DeploymentID c' = DeploymentID c ∧
  cfg_Autoscaler c' = cfg_Autoscaler c.

(** The labels a release of the config carries. *)
Definition labelled (c : Config) (rc : ReleaseConfig) : Prop :=
  ∃ ls, Values rc !! labelsConfKey = Some (AStrMap ls) ∧
    gm_get ls labelDeployment = DeploymentID c ∧
    gm_get ls labelOrchestrator = orchestratorLabelValue.

Lemma chart_values_labels dc c cv env labels tol ms aff tel :
  ∃ ls, chart_values dc c cv env labels tol ms aff tel !! labelsConfKey = Some (AStrMap ls) ∧
    gm_get ls labelDeployment = DeploymentID c ∧
    gm_get ls labelOrchestrator = orchestratorLabelValue.
Proof.
  eexists. split; [reflexivity|]. unfold gm_get, CloneAndMergeMaps, entropyLabels.
  rewrite !copy_range_spec. unfold gm at 1.
  assert (∀ (m1 m2 : gmap string string) k v, m1 !! k = Some v →
    default "" ((m1 ∪ m2) !! k) = v) as Hk.
  { intros m1 m2 k v Hv. by erewrite lookup_union_Some_l. }
  split; apply Hk; reflexivity.
Qed.

Lemma getHelmRelease_Ok dc r c kubeOut rc c' :
  getHelmRelease dc r c kubeOut = Ok (rc, c') →
  rel_Name rc = DeploymentID c ∧ rel_Namespace rc = Namespace c ∧
  rel_Timeout rc = KubeDeployTimeout dc ∧ labelled c rc ∧
  Values rc !! "replicaCount" = Some (AInt (Replicas c)) ∧ same_run c c' ∧
  (∀ a, cfg_Autoscaler c = Some a → ∃ callee v,
     autoscaler_GetHelmValues a callee = Ok v ∧ Values rc !! "autoscaler" = Some v).
Proof.
  unfold getHelmRelease. intros H.
  apply res_bind_ok_inv in H as (labels & _ & H). apply res_bind_ok_inv in H as (rendered & _ & H).
  apply res_bind_ok_inv in H as (mounted & _ & H). apply res_bind_ok_inv in H as (cv & _ & H).
  apply res_bind_ok_inv in H as (values & Hv & H). injection H as <- <-.
  cbn [rel_Name rel_Namespace rel_Timeout Values].
  assert (labelled c (mkReleaseConfig "" "" "" "" values "" 0 false false false false false "" false) ∧
    values !! "replicaCount" = Some (AInt (Replicas c))) as [Hl Hr].
  { unfold labelled. cbn [Values]. destruct (cfg_Autoscaler c) as [a|].
    - apply res_bind_ok_inv in Hv as (v & _ & [= <-]). rewrite !lookup_insert_ne by done.
      split; [apply chart_values_labels|reflexivity].
    - injection Hv as <-. split; [apply chart_values_labels|reflexivity]. }
  split_and!; try done.
  - unfold same_run. destruct rendered as [[[e t1] t2]|]; done.
  - intros a Ha. rewrite Ha in Hv. apply res_bind_ok_inv in Hv as (v & Hv & [= <-]).
    eexists _, v. split; [exact Hv|]. apply lookup_insert_eq.
Qed.

Lemma releaseSync_Ok fd r create c kubeOut w c' w' :
  releaseSync fd r create c kubeOut w = (Ok c', w') →
  ∃ rc, getHelmRelease (conf fd) r c kubeOut = Ok (rc, c') ∧
    kubeDeploy fd create (out_Configs kubeOut) rc w = (Ok tt, w').
Proof.
  intros H. apply bind_ok_inv in H as ([rc c1] & w1 & Hrel & H).
  apply bind_ok_inv in H as ([] & w2 & Hdep & H). go_inv. by exists rc.
Qed.

(** An autoscaler that is paused at zero replicas. *)
Definition paused_at_zero (a : Autoscaler) (v : any) : Prop :=
  ∃ m km annotations, v = AMap m ∧ m !! as_Type a = Some (AMap km) ∧
    km !! "annotations" = Some (AStrMap annotations) ∧
    gm annotations !! KedaPausedReplicaAnnotationKey = Some "0".

Lemma paused_values c c' a callee v :
  change_autoscaler (keda_Pause (Some 0)) c = Ok c' → cfg_Autoscaler c' = Some a →
  autoscaler_GetHelmValues a callee = Ok v → paused_at_zero a v.
Proof.
  unfold change_autoscaler. destruct (cfg_Autoscaler c) as [a0|] eqn:Ha0.
  2:{ intros [= <-]. by rewrite Ha0. }
  intros H. apply res_bind_ok_inv in H as (k & Hk & [= <-]). intros [= <-].
  unfold keda_Pause in Hk. destruct (as_Spec a0) as [k0|]; [|done]. injection Hk as <-.
  unfold autoscaler_GetHelmValues. intros H. apply res_bind_ok_inv in H as (tv & Ht & [= <-]).
  unfold keda_GetHelmValues in Ht. cbn [as_Spec set_Spec] in Ht.
  apply res_bind_ok_inv in Ht as (ts & _ & [= <-]).
  eexists _, _, _. split; [reflexivity|]. split; [apply lookup_insert_eq|].
  split; [reflexivity|]. cbn. by destruct (Paused k0).
Qed.

(** A release step, as far as the call that deploys: it rendered [rc], for as
    many replicas as the config says, or none when the step is to stop or the
    firehose is stopped, in which case an autoscaler is paused at zero too. *)
Record rendered (c : Config) (step : string) (rc : ReleaseConfig) : Prop := mkRendered {
  rend_name : rel_Name rc = DeploymentID c;
  rend_namespace : rel_Namespace rc = Namespace c;
  rend_labels : labelled c rc;
  rend_replicas : Values rc !! "replicaCount" =
    Some (AInt (if bool_decide (step = stepReleaseStop) || Stopped c then 0 else Replicas c));
  rend_paused : bool_decide (step = stepReleaseStop) || Stopped c = true → cfg_Autoscaler c ≠ None →
    ∃ a v, Values rc !! "autoscaler" = Some v ∧ paused_at_zero a v;
}.

(** It fails before the cluster is called, or calls it once. *)
Lemma release_step_run fd r c kubeOut resetTo step w out w' :
  step ∈ [stepReleaseCreate; stepReleaseUpdate; stepReleaseStop] →
  sync_step fd r c kubeOut resetTo step w = (out, w') →
  (is_ok out = false ∧ w' = w) ∨
  ∃ rc out', rendered c step rc ∧ is_ok out' = is_ok out ∧
    kubeDeploy fd (bool_decide (step = stepReleaseCreate)) (out_Configs kubeOut) rc w = (out', w').
Proof.
  intros Hstep H. unfold sync_step in H. rewrite bool_decide_true in H by done.
  rewrite run_bind, run_lift in H.
  set (stops := bool_decide (step = stepReleaseStop) || Stopped c) in *.
  destruct (if stops then _ else _) as [c1|e|s] eqn:Hc1; [|by injection H as <- <-; left..].
  unfold releaseSync in H. rewrite run_bind, run_bind, run_lift in H.
  destruct (getHelmRelease (conf fd) r c1 kubeOut) as [[rc c2]|e|s] eqn:Hrel;
    [|by injection H as <- <-; left..].
  right. exists rc. apply getHelmRelease_Ok in Hrel as (Hn & Hns & _ & Hl & Hr & _ & Ha).
  assert (DeploymentID c1 = DeploymentID c ∧ Namespace c1 = Namespace c ∧
    Replicas c1 = if stops then 0 else Replicas c) as (E1 & E2 & E3).
  { destruct stops; [|by simplify_eq]. apply change_autoscaler_Ok in Hc1 as ->. done. }
  rewrite run_bind in H. unfold catch in H. cbn [fst] in H.
  destruct (kubeDeploy fd _ (out_Configs kubeOut) rc w) as [out' w1] eqn:Hd.
  exists out'. split; [|split; [by destruct out'; injection H as <- <-|]].
  - split; [congruence|congruence|unfold labelled in *; by rewrite <- E1|fold stops; congruence|].
    fold stops. intros Hs Hne. rewrite Hs in Hc1. destruct (cfg_Autoscaler c1) as [a1|] eqn:Ea.
    + destruct (Ha _ eq_refl) as (callee & v & Hv & Hl1). exists a1, v. split; [done|].
      by eapply paused_values.
    + exfalso. unfold change_autoscaler in Hc1. cbn [cfg_Autoscaler set_run] in Hc1.
      destruct (cfg_Autoscaler c) as [a1|]; [|done].
      by apply res_bind_ok_inv in Hc1 as (k1 & _ & [= <-]).
  - by destruct out'; injection H as _ <-.
Qed.
End release.

(** ** Syncs *)

Section syncs.
Context {GJ : GoJSON} {JS : JSONSchema} {MR : MapRange} {DG : Digests} {TP : Template} {W : Type}
  {VA : VersionAPI W}.
Variable configSchemaRaw : string.
Implicit Types (fd : firehoseDriver W) (exr : ExpandedResource) (c : Config).

(** What a sync reads of a resource before it does anything. *)
Record readable fd exr (output : Output) c (kubeOut : Kubernetes.Output) : Prop := mkReadable {
  rd_output : readOutputData exr = Ok output;
  rd_config : readConfig configSchemaRaw (exr_Resource exr)
                (Configs (res_Spec (exr_Resource exr))) (conf fd) = Ok c;
  rd_kube : read_kubeOut exr = Ok kubeOut;
}.

(** Only the output of the state is read. *)
Lemma readable_after fd exr st output c kubeOut :
  Resource.Output st = Resource.Output (res_State (exr_Resource exr)) →
  readable fd exr output c kubeOut → readable fd (after st exr) output c kubeOut.
Proof.
  intros Ho [H1 H2 H3]. split; [|exact H2|exact H3].
  rewrite <- H1. unfold readOutputData, after. cbn [exr_Resource res_State Resource.set_State].
  by rewrite Ho.
Qed.

Lemma transient_wf steps resetTo :
  Forall (λ s, valid_utf8 s = true) (resetTo :: steps) →
  json_wf (enc_transient (mkTransient (Some steps) resetTo)) = true.
Proof.
  intros [Hr Hs]%Forall_cons. by apply (transient_doc_wf steps).
Qed.

Lemma pending_data exr old steps resetTo t :
  state_of exr = pending old steps resetTo t →
  Forall (λ s, valid_utf8 s = true) (resetTo :: steps) →
  readTransientData exr = Ok (mkTransient (Some steps) resetTo).
Proof.
  intros Hst Hu. destruct exr as [r deps]. apply readTransient_print; [|by apply transient_wf].
  unfold state_of in Hst. cbn [exr_Resource] in Hst. by rewrite Hst.
Qed.

(** A sync with steps pending takes the first. *)
Lemma sync_takes_step fd exr step steps resetTo t0 output c kubeOut w :
  readable fd exr output c kubeOut →
  res_State (exr_Resource exr) =
    pending (Resource.Output (res_State (exr_Resource exr))) (step :: steps) resetTo t0 →
  Forall (λ s, valid_utf8 s = true) (resetTo :: step :: steps) →
  firehose_Sync configSchemaRaw fd exr w =
  (_ ← sync_step fd (exr_Resource exr) c kubeOut resetTo step;
   now ← read_clock fd;
   mret (pending (Resource.Output (res_State (exr_Resource exr))) steps resetTo now)) w.
Proof.
  intros [Ho Hc Hk] Hst Hu. pose proof (pending_data _ _ _ _ _ Hst Hu) as Ht.
  unfold firehose_Sync. rewrite Ht, Ho, Hc, Hk. reflexivity.
Qed.

(** A sync with none left. *)
Lemma sync_finishes fd exr modData output c kubeOut w :
  readable fd exr output c kubeOut →
  readTransientData exr = Ok modData → default [] (PendingSteps modData) = [] →
  firehose_Sync configSchemaRaw fd exr w =
  (now ← match StopTime c with None => mret 0 | Some _ => read_clock fd end;
   let due := is_due (StopTime c) now in
   c' ← (if due then releaseSync fd (exr_Resource exr) false (set_run true (StopTime c) 0 c) kubeOut
         else mret c);
   out ← refreshOutput fd (exr_Resource exr) c' output kubeOut;
   mret (mkState StatusCompleted out None (if due then None else StopTime c') SyncResult_zero)) w.
Proof.
  intros [Ho Hc Hk] Ht Hp. unfold firehose_Sync. rewrite Ht, Ho, Hc, Hk.
  unfold lift, on_err. rewrite !run_bind. by rewrite Hp.
Qed.

(** The last sync of a firehose: a stop time that has passed by now stops it with
    one more release, for no replicas, and asks for no further sync; otherwise
    nothing is released, and a stop time to come is when to sync again. *)
Definition completes fd (res : Resource) c output (kubeOut : Kubernetes.Output) : io W State := λ w,
  if is_due (StopTime c) (timeNow fd w) then
    (c' ← releaseSync fd res false (set_run true (StopTime c) 0 c) kubeOut;
     out ← refreshOutput fd res c' output kubeOut;
     mret (mkState StatusCompleted out None None SyncResult_zero)) w
  else
    (out ← refreshOutput fd res c output kubeOut;
     mret (mkState StatusCompleted out None (StopTime c) SyncResult_zero)) w.


(** A sync with no step left completes the resource and reports what the
    cluster says.  A stop time that has passed stops the firehose first, with
    one upsert for no replicas, and is not due again; one still to come makes
    the next sync due then, and nothing is deployed. *)
Theorem sync_completes fd exr output c kubeOut modData w st w' :
  let res := exr_Resource exr in
  let due := is_due (StopTime c) (timeNow fd w) in
  readable fd exr output c kubeOut →
  readTransientData exr = Ok modData → default [] (PendingSteps modData) = [] →
  firehose_Sync configSchemaRaw fd exr w = (Ok st, w') →
  Status st = StatusCompleted ∧ ModuleData st = None ∧
  NextSyncAt st = (if due then None else StopTime c) ∧
  ∃ w1 rc pods deployment,
    (if due then
       kubeDeploy fd false (out_Configs kubeOut) rc w = (Ok tt, w1) ∧
       rel_Name rc = DeploymentID c ∧ Values rc !! "replicaCount" = Some (AInt 0)
     else w1 = w) ∧
    Resource.Output st = MustJSON (enc_Output (mkOutput pods (Namespace c) (ReleaseName output)
      (Some deployment) (if due || Stopped c then desiredStatusStopped else desiredStatusRunning)
      (match cfg_Autoscaler c with Some a => as_Enabled a | None => false end))).
Proof.
  cbv zeta. intros Hrd Ht Hp H. rewrite (sync_finishes _ _ _ _ _ _ _ Hrd Ht Hp) in H. clear Hp.
  apply bind_ok_inv in H as (now & w0 & Hnow & H).
  assert (w0 = w ∧ is_due (StopTime c) now = is_due (StopTime c) (timeNow fd w)) as [-> Hdue].
  { destruct (StopTime c); unfold read_clock in Hnow; by injection Hnow as <- <-. }
  rewrite Hdue in H. set (due := is_due (StopTime c) (timeNow fd w)) in *.
  apply bind_ok_inv in H as (c1 & w1 & Hc1 & H). apply bind_ok_inv in H as (out & w2 & Hout & H).
  injection H as <- <-. cbn [Status ModuleData NextSyncAt Resource.Output].
  apply bind_ok_inv in Hout as ([rc2 c2] & w3 & Hrel2 & Hout). injection Hrel2 as Hrel2 <-.
  apply bind_ok_inv in Hout as (pods & w4 & _ & Hout).
  apply bind_ok_inv in Hout as (deployment & w5 & _ & Hout). injection Hout as <- _.
  assert (∃ rc, (if due then
       kubeDeploy fd false (out_Configs kubeOut) rc w = (Ok tt, w1) ∧
       rel_Name rc = DeploymentID c ∧ Values rc !! "replicaCount" = Some (AInt 0)
     else w1 = w ∧ c1 = c) ∧ Namespace c1 = Namespace c ∧ Stopped c1 = due || Stopped c ∧
     cfg_Autoscaler c1 = cfg_Autoscaler c) as (rc & Hrc & En & Es & Ea).
  { destruct due.
    - apply releaseSync_Ok in Hc1 as (rc & Hrel & Hd).
      apply getHelmRelease_Ok in Hrel as (Hn & _ & _ & _ & Hr & (Es & _ & _ & En & _ & Ea) & _).
      by exists rc.
    - injection Hc1 as <- <-. by exists rc2. }
  split_and!; [done..|by destruct due as [|]; [|destruct Hrc as [_ ->]]|].
  exists w1, rc, pods, deployment. split; [by destruct due; [|destruct Hrc]|].
  unfold desiredStatus. by rewrite En, Es, Ea.
Qed.
End syncs.
