(* ===== verification/FirehoseModule.v ===== *)
(** * FirehoseModule: the driver as [module.go] makes it, against the cluster *)

From S2P Require Import Prelude GoLib Errors Resource Module Json Names Validator Worker Kube Kubernetes Helm ConsumerReset Charts FirehoseTypes FirehoseConfig Firehose FirehoseProps FirehoseRun FirehoseSync.
From Stdlib Require Import Ascii.

#[local] Open Scope Z_scope.

(** ** Deploying *)

Section deploy.
Context {GJ : GoJSON} {JS : JSONSchema} {MR : MapRange} {DG : Digests} {TP : Template} {W : Type}
  {KA : KubeAPI W} {VA : VersionAPI W} {HA : HelmAPI W}.

(** What the labels of a stored release must say. *)
Definition owned_by (c : Config) (rel : release) : Prop :=
  ∃ labels, release_Config rel !! labelsConfKey = Some (AMap labels) ∧
    labels !! labelOrchestrator = Some (AStr orchestratorLabelValue) ∧
    labels !! labelDeployment = Some (AStr (DeploymentID c)).

Lemma canUpdate_owned c rc rel : labelled c rc → canUpdate rc rel = true ↔ owned_by c rel.
Proof.
  intros (ls & Hls & Hd & _). unfold canUpdate, owned_by. rewrite Hls, Hd.
  destruct (release_Config rel !! labelsConfKey) as [[| | | | | | | |m]|]; try naive_solver.
  rewrite andb_true_iff. split.
  - intros [H1 H2]. exists m. split; [done|]. revert H1 H2.
    destruct (m !! labelOrchestrator) as [[| | | |s| | | |]|]; try done.
    destruct (m !! labelDeployment) as [[| | | |s'| | | |]|]; try done.
    rewrite !bool_decide_eq_true. by intros -> ->.
  - intros (m' & [= <-] & -> & ->). by rewrite !bool_decide_true.
Qed.

Lemma kube_deploy_upserted c rc kubeConf create w out w' :
  labelled c rc → kube_deploy create kubeConf rc w = (out, w') →
  upserted kubeConf rc (owned_by c) w (is_ok out) w'.
Proof.
  intros Hl H. unfold kube_deploy in H. rewrite run_bind in H.
  destruct (Upsert kubeConf rc (canUpdate rc) w) as [o w1] eqn:Hu.
  apply (Upsert_upserted _ _ _ (owned_by c)) in Hu; [|intros rel; by apply canUpdate_owned].
  by destruct o; injection H as <- <-.
Qed.

(** C25. A release step of the module's driver that succeeds is one upsert of
    the release named and placed by the config, for as many replicas as the
    config says, or none when the step is to stop or the firehose is stopped, in
    which case an autoscaler is paused at zero too.  The upsert may only touch a
    release that has labels, which say that it is this deployment and made by
    entropy - one without labels never - and these are the labels it carries
    itself. *)
Theorem release_step_correct fd r c kubeOut resetTo step w w' :
  kubeDeploy fd = kube_deploy →
  step ∈ [stepReleaseCreate; stepReleaseUpdate; stepReleaseStop] →
  sync_step fd r c kubeOut resetTo step w = (Ok tt, w') →
  let stops := bool_decide (step = stepReleaseStop) || Stopped c in
  ∃ rc rel,
    Upsert (out_Configs kubeOut) rc (canUpdate rc) w = (Ok rel, w') ∧
    rel_Name rc = DeploymentID c ∧ rel_Namespace rc = Namespace c ∧
    Values rc !! "replicaCount" = Some (AInt (if stops then 0 else Replicas c)) ∧
    (stops = true → cfg_Autoscaler c ≠ None →
       ∃ a v, Values rc !! "autoscaler" = Some v ∧ paused_at_zero a v) ∧
    (∃ ls, Values rc !! "labels" = Some (AStrMap ls) ∧
       gm_get ls "deployment" = DeploymentID c ∧ gm_get ls "orchestrator" = "entropy") ∧
    ∀ found, canUpdate rc found = true ↔
      ∃ labels, release_Config found !! "labels" = Some (AMap labels) ∧
        labels !! "orchestrator" = Some (AStr "entropy") ∧
        labels !! "deployment" = Some (AStr (DeploymentID c)).
Proof.
  intros Hfd Hstep H. destruct (release_step_run _ _ _ _ _ _ _ _ _ Hstep H)
    as [[? _]|(rc & out' & [Hn Hns Hl Hr Hp] & Hok & Hd)]; [done|].
  rewrite Hfd in Hd. unfold kube_deploy in Hd. rewrite run_bind in Hd.
  destruct (Upsert (out_Configs kubeOut) rc (canUpdate rc) w) as [[rel|e|s] w1] eqn:Hu;
    injection Hd as <- <-; try discriminate.
  exists rc, rel. split_and!; [done..|]. intros found. by apply canUpdate_owned.
Qed.

(** C15. A release step of the module's driver touches only its own release.  It
    either fails before the cluster is called, or makes one upsert of a release
    that carries the config's name, namespace and labels: it installs it when the
    lookup said that there is none of that name; upgrades the one that it found
    when that is this deployment's own, made by entropy; leaves someone else's
    release of the name as it is and fails; and fails with nothing called when
    the lookup failed for another reason.  The step succeeds when the install or
    the upgrade does. *)
Theorem deploys_only_its_own fd r c kubeOut resetTo step w out w' :
  kubeDeploy fd = kube_deploy →
  step ∈ [stepReleaseCreate; stepReleaseUpdate; stepReleaseStop] →
  sync_step fd r c kubeOut resetTo step w = (out, w') →
  (is_ok out = false ∧ w' = w) ∨
  ∃ rc, labelled c rc ∧ rel_Name rc = DeploymentID c ∧ rel_Namespace rc = Namespace c ∧
    upserted (out_Configs kubeOut) rc (owned_by c) w (is_ok out) w'.
Proof.
  intros Hfd Hstep H. destruct (release_step_run _ _ _ _ _ _ _ _ _ Hstep H)
    as [?|(rc & out' & [Hn Hns Hl Hr Hp] & <- & Hd)]; [by left|right].
  exists rc. split_and!; [done..|]. rewrite Hfd in Hd. by eapply kube_deploy_upserted.
Qed.
End deploy.

(** ** Resetting offsets *)

Section reset.
Context {W : Type} {KA : KubeAPI W} {VA : VersionAPI W}.
Variables (polls : nat) (ctx_ends_within : Duration → io W bool).

(** The command that moves a consumer group, on all its topics. *)
Definition reset_command (brokers group resetTo : string) : list string :=
  ["kafka-consumer-groups.sh"; "--bootstrap-server"; brokers; "--group"; group;
   "--reset-offsets"; "--execute"; "--all-topics"] ++
  (if decide (resetTo = "latest") then ["--to-latest"]
   else if decide (resetTo = "earliest") then ["--to-earliest"]
   else ["--to-datetime"; resetTo]).

(** The job that resets the offsets of a config's consumer group. *)
Definition reset_job (c : Config) (resetTo : string) : job_spec :=
  mkJobSpec (TrimSuffix (DeploymentID c) "-firehose" +:+ "-reset") (Namespace c)
    defaultTTLSecondsAfterFinished "bitnami/kafka:2.0.0"
    (reset_command (gm_get (EnvVariables c) "SOURCE_KAFKA_BROKERS")
       (gm_get (EnvVariables c) "SOURCE_KAFKA_CONSUMER_GROUP_ID") resetTo)
    "Never" 6.

Lemma polled_err rc ns name n w r w' :
  polled rc ns name n w r w' →
  ∀ e, r = Err e → (∃ err, e = caused ErrJobNotFound err) ∨
    (∃ status, e = EErr (WithCausef ErrJobExecutionFailed status)).
Proof.
  induction 1 as [w s w' _ _|w err w' _|w msg w' _|w s w1 n r w' _ _ _ IH]; intros e He.
  - unfold verdict in He. destruct (0 <? Succeeded s); simplify_eq. right. eauto.
  - simplify_eq. left. eauto.
  - done.
  - by apply IH.
Qed.

(** The delays, by the category of the error. *)
Lemma reset_error_code e :
  reset_error (EErr e) =
  if bool_decide (Code e = Code ErrInternal) then WithCause (5 * Second) (EErr e)
  else if bool_decide (Code e = Code ErrNotFound) then WithCause (30 * Second) (EErr e)
  else EErr e.
Proof.
  unfold reset_error. rewrite !errors_Is_code. cbn [Code ErrJobCreationFailed ErrJobNotFound
    ErrJobExecutionFailed WithMsgf].
  destruct (bool_decide (Code e = Code ErrInternal)) eqn:Hi; [done|].
  by destruct (bool_decide (Code e = Code ErrNotFound)).
Qed.

(** A reset, event by event. *)
Inductive reset_run (c : Config) (out : Kubernetes.Output) (resetTo : string) (delay : Z) (w : W) :
    go () → W → Prop :=
  | rr_no_client e w1 :
      NewClient (out_Configs out) w = (Err e, w1) → reset_run c out resetTo delay w (Err e) w1
  | rr_no_delay cl w1 e w2 :
      NewClient (out_Configs out) w = (Ok cl, w1) →
      ctx_ends_within (wrap64 (delay * Second)) w1 = (Err e, w2) →
      reset_run c out resetTo delay w (Err e) w2
  (** the wait for the consumers to go is cut short *)
  | rr_cut_short cl w1 w2 :
      NewClient (out_Configs out) w = (Ok cl, w1) →
      ctx_ends_within (wrap64 (delay * Second)) w1 = (Ok true, w2) →
      reset_run c out resetTo delay w
        (Err (WithCause (30 * Second) (ENew "context cancelled while reset"))) w2
  (** the job is not created *)
  | rr_no_set cl w1 w2 err :
      NewClient (out_Configs out) w = (Ok cl, w1) →
      ctx_ends_within (wrap64 (delay * Second)) w1 = (Ok false, w2) →
      NewForConfig (restConfig cl) = Err err →
      reset_run c out resetTo delay w (Err (WithCause (5 * Second) (caused ErrJobCreationFailed err))) w2
  | rr_not_created cl w1 w2 err w3 :
      NewClient (out_Configs out) w = (Ok cl, w1) →
      ctx_ends_within (wrap64 (delay * Second)) w1 = (Ok false, w2) →
      jobs_Create (restConfig cl) (reset_job c resetTo) w2 = (Err err, w3) →
      reset_run c out resetTo delay w (Err (WithCause (5 * Second) (caused ErrJobCreationFailed err))) w3
  (** it is created, and polled until it has gone, has failed or has succeeded *)
  | rr_gone cl w1 w2 w3 n err w4 :
      NewClient (out_Configs out) w = (Ok cl, w1) →
      ctx_ends_within (wrap64 (delay * Second)) w1 = (Ok false, w2) →
      jobs_Create (restConfig cl) (reset_job c resetTo) w2 = (Ok tt, w3) →
      polled (restConfig cl) (Namespace c) (js_Name (reset_job c resetTo)) n w3
        (Err (caused ErrJobNotFound err)) w4 →
      reset_run c out resetTo delay w (Err (WithCause (30 * Second) (caused ErrJobNotFound err))) w4
  | rr_failed cl w1 w2 w3 n status w4 :
      NewClient (out_Configs out) w = (Ok cl, w1) →
      ctx_ends_within (wrap64 (delay * Second)) w1 = (Ok false, w2) →
      jobs_Create (restConfig cl) (reset_job c resetTo) w2 = (Ok tt, w3) →
      polled (restConfig cl) (Namespace c) (js_Name (reset_job c resetTo)) n w3
        (Err (EErr (WithCausef ErrJobExecutionFailed status))) w4 →
      reset_run c out resetTo delay w
        (Err (WithCause (5 * Second) (EErr (WithCausef ErrJobExecutionFailed status)))) w4
  | rr_succeeded cl w1 w2 w3 n w4 :
      NewClient (out_Configs out) w = (Ok cl, w1) →
      ctx_ends_within (wrap64 (delay * Second)) w1 = (Ok false, w2) →
      jobs_Create (restConfig cl) (reset_job c resetTo) w2 = (Ok tt, w3) →
      polled (restConfig cl) (Namespace c) (js_Name (reset_job c resetTo)) n w3 (Ok tt) w4 →
      reset_run c out resetTo delay w (Ok tt) w4.

(** C26. Resetting offsets, unless it panics, waits for the consumers to go,
    creates one job that runs Kafka's tool, with --execute, on all topics of the
    config's consumer group on the config's brokers, and succeeds only when a poll
    of the job finds that it succeeded.  What goes wrong once there is a client is
    to be tried again after a delay that tells what it was: 30 seconds when the
    wait was cut short, or when a poll cannot read the job any more; 5 when the
    job was not created, or when it ran and failed.  (The model's wait may also
    fail with an error, which is passed on; Go's cannot.) *)
Theorem consumer_reset_correct c out resetTo delay w r w' :
  consumer_reset polls ctx_ends_within c out resetTo delay w = (r, w') → is_panic r = false →
  reset_run c out resetTo delay w r w'.
Proof.
  unfold consumer_reset. rewrite run_bind.
  destruct (NewClient (out_Configs out) w) as [[cl|err|s] w1] eqn:Hcl;
    [|intros [= <- <-] _; by apply rr_no_client|by intros [= <- <-]].
  rewrite run_bind.
  destruct (ctx_ends_within (wrap64 (delay * Second)) w1) as [[[]|err|s] w2] eqn:Hctx.
  - intros [= <- <-] _. by eapply rr_cut_short.
  - assert (∀ err, reset_error (caused ErrJobCreationFailed err) =
      WithCause (5 * Second) (caused ErrJobCreationFailed err)) as H5
      by (intros err; exact (reset_error_code _)).
    unfold catch, DoReset, RunJob. rewrite run_bind.
    destruct (NewForConfig (restConfig cl)) as [u|err|s] eqn:Hset;
      [|intros [= <- <-] _; rewrite H5; by eapply rr_no_set|by intros [= <- <-]].
    cbn [on_err]. rewrite run_lift, run_bind. unfold catch.
    change (mkJobSpec _ _ _ _ _ _ _) with (reset_job c resetTo).
    destruct (jobs_Create (restConfig cl) (reset_job c resetTo) w2) as [[[]|err|s] w3] eqn:Hjob;
      [|intros [= <- <-] _; rewrite H5; by eapply rr_not_created|by intros [= <- <-]].
    destruct (waitForJob _ _ _ _ w3) as [r0 w4] eqn:Hwait.
    destruct r0 as [[]|e|s]; intros [= <- <-]; [intros _| |done];
      (apply waitForJob_complete in Hwait as (n & _ & Hn); [|done]).
    + by eapply rr_succeeded.
    + intros _. destruct (polled_err _ _ _ _ _ _ _ Hn e eq_refl) as [[err ->]|[status ->]].
      * assert (reset_error (caused ErrJobNotFound err) =
          WithCause (30 * Second) (caused ErrJobNotFound err)) as -> by exact (reset_error_code _).
        by eapply rr_gone.
      * assert (∀ e, Code e = Code ErrInternal → reset_error (EErr e) = WithCause (5 * Second) (EErr e))
          as -> by (intros e' He; rewrite reset_error_code, He; by rewrite bool_decide_true);
          [by eapply rr_failed|done].
  - intros [= <- <-] _. by eapply rr_no_delay.
  - by intros [= <- <-].
Qed.
End reset.

(** ** The factory *)

Section factory.
Context {GJ : GoJSON} {JS : JSONSchema} {MR : MapRange} {DG : Digests} {TP : Template} {W : Type}
  {KA : KubeAPI W} {VA : VersionAPI W} {HA : HelmAPI W} {TV : TagValidator driverConf}.
Variables (time_Now : W → Time) (polls : nat) (ctx_ends_within : Duration → io W bool).

Abbreviation factory := (firehose_factory time_Now polls ctx_ends_within) (only parsing).

(** The driver configs are decoded into the package's default maps, which
    every module shares: a module that names nothing gets the namespaces and the
    resources that the modules before it put there. *)
Theorem default_maps_are_shared g conf1 conf2 fd1 g1 fd2 g2 :
  factory g conf1 = (Ok fd1, g1) → json_parse (raw_bytes conf2) = Ok (JObj []) →
  factory g1 conf2 = (Ok fd2, g2) →
  (∀ m, dc_Namespace (conf fd1) = Some m → dc_Namespace (conf fd2) = Some m) ∧
  (∀ m, dc_RequestsAndLimits (conf fd1) = Some m → dc_RequestsAndLimits (conf fd2) = Some m).
Proof.
  unfold firehose_factory. intros H1 Hp H2.
  destruct (Unmarshal dec_driverConf conf1 (default_conf g)) as [c1|e|s]; [|done..].
  injection H1 as H1 <-. apply res_bind_ok_inv in H1 as (u & _ & [= <-]).
  assert (∀ g', Unmarshal dec_driverConf conf2 (default_conf g') = Ok (default_conf g')) as Hd.
  { intros g'. unfold Unmarshal. rewrite Hp. reflexivity. }
  rewrite Hd in H2. injection H2 as H2 _. apply res_bind_ok_inv in H2 as (u2 & _ & [= <-]).
  cbn. by split; intros m ->.
Qed.
End factory.
