(* ===== verification/KubeJob.v ===== *)
(** * KubeJob: [pkg/kube/job], [pkg/kube/container], [pkg/kube/volume] and the
    templates of [pkg/kube/pod]

    From the program's jobs to the objects of the Kubernetes API, and the
    processor that submits, suspends, watches and deletes them.  The batch
    client and the parser of quantities are the parameter [BatchAPI]. *)

From S2P Require Import Prelude GoLib Errors Json Kube.

#[local] Open Scope Z_scope.

(** ** The program's structs *)

(** [volume.Source]. *)
Definition Secret : Z := 0.
Definition ConfigMap : Z := 1.

Record Volume := mkVolume { vol_Kind : Z; vol_Name : string; SourceName : string }.

Record VolumeMount := mkMount { vm_Name : string; MountPath : string }.

Record Container := mkContainer {
  ct_Image : string;
  ct_Name : string;
  ct_EnvConfigMaps : option (list string);
  ct_Command : option (list string);
  EnvMap : gomap string;
  ct_Args : option (list string);
  ct_ImagePullPolicy : string;
  VolumeMounts : list VolumeMount;
  ct_Requests : gomap string;
  ct_Limits : gomap string;
  ct_PreStopCmd : option (list string);
  ct_PostStartCmd : option (list string);
}.

(** [pod.Pod]. *)
Record PodSpec := mkPodSpec {
  pod_spec_Name : string;
  Containers : list Container;
  Volumes : list Volume;
  pod_Labels : gomap string;
  pod_Tolerations : list Toleration;
  pod_Affinity : option NodeAffinityMatchExpressions;
}.

Record Job := mkJob {
  job_Pod : option PodSpec;
  job_Name : string;
  job_Namespace : string;
  job_Labels : gomap string;
  Parallelism : option Z;
  BackOffList : option Z;
  job_TTLSeconds : option Z;
}.

(** ** The API's objects: the fields the code sets *)

Record EnvVar := mkEnvVar { ev_Name : string; ev_Value : string }.

Inductive VolumeSource :=
  | SecretSource (name : string)
  | ConfigMapSource (name : string)
  | EmptyDir
  | NoSource.

Record v1_Volume := mkV1Volume { v1v_Name : string; v1v_Source : VolumeSource }.

Record Lifecycle := mkLifecycle {
  PreStop : option (list string);
  PostStart : option (list string);
}.

Record NodeSelectorRequirement := mkRequirement {
  nsr_Key : string;
  nsr_Operator : string;
  nsr_Values : option (list string);
}.

Record PreferredSchedulingTerm := mkPreferredTerm {
  pst_Weight : Z;
  pst_Preference : list NodeSelectorRequirement;
}.

(** The required node selector is its list of terms. *)
Record NodeAffinity := mkNodeAffinity {
  na_Required : list (list NodeSelectorRequirement);
  na_Preferred : list PreferredSchedulingTerm;
}.

Record v1_Toleration := mkV1Toleration {
  v1t_Key : string;
  v1t_Value : string;
  v1t_Effect : string;
  v1t_Operator : string;
}.

Record ResourceRequirements (Q : Type) := mkRequirements {
  rr_Limits : gmap string Q;
  rr_Requests : gmap string Q;
}.
Arguments mkRequirements {Q}.
Arguments rr_Limits {Q}.
Arguments rr_Requests {Q}.

Record v1_Container (Q : Type) := mkV1Container {
  c_Name : string;
  c_Image : string;
  c_Command : option (list string);
  c_Args : option (list string);
  c_EnvFrom : list string;
  c_Env : list EnvVar;
  c_Resources : ResourceRequirements Q;
  c_VolumeMounts : list VolumeMount;
  c_Lifecycle : Lifecycle;
  c_ImagePullPolicy : string;
}.
Arguments mkV1Container {Q}.
Arguments c_Name {Q}.
Arguments c_Image {Q}.
Arguments c_Command {Q}.
Arguments c_Args {Q}.
Arguments c_EnvFrom {Q}.
Arguments c_Env {Q}.
Arguments c_Resources {Q}.
Arguments c_VolumeMounts {Q}.
Arguments c_Lifecycle {Q}.
Arguments c_ImagePullPolicy {Q}.

Record PodTemplateSpec (Q : Type) := mkPodTemplate {
  pt_Name : string;
  pt_Labels : gomap string;
  pt_Tolerations : list v1_Toleration;
  pt_Affinity : option NodeAffinity;
  pt_Containers : list (v1_Container Q);
  pt_Volumes : list v1_Volume;
  pt_RestartPolicy : string;
}.
Arguments mkPodTemplate {Q}.
Arguments pt_Name {Q}.
Arguments pt_Labels {Q}.
Arguments pt_Tolerations {Q}.
Arguments pt_Affinity {Q}.
Arguments pt_Containers {Q}.
Arguments pt_Volumes {Q}.
Arguments pt_RestartPolicy {Q}.

Record job_template (Q : Type) := mkJobTemplate {
  jt_Name : string;
  jt_Labels : gomap string;
  jt_Namespace : string;
  jt_Template : PodTemplateSpec Q;
  jt_Parallelism : option Z;
  jt_BackoffLimit : option Z;
  jt_TTLSecondsAfterFinished : option Z;
}.
Arguments mkJobTemplate {Q}.
Arguments jt_Name {Q}.
Arguments jt_Labels {Q}.
Arguments jt_Namespace {Q}.
Arguments jt_Template {Q}.
Arguments jt_Parallelism {Q}.
Arguments jt_BackoffLimit {Q}.
Arguments jt_TTLSecondsAfterFinished {Q}.

(** The counts of a job's status; [Ready] is a pointer. *)
Record v1_JobStatus := mkV1JobStatus {
  v1s_Ready : option Z;
  v1s_Active : Z;
  v1s_Succeeded : Z;
}.

(** client-go's batch client for one namespace, and [resource.ParseQuantity].
    A [batch/v1] job has more fields than the code sets. *)
Class BatchAPI (W : Type) : Type := {
  Quantity : Type;
  Quantity_zero : Quantity;
  ParseQuantity : string → error + Quantity;
  v1_Job : Type;
  job_of : job_template Quantity → v1_Job;
  set_Suspend : bool → v1_Job → v1_Job;
  v1_Status : v1_Job → v1_JobStatus;
  watch_Interface : Type;
  batch_Create : rest_Config → string → v1_Job → io W ();
  batch_Get : rest_Config → string → string → io W v1_Job;
  batch_Update : rest_Config → string → v1_Job → io W ();
  batch_Delete : rest_Config → string → string → string → io W ();
  batch_Watch : rest_Config → string → Z → string → io W watch_Interface;
  (** reads the watch's channel until it is closed *)
  watch_drain : watch_Interface → io W ();
}.

(** ** Templates *)

Definition GetPodVolume (v : Volume) : v1_Volume :=
  mkV1Volume (vol_Name v)
    (if vol_Kind v =? Secret then SecretSource (SourceName v)
     else if vol_Kind v =? ConfigMap then ConfigMapSource (SourceName v)
     else NoSource).

Definition Toleration_ToCoreV1 (t : Toleration) : v1_Toleration :=
  mkV1Toleration (tol_Key t) (tol_Value t) (tol_Effect t) (tol_Operator t).

Definition requirements (prefs : option (list Preference)) : list NodeSelectorRequirement :=
  (λ p, mkRequirement (pref_Key p) (pref_Operator p) (pref_Values p)) <$> default [] prefs.

Definition Affinity_ToCoreV1 (na : NodeAffinityMatchExpressions) : NodeAffinity :=
  mkNodeAffinity
    (if no_list (RequiredDuringScheduling na) then [] else [requirements (RequiredDuringScheduling na)])
    ((λ wp, mkPreferredTerm (wrap32 (wp_Weight wp)) (requirements (wp_Preference wp)))
       <$> default [] (PreferredDuringScheduling na)).

Definition sharedData : string := "shared-data".

Section templates.
Context {W : Type} {BA : BatchAPI W} {MR : MapRange}.

(** A quantity that does not parse is logged and stays zero. *)
Definition quantity (s : string) : Quantity :=
  match ParseQuantity s with inr q => q | inl _ => Quantity_zero end.

Definition parseResources (c : Container) : ResourceRequirements Quantity :=
  let amounts m := list_to_map [("cpu", quantity (gm_get m "cpu"));
                                ("memory", quantity (gm_get m "memory"))] in
  mkRequirements (amounts (ct_Limits c)) (amounts (ct_Requests c)).

Definition handler (cmd : option (list string)) : option (list string) :=
  if no_list cmd then None else cmd.

Definition container_Template (c : Container) : v1_Container Quantity :=
  mkV1Container (ct_Name c) (ct_Image c) (ct_Command c) (ct_Args c)
    (default [] (ct_EnvConfigMaps c))
    ((λ kv, mkEnvVar kv.1 kv.2) <$> range (gm (EnvMap c)))
    (parseResources c)
    (VolumeMounts c ++ [mkMount sharedData "/shared"])
    (mkLifecycle (handler (ct_PreStopCmd c)) (handler (ct_PostStartCmd c)))
    (ct_ImagePullPolicy c).

Definition pod_Template (p : PodSpec) : PodTemplateSpec Quantity :=
  mkPodTemplate (pod_spec_Name p) (pod_Labels p)
    (Toleration_ToCoreV1 <$> pod_Tolerations p)
    (Affinity_ToCoreV1 <$> pod_Affinity p)
    (container_Template <$> Containers p)
    ((GetPodVolume <$> Volumes p) ++ [mkV1Volume sharedData EmptyDir])
    "Never".

(** The pod is a pointer. *)
Definition job_Template (j : Job) : go (job_template Quantity) :=
  match job_Pod j with
  | None => Panic "nil pointer dereference"
  | Some p =>
      Ok (mkJobTemplate (job_Name j) (job_Labels j) (job_Namespace j) (pod_Template p)
            (Parallelism j) (BackOffList j) (job_TTLSeconds j))
  end.
End templates.

(** ** [processor.go] *)

Definition WatchTimeout : Z := 60.

(** The timeout and the label selector. *)
Definition WatchOptions (j : Job) : Z * string := (WatchTimeout, Join ["name"; job_Name j] "=").

(** [StatusType]. *)
Definition Invalid : Z := 0.
Definition Success : Z := 1.
Definition Failed : Z := 2.
Definition Running : Z := 3.
Definition Ready : Z := 4.
Definition Finished : Z := 5.

Record Status := mkStatus { st_Status : Z; st_Err : option error }.

Definition deletionPolicy : string := "Foreground".

Section processor.
Context {W : Type} {KA : KubeAPI W} {BA : BatchAPI W} {MR : MapRange}.

(** The client is that of the job's namespace. *)
Record Processor := mkProcessor {
  jp_Job : Job;
  jp_Client : rest_Config;
  jp_watch : option watch_Interface;
}.

(** [Client.GetJobProcessor] with [NewProcessor]. *)
Definition GetJobProcessor (c : Client) (j : Job) : go Processor :=
  _ ← NewForConfig (restConfig c);
  Ok (mkProcessor j (restConfig c) None).

Definition SubmitJob (jp : Processor) : io W () :=
  t ← lift (job_Template (jp_Job jp));
  batch_Create (jp_Client jp) (job_Namespace (jp_Job jp)) (job_of t).

Definition UpdateJob (jp : Processor) (suspend : bool) : io W () :=
  let ns := job_Namespace (jp_Job jp) in
  job ← batch_Get (jp_Client jp) ns (job_Name (jp_Job jp));
  batch_Update (jp_Client jp) ns (set_Suspend suspend job).

Definition DeleteJob (jp : Processor) : io W () :=
  batch_Delete (jp_Client jp) (job_Namespace (jp_Job jp)) (job_Name (jp_Job jp)) deletionPolicy.

(** The watch is kept whatever the call returned. *)
Definition CreateWatch (jp : Processor) : io W (option error * Processor) :=
  let opts := WatchOptions (jp_Job jp) in
  out ← attempt (batch_Watch (jp_Client jp) (job_Namespace (jp_Job jp)) opts.1 opts.2);
  match out with
  | inr watch => mret (None, mkProcessor (jp_Job jp) (jp_Client jp) (Some watch))
  | inl err => mret (Some err, mkProcessor (jp_Job jp) (jp_Client jp) None)
  end.

(** What is sent on the exit channel. *)
Definition WatchCompletion (jp : Processor) : io W Status :=
  match jp_watch jp with
  | None => mret (mkStatus Invalid (Some (ENew "watcher Object is not initialized")))
  | Some watch => _ ← watch_drain watch; mret (mkStatus Finished None)
  end.

Definition GetStatus (jp : Processor) : io W Status :=
  out ← attempt (batch_Get (jp_Client jp) (job_Namespace (jp_Job jp)) (job_Name (jp_Job jp)));
  match out with
  | inl err => mret (mkStatus Invalid (Some err))
  | inr job =>
      let s := v1_Status job in
      match v1s_Ready s with
      | None => panic "nil pointer dereference"
      | Some ready =>
          mret (mkStatus
            (if 1 <=? ready then Ready
             else if 1 <=? v1s_Active s then Running
             else if 1 <=? v1s_Succeeded s then Success
             else Failed) None)
      end
  end.
End processor.
