(* ===== verification/JobConfig.v ===== *)
(** * JobConfig: [modules/job/config] *)

From S2P Require Import Prelude GoLib Errors Resource Module Json Names Validator Kube.
From Stdlib Require Import Ascii.

#[local] Open Scope Z_scope.

Definition maxJobNameLength : Z := 53.
Definition Default : string := "default".
Definition defaultTTLSecondsAfterFinished : Z := 172800.

Record UsageSpec := mkUsage { CPU : string; Memory : string }.
Record RequestsAndLimits := mkRL { rl_Limits : UsageSpec; rl_Requests : UsageSpec }.

Record DriverConf := mkDriverConf {
  dc_Namespace : string;
  dc_RequestsAndLimits : gomap RequestsAndLimits;
  dc_EnvVariables : gomap string;
}.

Record Volume := mkVolume { vol_Name : string; vol_Kind : string }.

(** [Secret] and [ConfigMap] have the same fields. *)
Record Mounted := mkMounted { mt_Name : string; Mount : string }.

Record Container := mkContainer {
  c_Name : string;
  c_Image : string;
  c_ImagePullPolicy : string;
  c_Command : option (list string);
  c_Args : option (list string);
  SecretsVolumes : option (list Mounted);
  ConfigMapsVolumes : option (list Mounted);
  c_Limits : UsageSpec;
  c_Requests : UsageSpec;
  c_EnvConfigMaps : option (list string);
  c_EnvVariables : gomap string;
  c_PreStopCmd : option (list string);
  c_PostStartCmd : option (list string);
}.

Record Config := mkConfig {
  Replicas : Z;
  Namespace : string;
  Name : string;
  Containers : option (list Container);
  JobLabels : gomap string;
  Volumes : option (list Volume);
  TTLSeconds : option Z;
}.

Definition Usage_zero : UsageSpec := mkUsage "" "".
Definition RL_zero : RequestsAndLimits := mkRL Usage_zero Usage_zero.
Definition Mounted_zero : Mounted := mkMounted "" "".
Definition Volume_zero : Volume := mkVolume "" "".
Definition Container_zero : Container :=
  mkContainer "" "" "" None None None None Usage_zero Usage_zero None None None None.
Definition Config_zero : Config := mkConfig 0 "" "" None None None None.

Section codecs.
Context {GJ : GoJSON}.

Definition dec_UsageSpec : dec UsageSpec :=
  dec_record "config.UsageSpec" (λ u, (CPU u, (Memory u, tt))) (λ '(c, (m, tt)), mkUsage c m)
    [f ("cpu", dec_string); ("memory", dec_string)].
Definition enc_UsageSpec (u : UsageSpec) : json :=
  obj [omit (no_str (CPU u)) "cpu" (JStr (CPU u)); omit (no_str (Memory u)) "memory" (JStr (Memory u))].

Definition dec_RL : dec RequestsAndLimits :=
  dec_record "config.RequestsAndLimits" (λ r, (rl_Limits r, (rl_Requests r, tt)))
    (λ '(l, (r, tt)), mkRL l r) [f ("limits", dec_UsageSpec); ("requests", dec_UsageSpec)].

Definition dec_DriverConf : dec DriverConf :=
  dec_record "config.DriverConf"
    (λ c, (dc_Namespace c, (dc_RequestsAndLimits c, (dc_EnvVariables c, tt))))
    (λ '(n, (r, (e, tt))), mkDriverConf n r e)
    [f ("namespace", dec_string); ("requestsAndLimits", dec_map RL_zero dec_RL);
       ("env_variables", dec_str_map)].

Definition dec_Mounted : dec Mounted :=
  dec_record "config.Secret" (λ m, (mt_Name m, (Mount m, tt))) (λ '(n, (m, tt)), mkMounted n m)
    [f ("name", dec_string); ("mount", dec_string)].
Definition enc_Mounted (m : Mounted) : json :=
  obj [mem "name" (JStr (mt_Name m)); mem "mount" (JStr (Mount m))].

Definition dec_Volume : dec Volume :=
  dec_record "config.Volume" (λ v, (vol_Name v, (vol_Kind v, tt))) (λ '(n, (k, tt)), mkVolume n k)
    [f ("Name", dec_string); ("Kind", dec_string)].
Definition enc_Volume (v : Volume) : json :=
  obj [mem "Name" (JStr (vol_Name v)); mem "Kind" (JStr (vol_Kind v))].

Definition Container_tup (c : Container) :=
  (c_Name c, (c_Image c, (c_ImagePullPolicy c, (c_Command c, (c_Args c, (SecretsVolumes c,
  (ConfigMapsVolumes c, (c_Limits c, (c_Requests c, (c_EnvConfigMaps c, (c_EnvVariables c,
  (c_PreStopCmd c, (c_PostStartCmd c, tt))))))))))))).
Definition Container_untup t : Container :=
  let '(n, (i, (p, (c, (a, (s, (cm, (l, (r, (ec, (ev, (ps, (po, tt))))))))))))) := t in
  mkContainer n i p c a s cm l r ec ev ps po.

Definition dec_Container : dec Container :=
  dec_record "config.Container" Container_tup Container_untup
    [f ("name", dec_string); ("image", dec_string); ("image_pull_policy", dec_string);
       ("command", dec_strings); ("args", dec_strings);
       ("secrets_volumes", dec_slice Mounted_zero dec_Mounted);
       ("config_maps_volumes", dec_slice Mounted_zero dec_Mounted);
       ("limits", dec_UsageSpec); ("requests", dec_UsageSpec);
       ("env_config_maps", dec_strings); ("env_variables", dec_str_map);
       ("pre_stop_cmd", dec_strings); ("post_start_cmd", dec_strings)].
Definition enc_Container (c : Container) : json :=
  obj [mem "name" (JStr (c_Name c)); mem "image" (JStr (c_Image c));
       omit (no_str (c_ImagePullPolicy c)) "image_pull_policy" (JStr (c_ImagePullPolicy c));
       omit (no_list (c_Command c)) "command" (enc_slice JStr (c_Command c));
       omit (no_list (c_Args c)) "args" (enc_slice JStr (c_Args c));
       omit (no_list (SecretsVolumes c)) "secrets_volumes" (enc_slice enc_Mounted (SecretsVolumes c));
       omit (no_list (ConfigMapsVolumes c)) "config_maps_volumes"
         (enc_slice enc_Mounted (ConfigMapsVolumes c));
       mem "limits" (enc_UsageSpec (c_Limits c)); mem "requests" (enc_UsageSpec (c_Requests c));
       omit (no_list (c_EnvConfigMaps c)) "env_config_maps" (enc_slice JStr (c_EnvConfigMaps c));
       omit (no_map (c_EnvVariables c)) "env_variables" (enc_map JStr (c_EnvVariables c));
       omit (no_list (c_PreStopCmd c)) "pre_stop_cmd" (enc_slice JStr (c_PreStopCmd c));
       omit (no_list (c_PostStartCmd c)) "post_start_cmd" (enc_slice JStr (c_PostStartCmd c))].

Definition Config_tup (c : Config) :=
  (Replicas c, (Namespace c, (Name c, (Containers c, (JobLabels c, (Volumes c, (TTLSeconds c, tt))))))).
Definition Config_untup t : Config :=
  let '(r, (n, (na, (cs, (l, (v, (ttl, tt))))))) := t in mkConfig r n na cs l v ttl.

Definition dec_Config : dec Config :=
  dec_record "config.Config" Config_tup Config_untup
    [f ("replicas", dec_int32); ("namespace", dec_string); ("name", dec_string);
       ("containers", dec_slice Container_zero dec_Container); ("job_labels", dec_str_map);
       ("volumes", dec_slice Volume_zero dec_Volume); ("ttl_seconds", dec_ptr 0 dec_int32)].
Definition enc_Config (c : Config) : json :=
  obj [mem "replicas" (enc_int (Replicas c)); mem "namespace" (JStr (Namespace c));
       omit (no_str (Name c)) "name" (JStr (Name c));
       omit (no_list (Containers c)) "containers" (enc_slice enc_Container (Containers c));
       omit (no_map (JobLabels c)) "job_labels" (enc_map JStr (JobLabels c));
       omit (no_list (Volumes c)) "volumes" (enc_slice enc_Volume (Volumes c));
       omit (no_ptr (TTLSeconds c)) "ttl_seconds" (enc_ptr enc_int (TTLSeconds c))].
End codecs.

Section config.
Context {GJ : GoJSON} {JS : JSONSchema} {MR : MapRange} {DG : Digests}.
(** The embedded [schema/config.json]. *)
Variable configSchemaRaw : string.

Definition getDefaultResources (dc : DriverConf) : RequestsAndLimits :=
  default RL_zero (gm (dc_RequestsAndLimits dc) !! Default).

Definition or_else (s other : string) : string := if decide (s = "") then other else s.

(** The body of the loop over the containers. *)
Definition fill_container (dc : DriverConf) (c : Container) : Container :=
  let rl := getDefaultResources dc in
  mkContainer (c_Name c) (c_Image c) (c_ImagePullPolicy c) (c_Command c) (c_Args c)
    (SecretsVolumes c) (ConfigMapsVolumes c)
    (mkUsage (or_else (CPU (c_Limits c)) (CPU (rl_Limits rl)))
       (or_else (Memory (c_Limits c)) (Memory (rl_Limits rl))))
    (mkUsage (or_else (CPU (c_Requests c)) (CPU (rl_Requests rl)))
       (or_else (Memory (c_Requests c)) (Memory (rl_Requests rl))))
    (c_EnvConfigMaps c) (CloneAndMergeMaps (dc_EnvVariables dc) (c_EnvVariables c))
    (c_PreStopCmd c) (c_PostStartCmd c).

Definition read_Name (r : Resource) (name : string) : go string :=
  if (String.length name =? 0)%nat
  then SafeName (Project r +:+ "-" +:+ Resource.Name r) "-job" maxJobNameLength
  else if maxJobNameLength <? Z.of_nat (String.length name)
  then Err (EErr (WithMsgf ErrInvalid "Job name must not have more than 53 chars"))
  else Ok name.

Definition ReadConfig (r : Resource) (confJSON : RawMessage) (dc : DriverConf) : go Config :=
  cfg ← on_err (Unmarshal dec_Config confJSON Config_zero)
          (caused (WithMsgf ErrInvalid "invalid config json"));
  let containers := match Containers cfg with
                    | Some l => Some (fill_container dc <$> l)
                    | None => None
                    end in
  _ ← FromJSONSchema configSchemaRaw confJSON;
  name ← read_Name r (Name cfg);
  Ok (mkConfig (if Replicas cfg <? 1 then 1 else Replicas cfg)
        (if (String.length (Namespace cfg) =? 0)%nat then dc_Namespace dc else Namespace cfg)
        name containers (JobLabels cfg) (Volumes cfg) (Some defaultTTLSecondsAfterFinished)).
End config.
