(* ===== verification/Job.v ===== *)
(** * Job: [modules/job]

    The driver of Kubernetes jobs: an action is planned as one pending step,
    which the next sync takes; the sync after it lists the pods and completes
    the resource. *)

From S2P Require Import Prelude GoLib Errors Resource Module Json Names Validator Kube Kubernetes KubeJob JobConfig.

#[local] Open Scope Z_scope.

(** ** [driver/plan.go], [driver/output.go] *)

Definition KeyKubeDependency : string := "kube_cluster".
Definition SuspendAction : string := "suspend".
Definition StartAction : string := "start".
Definition Create : string := "create".
Definition Suspend : string := "suspend".
Definition Delete : string := "delete".
Definition Start : string := "start".

Record Output := mkOutput {
  out_Namespace : string;
  JobName : string;
  out_Pods : option (list Pod);
}.

Definition Output_zero : Output := mkOutput "" "" None.

(** The zero [resource.Resource]. *)
Definition Resource_zero : Resource :=
  mkResource "" "" "" "" None 0 0 "" "" (mkSpec None None) State_zero.

(** [driver/sync.go]. *)
Definition labelOrchestrator : string := "orchestrator".
Definition labelName : string := "name".
Definition orchestratorLabelValue : string := "entropy".
Definition resourceName : string := "job".
Definition backoffLimit : Z := 0.

(** [Driver]. *)
Record jobDriver `{VA : VersionAPI W} := mkJobDriver {
  Conf : DriverConf;
  CreateJob : Kube.Config → Job → io W ();
  SuspendJob : Kube.Config → Job → io W ();
  DeleteJob : Kube.Config → Job → io W ();
  StartJob : Kube.Config → Job → io W ();
  GetJobPods : Kube.Config → Job → gomap string → io W (option (list Pod));
  StreamLogs : Kube.Config → Job → gomap string → io W LogStream;
}.

Arguments jobDriver W {VA}.

Section driver.
Context {GJ : GoJSON} {JS : JSONSchema} {MR : MapRange} {DG : Digests} {W : Type} {VA : VersionAPI W}.
Variable configSchemaRaw : string.
Variable time_Now : W → Time.

Abbreviation ReadConfig := (ReadConfig configSchemaRaw) (only parsing).

Definition dec_Output : dec Output :=
  dec_record "driver.Output" (λ o, (out_Namespace o, (JobName o, (out_Pods o, tt))))
    (λ '(n, (j, (p, tt))), mkOutput n j p)
    [f ("namespace", dec_string); ("jobName", dec_string); ("pods", dec_slice Pod_zero dec_Pod)].
Definition enc_Output (o : Output) : json :=
  obj [mem "namespace" (JStr (out_Namespace o)); mem "jobName" (JStr (JobName o));
       mem "pods" (enc_slice enc_Pod (out_Pods o))].

(** [TransientData] has the one field [PendingSteps]. *)
Definition dec_TransientData : dec (option (list string)) :=
  dec_record "driver.TransientData" (λ s, (s, tt)) (λ '(s, tt), s) [f ("pending_steps", dec_strings)].
Definition enc_TransientData (steps : option (list string)) : json :=
  obj [mem "pending_steps" (enc_slice JStr steps)].

Definition ReadOutputData (exr : ExpandedResource) : go Output :=
  let out := Resource.Output (res_State (exr_Resource exr)) in
  if (raw_len out =? 0)%nat then Ok Output_zero
  else on_err (Unmarshal dec_Output out Output_zero) (caused (WithMsgf ErrInternal "corrupted output")).

Definition ReadTransientData (exr : ExpandedResource) : go (option (list string)) :=
  let data := ModuleData (res_State (exr_Resource exr)) in
  if (raw_len data =? 0)%nat then Ok None
  else on_err (Unmarshal dec_TransientData data None)
         (caused (WithMsgf ErrInternal "corrupted transient data")).

Definition read_kubeOut (exr : ExpandedResource) : go Kubernetes.Output :=
  Unmarshal Kubernetes.dec_Output
    (gm (exr_Dependencies exr) !! KeyKubeDependency ≫= dep_Output) Kubernetes.Output_zero.

Definition invalid_kube_state : error → error := caused (WithMsgf ErrInternal "invalid kube state").

(** ** Planning *)

Definition step_data (steps : list string) : RawMessage := MustJSON (enc_TransientData (Some steps)).

Definition planPendingWithConf (conf : Config) (exr : ExpandedResource) (steps : list string)
    (immediately : Time) : Resource :=
  Resource.set_State
    (mkState StatusPending (MustJSON (enc_Output (mkOutput (Namespace conf) (Name conf) None)))
       (step_data steps) (Some immediately) SyncResult_zero)
    (set_Configs (MustJSON (enc_Config conf)) (exr_Resource exr)).

Definition plan_with (d : jobDriver W) (exr : ExpandedResource) (configs : RawMessage)
    (steps : list string) : io W Resource := λ w,
  match ReadConfig (exr_Resource exr) configs (Conf d) with
  | Ok conf => (Ok (planPendingWithConf conf exr steps (time_Now w)), w)
  | Err e => (Err e, w)
  | Panic s => (Panic s, w)
  end.

Definition planPendingWithExistingResource (d : jobDriver W) (exr : ExpandedResource)
    (steps : list string) : io W Resource :=
  plan_with d exr (Configs (res_Spec (exr_Resource exr))) steps.

Definition planCreate (d : jobDriver W) (exr : ExpandedResource) (act : ActionRequest) :
    io W Resource := plan_with d exr (Params act) [Create].

Definition job_Plan (d : jobDriver W) (res : ExpandedResource) (act : ActionRequest) : io W Resource :=
  let name := act_Name act in
  if decide (name = CreateAction) then planCreate d res act
  else if decide (name = SuspendAction) then planPendingWithExistingResource d res [Suspend]
  else if decide (name = DeleteAction) then planPendingWithExistingResource d res [Delete]
  else if decide (name = StartAction) then planPendingWithExistingResource d res [Start]
  else mret Resource_zero.

(** ** Syncing *)

Definition mount_of (m : Mounted) : VolumeMount := mkMount (mt_Name m) (Mount m).

Definition volume_of (v : JobConfig.Volume) : KubeJob.Volume :=
  KubeJob.mkVolume (if decide (JobConfig.vol_Kind v = "configMap") then ConfigMap else Secret)
    (JobConfig.vol_Name v) (JobConfig.vol_Name v).

Definition container_of (c : JobConfig.Container) : KubeJob.Container :=
  let amounts u := Some (list_to_map [("cpu", CPU u); ("memory", JobConfig.Memory u)]) in
  KubeJob.mkContainer (c_Image c) (c_Name c) (c_EnvConfigMaps c) (c_Command c) (c_EnvVariables c)
    (c_Args c) (c_ImagePullPolicy c)
    (mount_of <$> default [] (SecretsVolumes c) ++ default [] (ConfigMapsVolumes c))
    (amounts (c_Requests c)) (amounts (c_Limits c)) (c_PreStopCmd c) (c_PostStartCmd c).

Definition getJob (res : Resource) (conf : Config) (kubeOut : Kubernetes.Output) : Job :=
  let constantLabels := Some (list_to_map [(labelOrchestrator, orchestratorLabelValue);
                                           (labelName, Resource.Name res)]) in
  let tolerations := default [] (mjoin (gm (Tolerations (out_Driver kubeOut)) !! resourceName)) in
  let affinity := gm (Affinities (out_Driver kubeOut)) !! resourceName in
  let p := mkPodSpec (Name conf) (container_of <$> default [] (Containers conf))
             (volume_of <$> default [] (Volumes conf)) (Some {["app" := Name conf]})
             tolerations affinity in
  mkJob (Some p) (Name conf) (Namespace conf) (CloneAndMergeMaps constantLabels (JobLabels conf))
    (Some (Replicas conf)) (Some backoffLimit) (TTLSeconds conf).

(** The job as the other calls name it. *)
Definition job_ref (conf : Config) : Job :=
  mkJob None (Name conf) (Namespace conf) None None None None.

(** [create], [suspend], [delete], [start] and the unknown step. *)
Definition take_step (d : jobDriver W) (r : Resource) (conf : Config) (kubeOut : Kubernetes.Output)
    (step : string) : io W () :=
  let kc := out_Configs kubeOut in
  if decide (step = Create) then catch (CreateJob d kc (getJob r conf kubeOut)) (caused ErrInternal)
  else if decide (step = Suspend) then catch (SuspendJob d kc (job_ref conf)) (caused ErrInternal)
  else if decide (step = Delete) then catch (DeleteJob d kc (job_ref conf)) (caused ErrInternal)
  else if decide (step = Start) then catch (StartJob d kc (job_ref conf)) (caused ErrInternal)
  else throw (EErr (WithMsgf ErrInternal ("unknown step: '" +:+ step +:+ "'"))).

Definition refreshOutput (d : jobDriver W) (conf : Config) (output : Output)
    (kubeOut : Kubernetes.Output) : io W RawMessage :=
  pods ← catch (GetJobPods d (out_Configs kubeOut) (job_ref conf) (Some {["job-name" := Name conf]}))
           (caused ErrInternal);
  mret (MustJSON (enc_Output (mkOutput (out_Namespace output) (JobName output) pods))).

Definition read_time : io W Time := λ w, (Ok (time_Now w), w).

Definition job_Sync (d : jobDriver W) (exr : ExpandedResource) : io W State :=
  let res := exr_Resource exr in
  pendingSteps ← lift (ReadTransientData exr);
  out ← lift (on_err (ReadOutputData exr) (caused ErrInternal));
  conf ← lift (on_err (ReadConfig res (Configs (res_Spec res)) (Conf d)) (caused ErrInternal));
  kubeOut ← lift (on_err (read_kubeOut exr) invalid_kube_state);
  match default [] pendingSteps with
  | pendingStep :: steps =>
      _ ← take_step d res conf kubeOut pendingStep;
      immediately ← read_time;
      mret (mkState StatusPending (Resource.Output (res_State res)) (step_data steps)
              (Some immediately) SyncResult_zero)
  | [] =>
      finalOut ← refreshOutput d conf out kubeOut;
      mret (mkState StatusCompleted finalOut None None SyncResult_zero)
  end.

Definition job_Output (d : jobDriver W) (exr : ExpandedResource) : io W RawMessage :=
  let res := exr_Resource exr in
  output ← lift (ReadOutputData exr);
  conf ← lift (on_err (ReadConfig res (Configs (res_Spec res)) (Conf d)) (caused ErrInternal));
  kubeOut ← lift (on_err (read_kubeOut exr) invalid_kube_state);
  refreshOutput d conf output kubeOut.

Definition job_Log (d : jobDriver W) (exr : ExpandedResource) (filter : gomap string) :
    io W LogStream :=
  let res := exr_Resource exr in
  conf ← lift (on_err (ReadConfig res (Configs (res_Spec res)) (Conf d)) (caused ErrInternal));
  let filter := Some (<["app" := Name conf]> (gm filter)) in
  kubeOut ← lift (on_err (read_kubeOut exr) (caused ErrInternal));
  StreamLogs d (out_Configs kubeOut) (job_ref conf) filter.

Definition job_driver (d : jobDriver W) : Driver W := {|
  Plan := job_Plan d;
  Sync := job_Sync d;
  drv_Output := job_Output d;
  Log := Some (job_Log d);
|}.
End driver.

(** ** [module.go] *)

(** The map of [defaultDriverConf] that every module's configs are decoded
    into. *)
Definition initial_limits : gomap RequestsAndLimits :=
  Some {[Default := mkRL (mkUsage "1" "2000Mi") (mkUsage "1" "2000Mi")]}.

Definition defaultDriverConf (limits : gomap RequestsAndLimits) : DriverConf :=
  mkDriverConf Default limits None.

Section module.
Context {GJ : GoJSON} {JS : JSONSchema} {MR : MapRange} {DG : Digests} {W : Type}
  {KA : KubeAPI W} {VA : VersionAPI W} {BA : BatchAPI W} {TV : TagValidator DriverConf}.
Variable configSchemaRaw : string.
Variable time_Now : W → Time.

(** A call of the processor, through a client of its own. *)
Definition with_processor (failed : string) (call : Processor → io W ()) (kc : Kube.Config) (j : Job) :
    io W () :=
  kubeCl ← catch (NewClient kc) (caused (WithMsgf ErrInternal failed));
  processor ← lift (GetJobProcessor kubeCl j);
  call processor.

Definition kube_create_job : Kube.Config → Job → io W () :=
  with_processor "failed to create new kube client on job driver" SubmitJob.
Definition kube_suspend_job : Kube.Config → Job → io W () :=
  with_processor "failed to suspend the job" (λ p, UpdateJob p true).
Definition kube_delete_job : Kube.Config → Job → io W () :=
  with_processor "failed to delete the job" KubeJob.DeleteJob.
Definition kube_start_job : Kube.Config → Job → io W () :=
  with_processor "failed to start the job" (λ p, UpdateJob p false).

Definition kube_job_pods (kc : Kube.Config) (j : Job) (labels : gomap string) :
    io W (option (list Pod)) :=
  kubeCl ← catch (NewClient kc)
             (caused (WithMsgf ErrInternal "failed to create new kube client on driver"));
  GetPodDetails kubeCl (job_Namespace j) labels (λ _, true).

Definition kube_job_logs (kc : Kube.Config) (j : Job) (filter : gomap string) : io W LogStream :=
  kubeCl ← catch (NewClient kc) (caused (WithMsgf ErrInternal
             "failed to create new kube client on firehose driver Log"));
  logs ← client_StreamLogs kubeCl (job_Namespace j) filter;
  mret ((λ ch, mkLogChunk (chunk_Data ch) (Kube.chunk_Labels ch)) <$> logs).

(** [DriverFactory], with the default map before and after. *)
Definition job_factory (limits : gomap RequestsAndLimits) (confJSON : RawMessage) :
    go (jobDriver W) * gomap RequestsAndLimits :=
  match Unmarshal dec_DriverConf confJSON (defaultDriverConf limits) with
  | Ok c =>
      ((_ ← TaggedStruct c;
        Ok (mkJobDriver W VA c kube_create_job kube_suspend_job kube_delete_job kube_start_job
              kube_job_pods kube_job_logs)),
       match dc_RequestsAndLimits c with Some _ => dc_RequestsAndLimits c | None => limits end)
  | Err err => (Err err, limits)
  | Panic s => (Panic s, limits)
  end.

Definition job_actions : list ActionDesc :=
  [mkActionDesc CreateAction "Creates a new Kube job." "" None;
   mkActionDesc SuspendAction "Suspend the kube Job." "" None;
   mkActionDesc StartAction "Start the kube Job." "" None;
   mkActionDesc DeleteAction "Delete the kube Job." "" None].

Definition job_Module (limits : gomap RequestsAndLimits) : Descriptor W := mkDescriptor "job"
  job_actions (Some {[KeyKubeDependency := "kubernetes"]})
  (λ confJSON, d ← (job_factory limits confJSON).1; Ok (job_driver configSchemaRaw time_Now d)).
End module.
