(* ===== verification/JobProps.v ===== *)
(** * JobProps: configs of jobs, and from a planned action to the cluster *)

From S2P Require Import Prelude GoLib Errors Resource Module StepMachine Json Names Validator Kube Kubernetes KubeJob JobConfig Job PendingSteps.

#[local] Open Scope Z_scope.

(** ** Configs that are stored *)

(** What a stored config is read back as: empty lists and maps are left out. *)
Definition norm_Container (c : JobConfig.Container) : JobConfig.Container :=
  JobConfig.mkContainer (c_Name c) (c_Image c) (c_ImagePullPolicy c) (norm_slice id (c_Command c))
    (norm_slice id (c_Args c)) (norm_slice id (SecretsVolumes c))
    (norm_slice id (ConfigMapsVolumes c)) (c_Limits c) (c_Requests c)
    (norm_slice id (c_EnvConfigMaps c)) (norm_map id (c_EnvVariables c))
    (norm_slice id (c_PreStopCmd c)) (norm_slice id (c_PostStartCmd c)).

Definition norm_Config (c : Config) : Config :=
  mkConfig (Replicas c) (Namespace c) (Name c) (norm_slice norm_Container (Containers c))
    (norm_map id (JobLabels c)) (norm_slice id (Volumes c)) (TTLSeconds c).

Section readback.
Context {GJ : GoJSON}.

Lemma dec_enc_Usage u : dec_UsageSpec (enc_UsageSpec u) Usage_zero = Ok u.
Proof. dec_object (CPU u, (Memory u, tt)). by destruct u. Qed.

Lemma dec_enc_Mounted l :
  Forall (λ m, dec_Mounted (enc_Mounted m) Mounted_zero = Ok (id m)) l.
Proof. apply Forall_true. by intros []. Qed.

Lemma dec_enc_Volumes l : Forall (λ v, dec_Volume (enc_Volume v) Volume_zero = Ok (id v)) l.
Proof. apply Forall_true. by intros []. Qed.

Lemma dec_enc_Container c : dec_Container (enc_Container c) Container_zero = Ok (norm_Container c).
Proof.
  dec_object (Container_tup (norm_Container c)).
  - apply leaf_slice, dec_enc_Mounted.
  - apply leaf_slice, dec_enc_Mounted.
  - apply dec_enc_Usage.
  - apply dec_enc_Usage.
Qed.

Lemma dec_enc_job_Config c :
  in_bits 32 (Replicas c) = true → (∀ t, TTLSeconds c = Some t → in_bits 32 t = true) →
  dec_Config (enc_Config c) Config_zero = Ok (norm_Config c).
Proof.
  intros Hr Ht. dec_object (Config_tup (norm_Config c)).
  - by apply dec_int_enc.
  - apply leaf_slice, Forall_true. apply dec_enc_Container.
  - apply leaf_slice, dec_enc_Volumes.
  - cbn [norm_Config TTLSeconds]. destruct (TTLSeconds c) as [t|]; [|done].
    refine (dec_ptr_norm 0 dec_int32 enc_int id (Some t) _). intros t' [= <-].
    split; [done|]. apply dec_int_enc. by apply Ht.
Qed.
End readback.

(** What reading a stored config gives: the lists that were empty are nil. *)
Definition tidy_Container (c : JobConfig.Container) : JobConfig.Container :=
  JobConfig.mkContainer (c_Name c) (c_Image c) (c_ImagePullPolicy c) (norm_slice id (c_Command c))
    (norm_slice id (c_Args c)) (norm_slice id (SecretsVolumes c))
    (norm_slice id (ConfigMapsVolumes c)) (c_Limits c) (c_Requests c)
    (norm_slice id (c_EnvConfigMaps c)) (c_EnvVariables c)
    (norm_slice id (c_PreStopCmd c)) (norm_slice id (c_PostStartCmd c)).

Definition tidy (c : Config) : Config :=
  mkConfig (Replicas c) (Namespace c) (Name c) (norm_slice tidy_Container (Containers c))
    (norm_map id (JobLabels c)) (norm_slice id (Volumes c)) (TTLSeconds c).

Section config_props.
Context {GJ : GoJSON} {JS : JSONSchema} {MR : MapRange} {DG : Digests}.
Variable configSchemaRaw : string.

Lemma or_else_idemp s t : or_else (or_else s t) t = or_else s t.
Proof. unfold or_else. by repeat case_decide. Qed.

Lemma fill_again dc c :
  fill_container dc (norm_Container (fill_container dc c)) = tidy_Container (fill_container dc c).
Proof.
  unfold fill_container, norm_Container, tidy_Container. cbn [c_Limits c_Requests CPU JobConfig.Memory
    c_Name c_Image c_ImagePullPolicy c_Command c_Args SecretsVolumes ConfigMapsVolumes c_EnvConfigMaps
    c_EnvVariables c_PreStopCmd c_PostStartCmd].
  rewrite !or_else_idemp. f_equal. unfold CloneAndMergeMaps.
  rewrite !copy_range_spec, norm_map_gm, map_fmap_id, !(right_id_L ∅ (∪)). 
  match goal with |- context [gm (Some ?x)] => change (gm (Some x)) with x end.
  by rewrite <- (assoc_L (∪)), (idemp_L (∪)).
Qed.

Lemma decodes_Replicas : decodes (λ c, in_bits 32 (Replicas c) = true) dec_Config.
Proof.
  eapply decodes_record.
  - apply fields_ok_cons; [apply decodes_int|].
    do 6 (apply fields_ok_cons; [apply decodes_True|]). apply fields_ok_nil.
  - intros c Hc. cbn. split_and!; done.
  - intros t Ht. destruct t as (?&?&?&?&?&?&?&[]). cbn in *. naive_solver.
Qed.

Lemma read_Name_Ok r name name' :
  read_Name r name = Ok name' →
  name' ≠ "" ∧ Z.of_nat (String.length name') ≤ 53 ∧ (name ≠ "" → name' = name).
Proof.
  unfold read_Name. destruct (Nat.eqb_spec (String.length name) 0) as [Hz|Hz].
  - intros H. pose proof (SafeName_cases (Project r +:+ "-" +:+ Resource.Name r) "-job"
      maxJobNameLength) as Hs. rewrite H in Hs. destruct Hs as (Hl & Hsuf & _).
    split_and!; [|done|by destruct name]. intros ->. discriminate.
  - destruct (Z.ltb_spec maxJobNameLength (Z.of_nat (String.length name))); [done|].
    intros [= <-]. split_and!; [by intros ->|done|done].
Qed.

Lemma read_Name_keeps r name :
  name ≠ "" → Z.of_nat (String.length name) ≤ 53 → read_Name r name = Ok name.
Proof.
  intros Hne Hl. unfold read_Name. destruct (Nat.eqb_spec (String.length name) 0).
  - by destruct name.
  - destruct (Z.ltb_spec maxJobNameLength (Z.of_nat (String.length name))); [|done].
    unfold maxJobNameLength in *. lia.
Qed.

(** A config as it is after it was read. *)
Record config_ready (dc : DriverConf) (c : Config) : Prop := mkReady {
  rd_replicas : 1 ≤ Replicas c < 2 ^ 31;
  rd_name : Name c ≠ "";
  rd_length : Z.of_nat (String.length (Name c)) ≤ 53;
  rd_namespace : Namespace c = "" → dc_Namespace dc = "";
  rd_ttl : TTLSeconds c = Some defaultTTLSecondsAfterFinished;
  rd_filled : ∃ l, Containers c = option_map (map (fill_container dc)) l;
}.

(** A container with what its config left out. *)
Record completed_container (dc : DriverConf) (k0 k : JobConfig.Container) : Prop := mkCompletedContainer {
  cc_kept : c_Name k = c_Name k0 ∧ c_Image k = c_Image k0 ∧ c_ImagePullPolicy k = c_ImagePullPolicy k0 ∧
    c_Command k = c_Command k0 ∧ c_Args k = c_Args k0 ∧ SecretsVolumes k = SecretsVolumes k0 ∧
    ConfigMapsVolumes k = ConfigMapsVolumes k0 ∧ c_EnvConfigMaps k = c_EnvConfigMaps k0 ∧
    c_PreStopCmd k = c_PreStopCmd k0 ∧ c_PostStartCmd k = c_PostStartCmd k0;
  cc_limits : let other := rl_Limits (getDefaultResources dc) in
    CPU (c_Limits k) = (if decide (CPU (c_Limits k0) = "") then CPU other else CPU (c_Limits k0)) ∧
    JobConfig.Memory (c_Limits k) =
      (if decide (JobConfig.Memory (c_Limits k0) = "") then JobConfig.Memory other
       else JobConfig.Memory (c_Limits k0));
  cc_requests : let other := rl_Requests (getDefaultResources dc) in
    CPU (c_Requests k) = (if decide (CPU (c_Requests k0) = "") then CPU other else CPU (c_Requests k0)) ∧
    JobConfig.Memory (c_Requests k) =
      (if decide (JobConfig.Memory (c_Requests k0) = "") then JobConfig.Memory other
       else JobConfig.Memory (c_Requests k0));
  cc_env : gm (c_EnvVariables k) = gm (c_EnvVariables k0) ∪ gm (dc_EnvVariables dc);
}.

(** The config [c] that a document [c0] asks for, for a resource. *)
Record completed (dc : DriverConf) (r : Resource) (c0 c : Config) : Prop := mkCompleted {
  cd_replicas : Replicas c = Z.max 1 (Replicas c0);
  cd_namespace : Namespace c = if decide (Namespace c0 = "") then dc_Namespace dc else Namespace c0;
  cd_name : if decide (Name c0 = "")
            then SafeName (Project r +:+ "-" +:+ Resource.Name r) "-job" 53 = Ok (Name c)
            else Name c = Name c0;
  cd_containers : Forall2 (completed_container dc) (default [] (Containers c0)) (default [] (Containers c));
  cd_rest : JobLabels c = JobLabels c0 ∧ Volumes c = Volumes c0;
}.

Lemma fill_container_completed dc k : completed_container dc k (fill_container dc k).
Proof.
  split; try done. cbn [fill_container c_EnvVariables]. unfold CloneAndMergeMaps.
  rewrite !copy_range_spec, (right_id_L ∅ (∪)).
  match goal with |- context [gm (Some ?x)] => change (gm (Some x)) with x end. done.
Qed.

Lemma ReadConfig_completed r confJSON dc c :
  ReadConfig configSchemaRaw r confJSON dc = Ok c →
  passes configSchemaRaw confJSON ∧
  ∃ c0, Unmarshal dec_Config confJSON Config_zero = Ok c0 ∧ completed dc r c0 c.
Proof.
  unfold ReadConfig. intros H. apply res_bind_ok_inv in H as (c0 & H0 & H).
  rewrite res_on_err_ok in H0. apply res_bind_ok_inv in H as ([] & Hs & H).
  apply res_bind_ok_inv in H as (name & Hn & [= <-]). split; [by apply FromJSONSchema_Ok|].
  exists c0. split; [done|]. split; cbn [Replicas Namespace Name Containers JobLabels Volumes]; [| | | |done].
  - destruct (Z.ltb_spec (Replicas c0) 1); lia.
  - by destruct (Namespace c0).
  - unfold read_Name in Hn. destruct (Name c0); cbn [String.length Nat.eqb] in Hn; [done|].
    case_decide; [done|]. by destruct (_ <? _); simplify_eq.
  - destruct (Containers c0) as [l|]; [|constructor]. cbn [default]. apply Forall2_fmap_r.
    induction l; constructor; [apply fill_container_completed|done].
Qed.

Lemma ReadConfig_ready r confJSON dc c :
  ReadConfig configSchemaRaw r confJSON dc = Ok c → config_ready dc c.
Proof.
  unfold ReadConfig. intros H. apply res_bind_ok_inv in H as (c0 & H0 & H).
  rewrite res_on_err_ok in H0. apply res_bind_ok_inv in H as (u & _ & H).
  apply res_bind_ok_inv in H as (name & Hn & [= <-]). apply read_Name_Ok in Hn as (Hne & Hl & _).
  assert (in_bits 32 (Replicas c0) = true) as Hb.
  { by eapply (decodes_Unmarshal (λ c, in_bits 32 (Replicas c) = true)); [apply decodes_Replicas| |exact H0]. }
  split; cbn [Replicas Name Namespace TTLSeconds Containers]; try done.
  - unfold in_bits in Hb. apply andb_true_iff in Hb as [_ Hb%Z.ltb_lt].
    destruct (Z.ltb_spec (Replicas c0) 1); cbn in Hb; lia.
  - by destruct (Namespace c0).
  - exists (Containers c0). by destruct (Containers c0).
Qed.

Lemma stored_config_reads r r' confJSON dc c :
  ReadConfig configSchemaRaw r confJSON dc = Ok c →
  json_wf (enc_Config c) = true → passes configSchemaRaw (MustJSON (enc_Config c)) →
  ReadConfig configSchemaRaw r' (MustJSON (enc_Config c)) dc = Ok (tidy c).
Proof.
  intros H%ReadConfig_ready. destruct H as [Hr Hne Hl Hns Ht [l Hc]]. intros Hw Hp%FromJSONSchema_Ok. unfold ReadConfig, MustJSON in *.
  rewrite Unmarshal_print by done. rewrite dec_enc_job_Config.
  2:{ unfold in_bits. apply andb_true_iff. rewrite Z.leb_le, Z.ltb_lt. cbn. lia. }
  2:{ intros t. rewrite Ht. by intros [= <-]. }
  cbn [on_err mbind result_bind]. rewrite Hp. cbn [norm_Config Name].
  rewrite read_Name_keeps by done. cbn [mbind result_bind]. unfold tidy. do 2 f_equal.
  - cbn. destruct (Z.ltb_spec (Replicas c) 1); [lia|done].
  - cbn. destruct (Namespace c) eqn:E; cbn; [by apply Hns|done].
  - cbn. rewrite Hc. destruct l as [[|x l]|]; [done| |done]. unfold norm_slice. cbn. do 2 f_equal.
    + apply fill_again.
    + rewrite !map_map. apply map_ext. intros a. apply fill_again.
  - by rewrite Ht.
Qed.

(** A job's config survives being stored: whatever the request left out was
    filled in once and for all, so reading the stored document gives the same
    config, for any resource and without the request - only lists that were
    empty come back as none.  A config that was read asks for at least one
    replica, has a name of at most 53 characters and always the same time to
    live, which the request cannot choose. *)
Theorem stored_config_is_stable r r' confJSON dc c :
  ReadConfig configSchemaRaw r confJSON dc = Ok c →
  config_ready dc c ∧
  (json_wf (enc_Config c) = true → passes configSchemaRaw (MustJSON (enc_Config c)) →
   ReadConfig configSchemaRaw r' (MustJSON (enc_Config c)) dc = Ok (tidy c)).
Proof.
  intros H. split; [by eapply ReadConfig_ready|by apply (stored_config_reads r _ confJSON)].
Qed.
End config_props.

(** ** From a plan to the cluster *)

Section run.
Context {GJ : GoJSON} {JS : JSONSchema} {MR : MapRange} {DG : Digests} {W : Type} {VA : VersionAPI W}.
Variable configSchemaRaw : string.
Variable time_Now : W → Time.
Implicit Types (d : jobDriver W) (exr : ExpandedResource) (c : Config).

(** The step an action is planned as. *)
Definition step_of (action : string) : option string :=
  if decide (action = CreateAction) then Some Create
  else if decide (action = SuspendAction) then Some Suspend
  else if decide (action = DeleteAction) then Some Delete
  else if decide (action = StartAction) then Some Start
  else None.

(** The call of the cluster that an action asks for. *)
Definition asked (d : jobDriver W) (action : string) (r : Resource) (c : Config)
    (kubeOut : Kubernetes.Output) : io W () :=
  let kc := out_Configs kubeOut in
  if decide (action = CreateAction) then CreateJob d kc (getJob r c kubeOut)
  else if decide (action = SuspendAction) then SuspendJob d kc (job_ref c)
  else if decide (action = DeleteAction) then DeleteJob d kc (job_ref c)
  else StartJob d kc (job_ref c).

Lemma take_step_asked d action r c kubeOut step :
  step_of action = Some step →
  take_step d r c kubeOut step = catch (asked d action r c kubeOut) (caused ErrInternal).
Proof. unfold step_of, asked. by repeat (case_decide; [by intros [= <-]|]). Qed.

(** The state a plan leaves, and the states the syncs leave. *)
Definition job_pending (output : RawMessage) (steps : list string) (t : Time) : State :=
  mkState StatusPending output (step_data steps) (Some t) SyncResult_zero.

Lemma step_data_read r deps steps t output :
  Forall (λ s, valid_utf8 s = true) steps →
  ReadTransientData (mkExpanded (Resource.set_State (job_pending output steps t) r) deps) =
    Ok (Some steps).
Proof.
  intros Hs.
  assert (json_wf (enc_TransientData (Some steps)) = true) as Hw
    by by apply (transient_doc_wf steps "").
  unfold ReadTransientData. cbn [exr_Resource res_State Resource.set_State ModuleData job_pending].
  unfold step_data, MustJSON. rewrite (proj2 (Nat.eqb_neq _ _)) by by apply json_print_nonempty.
  rewrite Unmarshal_print by done.
  assert (dec_TransientData (enc_TransientData (Some steps)) None = Ok (Some steps)) as ->; [|done].
  dec_object ((Some steps, tt) : option (list string) * ()). apply dec_enc_strings.
Qed.

Lemma output_read r deps steps t o :
  valid_utf8 (out_Namespace o) = true → valid_utf8 (JobName o) = true → out_Pods o = None →
  ReadOutputData (mkExpanded (Resource.set_State (job_pending (MustJSON (enc_Output o)) steps t) r) deps) =
    Ok o.
Proof.
  intros Hn Hj Hp. unfold ReadOutputData.
  cbn [exr_Resource res_State Resource.set_State Resource.Output job_pending].
  assert (json_wf (enc_Output o) = true) as Hw.
  { unfold json_wf, enc_Output, obj. rewrite Hp.
    cbn [concat app mem enc_slice json_texts json_depth forallb foldr fst snd].
    rewrite Hn, Hj. reflexivity. }
  unfold MustJSON. rewrite (proj2 (Nat.eqb_neq _ _)) by by apply json_print_nonempty.
  rewrite Unmarshal_print by done.
  assert (dec_Output (enc_Output o) Output_zero = Ok o) as ->; [|done].
  dec_object ((out_Namespace o, (JobName o, (None, tt))) : string * (string * (option (list Pod) * ()))).
  - by rewrite Hp.
  - by destruct o; cbn in *; subst.
Qed.

(** The document that an action takes the config from: a create the request's,
    the other actions the stored one. *)
Definition config_doc (exr : ExpandedResource) (act : ActionRequest) : RawMessage :=
  if decide (act_Name act = CreateAction) then Params act else Configs (res_Spec (exr_Resource exr)).

Lemma job_Plan_step d exr act w r w' step :
  step_of (act_Name act) = Some step →
  job_Plan configSchemaRaw time_Now d exr act w = (Ok r, w') →
  w' = w ∧ ∃ c,
    ReadConfig configSchemaRaw (exr_Resource exr) (config_doc exr act) (Conf d) = Ok c ∧
    r = planPendingWithConf c exr [step] (time_Now w).
Proof.
  intros Hs H. unfold job_Plan in H.
  assert (plan_with configSchemaRaw time_Now d exr (config_doc exr act) [step] w = (Ok r, w')) as Hp.
  { unfold planCreate, planPendingWithExistingResource in H. unfold step_of in Hs. unfold config_doc.
    destruct (decide (act_Name act = CreateAction)); [by injection Hs as <-|].
    repeat (destruct (decide _) in H, Hs; [by injection Hs as <-|]). done. }
  unfold plan_with in Hp. destruct (JobConfig.ReadConfig _ _ _ _) as [c|e|s] eqn:Hc; [|done..].
  injection Hp as <- <-. split; [done|]. by exists c.
Qed.

(** The texts of a config that can be printed. *)
Lemma config_texts c :
  json_wf (enc_Config c) = true → Name c ≠ "" →
  valid_utf8 (Namespace c) = true ∧ valid_utf8 (Name c) = true.
Proof.
  intros Hw Hn. split; eapply json_wf_text; try exact Hw.
  - cbn [concat mem app]. right. left.
  - assert (no_str (Name c) = false) as E by by apply bool_decide_eq_false.
    rewrite E. cbn [concat mem omit app]. right. right. left.
Qed.

(** One sync of a planned job, whatever steps are left. *)
Lemma job_sync_pending d res deps c kubeOut steps t w :
  let o := mkOutput (Namespace c) (Name c) None in
  let old := MustJSON (enc_Output o) in
  let exr := mkExpanded (Resource.set_State (job_pending old steps t) res) deps in
  (∀ r', JobConfig.ReadConfig configSchemaRaw r' (Configs (res_Spec res)) (Conf d) = Ok (tidy c)) →
  read_kubeOut exr = Ok kubeOut → valid_utf8 (Namespace c) = true → valid_utf8 (Name c) = true →
  Forall (λ s, valid_utf8 s = true) steps →
  job_Sync configSchemaRaw time_Now d exr w =
  match steps with
  | s :: steps => (_ ← take_step d res (tidy c) kubeOut s; leave time_Now (job_pending old steps)) w
  | [] => (out ← refreshOutput d (tidy c) o kubeOut;
           mret (mkState StatusCompleted out None None SyncResult_zero)) w
  end.
Proof.
  cbv zeta. intros Hread Hk Un Uj Hs. unfold job_Sync.
  rewrite (step_data_read _ _ _ _ _ Hs), output_read, Hk by done.
  cbn [exr_Resource res_Spec Resource.set_State]. rewrite Hread.
  by destruct steps.
Qed.

(** C12. An action on a job is carried out by two syncs.  Planning it reads the
    config document, the request's for a create and the resource's otherwise,
    which has to pass the schema, and stores it with what was left out filled in:
    at least one replica, the namespace, a name of at most 53 characters, and for
    each container the limits, requests and variables it does not give itself.
    It leaves one step, due at once.  When the config that was planned can be
    read back - its texts are UTF-8, and the document it is stored as passes the
    schema too - the first sync makes the one call to the cluster that the action
    asks for, for that config, and the second lists the pods and completes the
    resource. *)
Theorem job_action_reaches_cluster d exr act w r w' step kubeOut :
  step_of (act_Name act) = Some step →
  job_Plan configSchemaRaw time_Now d exr act w = (Ok r, w') →
  read_kubeOut exr = Ok kubeOut →
  w' = w ∧
  ∃ c0 c, let planned := mkExpanded r (exr_Dependencies exr) in
    passes configSchemaRaw (config_doc exr act) ∧
    Unmarshal dec_Config (config_doc exr act) Config_zero = Ok c0 ∧
    completed (Conf d) (exr_Resource exr) c0 c ∧ config_ready (Conf d) c ∧
    r = planPendingWithConf c exr [step] (time_Now w) ∧
    Configs (res_Spec r) = MustJSON (enc_Config c) ∧
    Resource.Status (res_State r) = StatusPending ∧ NextSyncAt (res_State r) = Some (time_Now w) ∧
    (json_wf (enc_Config c) = true → passes configSchemaRaw (MustJSON (enc_Config c)) → ∀ w1,
     syncs (job_Sync configSchemaRaw time_Now d) 2 planned w1 =
     (_ ← catch (asked d (act_Name act) r (tidy c) kubeOut) (caused ErrInternal);
      out ← refreshOutput d (tidy c) (mkOutput (Namespace c) (Name c) None) kubeOut;
      mret (after (mkState StatusCompleted out None None SyncResult_zero) planned)) w1).
Proof.
  intros Hstep H Hk. destruct (job_Plan_step _ _ _ _ _ _ _ Hstep H) as (-> & c & Hc & ->).
  split; [done|]. destruct (ReadConfig_completed _ _ _ _ _ Hc) as (Hpass & c0 & H0 & Hcd).
  exists c0, c. pose proof (ReadConfig_ready _ _ _ _ _ Hc) as Hready.
  split_and!; [done..|]. intros Hw Hp w1. destruct (config_texts c Hw (rd_name _ _ Hready)) as [Un Uj].
  set (o := mkOutput (Namespace c) (Name c) None). set (old := MustJSON (enc_Output o)).
  set (res := set_Configs (MustJSON (enc_Config c)) (exr_Resource exr)).
  set (deps := exr_Dependencies exr) in *.
  assert (∀ r', JobConfig.ReadConfig configSchemaRaw r' (Configs (res_Spec res)) (Conf d) = Ok (tidy c))
    as Hread by (intros r'; by apply (stored_config_reads _ _ _ _ _ _ Hc)).
  pose (inv := λ exr', ∃ st, exr' = mkExpanded (Resource.set_State st res) deps).
  pose (finish := out ← refreshOutput d (tidy c) o kubeOut;
    mret (mkState StatusCompleted out None None SyncResult_zero) : io W State).
  assert (∀ exr' steps t w, inv exr' → Forall (λ s, valid_utf8 s = true) steps →
    state_of exr' = job_pending old steps t →
    job_Sync configSchemaRaw time_Now d exr' w =
    match steps with
    | s :: steps => (_ ← take_step d res (tidy c) kubeOut s; leave time_Now (job_pending old steps)) w
    | [] => finish w
    end) as Hsync.
  { intros exr' steps t w2 [st ->] Hs Hst. unfold state_of in Hst. cbn in Hst. subst st.
    by apply job_sync_pending. }
  set (planned := mkExpanded _ deps).
  assert (inv planned) as Hi by by eexists.
  assert (Forall (λ s, valid_utf8 s = true) [step]) as Hv.
  { constructor; [|done]. revert Hstep. unfold step_of. by repeat case_decide; intros [= <-]. }
  assert (∀ exr' steps t, inv exr' → inv (after (job_pending old steps t) exr')) as Ha
    by (intros exr' steps t [st ->]; by eexists).
  etransitivity.
  - refine (machine_runs _ time_Now inv _ (job_pending old) (take_step d res (tidy c) kubeOut) finish
      Ha _ _ [step] planned (time_Now w) w1 Hi Hv eq_refl).
    + intros exr' s steps t w2 Hi' Hs Hst. exact (Hsync exr' (s :: steps) t w2 Hi' Hs Hst).
    + intros exr' t w2 Hi' Hst. exact (Hsync exr' [] t w2 Hi' (Forall_nil_2 _) Hst).
  - rewrite <- (take_step_asked _ _ _ _ _ _ Hstep). cbn [for_each]. rewrite !run_bind.
    change (take_step d (planPendingWithConf c exr [step] (time_Now w)) (tidy c) kubeOut step w1) with
      (take_step d res (tidy c) kubeOut step w1).
    destruct (take_step d res (tidy c) kubeOut step w1) as [[[]|e|s] w2]; [|done..].
    unfold finish, mbind, M_bind, mret, M_ret.
    by destruct (refreshOutput d (tidy c) o kubeOut w2) as [[out|e|s] w3].
Qed.
End run.

(** ** The object that is created *)

Section template.
Context {MR : MapRange} {W : Type} {VA : VersionAPI W} {BA : BatchAPI W}.

(** A container of the pod, for a container of the config. *)
Definition runs_as (c : JobConfig.Container) (k : v1_Container Quantity) : Prop :=
  KubeJob.c_Name k = JobConfig.c_Name c ∧ KubeJob.c_Image k = JobConfig.c_Image c ∧
  KubeJob.c_Command k = JobConfig.c_Command c ∧ KubeJob.c_Args k = JobConfig.c_Args c ∧
  NoDup (ev_Name <$> c_Env k) ∧
  list_to_map ((λ e, (ev_Name e, ev_Value e)) <$> c_Env k) = gm (c_EnvVariables c) ∧
  c_EnvFrom k = default [] (c_EnvConfigMaps c) ∧
  c_VolumeMounts k =
    ((λ m, mkMount (mt_Name m) (Mount m)) <$>
       default [] (SecretsVolumes c) ++ default [] (ConfigMapsVolumes c)) ++
    [mkMount sharedData "/shared"] ∧
  rr_Limits (c_Resources k) !! "cpu" = Some (quantity (CPU (JobConfig.c_Limits c))) ∧
  rr_Requests (c_Resources k) !! "memory" = Some (quantity (JobConfig.Memory (c_Requests c))).

Lemma container_of_runs c : runs_as c (container_Template (container_of c)).
Proof.
  unfold runs_as, container_Template, container_of.
  cbn [KubeJob.c_Name KubeJob.c_Image KubeJob.c_Command KubeJob.c_Args c_Env c_EnvFrom
    KubeJob.c_VolumeMounts c_Resources ct_Name ct_Image ct_Command ct_Args EnvMap ct_EnvConfigMaps
    VolumeMounts ct_Limits ct_Requests].
  split_and!; try done.
  - rewrite <- list_fmap_compose. apply NoDup_range_keys.
  - rewrite <- list_fmap_compose. etransitivity; [|apply range_to_map]. f_equal.
    rewrite <- (list_fmap_id (range _)) at 2. apply list_fmap_ext. by intros i [].
Qed.

(** The job that is created is the config's: it has its name and namespace,
    runs as many pods at a time as there are replicas, never retries, and goes
    away after its time to live; its pod runs the config's containers in order,
    each with its variables once, its mounts and the directory that all of them
    share, tolerates what the cluster says jobs tolerate, and is labelled as
    entropy's unless the request labels it otherwise. *)
Theorem created_job_template res conf kubeOut :
  ∃ t, job_Template (getJob res conf kubeOut) = Ok t ∧
    jt_Name t = Name conf ∧ jt_Namespace t = Namespace conf ∧
    jt_Parallelism t = Some (Replicas conf) ∧ jt_BackoffLimit t = Some 0 ∧
    jt_TTLSecondsAfterFinished t = TTLSeconds conf ∧
    gm (jt_Labels t) !! labelOrchestrator =
      Some (default orchestratorLabelValue (gm (JobLabels conf) !! labelOrchestrator)) ∧
    let pod := jt_Template t in
    Forall2 runs_as (default [] (Containers conf)) (pt_Containers pod) ∧
    mkV1Volume sharedData EmptyDir ∈ pt_Volumes pod ∧
    pt_RestartPolicy pod = "Never" ∧ pt_Labels pod = Some {["app" := Name conf]} ∧
    pt_Tolerations pod =
      Toleration_ToCoreV1 <$> default [] (mjoin (gm (Tolerations (out_Driver kubeOut)) !! resourceName)) ∧
    pt_Affinity pod = Affinity_ToCoreV1 <$> gm (Affinities (out_Driver kubeOut)) !! resourceName.
Proof.
  eexists. split; [reflexivity|].
  cbn [jt_Name jt_Namespace jt_Parallelism jt_BackoffLimit jt_TTLSecondsAfterFinished jt_Labels
    jt_Template getJob job_Name job_Namespace job_Labels Parallelism BackOffList job_TTLSeconds].
  split_and!; try done.
  - unfold CloneAndMergeMaps. rewrite !copy_range_spec, (right_id_L ∅ (∪)).
    match goal with |- context [gm (Some ?x)] => change (gm (Some x)) with x end.
    rewrite lookup_union. by destruct (gm (JobLabels conf) !! labelOrchestrator).
  - cbn [pod_Template pt_Containers KubeJob.Containers]. rewrite <- list_fmap_compose.
    apply Forall2_fmap_r. generalize (default [] (Containers conf)) as l.
    induction l as [|x l IH]; constructor; [apply container_of_runs|done].
  - cbn [pod_Template pt_Volumes]. apply elem_of_app. right. left.
Qed.
End template.
