(* ===== verification/KubeCRD.v ===== *)
(** * KubeCRD: the parts of [pkg/kube/client.go] for Flink deployments

    Custom resources and services reached through the API server.  The dynamic
    client and the service proxy are the parameter [CRDAPI]. *)

From S2P Require Import Prelude GoLib Errors Json Kube.

#[local] Open Scope Z_scope.

Record GroupVersionResource := mkGVR { gvr_Group : string; gvr_Version : string; gvr_Resource : string }.

Class CRDAPI (W : Type) : Type := {
  dynamic_NewForConfig : rest_Config → go ();
  (** the [Object] of the custom resource *)
  dynamic_Get : rest_Config → GroupVersionResource → string → string → io W (gmap string any);
  (** scheme, service, port, path *)
  services_ProxyGet : rest_Config → string → string → string → string → string → io W RawMessage;
  IsServiceUnavailable : error → bool;
}.

Record FlinkDeploymentStatus := mkFlinkStatus {
  fds_State : string;
  JMDeployStatus : string;
  JobStatus : string;
  Reconciliation : string;
}.

Definition FlinkStatus_zero : FlinkDeploymentStatus := mkFlinkStatus "" "" "" "".

Section crd.
Context {W : Type} {KA : KubeAPI W} {CA : CRDAPI W}.

Definition flink_gvr : GroupVersionResource := mkGVR "flink.apache.org" "v1beta1" "flinkdeployments".

Definition GetCRDDetails (c : Client) (namespace name : string) : io W (gmap string any) :=
  _ ← lift (on_err (dynamic_NewForConfig (restConfig c))
        (λ err, ENew ("failed to create dynamic client: " +:+ error_string err)));
  catch (dynamic_Get (restConfig c) flink_gvr namespace name)
    (λ err, ENew ("failed to get FlinkDeployment: " +:+ error_string err)).

(** The classification of a proxy's error. *)
Definition proxy_error (err : error) : error :=
  if IsServiceUnavailable err then caused (WithMsgf ErrInternal "service unavailable") err
  else if IsNotFound err then caused (WithMsgf ErrNotFound "service not found") err
  else err.

Definition ProxyService (c : Client) (namespace scheme serviceName servicePort path : string) :
    io W RawMessage :=
  _ ← lift (NewForConfig (restConfig c));
  catch (services_ProxyGet (restConfig c) namespace scheme serviceName servicePort path) proxy_error.
End crd.
