(* ===== verification/DaggerTypes.v ===== *)
(** * DaggerTypes: the data of [modules/dagger]

    The structs of [config.go], [driver.go] and [driver_output.go] with their
    JSON form.  The fields of an embedded struct are fields of the struct that
    embeds it: [X_fields], [X_members] and [X_tup] put those of an [X] in front
    of others. *)

From S2P Require Import Prelude GoLib Errors Json Kube.

#[local] Open Scope Z_scope.

(** ** [config.go] *)

Record UsageSpec := mkUsage { CPU : string; Memory : string }.
Record Resources := mkResources { TaskManager : UsageSpec; JobManager : UsageSpec }.

Record ChartValues := mkChartValues {
  ImageRepository : string;
  ImageTag : string;
  ChartVersion : string;
  ImagePullPolicy : string;
}.

Record SourceDetail := mkSourceDetail {
  SourceName : string;
  SourceType : string;
}.

Record SourceKafka := mkSourceKafka {
  SourceKafkaConsumerConfigAutoCommitEnable : string;
  SourceKafkaConsumerConfigAutoOffsetReset : string;
  SourceKafkaTopicNames : string;
  SourceKafkaName : string;
  SourceKafkaConsumerConfigGroupID : string;
  SourceKafkaConsumerConfigBootstrapServers : string;
}.

Record SinkKafka := mkSinkKafka {
  SinkKafkaBrokers : string;
  SinkKafkaStream : string;
  SinkKafkaTopic : string;
  SinkKafkaProtoMsg : string;
  SinkKafkaLingerMs : string;
  SinkKafkaProtoKey : string;
  SinkKafkaProduceLargeMessageEnable : string;
}.

Record SinkInflux := mkSinkInflux {
  SinkInfluxBatchSize : string;
  SinkInfluxDBName : string;
  SinkInfluxFlushDurationMs : string;
  SinkInfluxPassword : string;
  SinkInfluxRetentionPolicy : string;
  SinkInfluxURL : string;
  SinkInfluxUsername : string;
  SinkInfluxMeasurementName : string;
}.

Record SinkBigquery := mkSinkBigquery {
  SinkBigqueryTablePartitionExpiryMs : string;
  SinkBigqueryRowInsertIDEnable : string;
  SinkBigqueryClientReadTimeoutMs : string;
  SinkBigqueryClientConnectTimeoutMs : string;
  SinkBigqueryCredentialPath : string;
  SinkBigqueryGoogleCloudProjectID : string;
  SinkBigqueryTableName : string;
  SinkBigqueryDatasetLabels : string;
  SinkBigqueryTableLabels : string;
  SinkBigqueryDatasetName : string;
  SinkBigqueryTablePartitioningEnable : string;
  SinkBigqueryTablePartitionKey : string;
  SinkBigqueryDatasetLocation : string;
  SinkBigqueryBatchSize : string;
  SinkBigqueryTableClusteringEnable : string;
  SinkBigqueryTableClusteringKeys : string;
  SinkErrorTypesForFailure : string;
  SinkConnectorSchemaProtoMessageClass : string;
}.

Record SourceParquet := mkSourceParquet {
  SourceParquetFileDateRange : any;
  SourceParquetFilePaths : option (list string);
}.

(** The embedded structs are fields. *)
Record Source := mkSource {
  InputSchemaProtoClass : string;
  InputSchemaEventTimestampFieldIndex : string;
  SourceDetails : option (list SourceDetail);
  InputSchemaTable : string;
  src_Kafka : SourceKafka;
  src_Parquet : SourceParquet;
}.

Record Sink := mkSink {
  snk_Kafka : SinkKafka;
  snk_Influx : SinkInflux;
  snk_Bigquery : SinkBigquery;
}.

Record Config := mkConfig {
  cfg_Resources : Resources;
  cfg_Source : option (list Source);
  cfg_Sink : Sink;
  EnvVariables : gomap string;
  Replicas : Z;
  SinkType : string;
  Team : string;
  FlinkName : string;
  DeploymentID : string;
  Savepoint : any;
  cfg_ChartValues : option ChartValues;
  Deleted : bool;
  Namespace : string;
  PrometheusURL : string;
  JarURI : string;
  cfg_State : string;
  JobState : string;
  ResetOffset : string;
  StopTime : option Time;
  DaggerCheckpointURL : string;
  DaggerSavepointURL : string;
  DaggerK8sHAURL : string;
  CloudProvider : string;
  FSOSSEndpoint : string;
}.

(** ** [driver.go] *)

Record driverConf := mkDriverConf {
  dc_Labels : gomap string;
  dc_Namespace : gomap string;
  dc_ChartValues : ChartValues;
  dc_EnvVariables : gomap string;
  dc_Resources : Resources;
  dc_JarURI : string;
  dc_DaggerCheckpointURL : string;
  dc_DaggerSavepointURL : string;
  dc_DaggerK8sHAURL : string;
  dc_CloudProvider : string;
  dc_FSOSSEndpoint : string;
  KubeDeployTimeout : Z;
  dc_NodeAffinity : NodeAffinityMatchExpressions;
}.

Record Exception := mkException { RootException : string; Timestamp : option Time }.

Record Output := mkOutput {
  out_JMDeployStatus : string;
  out_JobStatus : string;
  out_State : string;
  Reconcilation : string;
  out_Pods : option (list Pod);
  out_Namespace : string;
  JobID : string;
  out_Error : string;
  Exceptions : Exception;
}.

Record transientData := mkTransient {
  PendingSteps : option (list string);
  ResetOffsetTo : string;
}.

(** [driver_output.go]: a job of the overview is its id. *)
Record JobsExceptionResponse := mkJobsException { jer_RootException : string; jer_Timestamp : Z }.

(** ** Zero values *)

Definition Usage_zero : UsageSpec := mkUsage "" "".
Definition Resources_zero : Resources := mkResources Usage_zero Usage_zero.
Definition ChartValues_zero : ChartValues := mkChartValues "" "" "" "".
#[export] Instance ChartValues_eq_dec : EqDecision ChartValues.
Proof. solve_decision. Defined.

Definition SourceDetail_zero : SourceDetail := mkSourceDetail "" "".
Definition SourceKafka_zero : SourceKafka := mkSourceKafka "" "" "" "" "" "".
Definition Source_zero : Source :=
  mkSource "" "" None "" SourceKafka_zero (mkSourceParquet ANil None).
Definition Sink_zero : Sink :=
  mkSink (mkSinkKafka "" "" "" "" "" "" "") (mkSinkInflux "" "" "" "" "" "" "" "")
    (mkSinkBigquery "" "" "" "" "" "" "" "" "" "" "" "" "" "" "" "" "" "").
Definition Config_zero : Config :=
  mkConfig Resources_zero None Sink_zero None 0 "" "" "" "" ANil None false "" "" "" "" "" "" None
    "" "" "" "" "".
Definition Exception_zero : Exception := mkException "" None.
Definition Output_zero : Output := mkOutput "" "" "" "" None "" "" "" Exception_zero.
Definition transient_zero : transientData := mkTransient None "".

(** ** JSON *)

Section codecs.
Context {GJ : GoJSON}.

Definition dec_UsageSpec : dec UsageSpec :=
  dec_record "dagger.UsageSpec" (λ u, (CPU u, (Memory u, tt))) (λ '(c, (m, tt)), mkUsage c m)
    [f ("cpu", dec_string); ("memory", dec_string)].
Definition enc_UsageSpec (u : UsageSpec) : json :=
  obj [omit (no_str (CPU u)) "cpu" (JStr (CPU u)); omit (no_str (Memory u)) "memory" (JStr (Memory u))].

Definition dec_Resources : dec Resources :=
  dec_record "dagger.Resources" (λ r, (TaskManager r, (JobManager r, tt)))
    (λ '(t, (j, tt)), mkResources t j)
    [f ("taskmanager", dec_UsageSpec); ("jobmanager", dec_UsageSpec)].
Definition enc_Resources (r : Resources) : json :=
  obj [mem "taskmanager" (enc_UsageSpec (TaskManager r)); mem "jobmanager" (enc_UsageSpec (JobManager r))].

Definition dec_ChartValues : dec ChartValues :=
  dec_record "dagger.ChartValues"
    (λ c, (ImageRepository c, (ImageTag c, (ChartVersion c, (ImagePullPolicy c, tt)))))
    (λ '(r, (t, (v, (p, tt)))), mkChartValues r t v p)
    [f ("image_repository", dec_string); ("image_tag", dec_string);
       ("chart_version", dec_string); ("image_pull_policy", dec_string)].
Definition enc_ChartValues (c : ChartValues) : json :=
  obj [mem "image_repository" (JStr (ImageRepository c)); mem "image_tag" (JStr (ImageTag c));
       mem "chart_version" (JStr (ChartVersion c)); mem "image_pull_policy" (JStr (ImagePullPolicy c))].

Definition SourceDetail_fields {R} (rest : fields R) :=
  fcons ("SOURCE_NAME", dec_string) (fcons ("SOURCE_TYPE", dec_string) rest).
Definition SourceDetail_members (d : SourceDetail) : list (list (string * json)) :=
  [mem "SOURCE_NAME" (JStr (SourceName d)); mem "SOURCE_TYPE" (JStr (SourceType d))].
Definition SourceDetail_tup {R} (d : SourceDetail) (rest : R) :=
   (SourceName d, (SourceType d, rest)).
Definition SourceDetail_untup {R} t : SourceDetail * R :=
  let '(x0, (x1, rest)) := t in
  (mkSourceDetail x0 x1, rest).

Definition SourceKafka_fields {R} (rest : fields R) :=
  fcons ("SOURCE_KAFKA_CONSUMER_CONFIG_AUTO_COMMIT_ENABLE", dec_string) (
  fcons ("SOURCE_KAFKA_CONSUMER_CONFIG_AUTO_OFFSET_RESET", dec_string) (
  fcons ("SOURCE_KAFKA_TOPIC_NAMES", dec_string) (fcons ("SOURCE_KAFKA_NAME", dec_string) (
  fcons ("SOURCE_KAFKA_CONSUMER_CONFIG_GROUP_ID", dec_string) (
  fcons ("SOURCE_KAFKA_CONSUMER_CONFIG_BOOTSTRAP_SERVERS", dec_string) rest))))).
Definition SourceKafka_members (k : SourceKafka) : list (list (string * json)) :=
  [mem "SOURCE_KAFKA_CONSUMER_CONFIG_AUTO_COMMIT_ENABLE" (JStr (SourceKafkaConsumerConfigAutoCommitEnable k));
   mem "SOURCE_KAFKA_CONSUMER_CONFIG_AUTO_OFFSET_RESET" (JStr (SourceKafkaConsumerConfigAutoOffsetReset k));
   mem "SOURCE_KAFKA_TOPIC_NAMES" (JStr (SourceKafkaTopicNames k));
   mem "SOURCE_KAFKA_NAME" (JStr (SourceKafkaName k));
   mem "SOURCE_KAFKA_CONSUMER_CONFIG_GROUP_ID" (JStr (SourceKafkaConsumerConfigGroupID k));
   mem "SOURCE_KAFKA_CONSUMER_CONFIG_BOOTSTRAP_SERVERS" (JStr (SourceKafkaConsumerConfigBootstrapServers k))].
Definition SourceKafka_tup {R} (k : SourceKafka) (rest : R) :=
   (SourceKafkaConsumerConfigAutoCommitEnable k, (SourceKafkaConsumerConfigAutoOffsetReset k,
   (SourceKafkaTopicNames k, (SourceKafkaName k, (SourceKafkaConsumerConfigGroupID k,
   (SourceKafkaConsumerConfigBootstrapServers k, rest)))))).
Definition SourceKafka_untup {R} t : SourceKafka * R :=
  let '(x0, (x1, (x2, (x3, (x4, (x5, rest)))))) := t in
  (mkSourceKafka x0 x1 x2 x3 x4 x5, rest).

Definition SinkKafka_fields {R} (rest : fields R) :=
  fcons ("SINK_KAFKA_BROKERS", dec_string) (fcons ("SINK_KAFKA_STREAM", dec_string) (
  fcons ("SINK_KAFKA_TOPIC", dec_string) (fcons ("SINK_KAFKA_PROTO_MESSAGE", dec_string) (
  fcons ("SINK_KAFKA_LINGER_MS", dec_string) (fcons ("SINK_KAFKA_PROTO_KEY", dec_string) (
  fcons ("SINK_KAFKA_PRODUCE_LARGE_MESSAGE_ENABLE", dec_string) rest)))))).
Definition SinkKafka_members (k : SinkKafka) : list (list (string * json)) :=
  [mem "SINK_KAFKA_BROKERS" (JStr (SinkKafkaBrokers k));
   mem "SINK_KAFKA_STREAM" (JStr (SinkKafkaStream k));
   mem "SINK_KAFKA_TOPIC" (JStr (SinkKafkaTopic k));
   mem "SINK_KAFKA_PROTO_MESSAGE" (JStr (SinkKafkaProtoMsg k));
   mem "SINK_KAFKA_LINGER_MS" (JStr (SinkKafkaLingerMs k));
   mem "SINK_KAFKA_PROTO_KEY" (JStr (SinkKafkaProtoKey k));
   mem "SINK_KAFKA_PRODUCE_LARGE_MESSAGE_ENABLE" (JStr (SinkKafkaProduceLargeMessageEnable k))].
Definition SinkKafka_tup {R} (k : SinkKafka) (rest : R) :=
   (SinkKafkaBrokers k, (SinkKafkaStream k, (SinkKafkaTopic k, (SinkKafkaProtoMsg k,
   (SinkKafkaLingerMs k, (SinkKafkaProtoKey k, (SinkKafkaProduceLargeMessageEnable k, rest))))))).
Definition SinkKafka_untup {R} t : SinkKafka * R :=
  let '(x0, (x1, (x2, (x3, (x4, (x5, (x6, rest))))))) := t in
  (mkSinkKafka x0 x1 x2 x3 x4 x5 x6, rest).

Definition SinkInflux_fields {R} (rest : fields R) :=
  fcons ("SINK_INFLUX_BATCH_SIZE", dec_string) (fcons ("SINK_INFLUX_DB_NAME", dec_string) (
  fcons ("SINK_INFLUX_FLUSH_DURATION_MS", dec_string) (
  fcons ("SINK_INFLUX_PASSWORD", dec_string) (
  fcons ("SINK_INFLUX_RETENTION_POLICY", dec_string) (fcons ("SINK_INFLUX_URL", dec_string) (
  fcons ("SINK_INFLUX_USERNAME", dec_string) (
  fcons ("SINK_INFLUX_MEASUREMENT_NAME", dec_string) rest))))))).
Definition SinkInflux_members (i : SinkInflux) : list (list (string * json)) :=
  [omit (no_str (SinkInfluxBatchSize i)) "SINK_INFLUX_BATCH_SIZE" (JStr (SinkInfluxBatchSize i));
   omit (no_str (SinkInfluxDBName i)) "SINK_INFLUX_DB_NAME" (JStr (SinkInfluxDBName i));
   omit (no_str (SinkInfluxFlushDurationMs i)) "SINK_INFLUX_FLUSH_DURATION_MS"
     (JStr (SinkInfluxFlushDurationMs i));
   omit (no_str (SinkInfluxPassword i)) "SINK_INFLUX_PASSWORD" (JStr (SinkInfluxPassword i));
   omit (no_str (SinkInfluxRetentionPolicy i)) "SINK_INFLUX_RETENTION_POLICY"
     (JStr (SinkInfluxRetentionPolicy i));
   omit (no_str (SinkInfluxURL i)) "SINK_INFLUX_URL" (JStr (SinkInfluxURL i));
   omit (no_str (SinkInfluxUsername i)) "SINK_INFLUX_USERNAME" (JStr (SinkInfluxUsername i));
   mem "SINK_INFLUX_MEASUREMENT_NAME" (JStr (SinkInfluxMeasurementName i))].
Definition SinkInflux_tup {R} (i : SinkInflux) (rest : R) :=
   (SinkInfluxBatchSize i, (SinkInfluxDBName i, (SinkInfluxFlushDurationMs i,
   (SinkInfluxPassword i, (SinkInfluxRetentionPolicy i, (SinkInfluxURL i, (SinkInfluxUsername i,
   (SinkInfluxMeasurementName i, rest)))))))).
Definition SinkInflux_untup {R} t : SinkInflux * R :=
  let '(x0, (x1, (x2, (x3, (x4, (x5, (x6, (x7, rest)))))))) := t in
  (mkSinkInflux x0 x1 x2 x3 x4 x5 x6 x7, rest).

Definition SinkBigquery_fields {R} (rest : fields R) :=
  fcons ("SINK_BIGQUERY_TABLE_PARTITION_EXPIRY_MS", dec_string) (
  fcons ("SINK_BIGQUERY_ROW_INSERT_ID_ENABLE", dec_string) (
  fcons ("SINK_BIGQUERY_CLIENT_READ_TIMEOUT_MS", dec_string) (
  fcons ("SINK_BIGQUERY_CLIENT_CONNECT_TIMEOUT_MS", dec_string) (
  fcons ("SINK_BIGQUERY_CREDENTIAL_PATH", dec_string) (
  fcons ("SINK_BIGQUERY_GOOGLE_CLOUD_PROJECT_ID", dec_string) (
  fcons ("SINK_BIGQUERY_TABLE_NAME", dec_string) (
  fcons ("SINK_BIGQUERY_DATASET_LABELS", dec_string) (
  fcons ("SINK_BIGQUERY_TABLE_LABELS", dec_string) (
  fcons ("SINK_BIGQUERY_DATASET_NAME", dec_string) (
  fcons ("SINK_BIGQUERY_TABLE_PARTITIONING_ENABLE", dec_string) (
  fcons ("SINK_BIGQUERY_TABLE_PARTITION_KEY", dec_string) (
  fcons ("SINK_BIGQUERY_DATASET_LOCATION", dec_string) (
  fcons ("SINK_BIGQUERY_BATCH_SIZE", dec_string) (
  fcons ("SINK_BIGQUERY_TABLE_CLUSTERING_ENABLE", dec_string) (
  fcons ("SINK_BIGQUERY_TABLE_CLUSTERING_KEYS", dec_string) (
  fcons ("SINK_ERROR_TYPES_FOR_FAILURE", dec_string) (
  fcons ("SINK_CONNECTOR_SCHEMA_PROTO_MESSAGE_CLASS", dec_string) rest))))))))))))))))).
Definition SinkBigquery_members (q : SinkBigquery) : list (list (string * json)) :=
  [mem "SINK_BIGQUERY_TABLE_PARTITION_EXPIRY_MS" (JStr (SinkBigqueryTablePartitionExpiryMs q));
   mem "SINK_BIGQUERY_ROW_INSERT_ID_ENABLE" (JStr (SinkBigqueryRowInsertIDEnable q));
   mem "SINK_BIGQUERY_CLIENT_READ_TIMEOUT_MS" (JStr (SinkBigqueryClientReadTimeoutMs q));
   mem "SINK_BIGQUERY_CLIENT_CONNECT_TIMEOUT_MS" (JStr (SinkBigqueryClientConnectTimeoutMs q));
   mem "SINK_BIGQUERY_CREDENTIAL_PATH" (JStr (SinkBigqueryCredentialPath q));
   mem "SINK_BIGQUERY_GOOGLE_CLOUD_PROJECT_ID" (JStr (SinkBigqueryGoogleCloudProjectID q));
   mem "SINK_BIGQUERY_TABLE_NAME" (JStr (SinkBigqueryTableName q));
   mem "SINK_BIGQUERY_DATASET_LABELS" (JStr (SinkBigqueryDatasetLabels q));
   mem "SINK_BIGQUERY_TABLE_LABELS" (JStr (SinkBigqueryTableLabels q));
   mem "SINK_BIGQUERY_DATASET_NAME" (JStr (SinkBigqueryDatasetName q));
   mem "SINK_BIGQUERY_TABLE_PARTITIONING_ENABLE" (JStr (SinkBigqueryTablePartitioningEnable q));
   mem "SINK_BIGQUERY_TABLE_PARTITION_KEY" (JStr (SinkBigqueryTablePartitionKey q));
   mem "SINK_BIGQUERY_DATASET_LOCATION" (JStr (SinkBigqueryDatasetLocation q));
   mem "SINK_BIGQUERY_BATCH_SIZE" (JStr (SinkBigqueryBatchSize q));
   mem "SINK_BIGQUERY_TABLE_CLUSTERING_ENABLE" (JStr (SinkBigqueryTableClusteringEnable q));
   mem "SINK_BIGQUERY_TABLE_CLUSTERING_KEYS" (JStr (SinkBigqueryTableClusteringKeys q));
   mem "SINK_ERROR_TYPES_FOR_FAILURE" (JStr (SinkErrorTypesForFailure q));
   mem "SINK_CONNECTOR_SCHEMA_PROTO_MESSAGE_CLASS" (JStr (SinkConnectorSchemaProtoMessageClass q))].
Definition SinkBigquery_tup {R} (q : SinkBigquery) (rest : R) :=
   (SinkBigqueryTablePartitionExpiryMs q, (SinkBigqueryRowInsertIDEnable q,
   (SinkBigqueryClientReadTimeoutMs q, (SinkBigqueryClientConnectTimeoutMs q,
   (SinkBigqueryCredentialPath q, (SinkBigqueryGoogleCloudProjectID q, (SinkBigqueryTableName q,
   (SinkBigqueryDatasetLabels q, (SinkBigqueryTableLabels q, (SinkBigqueryDatasetName q,
   (SinkBigqueryTablePartitioningEnable q, (SinkBigqueryTablePartitionKey q,
   (SinkBigqueryDatasetLocation q, (SinkBigqueryBatchSize q,
   (SinkBigqueryTableClusteringEnable q, (SinkBigqueryTableClusteringKeys q,
   (SinkErrorTypesForFailure q, (SinkConnectorSchemaProtoMessageClass q, rest)))))))))))))))))).
Definition SinkBigquery_untup {R} t : SinkBigquery * R :=
  let '(x0, (x1, (x2, (x3, (x4, (x5, (x6, (x7, (x8, (x9, (x10, (x11, (x12, (x13, (x14, (x15, (x16, (x17, rest)))))))))))))))))) := t in
  (mkSinkBigquery x0 x1 x2 x3 x4 x5 x6 x7 x8 x9 x10 x11 x12 x13 x14 x15 x16 x17, rest).

Definition dec_SourceDetail : dec SourceDetail :=
  dec_record "dagger.SourceDetail" (λ d, SourceDetail_tup d tt) (λ t, (SourceDetail_untup t).1)
    (SourceDetail_fields fnil).
Definition enc_SourceDetail (d : SourceDetail) : json := obj (SourceDetail_members d).

Definition Source_tup (s : Source) :=
  (InputSchemaProtoClass s, (InputSchemaEventTimestampFieldIndex s, (SourceDetails s,
  (InputSchemaTable s, SourceKafka_tup (src_Kafka s)
    (SourceParquetFileDateRange (src_Parquet s), (SourceParquetFilePaths (src_Parquet s), tt)))))).
Definition Source_untup t : Source :=
  let '(c, (i, (d, (ta, rest)))) := t in
  let '(k, (r, (p, tt))) := SourceKafka_untup rest in
  mkSource c i d ta k (mkSourceParquet r p).
Definition dec_Source : dec Source :=
  dec_record "dagger.Source" Source_tup Source_untup
    (fcons ("INPUT_SCHEMA_PROTO_CLASS", dec_string)
      (fcons ("INPUT_SCHEMA_EVENT_TIMESTAMP_FIELD_INDEX", dec_string)
        (fcons ("SOURCE_DETAILS", dec_slice SourceDetail_zero dec_SourceDetail)
          (fcons ("INPUT_SCHEMA_TABLE", dec_string)
            (SourceKafka_fields
              [f ("SOURCE_PARQUET_FILE_DATE_RANGE", dec_any);
                 ("SOURCE_PARQUET_FILE_PATHS", dec_strings)]))))).
Definition enc_Source (s : Source) : json :=
  obj ([mem "INPUT_SCHEMA_PROTO_CLASS" (JStr (InputSchemaProtoClass s));
        mem "INPUT_SCHEMA_EVENT_TIMESTAMP_FIELD_INDEX" (JStr (InputSchemaEventTimestampFieldIndex s));
        mem "SOURCE_DETAILS" (enc_slice enc_SourceDetail (SourceDetails s));
        mem "INPUT_SCHEMA_TABLE" (JStr (InputSchemaTable s))] ++
       SourceKafka_members (src_Kafka s) ++
       [mem "SOURCE_PARQUET_FILE_DATE_RANGE" (enc_any (SourceParquetFileDateRange (src_Parquet s)));
        mem "SOURCE_PARQUET_FILE_PATHS" (enc_slice JStr (SourceParquetFilePaths (src_Parquet s)))]).

Definition Sink_tup (s : Sink) :=
  SinkKafka_tup (snk_Kafka s) (SinkInflux_tup (snk_Influx s) (SinkBigquery_tup (snk_Bigquery s) tt)).
Definition Sink_untup t : Sink :=
  let '(k, rest) := SinkKafka_untup t in
  let '(i, rest) := SinkInflux_untup rest in
  mkSink k i (SinkBigquery_untup rest : _ * ()).1.
Definition dec_Sink : dec Sink :=
  dec_record "dagger.Sink" Sink_tup Sink_untup
    (SinkKafka_fields (SinkInflux_fields (SinkBigquery_fields fnil))).
Definition enc_Sink (s : Sink) : json :=
  obj (SinkKafka_members (snk_Kafka s) ++ SinkInflux_members (snk_Influx s) ++
       SinkBigquery_members (snk_Bigquery s)).

Definition Config_tup (c : Config) :=
  (cfg_Resources c, (cfg_Source c, (cfg_Sink c, (EnvVariables c, (Replicas c, (SinkType c, (Team c,
  (FlinkName c, (DeploymentID c, (Savepoint c, (cfg_ChartValues c, (Deleted c, (Namespace c,
  (PrometheusURL c, (JarURI c, (cfg_State c, (JobState c, (ResetOffset c, (StopTime c,
  (DaggerCheckpointURL c, (DaggerSavepointURL c, (DaggerK8sHAURL c, (CloudProvider c,
  (FSOSSEndpoint c, tt)))))))))))))))))))))))).
Definition Config_untup t : Config :=
  let '(r, (s, (k, (e, (n, (st, (te, (fn, (id, (sp, (cv, (de, (ns, (pu, (ju, (sa, (js, (ro, (sto,
        (cu, (su, (hu, (cp, (fo, tt)))))))))))))))))))))))) := t in
  mkConfig r s k e n st te fn id sp cv de ns pu ju sa js ro sto cu su hu cp fo.

Definition dec_Config : dec Config :=
  dec_record "dagger.Config" Config_tup Config_untup
    [f ("resources", dec_Resources); ("source", dec_slice Source_zero dec_Source); ("sink", dec_Sink);
       ("env_variables", dec_str_map); ("replicas", dec_int); ("sink_type", dec_string);
       ("team", dec_string); ("flink_name", dec_string); ("deployment_id", dec_string);
       ("savepoint", dec_any); ("chart_values", dec_ptr ChartValues_zero dec_ChartValues);
       ("deleted", dec_bool); ("namespace", dec_string); ("prometheus_url", dec_string);
       ("jar_uri", dec_string); ("state", dec_string); ("job_state", dec_string);
       ("reset_offset", dec_string); ("stop_time", dec_ptr zero_time dec_time);
       ("dagger_checkpoint_url", dec_string); ("dagger_savepoint_url", dec_string);
       ("dagger_k8s_ha_url", dec_string); ("cloud_provider", dec_string);
       ("fs_oss_endpoint", dec_string)].

Definition enc_time (t : Time) : json := JStr (time_print t).

Definition no_any (a : any) : bool := match a with ANil => true | _ => false end.

Definition enc_Config (c : Config) : json :=
  obj [mem "resources" (enc_Resources (cfg_Resources c));
       omit (no_list (cfg_Source c)) "source" (enc_slice enc_Source (cfg_Source c));
       mem "sink" (enc_Sink (cfg_Sink c));
       omit (no_map (EnvVariables c)) "env_variables" (enc_map JStr (EnvVariables c));
       mem "replicas" (enc_int (Replicas c)); mem "sink_type" (JStr (SinkType c));
       mem "team" (JStr (Team c)); omit (no_str (FlinkName c)) "flink_name" (JStr (FlinkName c));
       omit (no_str (DeploymentID c)) "deployment_id" (JStr (DeploymentID c));
       omit (no_any (Savepoint c)) "savepoint" (enc_any (Savepoint c));
       omit (no_ptr (cfg_ChartValues c)) "chart_values" (enc_ptr enc_ChartValues (cfg_ChartValues c));
       omit (negb (Deleted c)) "deleted" (JBool (Deleted c));
       omit (no_str (Namespace c)) "namespace" (JStr (Namespace c));
       omit (no_str (PrometheusURL c)) "prometheus_url" (JStr (PrometheusURL c));
       omit (no_str (JarURI c)) "jar_uri" (JStr (JarURI c));
       mem "state" (JStr (cfg_State c)); mem "job_state" (JStr (JobState c));
       mem "reset_offset" (JStr (ResetOffset c));
       omit (no_ptr (StopTime c)) "stop_time" (enc_ptr enc_time (StopTime c));
       omit (no_str (DaggerCheckpointURL c)) "dagger_checkpoint_url" (JStr (DaggerCheckpointURL c));
       omit (no_str (DaggerSavepointURL c)) "dagger_savepoint_url" (JStr (DaggerSavepointURL c));
       omit (no_str (DaggerK8sHAURL c)) "dagger_k8s_ha_url" (JStr (DaggerK8sHAURL c));
       omit (no_str (CloudProvider c)) "cloud_provider" (JStr (CloudProvider c));
       omit (no_str (FSOSSEndpoint c)) "fs_oss_endpoint" (JStr (FSOSSEndpoint c))].

Definition driverConf_tup (c : driverConf) :=
  (dc_Labels c, (dc_Namespace c, (dc_ChartValues c, (dc_EnvVariables c, (dc_Resources c,
  (dc_JarURI c, (dc_DaggerCheckpointURL c, (dc_DaggerSavepointURL c, (dc_DaggerK8sHAURL c,
  (dc_CloudProvider c, (dc_FSOSSEndpoint c, (KubeDeployTimeout c, (dc_NodeAffinity c, tt))))))))))))).
Definition driverConf_untup t : driverConf :=
  let '(l, (n, (cv, (e, (r, (j, (cu, (su, (hu, (cp, (fo, (k, (a, tt))))))))))))) := t in
  mkDriverConf l n cv e r j cu su hu cp fo k a.
Definition dec_driverConf : dec driverConf :=
  dec_record "dagger.driverConf" driverConf_tup driverConf_untup
    [f ("labels", dec_str_map); ("namespace", dec_str_map); ("chart_values", dec_ChartValues);
       ("env_variables", dec_str_map); ("resources", dec_Resources); ("jar_uri", dec_string);
       ("dagger_checkpoint_url", dec_string); ("dagger_savepoint_url", dec_string);
       ("dagger_k8s_ha_url", dec_string); ("cloud_provider", dec_string);
       ("fs_oss_endpoint", dec_string); ("kube_deploy_timeout_seconds", dec_int);
       ("node_affinity_match_expressions", dec_Affinity)].

Definition dec_Exception : dec Exception :=
  dec_record "dagger.Exception" (λ e, (RootException e, (Timestamp e, tt)))
    (λ '(r, (t, tt)), mkException r t)
    [f ("root_exception", dec_string); ("timestamp", dec_ptr zero_time dec_time)].
(** [omitzero] leaves out a time that is the zero time too. *)
Definition no_time (t : option Time) : bool :=
  match t with None => true | Some t => bool_decide (t = zero_time) end.
Definition enc_Exception (e : Exception) : json :=
  obj [omit (no_str (RootException e)) "root_exception" (JStr (RootException e));
       omit (no_time (Timestamp e)) "timestamp" (enc_ptr enc_time (Timestamp e))].

Definition dec_Output : dec Output :=
  dec_record "dagger.Output"
    (λ o, (out_JMDeployStatus o, (out_JobStatus o, (out_State o, (Reconcilation o, (out_Pods o,
          (out_Namespace o, (JobID o, (out_Error o, (Exceptions o, tt))))))))))
    (λ '(jm, (js, (s, (r, (p, (n, (j, (e, (x, tt))))))))), mkOutput jm js s r p n j e x)
    [f ("jm_deploy_status", dec_string); ("job_status", dec_string); ("state", dec_string);
       ("reconcilation", dec_string); ("pods", dec_slice Pod_zero dec_Pod);
       ("namespace", dec_string); ("job_id", dec_string); ("error", dec_string);
       ("exception", dec_Exception)].
Definition enc_Output (o : Output) : json :=
  obj [omit (no_str (out_JMDeployStatus o)) "jm_deploy_status" (JStr (out_JMDeployStatus o));
       omit (no_str (out_JobStatus o)) "job_status" (JStr (out_JobStatus o));
       omit (no_str (out_State o)) "state" (JStr (out_State o));
       omit (no_str (Reconcilation o)) "reconcilation" (JStr (Reconcilation o));
       omit (no_list (out_Pods o)) "pods" (enc_slice enc_Pod (out_Pods o));
       omit (no_str (out_Namespace o)) "namespace" (JStr (out_Namespace o));
       omit (no_str (JobID o)) "job_id" (JStr (JobID o));
       omit (no_str (out_Error o)) "error" (JStr (out_Error o));
       mem "exception" (enc_Exception (Exceptions o))].

Definition dec_transient : dec transientData :=
  dec_record "dagger.transientData" (λ t, (PendingSteps t, (ResetOffsetTo t, tt)))
    (λ '(p, (r, tt)), mkTransient p r)
    [f ("pending_steps", dec_strings); ("reset_offset_to", dec_string)].
Definition enc_transient (t : transientData) : json :=
  obj [mem "pending_steps" (enc_slice JStr (PendingSteps t));
       omit (no_str (ResetOffsetTo t)) "reset_offset_to" (JStr (ResetOffsetTo t))].

(** [JobsOverviewResponse]: the ids of the jobs. *)
Definition dec_Job : dec string :=
  dec_record "dagger.Job" (λ j, (j, tt)) (λ '(j, tt), j) [f ("jid", dec_string)].
Definition dec_JobsOverview : dec (option (list string)) :=
  dec_record "dagger.JobsOverviewResponse" (λ l, (l, tt)) (λ '(l, tt), l)
    [f ("jobs", dec_slice "" dec_Job)].

Definition dec_JobsException : dec JobsExceptionResponse :=
  dec_record "dagger.JobsExceptionResponse" (λ r, (jer_RootException r, (jer_Timestamp r, tt)))
    (λ '(r, (t, tt)), mkJobsException r t)
    [f ("root-exception", dec_string); ("timestamp", dec_int_of 64 "int64")].

(** [SchemaRegistryStencilURLsParams] has one field. *)
Definition dec_StencilURLs : dec string :=
  dec_record "dagger.SchemaRegistryStencilURLsParams" (λ u, (u, tt)) (λ '(u, tt), u)
    [f ("schema_registry_stencil_urls", dec_string)].
End codecs.
