(* ===== verification/DaggerConfig.v ===== *)
(** * DaggerConfig: [config.go] of [modules/dagger]

    Reading a dagger's config against the module's settings and the Flink
    cluster it depends on: names, consumer groups, the environment of its sink. *)

From S2P Require Import Prelude GoLib Errors Resource Module Json Names Validator Kube Kubernetes Flink Charts GoText DaggerTypes.
From Stdlib Require Import Ascii.

#[local] Open Scope Z_scope.

Definition helmReleaseNameMaxLength : Z := 45.
Definition keyFlinkDependency : string := "flink".

Definition keyStreams : string := "STREAMS".
Definition keySinkType : string := "SINK_TYPE".
Definition keyFlinkJobID : string := "FLINK_JOB_ID".
Definition keyFlinkParallelism : string := "FLINK_PARALLELISM".
Definition key_AutoCommitEnable : string := "SOURCE_KAFKA_CONSUMER_CONFIG_AUTO_COMMIT_ENABLE".
Definition key_AutoOffsetReset : string := "SOURCE_KAFKA_CONSUMER_CONFIG_AUTO_OFFSET_RESET".
Definition key_BootstrapServers : string := "SOURCE_KAFKA_CONSUMER_CONFIG_BOOTSTRAP_SERVERS".
Definition SinkTypeInflux : string := "INFLUX".
Definition SinkTypeKafka : string := "KAFKA".
Definition SinkTypeBigquery : string := "BIGQUERY".

(** ** Setters *)

Definition set_EnvVariables (e : gomap string) (c : Config) : Config :=
  mkConfig (cfg_Resources c) (cfg_Source c) (cfg_Sink c) e (Replicas c) (SinkType c) (Team c)
    (FlinkName c) (DeploymentID c) (Savepoint c) (cfg_ChartValues c) (Deleted c) (Namespace c)
    (PrometheusURL c) (JarURI c) (cfg_State c) (JobState c) (ResetOffset c) (StopTime c)
    (DaggerCheckpointURL c) (DaggerSavepointURL c) (DaggerK8sHAURL c) (CloudProvider c)
    (FSOSSEndpoint c).
Definition set_Source (s : option (list Source)) (c : Config) : Config :=
  mkConfig (cfg_Resources c) s (cfg_Sink c) (EnvVariables c) (Replicas c) (SinkType c) (Team c)
    (FlinkName c) (DeploymentID c) (Savepoint c) (cfg_ChartValues c) (Deleted c) (Namespace c)
    (PrometheusURL c) (JarURI c) (cfg_State c) (JobState c) (ResetOffset c) (StopTime c)
    (DaggerCheckpointURL c) (DaggerSavepointURL c) (DaggerK8sHAURL c) (CloudProvider c)
    (FSOSSEndpoint c).
(** The chart and the jar. *)
Definition set_chart (v : option ChartValues) (jar : string) (c : Config) : Config :=
  mkConfig (cfg_Resources c) (cfg_Source c) (cfg_Sink c) (EnvVariables c) (Replicas c) (SinkType c)
    (Team c) (FlinkName c) (DeploymentID c) (Savepoint c) v (Deleted c) (Namespace c)
    (PrometheusURL c) jar (cfg_State c) (JobState c) (ResetOffset c) (StopTime c)
    (DaggerCheckpointURL c) (DaggerSavepointURL c) (DaggerK8sHAURL c) (CloudProvider c)
    (FSOSSEndpoint c).
Definition set_states (state job : string) (c : Config) : Config :=
  mkConfig (cfg_Resources c) (cfg_Source c) (cfg_Sink c) (EnvVariables c) (Replicas c) (SinkType c)
    (Team c) (FlinkName c) (DeploymentID c) (Savepoint c) (cfg_ChartValues c) (Deleted c)
    (Namespace c) (PrometheusURL c) (JarURI c) state job (ResetOffset c) (StopTime c)
    (DaggerCheckpointURL c) (DaggerSavepointURL c) (DaggerK8sHAURL c) (CloudProvider c)
    (FSOSSEndpoint c).
Definition set_ResetOffset (o : string) (c : Config) : Config :=
  mkConfig (cfg_Resources c) (cfg_Source c) (cfg_Sink c) (EnvVariables c) (Replicas c) (SinkType c)
    (Team c) (FlinkName c) (DeploymentID c) (Savepoint c) (cfg_ChartValues c) (Deleted c)
    (Namespace c) (PrometheusURL c) (JarURI c) (cfg_State c) (JobState c) o (StopTime c)
    (DaggerCheckpointURL c) (DaggerSavepointURL c) (DaggerK8sHAURL c) (CloudProvider c)
    (FSOSSEndpoint c).
(** The deployment and the resources that an update restores. *)
Definition set_restored (id : string) (r : Resources) (c : Config) : Config :=
  mkConfig r (cfg_Source c) (cfg_Sink c) (EnvVariables c) (Replicas c) (SinkType c) (Team c)
    (FlinkName c) id (Savepoint c) (cfg_ChartValues c) (Deleted c) (Namespace c) (PrometheusURL c)
    (JarURI c) (cfg_State c) (JobState c) (ResetOffset c) (StopTime c) (DaggerCheckpointURL c)
    (DaggerSavepointURL c) (DaggerK8sHAURL c) (CloudProvider c) (FSOSSEndpoint c).

Definition set_Kafka (k : SourceKafka) (s : Source) : Source :=
  mkSource (InputSchemaProtoClass s) (InputSchemaEventTimestampFieldIndex s) (SourceDetails s)
    (InputSchemaTable s) k (src_Parquet s).

Definition set_group (g : string) (k : SourceKafka) : SourceKafka :=
  mkSourceKafka (SourceKafkaConsumerConfigAutoCommitEnable k)
    (SourceKafkaConsumerConfigAutoOffsetReset k) (SourceKafkaTopicNames k) (SourceKafkaName k) g
    (SourceKafkaConsumerConfigBootstrapServers k).

(** [source.SourceKafkaConsumerConfigGroupID], promoted. *)
Definition group_of (s : Source) : string := SourceKafkaConsumerConfigGroupID (src_Kafka s).

(** [len(s.SourceParquet.SourceParquetFilePaths) > 0] *)
Definition is_parquet (s : Source) : bool := negb (no_list (SourceParquetFilePaths (src_Parquet s))).

(** ** Consumer groups *)

(** The parts before the last hyphen, and the last part. *)
Definition splitNameAndNumber (groupId : string) : list string * string :=
  let parts := Split groupId "-" in
  (take (length parts - 1) parts, default "" (last parts)).

Definition incrementGroupId (groupId : string) (step : Z) : string :=
  let '(name, number) := splitNameAndNumber groupId in
  Join (name ++ [pad4 (wrap64 (atoi_value number + step))]) "-".

(** [a > b] *)
Definition string_gt (a b : string) : bool := String.ltb b a.

Definition max_suffix (source : list Source) : string :=
  foldl (λ acc s,
    let number := (splitNameAndNumber (group_of s)).2 in
    if string_gt number acc then number else acc) "0000" source.

Section config.
Context {GJ : GoJSON} {JS : JSONSchema} {MR : MapRange} {DG : Digests} {W : Type} {VA : VersionAPI W}.

(** The defaults of one Kafka source, and the number of groups made so far. *)
Definition fill_kafka (dc : driverConf) (base : string) (offset : Z) (k : SourceKafka) :
    Z * SourceKafka :=
  let made := bool_decide (SourceKafkaConsumerConfigGroupID k = "") in
  let offset := if made then wrap64 (offset + 1) else offset in
  let env := gm_get (dc_EnvVariables dc) in
  (offset,
   mkSourceKafka
     (or_default (SourceKafkaConsumerConfigAutoCommitEnable k) (env key_AutoCommitEnable))
     (or_default (SourceKafkaConsumerConfigAutoOffsetReset k) (env key_AutoOffsetReset))
     (SourceKafkaTopicNames k) (SourceKafkaName k)
     (if made then incrementGroupId base offset else SourceKafkaConsumerConfigGroupID k)
     (or_default (SourceKafkaConsumerConfigBootstrapServers k) (env key_BootstrapServers))).

Fixpoint fill_sources (dc : driverConf) (base : string) (offset : Z) (source : list Source) :
    list Source :=
  match source with
  | [] => []
  | s :: source =>
      let '(offset, k) := fill_kafka dc base offset (src_Kafka s) in
      set_Kafka k s :: fill_sources dc base offset source
  end.

(** The type of the first source decides for all of them. *)
Definition read_sources (dc : driverConf) (id : string) (source : option (list Source)) :
    go (option (list Source)) :=
  match default [] source with
  | [] => Panic "index out of range [0] with length 0"
  | first :: _ =>
      if is_parquet first then Ok source
      else Ok (fill_sources dc (id +:+ "-" +:+ max_suffix (default [] source)) 0 <$> source)
  end.

(** ** Sinks *)

Definition fill_kafka_sink (dc : driverConf) (k : SinkKafka) : SinkKafka :=
  mkSinkKafka (SinkKafkaBrokers k) (SinkKafkaStream k) (SinkKafkaTopic k) (SinkKafkaProtoMsg k)
    (SinkKafkaLingerMs k) (SinkKafkaProtoKey k)
    (or_default (SinkKafkaProduceLargeMessageEnable k)
       (gm_get (dc_EnvVariables dc) "SINK_KAFKA_PRODUCE_LARGE_MESSAGE_ENABLE")).

Definition kafka_env (k : SinkKafka) : list (string * string) :=
  [("SINK_KAFKA_STREAM", SinkKafkaStream k); ("SINK_KAFKA_BROKERS", SinkKafkaBrokers k);
   ("SINK_KAFKA_PROTO_MESSAGE", SinkKafkaProtoMsg k); ("SINK_KAFKA_TOPIC", SinkKafkaTopic k);
   ("SINK_KAFKA_PROTO_KEY", SinkKafkaProtoKey k); ("SINK_KAFKA_LINGER_MS", SinkKafkaLingerMs k)].

Definition fill_influx_sink (dc : driverConf) (inf : Influx) (i : SinkInflux) : SinkInflux :=
  let env := gm_get (dc_EnvVariables dc) in
  mkSinkInflux (or_default (SinkInfluxBatchSize i) (env "SINK_INFLUX_BATCH_SIZE"))
    (or_default (SinkInfluxDBName i) (inf_DatabaseName inf))
    (or_default (SinkInfluxFlushDurationMs i) (env "SINK_INFLUX_FLUSH_DURATION_MS"))
    (or_default (SinkInfluxPassword i) (inf_Password inf))
    (or_default (SinkInfluxRetentionPolicy i) (env "SINK_INFLUX_RETENTION_POLICY"))
    (or_default (SinkInfluxURL i) (inf_URL inf)) (or_default (SinkInfluxUsername i) (inf_Username inf))
    (SinkInfluxMeasurementName i).

Definition influx_env (i : SinkInflux) : list (string * string) :=
  [("SINK_INFLUX_PASSWORD", SinkInfluxPassword i); ("SINK_INFLUX_URL", SinkInfluxURL i);
   ("SINK_INFLUX_USERNAME", SinkInfluxUsername i);
   ("SINK_INFLUX_FLUSH_DURATION_MS", SinkInfluxFlushDurationMs i);
   ("SINK_INFLUX_RETENTION_POLICY", SinkInfluxRetentionPolicy i);
   ("SINK_INFLUX_BATCH_SIZE", SinkInfluxBatchSize i); ("SINK_INFLUX_DB_NAME", SinkInfluxDBName i);
   ("SINK_INFLUX_MEASUREMENT_NAME", SinkInfluxMeasurementName i)].

Definition fill_bigquery_sink (dc : driverConf) (q : SinkBigquery) : SinkBigquery :=
  let env := gm_get (dc_EnvVariables dc) in
  mkSinkBigquery
    (or_default (SinkBigqueryTablePartitionExpiryMs q) (env "SINK_BIGQUERY_TABLE_PARTITION_EXPIRY_MS"))
    (or_default (SinkBigqueryRowInsertIDEnable q) (env "SINK_BIGQUERY_ROW_INSERT_ID_ENABLE"))
    (or_default (SinkBigqueryClientReadTimeoutMs q) (env "SINK_BIGQUERY_CLIENT_READ_TIMEOUT_MS"))
    (or_default (SinkBigqueryClientConnectTimeoutMs q)
       (env "SINK_BIGQUERY_CLIENT_CONNECT_TIMEOUT_MS"))
    (or_default (SinkBigqueryCredentialPath q) (env "SINK_BIGQUERY_CREDENTIAL_PATH"))
    (SinkBigqueryGoogleCloudProjectID q) (SinkBigqueryTableName q) (SinkBigqueryDatasetLabels q)
    (SinkBigqueryTableLabels q) (SinkBigqueryDatasetName q) (SinkBigqueryTablePartitioningEnable q)
    (SinkBigqueryTablePartitionKey q) (SinkBigqueryDatasetLocation q) (SinkBigqueryBatchSize q)
    (SinkBigqueryTableClusteringEnable q) (SinkBigqueryTableClusteringKeys q)
    (SinkErrorTypesForFailure q) (SinkConnectorSchemaProtoMessageClass q).

Definition bigquery_env (q : SinkBigquery) : list (string * string) :=
  [("SINK_BIGQUERY_ROW_INSERT_ID_ENABLE", SinkBigqueryRowInsertIDEnable q);
   ("SINK_BIGQUERY_CLIENT_READ_TIMEOUT_MS", SinkBigqueryClientReadTimeoutMs q);
   ("SINK_BIGQUERY_CLIENT_CONNECT_TIMEOUT_MS", SinkBigqueryClientConnectTimeoutMs q);
   ("SINK_BIGQUERY_TABLE_PARTITION_EXPIRY_MS", SinkBigqueryTablePartitionExpiryMs q);
   ("SINK_BIGQUERY_CREDENTIAL_PATH", SinkBigqueryCredentialPath q);
   ("SINK_BIGQUERY_GOOGLE_CLOUD_PROJECT_ID", SinkBigqueryGoogleCloudProjectID q);
   ("SINK_BIGQUERY_DATASET_NAME", SinkBigqueryDatasetName q);
   ("SINK_BIGQUERY_TABLE_NAME", SinkBigqueryTableName q);
   ("SINK_BIGQUERY_DATASET_LABELS", SinkBigqueryDatasetLabels q);
   ("SINK_BIGQUERY_TABLE_LABELS", SinkBigqueryTableLabels q);
   ("SINK_BIGQUERY_TABLE_PARTITIONING_ENABLE", SinkBigqueryTablePartitioningEnable q);
   ("SINK_BIGQUERY_TABLE_PARTITION_KEY", SinkBigqueryTablePartitionKey q);
   ("SINK_BIGQUERY_DATASET_LOCATION", SinkBigqueryDatasetLocation q);
   ("SINK_BIGQUERY_BATCH_SIZE", SinkBigqueryBatchSize q);
   ("SINK_BIGQUERY_TABLE_CLUSTERING_ENABLE", SinkBigqueryTableClusteringEnable q);
   ("SINK_BIGQUERY_TABLE_CLUSTERING_KEYS", SinkBigqueryTableClusteringKeys q);
   ("SINK_ERROR_TYPES_FOR_FAILURE", SinkErrorTypesForFailure q);
   ("SINK_CONNECTOR_SCHEMA_PROTO_MESSAGE_CLASS", SinkConnectorSchemaProtoMessageClass q)].

Definition fill_sink (dc : driverConf) (inf : Influx) (type : string) (s : Sink) : Sink :=
  if decide (type = SinkTypeKafka) then
    mkSink (fill_kafka_sink dc (snk_Kafka s)) (snk_Influx s) (snk_Bigquery s)
  else if decide (type = SinkTypeInflux) then
    mkSink (snk_Kafka s) (fill_influx_sink dc inf (snk_Influx s)) (snk_Bigquery s)
  else if decide (type = SinkTypeBigquery) then
    mkSink (snk_Kafka s) (snk_Influx s) (fill_bigquery_sink dc (snk_Bigquery s))
  else s.

(** The assignments to the environment, in order. *)
Definition sink_env (type : string) (s : Sink) : list (string * string) :=
  (keySinkType, type) ::
  (if decide (type = SinkTypeKafka) then kafka_env (snk_Kafka s)
   else if decide (type = SinkTypeInflux) then influx_env (snk_Influx s)
   else if decide (type = SinkTypeBigquery) then bigquery_env (snk_Bigquery s)
   else []).

Definition put_all (l : list (string * string)) (m : gomap string) : go (gomap string) :=
  res_fold (λ m kv, map_put kv.1 kv.2 m) m l.

(** ** [readConfig] *)

Definition mergeUsage (old new : UsageSpec) : UsageSpec :=
  mkUsage (or_default (CPU new) (CPU old)) (or_default (Memory new) (Memory old)).

Definition mergeResources (oldResources newResources : Resources) : Resources :=
  mkResources (mergeUsage (TaskManager oldResources) (TaskManager newResources))
    (mergeUsage (JobManager oldResources) (JobManager newResources)).

Definition read_DeploymentID (r : Resource) (id : string) : go string :=
  if (String.length id =? 0)%nat
  then BuildResourceName "dagger" (Resource.Name r) (Project r) helmReleaseNameMaxLength
  else if helmReleaseNameMaxLength <? Z.of_nat (String.length id)
  then Err (EErr (WithMsgf ErrInvalid "deployment_id must not have more than 53 chars"))
  else Ok id.

Definition read_flinkOut (why : string) (exr : ExpandedResource) : go flink_Output :=
  on_err (Unmarshal dec_flink_Output (dep_output (exr_Dependencies exr) keyFlinkDependency)
            flink_Output_zero)
    (caused (WithMsgf ErrInternal why)).

(** The environment of the config: the sink's, over the request's, over the
    module's. *)
Definition read_env (dc : driverConf) (r : Resource) (type : string) (s : Sink) (env : gomap string) :
    go (gomap string) :=
  env ← put_all (sink_env type s) env;
  let env := CloneAndMergeMaps (dc_EnvVariables dc) env in
  job ← BuildResourceName "dagger" (Resource.Name r) (Project r) MaxInt;
  env ← map_put keyFlinkJobID job env;
  Ok (Some (delete key_AutoCommitEnable (delete key_AutoOffsetReset (gm env)))).

(** The config as it is returned: with what was read above, the resources, the
    names of the Flink cluster and the settings of the module. *)
Definition completed (dc : driverConf) (flink : Flink.Config) (cfg : Config) (id : string)
    (source : option (list Source)) (sink : Sink) (env : gomap string) : Config :=
  mkConfig (mergeResources (dc_Resources dc) (cfg_Resources cfg)) source sink env
    (if Replicas cfg <=? 0 then 1 else Replicas cfg) (SinkType cfg) (Team cfg)
    (Flink.FlinkName flink) id (Savepoint cfg) (cfg_ChartValues cfg) (Deleted cfg)
    (KubeNamespace flink) (Flink.PrometheusURL flink) (JarURI cfg) (cfg_State cfg)
    (JobState cfg) (ResetOffset cfg) (StopTime cfg) (dc_DaggerCheckpointURL dc)
    (dc_DaggerSavepointURL dc) (dc_DaggerK8sHAURL dc) (or_default (dc_CloudProvider dc) "gcp")
    (dc_FSOSSEndpoint dc).

(** The embedded [schema/config.json]. *)
Variable configSchemaRaw : string.

Definition readConfig (exr : ExpandedResource) (confJSON : RawMessage) (dc : driverConf) : go Config :=
  let r := exr_Resource exr in
  cfg ← on_err (Unmarshal dec_Config confJSON Config_zero)
          (caused (WithMsgf ErrInvalid "invalid config json"));
  id ← read_DeploymentID r (DeploymentID cfg);
  source ← read_sources dc id (cfg_Source cfg);
  flinkOut ← read_flinkOut "invalid flink state" exr;
  let flink := fo_Config flinkOut in
  let sink := fill_sink dc (cfg_Influx flink) (SinkType cfg) (cfg_Sink cfg) in
  env ← read_env dc r (SinkType cfg) sink (EnvVariables cfg);
  _ ← FromJSONSchema configSchemaRaw confJSON;
  Ok (completed dc flink cfg id source sink env).
End config.
