(* ===== verification/Dagger.v ===== *)
(** * Dagger: the driver of [modules/dagger]

    [driver.go], [driver_plan.go], [driver_sync.go], [driver_output.go],
    [driver_log.go] and [module.go]: Flink jobs deployed as releases whose
    custom resource the Flink operator runs. *)

From S2P Require Import Prelude GoLib Errors Resource Module Json Names Validator Kube Kubernetes Flink Helm ConsumerReset Charts GoText KubeCRD DaggerTypes DaggerConfig.
From Stdlib Require Import Ascii.

#[local] Open Scope Z_scope.

Definition stepReleaseCreate : string := "release_create".
Definition stepReleaseUpdate : string := "release_update".
Definition stepReleaseStop : string := "release_stop".
Definition stepKafkaReset : string := "kafka_reset".
Definition chartRepo : string := "https://goto.github.io/charts/".
Definition chartName : string := "dagger-deployment-chart".
Definition labelsConfKey : string := "extra_labels".
Definition labelDeployment : string := "deployment".
Definition labelOrchestrator : string := "orchestrator".
Definition labelJobState : string := "job_state".
Definition labelState : string := "state".
Definition orchestratorLabelValue : string := "entropy".
Definition daggerTaintKey : string := "dagger".
Definition JobStateRunning : string := "running".
Definition JobStateSuspended : string := "suspended".
Definition StateDeployed : string := "DEPLOYED".
Definition StateUserStopped : string := "USER_STOPPED".
Definition StateSystemStopped : string := "SYSTEM_STOPPED".
Definition KeySchemaRegistryStencilCacheAutoRefresh : string :=
  "SCHEMA_REGISTRY_STENCIL_CACHE_AUTO_REFRESH".
Definition KeySchemaRegistryStencilURLs : string := "SCHEMA_REGISTRY_STENCIL_URLS".
Definition StopAction : string := "stop".
Definition StartAction : string := "start".
Definition ResetAction : string := "reset".

Definition defaultDriverConf : driverConf :=
  mkDriverConf None (Some {["default" := "dagger"]}) (mkChartValues "" "" "0.1.0" "") None
    Resources_zero "" "" "" "" "" "" 0 (mkAffinity None None).

Record daggerDriver `{VA : VersionAPI W} := mkDriver {
  timeNow : W → Time;
  conf : driverConf;
  kubeDeploy : bool → Kube.Config → ReleaseConfig → io W ();
  kubeGetPod : Kube.Config → string → gomap string → io W (option (list Pod));
  kubeGetCRD : Kube.Config → string → string → io W FlinkDeploymentStatus;
  consumerReset : Config → string → go (option (list Source));
  (** namespace, scheme, service, port, path *)
  kubeProxyService : Kube.Config → string → string → string → string → string → io W RawMessage;
}.

Arguments daggerDriver W {VA}.

Section release.
Context {GJ : GoJSON} {JS : JSONSchema} {MR : MapRange} {DG : Digests} {TP : Template}
  {UC : Unicode} {W : Type} {VA : VersionAPI W}.

(** [*cur], with the fields that [*newVal] gives; [cur] is written in place. *)
Definition mergeChartValues (cur newVal : option ChartValues) : go (option ChartValues) :=
  match newVal, cur with
  | None, _ => Ok cur
  | Some v, Some c =>
      Ok (Some (mkChartValues (or_default (ImageRepository v) (ImageRepository c))
                  (or_default (ImageTag v) (ImageTag c)) (or_default (ChartVersion v) (ChartVersion c))
                  (or_default (ImagePullPolicy v) (ImagePullPolicy c))))
  | Some v, None => if decide (v = ChartValues_zero) then Ok None else nil_deref
  end.

Definition readOutputData (exr : ExpandedResource) : go Output :=
  let out := Resource.Output (res_State (exr_Resource exr)) in
  if (raw_len out =? 0)%nat then Ok Output_zero
  else on_err (Unmarshal dec_Output out Output_zero) (caused (WithMsgf ErrInternal "corrupted output")).

Definition readTransientData (exr : ExpandedResource) : go transientData :=
  let data := ModuleData (res_State (exr_Resource exr)) in
  if (raw_len data =? 0)%nat then Ok transient_zero
  else on_err (Unmarshal dec_transient data transient_zero)
         (caused (WithMsgf ErrInternal "corrupted transient data")).

(** ** The release *)

Definition entropyLabels (c : Config) : gomap string :=
  Some (list_to_map [(labelDeployment, DeploymentID c); (labelOrchestrator, orchestratorLabelValue)]).

Definition otherLabels (res : Resource) (c : Config) : gomap string :=
  Some (list_to_map [("urn", URN res); ("name", Resource.Name res); ("namespace", Namespace c)]).

(** The environment as a quoted list of flags, in base64. *)
Definition program_args (env : gomap string) : string :=
  "[" +:+ Join (range (gm env) ≫= λ kv, [Quote ("--" +:+ kv.1); Quote kv.2]) "," +:+ "]".

Definition encodedProgramArgs (env : gomap string) : string := EncodeToString (program_args env).

Definition usage_value (u : UsageSpec) : any :=
  vmap [("cpu", AStr (CPU u)); ("memory", AStr (Memory u))].

Definition chart_values (dc : driverConf) (res : Resource) (c : Config) (cv : ChartValues)
    (env labels : gomap string) (tolerations : list any) (affinity : any) (name : string) :
    gmap string any :=
  list_to_map
    [(labelsConfKey, AStrMap (CloneAndMergeMaps labels (entropyLabels c)));
     ("image", AStr (or_default (ImageRepository cv) (ImageRepository (dc_ChartValues dc))));
     ("deployment_id", AStr (DeploymentID c));
     ("configuration", vmap [("FLINK_PARALLELISM", AInt (Replicas c))]);
     ("projectID", AStr (Project res)); ("name", AStr name); ("team", AStr (Team c));
     ("flink_name", AStr (FlinkName c)); ("prometheus_url", AStr (PrometheusURL c));
     ("resources", vmap [("jobmanager", usage_value (JobManager (cfg_Resources c)));
                         ("taskmanager", usage_value (TaskManager (cfg_Resources c)))]);
     ("jarURI", AStr (JarURI c));
     ("programArgs", AStrs (Some ["--encodedArgs"; encodedProgramArgs env]));
     ("state", AStr (JobState c)); ("namespace", AStr (Namespace c)); ("urn", AStr (URN res));
     ("dagger_checkpoint_url", AStr (DaggerCheckpointURL c));
     ("dagger_savepoint_url", AStr (DaggerSavepointURL c));
     ("dagger_k8s_ha_url", AStr (DaggerK8sHAURL c)); ("cloud_provider", AStr (CloudProvider c));
     ("fs_oss_endpoint", AStr (FSOSSEndpoint c)); ("tolerations", AList tolerations);
     ("nodeAffinityMatchExpressions", affinity)].

(** The release, and the environment that is written in place. *)
Definition getHelmRelease (dc : driverConf) (res : Resource) (c : Config) (kubeOut : Kubernetes.Output) :
    go (ReleaseConfig * gomap string) :=
  deploymentLabels ← renderTpl (dc_Labels dc)
    (CloneAndMergeMaps (Labels res) (CloneAndMergeMaps (entropyLabels c) (otherLabels res c)));
  cv ← match cfg_ChartValues c with Some cv => Ok cv | None => nil_deref end;
  env ← map_put keySinkType (ToLower (gm_get (EnvVariables c) keySinkType)) (EnvVariables c);
  let tolerations := default [] (mjoin (gm (Tolerations (out_Driver kubeOut)) !! daggerTaintKey)) in
  let affinity := affinity_values (dc_NodeAffinity dc)
                    (gm (Affinities (out_Driver kubeOut)) !! daggerTaintKey) in
  name ← BuildResourceName "dagger" (Resource.Name res) (Project res) MaxInt;
  let d := DefaultReleaseConfig in
  Ok (mkReleaseConfig (DeploymentID c) chartRepo chartName (ChartVersion cv)
        (chart_values dc res c cv env deploymentLabels (toleration_value <$> tolerations) affinity name)
        (Namespace c) (KubeDeployTimeout dc) true (RecreatePods d) (Wait d) (WaitForJobs d)
        (Replace d) (Description d) (CreateNamespace d), env).
End release.

(** ** [module.go]: resetting the consumer groups *)

(** Every source gets a group of its own, numbered on from the largest. *)
Fixpoint reset_sources (base resetTo : string) (offset : Z) (source : list Source) : list Source :=
  match source with
  | [] => []
  | s :: source =>
      let offset := wrap64 (offset + 1) in
      let k := src_Kafka s in
      set_Kafka (mkSourceKafka (SourceKafkaConsumerConfigAutoCommitEnable k) resetTo
                   (SourceKafkaTopicNames k) (SourceKafkaName k) (incrementGroupId base offset)
                   (SourceKafkaConsumerConfigBootstrapServers k)) s
      :: reset_sources base resetTo offset source
  end.

Definition base_group (first : Source) (source : list Source) : string :=
  foldl (λ acc s, if string_gt (group_of s) acc then group_of s else acc) (group_of first) source.

Definition consumer_reset (c : Config) (resetTo : string) : go (option (list Source)) :=
  match default [] (cfg_Source c) with
  | [] => Panic "index out of range [0] with length 0"
  | first :: _ =>
      if is_parquet first then Ok (cfg_Source c)
      else Ok (reset_sources (base_group first (default [] (cfg_Source c))) resetTo 0 <$> cfg_Source c)
  end.

Section plan.
Context {GJ : GoJSON} {JS : JSONSchema} {MR : MapRange} {DG : Digests} {TP : Template}
  {UC : Unicode} {W : Type} {VA : VersionAPI W}.
Variable configSchemaRaw : string.

Abbreviation readConfig := (readConfig configSchemaRaw) (only parsing).

(** ** [driver_plan.go] *)

Definition validateHelmReleaseConfigs (dc : driverConf) (exr : ExpandedResource) (r : Resource)
    (c : Config) : go () :=
  flinkOut ← read_flinkOut "invalid kube state" exr;
  _ ← getHelmRelease dc r c (fo_KubeCluster flinkOut);
  Ok tt.

Definition pending (output : RawMessage) (steps : list string) (resetTo : string) (now : Time) : State :=
  mkState StatusPending output (MustJSON (enc_transient (mkTransient (Some steps) resetTo)))
    (Some now) SyncResult_zero.

(** The variables that are made from the config. *)
Definition put_streams (c : Config) : go Config :=
  env ← put_all [(keyStreams, json_print (enc_slice enc_Source (cfg_Source c)));
                 (keyFlinkParallelism, Sprint (Replicas c))] (EnvVariables c);
  Ok (set_EnvVariables env c).

Definition put_states (c : Config) (labels : gomap string) : go (gomap string) :=
  put_all [(labelJobState, JobState c); (labelState, cfg_State c)] labels.

Definition with_chart (cv : option ChartValues) (dc : driverConf) : driverConf :=
  mkDriverConf (dc_Labels dc) (dc_Namespace dc) (default (dc_ChartValues dc) cv) (dc_EnvVariables dc)
    (dc_Resources dc) (dc_JarURI dc) (dc_DaggerCheckpointURL dc) (dc_DaggerSavepointURL dc)
    (dc_DaggerK8sHAURL dc) (dc_CloudProvider dc) (dc_FSOSSEndpoint dc) (KubeDeployTimeout dc)
    (dc_NodeAffinity dc).

Definition planCreate (dc : driverConf) (exr : ExpandedResource) (act : ActionRequest) (now : Time) :
    go Resource :=
  c ← readConfig exr (Params act) dc;
  c ← put_streams c;
  chartVals ← mergeChartValues (Some (dc_ChartValues dc)) (cfg_ChartValues c);
  let dc := with_chart chartVals dc in
  let c := set_states (or_default (cfg_State c) StateDeployed) (or_default (JobState c) JobStateRunning)
             (set_chart chartVals (dc_JarURI dc) c) in
  labels ← put_states c (Labels (exr_Resource exr));
  let r := set_Configs (MustJSON (enc_Config c)) (set_Labels labels (exr_Resource exr)) in
  _ ← validateHelmReleaseConfigs dc exr r c;
  let out := mkOutput "" "" "" "" None (Namespace c) "" "" Exception_zero in
  Ok (Resource.set_State (pending (MustJSON (enc_Output out)) [stepReleaseCreate] "" now) r).

(** The groups of the sources that keep their place and name. *)
Fixpoint keep_groups (cur new : list Source) : list Source :=
  match cur, new with
  | c :: cur, n :: new =>
      (if is_parquet c then n
       else if decide (SourceKafkaName (src_Kafka c) = SourceKafkaName (src_Kafka n))
       then set_Kafka (set_group (group_of c) (src_Kafka n)) n else n)
      :: keep_groups cur new
  | _, _ => new
  end.

Definition mergeConsumerGroupId (currStreams newStreams : option (list Source)) : option (list Source) :=
  if (length (default [] currStreams) =? length (default [] newStreams))%nat
  then keep_groups (default [] currStreams) <$> newStreams
  else newStreams.

Definition updateStencilSchemaRegistryURLsParams (c : Config) (params : RawMessage) : go Config :=
  if decide (gm_get (EnvVariables c) KeySchemaRegistryStencilCacheAutoRefresh = "false") then
    urls ← Unmarshal dec_StencilURLs params "";
    if decide (urls = "") then Ok c
    else env ← map_put KeySchemaRegistryStencilURLs urls (EnvVariables c); Ok (set_EnvVariables env c)
  else Ok c.

(** The new config of an update. *)
Definition change_update (dc : driverConf) (exr : ExpandedResource) (params : RawMessage)
    (curConf : Config) : go Config :=
  newConf ← readConfig exr params dc;
  let newConf := set_Source (mergeConsumerGroupId (cfg_Source curConf) (cfg_Source newConf)) newConf in
  newConf ← put_streams newConf;
  chartVals ← mergeChartValues (cfg_ChartValues curConf) (Some (dc_ChartValues dc));
  let newConf := set_chart chartVals (dc_JarURI dc) newConf in
  let newConf := set_states (or_default (cfg_State newConf) (cfg_State curConf))
                   (or_default (JobState newConf) (JobState curConf)) newConf in
  Ok (set_restored (DeploymentID curConf) (mergeResources (cfg_Resources curConf) (cfg_Resources newConf))
        newConf).

Definition change_config (dc : driverConf) (exr : ExpandedResource) (act : ActionRequest)
    (curConf : Config) : go Config :=
  let name := act_Name act in
  if decide (name = UpdateAction) then change_update dc exr (Params act) curConf
  else if decide (name = StopAction) then
    Ok (set_states StateUserStopped JobStateSuspended curConf)
  else if decide (name = StartAction) then
    updateStencilSchemaRegistryURLsParams
      (set_chart (Some (dc_ChartValues dc)) (dc_JarURI dc)
         (set_states StateDeployed JobStateRunning curConf)) (Params act)
  else Ok curConf.

Definition planChange (dc : driverConf) (exr : ExpandedResource) (act : ActionRequest) (now : Time) :
    go Resource :=
  let res := exr_Resource exr in
  curConf ← readConfig exr (Configs (res_Spec res)) dc;
  c ← change_config dc exr act curConf;
  labels ← put_states c (match act_Labels act with None => Labels res | l => l end);
  let r := set_Configs (MustJSON (enc_Config c)) (set_Labels labels res) in
  _ ← validateHelmReleaseConfigs dc exr r c;
  Ok (Resource.set_State (pending (Resource.Output (res_State res)) [stepReleaseUpdate] "" now) r).

Definition planReset (reset : Config → string → go (option (list Source))) (dc : driverConf)
    (exr : ExpandedResource) (act : ActionRequest) (now : Time) : go Resource :=
  let res := exr_Resource exr in
  resetValue ← ParseResetV2Params (Params act);
  curConf ← readConfig exr (Configs (res_Spec res)) dc;
  curConf ← updateStencilSchemaRegistryURLsParams curConf (Params act);
  let curConf := set_ResetOffset resetValue curConf in
  source ← reset curConf resetValue;
  env ← map_put keyStreams (json_print (enc_slice enc_Source source)) (EnvVariables curConf);
  let c := set_chart (Some (dc_ChartValues dc)) (dc_JarURI dc)
             (set_EnvVariables env (set_Source source curConf)) in
  Ok (Resource.set_State
        (pending (Resource.Output (res_State res)) [stepKafkaReset] resetValue now)
        (set_Configs (MustJSON (enc_Config c)) res)).

Definition dagger_Plan (dd : daggerDriver W) (exr : ExpandedResource) (act : ActionRequest) :
    io W Resource := λ w,
  let plan :=
    if decide (act_Name act = CreateAction) then planCreate
    else if decide (act_Name act = ResetAction) then planReset (consumerReset dd)
    else planChange in
  (plan (conf dd) exr act (timeNow dd w), w).

(** ** [driver_output.go] *)

(** [time.Unix] of milliseconds, counted from the zero time. *)
Definition unix_epoch : Time := 62135596800 * Second.
Definition of_unix_ms (ms : Z) : Time :=
  unix_epoch + Z.quot ms 1000 * Second + Z.rem ms 1000 * Millisecond.

Definition getFlinkExceptions (dd : daggerDriver W) (kc : Kube.Config) (namespace name : string) :
    io W Exception :=
  let get := kubeProxyService dd kc namespace "http" (name +:+ "-rest") "8081" in
  jobsResponseRaw ← get "jobs/overview";
  jobs ← lift (on_err (Unmarshal dec_JobsOverview jobsResponseRaw None)
           (caused (WithMsgf ErrInternal "failed to unmarshal jobs overview response")));
  match default [] jobs with
  | [] => mret Exception_zero
  | jobId :: _ =>
      exceptionResponseRaw ← get ("jobs/" +:+ jobId +:+ "/exceptions");
      e ← lift (on_err (Unmarshal dec_JobsException exceptionResponseRaw (mkJobsException "" 0))
            (caused (WithMsgf ErrInternal
               ("failed to unmarshal jobs exception response for job " +:+ jobId))));
      mret (mkException (jer_RootException e) (Some (of_unix_ms (jer_Timestamp e))))
  end.

(** The encoder panics ([MustJSON]) on a time that RFC 3339 cannot write. *)
Definition marshal_Output (o : Output) : go RawMessage :=
  match Timestamp (Exceptions o) with
  | Some t => if bool_decide (t = zero_time) || time_wf t then Ok (MustJSON (enc_Output o))
              else Panic "json: error calling MarshalJSON for type *time.Time"
  | None => Ok (MustJSON (enc_Output o))
  end.

(** What is shown of the operator's job status. *)
Definition shown_state (jobStatus : string) : string :=
  if decide (jobStatus = "FINISHED") then "CANCELED"
  else if decide (jobStatus = "RUNNING") then "RUNNING"
  else "INITIALIZING".

Definition getKubeResources (dd : daggerDriver W) (kc : Kube.Config) (namespace name id : string) :
    io W (option (list Pod) * FlinkDeploymentStatus) :=
  pods ← kubeGetPod dd kc namespace (Some {["app" := id]});
  crd ← kubeGetCRD dd kc namespace name;
  mret (pods, crd).

(** The exceptions of a job that is meant to run. *)
Definition output_exceptions (dd : daggerDriver W) (c : Config) (kc : Kube.Config)
    (namespace name : string) : io W Exception :=
  if bool_decide (cfg_State c = StateDeployed) && negb (bool_decide (JobState c = JobStateSuspended)) then
    out ← attempt (getFlinkExceptions dd kc namespace name);
    match out with
    | inl err => mret (mkException ("Failed to fetch exceptions: " +:+ error_string err) None)
    | inr exc => mret (if decide (RootException exc = "") then Exception_zero else exc)
    end
  else mret Exception_zero.

Definition refreshOutput (dd : daggerDriver W) (r : Resource) (c : Config) (output : Output)
    (kubeOut : Kubernetes.Output) : io W RawMessage :=
  let kc := out_Configs kubeOut in
  rc ← lift (getHelmRelease (conf dd) r c kubeOut);
  let name := rel_Name rc.1 in
  let namespace := rel_Namespace rc.1 in
  found ← attempt (getKubeResources dd kc namespace name (DeploymentID c));
  match found with
  | inl err =>
      mret (MustJSON (enc_Output
        (mkOutput "" "" "" "" None "" "" (error_string err) Exception_zero)))
  | inr (pods, crd) =>
      exc ← output_exceptions dd c kc namespace name;
      lift (marshal_Output
        (mkOutput (JMDeployStatus crd) (JobStatus crd) (shown_state (JobStatus crd))
           (Reconciliation crd) pods (Namespace c) (DeploymentID c) "" exc))
  end.

(** ** [driver_sync.go] *)

Definition releaseSync (dd : daggerDriver W) (r : Resource) (isCreate : bool) (c : Config)
    (kubeOut : Kubernetes.Output) : io W Config :=
  rc ← lift (getHelmRelease (conf dd) r c kubeOut);
  _ ← catch (kubeDeploy dd isCreate (out_Configs kubeOut) rc.1) (caused ErrInternal);
  mret (set_EnvVariables rc.2 c).

Definition known_steps : list string :=
  [stepReleaseCreate; stepReleaseUpdate; stepReleaseStop; stepKafkaReset].

Definition sync_step (dd : daggerDriver W) (r : Resource) (c : Config) (kubeOut : Kubernetes.Output)
    (step : string) : io W () :=
  if bool_decide (step ∈ known_steps) then
    _ ← releaseSync dd r (bool_decide (step = stepReleaseCreate)) c kubeOut;
    mret tt
  else throw (EErr (WithMsgf ErrInternal ("unknown step: '" +:+ step +:+ "'"))).

Definition read_clock (dd : daggerDriver W) : io W Time := λ w, (Ok (timeNow dd w), w).

Definition is_due (stop : option Time) (now : Time) : bool :=
  match stop with Some t => t <? now | None => false end.

(** With no step left: a dagger whose time has come is suspended. *)
Definition finish_sync (dd : daggerDriver W) (res : Resource) (c : Config) (out : Output)
    (kubeOut : Kubernetes.Output) : io W State :=
  now ← (match StopTime c with None => mret 0 | Some _ => read_clock dd end);
  let due := is_due (StopTime c) now in
  c' ← (if due then releaseSync dd res false (set_states StateSystemStopped JobStateSuspended c) kubeOut
        else mret c);
  finalOut ← refreshOutput dd res c' out kubeOut;
  mret (mkState StatusCompleted finalOut None (if due then None else StopTime c) SyncResult_zero).

Definition dagger_Sync (dd : daggerDriver W) (exr : ExpandedResource) : io W State :=
  let res := exr_Resource exr in
  modData ← lift (readTransientData exr);
  out ← lift (on_err (readOutputData exr) (caused ErrInternal));
  c ← lift (on_err (readConfig exr (Configs (res_Spec res)) (conf dd)) (caused ErrInternal));
  flinkOut ← lift (read_flinkOut "invalid flink state" exr);
  let kubeOut := fo_KubeCluster flinkOut in
  match default [] (PendingSteps modData) with
  | pendingStep :: steps =>
      _ ← sync_step dd res c kubeOut pendingStep;
      immediately ← read_clock dd;
      mret (pending (Resource.Output (res_State res)) steps (ResetOffsetTo modData) immediately)
  | [] => finish_sync dd res c out kubeOut
  end.

Definition dagger_Output (dd : daggerDriver W) (exr : ExpandedResource) : io W RawMessage :=
  let res := exr_Resource exr in
  output ← lift (readOutputData exr);
  c ← lift (on_err (readConfig exr (Configs (res_Spec res)) (conf dd)) (caused ErrInternal));
  flinkOut ← lift (read_flinkOut "invalid kube state" exr);
  refreshOutput dd res c output (fo_KubeCluster flinkOut).

(** ** [driver_log.go] *)

Definition dagger_Log {KA : KubeAPI W} (dd : daggerDriver W) (exr : ExpandedResource)
    (filter : gomap string) : io W LogStream :=
  let res := exr_Resource exr in
  c ← lift (on_err (readConfig exr (Configs (res_Spec res)) (conf dd)) (caused ErrInternal));
  let filter := Some (<["container" := "flink-main-container"]>
                        (<["app" := DeploymentID c]> (gm filter))) in
  flinkOut ← lift (read_flinkOut "invalid flink state" exr);
  kubeCl ← catch (NewClient (out_Configs (fo_KubeCluster flinkOut))) (caused (WithMsgf ErrInternal
    "failed to create new kube client on firehose driver Log"));
  logs ← client_StreamLogs kubeCl (Namespace c) filter;
  mret ((λ ch, mkLogChunk (chunk_Data ch) (Kube.chunk_Labels ch)) <$> logs).

Definition dagger_driver {KA : KubeAPI W} (dd : daggerDriver W) : Driver W := {|
  Plan := dagger_Plan dd;
  Sync := dagger_Sync dd;
  drv_Output := dagger_Output dd;
  Log := Some (dagger_Log dd);
|}.
End plan.

(** ** [module.go] *)

Section module.
Context {GJ : GoJSON} {JS : JSONSchema} {MR : MapRange} {DG : Digests} {TP : Template}
  {UC : Unicode} {W : Type} {KA : KubeAPI W} {VA : VersionAPI W} {HA : HelmAPI W} {CA : CRDAPI W}
  {TV : TagValidator driverConf}.
Variable configSchemaRaw : string.
Variable time_Now : W → Time.

Definition canUpdate (hc : ReleaseConfig) (rel : release) : bool :=
  match release_Config rel !! labelsConfKey, Values hc !! labelsConfKey with
  | Some (AMap curLabels), Some (AStrMap newLabels) =>
      let says k s := match curLabels !! k with
                    | Some (AStr s') => bool_decide (s' = s)
                    | _ => false
                    end in
      says labelOrchestrator orchestratorLabelValue && says labelDeployment (gm_get newLabels labelDeployment)
  | _, _ => false
  end.

Definition kube_deploy (isCreate : bool) (kubeConf : Kube.Config) (hc : ReleaseConfig) : io W () :=
  _ ← Upsert kubeConf hc (canUpdate hc);
  mret tt.

Definition kube_get_pod (kc : Kube.Config) (ns : string) (labels : gomap string) :
    io W (option (list Pod)) :=
  kubeCl ← catch (NewClient kc) (caused (WithMsgf ErrInternal
    "failed to create new kube client on firehose driver kube get pod"));
  GetPodDetails kubeCl ns labels
    (λ p, bool_decide (kp_Phase p = "Running") && bool_decide (kp_DeletionTimestamp p = None)).

(** [m[key].(string)], and [m[key].(map[string]interface{})[state].(string)]:
    empty when the value has another type. *)
Definition text_at (m : gmap string any) (key : string) : string :=
  match m !! key with Some (AStr s) => s | _ => "" end.
Definition state_at (m : gmap string any) (key : string) : string :=
  match m !! key with Some (AMap m) => text_at m "state" | _ => "" end.

Definition parseFlinkCRDStatus (flinkDeployment : gmap string any) : go FlinkDeploymentStatus :=
  match flinkDeployment !! "status" with
  | Some (AMap status) =>
      Ok (mkFlinkStatus "" (text_at status "jobManagerDeploymentStatus") (state_at status "jobStatus")
            (state_at status "reconciliationStatus"))
  | _ => Err (EErr (WithMsgf ErrInternal
           "failed to convert flink deployment status to map[string]interface{}"))
  end.

Definition kube_get_crd (kc : Kube.Config) (ns name : string) : io W FlinkDeploymentStatus :=
  kubeCl ← catch (NewClient kc) (caused (WithMsgf ErrInternal
    "failed to create new kube client on firehose driver kube get pod"));
  crd ← GetCRDDetails kubeCl ns name;
  lift (parseFlinkCRDStatus crd).

Definition kube_proxy_service (kc : Kube.Config) (namespace scheme service port path : string) :
    io W RawMessage :=
  kubeCl ← catch (NewClient kc) (caused (WithMsgf ErrInternal
    "failed to create new kube client on dagger driver kube proxy service"));
  ProxyService kubeCl namespace scheme service port path.

(** [defaultDriverConf], whose namespaces every module's configs are decoded
    into: copying the struct copies the reference. *)
Definition default_conf (namespaces : gomap string) : driverConf :=
  let d := defaultDriverConf in
  mkDriverConf (dc_Labels d) namespaces (dc_ChartValues d) (dc_EnvVariables d) (dc_Resources d)
    (dc_JarURI d) (dc_DaggerCheckpointURL d) (dc_DaggerSavepointURL d) (dc_DaggerK8sHAURL d)
    (dc_CloudProvider d) (dc_FSOSSEndpoint d) (KubeDeployTimeout d) (dc_NodeAffinity d).

(** [DriverFactory], with the default map before and after. *)
Definition dagger_factory (namespaces : gomap string) (confJSON : RawMessage) :
    go (daggerDriver W) * gomap string :=
  match Unmarshal dec_driverConf confJSON (default_conf namespaces) with
  | Ok c =>
      ((_ ← TaggedStruct c;
        Ok (mkDriver W VA time_Now c kube_deploy kube_get_pod kube_get_crd consumer_reset
              kube_proxy_service)),
       match dc_Namespace c with Some _ => dc_Namespace c | None => namespaces end)
  | Err err => (Err err, namespaces)
  | Panic s => (Panic s, namespaces)
  end.

Definition dagger_actions : list ActionDesc :=
  [mkActionDesc CreateAction "Creates a new dagger" "" None;
   mkActionDesc UpdateAction "Updates an existing dagger" "" None;
   mkActionDesc StopAction "Suspends a running dagger" "" None;
   mkActionDesc StartAction "Starts a suspended dagger" "" None;
   mkActionDesc ResetAction "Resets the offset of a dagger" "" None].

Definition dagger_Module (namespaces : gomap string) : Descriptor W := mkDescriptor "dagger"
  dagger_actions (Some {[keyFlinkDependency := "flink"]})
  (λ confJSON, dd ← (dagger_factory namespaces confJSON).1; Ok (dagger_driver configSchemaRaw dd)).
End module.
