(* ===== verification/DaggerProps.v ===== *)
(** * DaggerProps: consumer groups and configs of daggers *)

From S2P Require Import Prelude GoLib Errors Resource Module Json Names Validator Kube Kubernetes Flink Helm ConsumerReset Charts GoText KubeCRD DaggerTypes DaggerConfig Dagger.
From Stdlib Require Import Ascii.

#[local] Open Scope Z_scope.

(** ** Names with a number *)

Lemma split_list_free c l : c ∉ l → split_list c l = [l].
Proof.
  induction l as [|x l IH]; intros Hc; [done|]. apply not_elem_of_cons in Hc as [Hx Hl].
  cbn. rewrite decide_False by done. by rewrite IH.
Qed.

Lemma split_list_nonempty c l : split_list c l ≠ [].
Proof. destruct l as [|x l]; [done|]. cbn. case_decide; [done|]. by destruct (split_list c l). Qed.

Lemma split_list_snoc c p q : c ∉ q → split_list c (p ++ c :: q) = split_list c p ++ [q].
Proof.
  intros Hq. induction p as [|x p IH]; cbn.
  { by rewrite decide_True, split_list_free. }
  rewrite IH. case_decide; [done|].
  pose proof (split_list_nonempty c p) as Hn. by destruct (split_list c p).
Qed.

Lemma concat_cons_cons sep x y l :
  String.concat sep (x :: y :: l) = x +:+ sep +:+ String.concat sep (y :: l).
Proof. done. Qed.

(** Joining what was split, with another last part. *)
Lemma Join_snoc l q sep :
  l ≠ [] → Join (l ++ [q]) sep = Join l sep +:+ sep +:+ q.
Proof.
  unfold Join. induction l as [|x [|y l] IH]; intros Hl; [done|done|].
  cbn [app]. rewrite !concat_cons_cons. rewrite app_comm_cons, IH by done. by rewrite !sapp_assoc.
Qed.

Lemma Join_Split s c : Join (Split s c) (String c "") = s.
Proof.
  unfold Split. rewrite <- (str_chars s) at 2. generalize (chars s) as l. clear s.
  intros l. induction l as [|x l IH]; [done|]. cbn. pose proof (split_list_nonempty c l) as Hn.
  case_decide as Hx.
  - subst x. destruct (split_list c l) as [|p ps]; [done|]. cbn [map fmap list_fmap] in *.
    unfold Join in *. rewrite concat_cons_cons, IH. done.
  - destruct (split_list c l) as [|p ps]; [done|]. unfold Join in *.
    change (str (x :: p)) with (String x (str p)). cbn [map fmap list_fmap] in *. rewrite <- IH.
    by destruct ps.
Qed.

(** A group of the code's form. *)
Definition numbered (p : string) (n : Z) : string := p +:+ "-" +:+ pad4 n.

Lemma is_digit_not_hyphen c : is_digit c = true → c ≠ "-"%char.
Proof. by intros H ->. Qed.

Lemma digits_val_digits l acc z : digits_val acc l = Some z → Forall (λ c, is_digit c = true) l.
Proof.
  revert acc. induction l as [|c l IH]; intros acc H; [constructor|]. cbn in H. unfold digit_val in H.
  destruct (is_digit c) eqn:E; [|done]. constructor; [done|by eapply IH].
Qed.

Lemma pad4_digits n : 0 ≤ n → Forall (λ c, is_digit c = true) (chars (pad4 n)).
Proof.
  intros Hn. unfold pad4. destruct (Z.ltb_spec n 0); [lia|].
  rewrite chars_str, Z.abs_eq by lia. apply Forall_app. split; [constructor|].
  apply Forall_app. split; [by apply Forall_replicate|].
  destruct (Sprint_digits n) as (c & l & -> & _ & Hv); [done|]. by eapply digits_val_digits.
Qed.

Lemma pad4_no_hyphen n : 0 ≤ n → "-"%char ∉ chars (pad4 n).
Proof.
  intros Hn Hin. pose proof (pad4_digits n Hn) as H. rewrite Forall_forall in H.
  by apply H in Hin.
Qed.

Lemma pad4_inj n m : 0 ≤ n < 2 ^ 63 → 0 ≤ m < 2 ^ 63 → pad4 n = pad4 m → n = m.
Proof. intros Hn Hm H. by rewrite <- (atoi_pad4 n), H, atoi_pad4. Qed.

Lemma numbered_inj p n m : 0 ≤ n < 2 ^ 63 → 0 ≤ m < 2 ^ 63 → numbered p n = numbered p m → n = m.
Proof. intros Hn Hm H. apply sapp_inj_l, sapp_inj_l in H. by apply pad4_inj. Qed.

Lemma split_numbered p n :
  0 ≤ n → splitNameAndNumber (numbered p n) = (Split p "-", pad4 n).
Proof.
  intros Hn. unfold splitNameAndNumber, Split, numbered.
  change ("-" +:+ pad4 n) with (String "-" (pad4 n)). rewrite chars_app.
  change (chars (String "-" (pad4 n))) with ("-"%char :: chars (pad4 n)).
  rewrite split_list_snoc by by apply pad4_no_hyphen. rewrite fmap_app.
  cbn [fmap list_fmap]. rewrite length_app, Nat.add_sub, take_app_length, last_snoc. cbn [default]. by rewrite str_chars.
Qed.

(** The next groups in a row. *)
Lemma increment_numbered p n k :
  0 ≤ n < 2 ^ 63 → 0 ≤ n + k < 2 ^ 63 → incrementGroupId (numbered p n) k = numbered p (n + k).
Proof.
  intros Hn Hk. unfold incrementGroupId. rewrite split_numbered by lia.
  rewrite atoi_pad4 by lia. rewrite wrap64_id by lia.
  rewrite Join_snoc by (unfold Split; intros E%fmap_nil_inv; by apply split_list_nonempty in E).
  change ("-" : string) with (String "-" "") at 1. by rewrite Join_Split.
Qed.

(** *** Order: up to four digits the order of texts is that of numbers *)

Lemma digit_bounds c : is_digit c = true → 48 ≤ Z.of_N (Ascii.N_of_ascii c) ≤ 57.
Proof.
  unfold is_digit, in_range, Ascii.nat_of_ascii. intros [H1%Nat.leb_le H2%Nat.leb_le]%andb_true_iff.
  change (N.to_nat (Ascii.N_of_ascii "0")) with 48%nat in H1.
  change (N.to_nat (Ascii.N_of_ascii "9")) with 57%nat in H2. lia.
Qed.

Lemma digits_val_bounds a l v :
  0 ≤ a → digits_val a l = Some v →
  a * 10 ^ Z.of_nat (length l) ≤ v < (a + 1) * 10 ^ Z.of_nat (length l).
Proof.
  revert a. induction l as [|c l IH]; intros a Ha H; cbn [digits_val] in H; [simplify_eq; cbn; lia|].
  unfold digit_val in H. destruct (is_digit c) eqn:Hc; [|done].
  unfold Ascii.nat_of_ascii in H. rewrite N_nat_Z in H. apply digit_bounds in Hc.
  apply IH in H; [|lia]. cbn [length]. rewrite Nat2Z.inj_succ, Z.pow_succ_r by lia.
  pose proof (Z.pow_pos_nonneg 10 (Z.of_nat (length l))). nia.
Qed.

(** Digits of one length are ordered as their values. *)
Lemma digits_compare a l1 l2 v1 v2 :
  0 ≤ a → length l1 = length l2 → digits_val a l1 = Some v1 → digits_val a l2 = Some v2 →
  String.compare (str l1) (str l2) = (v1 ?= v2).
Proof.
  revert a l2. induction l1 as [|c l1 IH]; intros a [|c2 l2] Ha Hl H1 H2; try done.
  { cbn in *. simplify_eq. by rewrite Z.compare_refl. }
  cbn [digits_val] in H1, H2. unfold digit_val in H1, H2.
  destruct (is_digit c) eqn:Hc, (is_digit c2) eqn:Hc2; try done. injection Hl as Hl.
  apply digit_bounds in Hc, Hc2. unfold Ascii.nat_of_ascii in H1, H2. rewrite N_nat_Z in H1, H2.
  change (str (c :: l1)) with (String c (str l1)). change (str (c2 :: l2)) with (String c2 (str l2)).
  cbn [String.compare]. unfold Ascii.compare.
  assert (B1 := H1). apply digits_val_bounds in B1; [|lia]. rewrite Hl in B1.
  assert (B2 := H2). apply digits_val_bounds in B2; [|lia].
  pose proof (Z.pow_pos_nonneg 10 (Z.of_nat (length l2))).
  destruct (N.compare_spec (Ascii.N_of_ascii c) (Ascii.N_of_ascii c2)) as [E|E|E].
  - rewrite <- E in H2. apply (IH (a * 10 + (Z.of_N (Ascii.N_of_ascii c) - 48))); [lia|done|exact H1|exact H2].
  - symmetry. apply Z.compare_lt_iff. nia.
  - symmetry. apply Z.compare_gt_iff. nia.
Qed.

Lemma pretty_go_length k n s :
  (n < 10 ^ N.of_nat k)%N → (String.length (pretty_N_go n s) ≤ k + String.length s)%nat.
Proof.
  revert n s. induction k as [|k IH]; intros n s Hn.
  { assert (n = 0%N) as -> by (cbn in Hn; lia). by rewrite pretty_N_go_0. }
  destruct (decide (n = 0%N)) as [->|Hz]; [rewrite pretty_N_go_0; lia|].
  rewrite pretty_N_go_step by lia. etransitivity; [apply IH|cbn; lia].
  rewrite Nat2N.inj_succ, N.pow_succ_r in Hn by lia. apply N.Div0.div_lt_upper_bound. lia.
Qed.

Lemma pad4_length n : 0 ≤ n ≤ 9999 → length (chars (pad4 n)) = 4%nat.
Proof.
  intros Hn. unfold pad4. destruct (Z.ltb_spec n 0); [lia|].
  rewrite chars_str, Z.abs_eq by lia. rewrite !length_app, length_replicate. cbn [length].
  assert (length (chars (Sprint n)) ≤ 4)%nat; [|lia]. rewrite length_chars.
  unfold Sprint. destruct n as [|p|p]; [cbn; lia| |lia].
  change (pretty (Z.pos p)) with (pretty (N.pos p)). unfold pretty, pretty_N.
  case_decide; [cbn; lia|]. apply (pretty_go_length 4 _ ""). cbn. lia.
Qed.

Lemma pad4_val n : 0 ≤ n → digits_val 0 (chars (pad4 n)) = Some n.
Proof.
  intros Hn. unfold pad4. destruct (Z.ltb_spec n 0); [lia|].
  rewrite chars_str, Z.abs_eq by lia. cbn [app]. rewrite digits_val_zeros.
  by destruct (Sprint_digits n Hn) as (c & l & -> & _ & Hv).
Qed.

Lemma compare_prefix p s t : String.compare (p +:+ s) (p +:+ t) = String.compare s t.
Proof.
  induction p as [|c p IH]; [done|].
  change (String c p +:+ s) with (String c (p +:+ s)). change (String c p +:+ t) with (String c (p +:+ t)).
  cbn [String.compare]. replace (Ascii.compare c c) with Eq by (unfold Ascii.compare; by rewrite N.compare_refl).
  done.
Qed.

Lemma numbered_gt p n m :
  0 ≤ n ≤ 9999 → 0 ≤ m ≤ 9999 → string_gt (numbered p n) (numbered p m) = (m <? n).
Proof.
  intros Hn Hm. unfold string_gt, String.ltb, numbered. rewrite !compare_prefix.
  rewrite <- (str_chars (pad4 n)), <- (str_chars (pad4 m)).
  rewrite (digits_compare 0 _ _ m n); [by unfold Z.ltb; destruct (m ?= n)|lia| |apply pad4_val; lia..].
  by rewrite !pad4_length.
Qed.

(** ** Resetting *)

(** What a reset leaves of a source. *)
Definition kept_by_reset (s s' : Source) : Prop :=
  ∃ group offset, s' = set_Kafka (mkSourceKafka
    (SourceKafkaConsumerConfigAutoCommitEnable (src_Kafka s)) offset
    (SourceKafkaTopicNames (src_Kafka s)) (SourceKafkaName (src_Kafka s)) group
    (SourceKafkaConsumerConfigBootstrapServers (src_Kafka s))) s.

Lemma reset_sources_groups p m resetTo off l :
  0 ≤ m → 0 ≤ off → m + off + Z.of_nat (length l) < 2 ^ 63 →
  group_of <$> reset_sources (numbered p m) resetTo off l =
    numbered p <$> seqZ (m + off + 1) (Z.of_nat (length l)) ∧
  Forall (λ s, SourceKafkaConsumerConfigAutoOffsetReset (src_Kafka s) = resetTo)
    (reset_sources (numbered p m) resetTo off l) ∧
  Forall2 kept_by_reset l (reset_sources (numbered p m) resetTo off l).
Proof.
  revert off. induction l as [|s l IH]; intros off Hm Hoff Hb; [done|].
  cbn [length] in *. rewrite Nat2Z.inj_succ in *. cbn [reset_sources].
  rewrite wrap64_id by lia. destruct (IH (off + 1)) as (Hg & Ho & Hk); [lia..|].
  rewrite seqZ_cons, Z.pred_succ by lia. cbn [fmap list_fmap]. rewrite Hg. split_and!.
  - f_equal; [|do 2 f_equal; lia]. unfold group_of at 1, set_Kafka. cbn [src_Kafka
      SourceKafkaConsumerConfigGroupID]. rewrite increment_numbered by lia. f_equal. lia.
  - by constructor.
  - constructor; [by eexists _, _|done].
Qed.

(** The largest of some numbered groups, as the code finds it. *)
Lemma base_group_max p l ns n0 s0 :
  group_of s0 = numbered p n0 → 0 ≤ n0 ≤ 9999 →
  group_of <$> l = numbered p <$> ns → Forall (λ n, 0 ≤ n ≤ 9999) ns →
  ∃ m, base_group s0 l = numbered p m ∧ m ∈ n0 :: ns ∧ Forall (λ n, n ≤ m) (n0 :: ns).
Proof.
  unfold base_group. intros -> Hn0. clear s0. revert ns n0 Hn0.
  induction l as [|s l IH]; intros [|n ns] n0 Hn0 Hl Hns; try done; cbn [foldl].
  { exists n0. split_and!; [done|set_solver|by repeat constructor]. }
  injection Hl as Hs Hl. apply Forall_cons in Hns as [Hn Hns]. rewrite Hs.
  rewrite numbered_gt by done. destruct (Z.ltb_spec n0 n) as [Hlt|Hge].
  - destruct (IH ns n Hn Hl Hns) as (m & -> & Hin & Hmax). exists m.
    apply Forall_cons in Hmax as [Hm Hmax]. split_and!; [done|by right|].
    repeat constructor; [lia|done|done].
  - destruct (IH ns n0 Hn0 Hl Hns) as (m & -> & Hin & Hmax). exists m.
    apply Forall_cons in Hmax as [Hm Hmax]. split_and!; [done| |].
    + apply elem_of_cons in Hin as [->|Hin]; [by left|by right; right].
    + repeat constructor; [done|lia|done].
Qed.

(** C39. A reset moves a Kafka dagger to consumer groups it has not used.  When
    the first source is not a Parquet source and its groups are of the form that
    entropy makes, one name followed by numbers written with four digits
    (orders-0007), every source gets a group of its own, numbered on from the
    largest and so none of the old ones, and starts at the offset that was asked
    for; the rest of the sources is kept.  (There are fewer than 2^62 sources.) *)
Theorem consumer_reset_fresh c resetTo p ns source :
  cfg_Source c = Some source → is_parquet (hd Source_zero source) = false →
  source ≠ [] → group_of <$> source = numbered p <$> ns → Forall (λ n, 0 ≤ n ≤ 9999) ns →
  Z.of_nat (length source) < 2 ^ 62 →
  ∃ source' m, consumer_reset c resetTo = Ok (Some source') ∧
    m ∈ ns ∧ Forall (λ n, n ≤ m) ns ∧
    group_of <$> source' = numbered p <$> seqZ (m + 1) (Z.of_nat (length source)) ∧
    NoDup (group_of <$> source') ∧
    (∀ g, g ∈ group_of <$> source' → g ∉ group_of <$> source) ∧
    Forall (λ s, SourceKafkaConsumerConfigAutoOffsetReset (src_Kafka s) = resetTo) source' ∧
    Forall2 kept_by_reset source source'.
Proof.
  intros Hc Hp Hne Hg Hns Hlen. destruct source as [|s0 l]; [done|]. destruct ns as [|n0 ns]; [done|].
  cbn [hd] in Hp. unfold consumer_reset. rewrite Hc. cbn [from_option id]. rewrite Hp.
  destruct (base_group_max p (s0 :: l) (n0 :: ns) n0 s0) as (m & Hm & Hin & Hmax).
  { by injection Hg. } { by apply Forall_cons in Hns as [? _]. } { done. } { done. }
  apply Forall_cons in Hmax as [_ Hmax].
  assert (m ∈ n0 :: ns) as Hin' by (apply elem_of_cons in Hin as [->|Hin]; [by left|done]).
  assert (0 ≤ m ≤ 9999) as Hmb by (rewrite Forall_forall in Hns; by apply Hns).
  destruct (reset_sources_groups p m resetTo 0 (s0 :: l)) as (Hgr & Ho & Hk); [lia..|].
  rewrite Hm. eexists _, m. split; [reflexivity|]. rewrite Z.add_0_r in Hgr.
  split_and!; [done|done|exact Hgr| |..|done|done]; rewrite Hgr.
  - apply NoDup_fmap_2_strong; [|apply NoDup_seqZ].
    intros x y Hx%elem_of_seqZ Hy%elem_of_seqZ He. by apply numbered_inj in He; lia.
  - rewrite Hg. intros g (x & -> & Hx%elem_of_seqZ)%list_elem_of_fmap (y & He & Hy)%list_elem_of_fmap.
    rewrite Forall_forall in Hmax, Hns. pose proof (Hmax y Hy). pose proof (Hns y Hy).
    apply numbered_inj in He; lia.
Qed.

(** Beyond four digits the order of the texts is not that of the numbers, and a
    group that is in use can be handed out again. *)
Lemma reset_reuses_a_group resetTo :
  let source g := set_Kafka (set_group g SourceKafka_zero) Source_zero in
  let c := set_Source (Some [source "g-9999"; source "g-10000"]) Config_zero in
  ∃ source', consumer_reset c resetTo = Ok (Some source') ∧
    group_of <$> source' = ["g-10000"; "g-10001"].
Proof. eexists. split; [reflexivity|]. vm_compute. reflexivity. Qed.
