(* ===== verification/DaggerRead.v ===== *)
(** * DaggerRead: what reading a dagger's config guarantees

    A config that was read is settled: reading it again, as every sync does
    from the document that a plan stored, gives the same config. *)

From S2P Require Import Prelude GoLib Errors Resource Module Json Names Validator Kube Kubernetes Flink Helm ConsumerReset Charts GoText KubeCRD DaggerTypes DaggerConfig Dagger DaggerProps.
From Stdlib Require Import Ascii.

#[local] Open Scope Z_scope.

Lemma or_default_idemp s d : or_default (or_default s d) d = or_default s d.
Proof. unfold or_default. by repeat case_decide. Qed.

(** ** The environment *)

Lemma put_all_Some l m : put_all l (Some m) = Ok (Some (copy_into l m)).
Proof. unfold put_all, copy_into. revert m. by induction l as [|[k v] l IH]; intros m; cbn. Qed.

Lemma put_all_nil l : l ≠ [] → put_all l None = Panic "assignment to entry in nil map".
Proof. by destruct l. Qed.

(** The keys that reading writes, apart from a sink's. *)
Definition deleted_keys : list string := [key_AutoCommitEnable; key_AutoOffsetReset].

Definition reserved (k : string) : bool :=
  bool_decide (k ∈ keyFlinkJobID :: deleted_keys ++
    [keyStreams; keyFlinkParallelism; KeySchemaRegistryStencilURLs]).

Lemma sink_env_keys type s :
  NoDup (sink_env type s).*1 ∧ Forall (λ k, reserved k = false) (sink_env type s).*1.
Proof.
  unfold sink_env. repeat case_decide; cbn [fmap list_fmap fst kafka_env influx_env bigquery_env];
    (split; [apply (bool_decide_unpack _); vm_compute; exact I|
      apply Forall_forall; intros k Hk; revert k Hk; apply Forall_forall;
      repeat constructor]).
Qed.

Section env.
Context {MR : MapRange} {DG : Digests}.

(** An environment as reading leaves it. *)
Record env_settled (dc : driverConf) (r : Resource) (type : string) (s : Sink)
    (m : gmap string string) : Prop := mkEnvSettled {
  es_sink : ∀ k v, (k, v) ∈ sink_env type s → m !! k = Some v;
  es_job : ∃ job, BuildResourceName "dagger" (Resource.Name r) (Project r) MaxInt = Ok job ∧
             m !! keyFlinkJobID = Some job;
  es_deleted : ∀ k, k ∈ deleted_keys → m !! k = None;
  es_defaults : ∀ k, is_Some (gm (dc_EnvVariables dc) !! k) → k ∉ deleted_keys → is_Some (m !! k);
}.

Lemma read_env_eq dc r type s m job :
  BuildResourceName "dagger" (Resource.Name r) (Project r) MaxInt = Ok job →
  read_env dc r type s (Some m) = Ok (Some (delete key_AutoCommitEnable (delete key_AutoOffsetReset
    (<[keyFlinkJobID := job]> (list_to_map (sink_env type s) ∪ m ∪ gm (dc_EnvVariables dc)))))).
Proof.
  intros Hj. unfold read_env. rewrite put_all_Some. cbn [mbind result_bind]. rewrite Hj.
  rewrite CloneAndMergeMaps_spec. rewrite copy_into_spec by apply sink_env_keys. done.
Qed.

Lemma read_env_Ok dc r type s env env' :
  read_env dc r type s env = Ok env' → ∃ m, env' = Some m ∧ env_settled dc r type s m.
Proof.
  destruct env as [m0|]; [|unfold read_env; by rewrite put_all_nil]. intros H.
  assert (∃ job, BuildResourceName "dagger" (Resource.Name r) (Project r) MaxInt = Ok job)
    as [job Hj].
  { unfold read_env in H. rewrite put_all_Some in H. cbn [mbind result_bind] in H.
    destruct (BuildResourceName _ _ _ _) as [job|e|p]; [by exists job|done..]. }
  rewrite (read_env_eq _ _ _ _ _ _ Hj) in H. injection H as <-. eexists. split; [done|].
  destruct (sink_env_keys type s) as [Hnd Hres]. rewrite Forall_forall in Hres.
  split.
  - intros k v Hkv. assert (reserved k = false) as Hr.
    { apply Hres. apply list_elem_of_fmap. by exists (k, v). }
    unfold reserved in Hr. apply bool_decide_eq_false in Hr.
    unfold deleted_keys in Hr. cbn [app] in Hr. repeat setoid_rewrite elem_of_cons in Hr.
    rewrite !lookup_delete_ne, lookup_insert_ne by (intros <-; apply Hr; tauto).
    rewrite <- (assoc_L (∪)). apply lookup_union_Some_l.
    exact (elem_of_list_to_map_1 _ _ _ Hnd Hkv).
  - exists job. split; [done|]. rewrite !lookup_delete_ne by done. apply lookup_insert_eq.
  - intros k. unfold deleted_keys. rewrite !elem_of_cons, elem_of_nil.
    intros [->|[->|[]]]; [apply lookup_delete_eq|].
    rewrite lookup_delete_ne by done. apply lookup_delete_eq.
  - intros k [v Hv] Hk. unfold deleted_keys in Hk. rewrite !not_elem_of_cons in Hk.
    rewrite !lookup_delete_ne by naive_solver.
    destruct (decide (k = keyFlinkJobID)) as [->|]; [by rewrite lookup_insert_eq|].
    rewrite lookup_insert_ne by done. apply lookup_union_is_Some. right. by exists v.
Qed.

Lemma read_env_settled dc r type s m :
  env_settled dc r type s m → read_env dc r type s (Some m) = Ok (Some m).
Proof.
  intros [Hs (job & Hj & Hjob) Hd Hdef]. rewrite (read_env_eq _ _ _ _ _ _ Hj). do 2 f_equal.
  apply map_eq. intros k. destruct (decide (k ∈ deleted_keys)) as [Hk|Hk].
  - rewrite Hd by done. unfold deleted_keys in Hk. rewrite !elem_of_cons, elem_of_nil in Hk.
    destruct Hk as [->|[->|[]]]; [apply lookup_delete_eq|].
    rewrite lookup_delete_ne by done. apply lookup_delete_eq.
  - specialize (Hdef k). pose proof Hk as Hk'. unfold deleted_keys in Hk'.
    rewrite !not_elem_of_cons in Hk'. rewrite !lookup_delete_ne by naive_solver.
    destruct (decide (k = keyFlinkJobID)) as [->|]; [by rewrite lookup_insert_eq|].
    rewrite lookup_insert_ne by done. rewrite <- (assoc_L (∪)), lookup_union.
    destruct (list_to_map (sink_env type s) !! k) as [v|] eqn:E.
    + apply elem_of_list_to_map_2 in E. rewrite (Hs _ _ E). by destruct ((m ∪ _) !! k).
    + rewrite (left_id_L None (∪)), lookup_union.
      destruct (m !! k) as [v|] eqn:Em; [by destruct (gm _ !! k)|].
      destruct (gm (dc_EnvVariables dc) !! k) as [v|] eqn:Ed; [|done].
      destruct Hdef as [v' ?]; [by exists v|done|congruence].
Qed.

(** Variables that reading does not write may be added. *)
Lemma env_settled_put dc r type s m k v :
  env_settled dc r type s m →
  k ∈ [keyStreams; keyFlinkParallelism; KeySchemaRegistryStencilURLs] →
  env_settled dc r type s (<[k := v]> m).
Proof.
  intros [Hs (job & Hj & Hjob) Hd Hdef] Hk.
  assert (∀ k', k' = keyFlinkJobID ∨ k' ∈ deleted_keys → k ≠ k') as Hne.
  { intros k' Hk' ->. revert Hk. apply (bool_decide_unpack _).
    unfold deleted_keys in Hk'. rewrite !elem_of_cons, elem_of_nil in Hk'.
    by destruct Hk' as [->|[->|[->|[]]]]; vm_compute. }
  split.
  - intros k' v' Hkv. rewrite lookup_insert_ne; [by apply Hs|]. intros ->.
    destruct (sink_env_keys type s) as [_ Hres]. rewrite Forall_forall in Hres.
    specialize (Hres k'). rewrite list_elem_of_fmap in Hres. specialize (Hres ltac:(by exists (k', v'))).
    unfold reserved in Hres. apply bool_decide_eq_false in Hres. apply Hres.
    apply elem_of_cons. right. apply elem_of_app. by right.
  - exists job. split; [done|]. rewrite lookup_insert_ne; [done|]. apply Hne. by left.
  - intros k' Hk'. rewrite lookup_insert_ne; [by apply Hd|]. apply Hne. by right.
  - intros k' H1 H2. destruct (decide (k = k')) as [->|]; [by rewrite lookup_insert_eq|].
    rewrite lookup_insert_ne by done. by apply Hdef.
Qed.
End env.

(** ** Sources, sinks, resources *)

(** A Kafka source as reading leaves it. *)
Definition kafka_full (dc : driverConf) (s : Source) : Prop :=
  let k := src_Kafka s in
  let env := gm_get (dc_EnvVariables dc) in
  group_of s ≠ "" ∧
  (SourceKafkaConsumerConfigAutoCommitEnable k = "" → env key_AutoCommitEnable = "") ∧
  (SourceKafkaConsumerConfigAutoOffsetReset k = "" → env key_AutoOffsetReset = "") ∧
  (SourceKafkaConsumerConfigBootstrapServers k = "" → env key_BootstrapServers = "").

(** There is a source, and the first is a Parquet source or all of them have
    their settings. *)
Definition sources_settled (dc : driverConf) (l : list Source) : Prop :=
  l ≠ [] ∧ (is_parquet (hd Source_zero l) = true ∨ Forall (kafka_full dc) l).

Lemma or_default_full s d : (s = "" → d = "") → or_default s d = s.
Proof. unfold or_default. case_decide as E; [by intros ->; subst|done]. Qed.

Lemma or_default_empty s d : or_default s d = "" → d = "".
Proof. unfold or_default. by case_decide. Qed.

Lemma Join_nonempty l q sep : q ≠ "" → Join (l ++ [q]) sep ≠ "".
Proof.
  intros Hq. destruct l as [|x l]; [done|]. rewrite Join_snoc by done. intros E.
  apply (f_equal String.length) in E. rewrite !strlen_app in E. destruct q; [done|]. cbn in E. lia.
Qed.

Lemma pad4_nonempty z : pad4 z ≠ "".
Proof.
  unfold pad4. intros E%(f_equal chars). rewrite chars_str in E.
  destruct (Sprint_digits (Z.abs z)) as (c & l & Hc & _); [lia|]. rewrite Hc in E.
  destruct (z <? 0); [done|]. by destruct (4 - _ - _)%nat.
Qed.

Lemma incrementGroupId_nonempty g k : incrementGroupId g k ≠ "".
Proof.
  unfold incrementGroupId. destruct (splitNameAndNumber g) as [name number].
  apply Join_nonempty, pad4_nonempty.
Qed.

Lemma fill_sources_full dc base off l : Forall (kafka_full dc) (fill_sources dc base off l).
Proof.
  revert off. induction l as [|s l IH]; intros off; [constructor|]. cbn [fill_sources].
  destruct (fill_kafka dc base off (src_Kafka s)) as [off' k] eqn:E. constructor; [|apply IH].
  unfold fill_kafka in E. injection E as _ <-. unfold kafka_full, set_Kafka, group_of.
  cbn [src_Kafka SourceKafkaConsumerConfigGroupID SourceKafkaConsumerConfigAutoCommitEnable
    SourceKafkaConsumerConfigAutoOffsetReset SourceKafkaConsumerConfigBootstrapServers].
  split_and!; [|by apply or_default_empty..].
  case_bool_decide; [apply incrementGroupId_nonempty|done].
Qed.

Lemma fill_sources_settled dc base off l :
  l ≠ [] → sources_settled dc (fill_sources dc base off l).
Proof.
  intros Hl. split; [|right; apply fill_sources_full]. destruct l as [|s l]; [done|].
  cbn [fill_sources]. by destruct (fill_kafka _ _ _ _).
Qed.

Lemma fill_full dc base off l : Forall (kafka_full dc) l → fill_sources dc base off l = l.
Proof.
  intros H. revert off. induction H as [|s l (Hg & H1 & H2 & H3) _ IH]; intros off; [done|].
  cbn [fill_sources]. unfold fill_kafka. rewrite bool_decide_false by exact Hg.
  rewrite !or_default_full by done. rewrite IH. f_equal. by destruct s as [? ? ? ? [] ?].
Qed.

Section read.
Context {GJ : GoJSON} {JS : JSONSchema} {MR : MapRange} {DG : Digests} {W : Type} {VA : VersionAPI W}.
Variable configSchemaRaw : string.

Lemma read_sources_Ok dc id source source' :
  read_sources dc id source = Ok source' →
  ∃ l l', source = Some l ∧ source' = Some l' ∧ sources_settled dc l' ∧
    (l' = l ∨ l' = fill_sources dc (id +:+ "-" +:+ max_suffix l) 0 l).
Proof.
  unfold read_sources. destruct source as [[|s l]|]; [done| |done]. cbn [from_option Datatypes.id].
  destruct (is_parquet s) eqn:Hp; intros [= <-].
  - exists (s :: l), (s :: l). split_and!; [done..| |by left]. split; [done|by left].
  - exists (s :: l), (fill_sources dc (id +:+ "-" +:+ max_suffix (s :: l)) 0 (s :: l)).
    split; [done|]. split; [done|]. split; [by apply fill_sources_settled|]. by right.
Qed.

Lemma read_sources_settled dc id l :
  sources_settled dc l → read_sources dc id (Some l) = Ok (Some l).
Proof.
  intros [Hne Hl]. unfold read_sources. destruct l as [|s l]; [done|]. cbn [from_option Datatypes.id hd] in *.
  destruct (is_parquet s); [done|]. destruct Hl as [|Hl]; [done|].
  cbn [fmap option_fmap option_map]. by rewrite fill_full.
Qed.

Lemma fill_sink_idemp dc inf type s : fill_sink dc inf type (fill_sink dc inf type s) = fill_sink dc inf type s.
Proof.
  unfold fill_sink. repeat case_decide; try done; f_equal;
    unfold fill_kafka_sink, fill_influx_sink, fill_bigquery_sink; cbn; by rewrite !or_default_idemp.
Qed.

(** Usage that leaves nothing to the defaults, unless there are none. *)
Definition usage_full (d u : UsageSpec) : Prop :=
  (CPU u = "" → CPU d = "") ∧ (Memory u = "" → Memory d = "").
Definition resources_full (d r : Resources) : Prop :=
  usage_full (TaskManager d) (TaskManager r) ∧ usage_full (JobManager d) (JobManager r).

Lemma mergeUsage_full d u : usage_full d u → mergeUsage d u = u.
Proof. intros [H1 H2]. unfold mergeUsage. rewrite !or_default_full by done. by destruct u. Qed.

Lemma mergeResources_eq d r : resources_full d r → mergeResources d r = r.
Proof.
  intros [H1 H2]. unfold mergeResources. rewrite !mergeUsage_full by done. by destruct r.
Qed.

Lemma mergeResources_full d old new :
  resources_full d new → resources_full d (mergeResources old new).
Proof.
  intros [[H1 H2] [H3 H4]]. unfold resources_full, usage_full, mergeResources, mergeUsage.
  cbn [TaskManager JobManager CPU Memory]. unfold or_default.
  split_and!; case_decide as E; (by auto) || done.
Qed.

Lemma mergeResources_filled d r : resources_full d (mergeResources d r).
Proof. unfold resources_full, usage_full. cbn. split_and!; apply or_default_empty. Qed.

(** ** Configs *)

(** A config as reading leaves it, for a resource on a Flink cluster. *)
Record settled (dc : driverConf) (r : Resource) (flink : Flink.Config) (c : Config) : Prop := mkSettled {
  st_id : DeploymentID c ≠ "" ∧ Z.of_nat (String.length (DeploymentID c)) ≤ 45;
  st_sources : ∃ l, cfg_Source c = Some l ∧ sources_settled dc l ∧
                 Forall (λ s, born (SourceParquetFileDateRange (src_Parquet s))) l;
  st_sink : fill_sink dc (cfg_Influx flink) (SinkType c) (cfg_Sink c) = cfg_Sink c;
  st_env : ∃ m, EnvVariables c = Some m ∧ env_settled dc r (SinkType c) (cfg_Sink c) m;
  st_replicas : 1 ≤ Replicas c < 2 ^ 63;
  st_resources : resources_full (dc_Resources dc) (cfg_Resources c);
  st_flink : FlinkName c = Flink.FlinkName flink ∧ Namespace c = KubeNamespace flink ∧
             PrometheusURL c = Flink.PrometheusURL flink;
  st_module : DaggerCheckpointURL c = dc_DaggerCheckpointURL dc ∧
              DaggerSavepointURL c = dc_DaggerSavepointURL dc ∧
              DaggerK8sHAURL c = dc_DaggerK8sHAURL dc ∧
              CloudProvider c = or_default (dc_CloudProvider dc) "gcp" ∧
              FSOSSEndpoint c = dc_FSOSSEndpoint dc;
  st_savepoint : born (Savepoint c);
}.

(** What decoding guarantees of the parts that no reading touches. *)
Definition decoded (c : Config) : Prop :=
  in_bits 64 (Replicas c) = true ∧ born (Savepoint c) ∧
  Forall (λ s, born (SourceParquetFileDateRange (src_Parquet s))) (default [] (cfg_Source c)).

Lemma decodes_Source : decodes (λ s, born (SourceParquetFileDateRange (src_Parquet s))) dec_Source.
Proof.
  eapply decodes_record.
  - unfold SourceKafka_fields. do 10 (apply fields_ok_cons; [apply decodes_True|]).
    apply fields_ok_cons; [apply decodes_any|]. apply fields_ok_cons; [apply decodes_True|].
    apply fields_ok_nil.
  - intros s Hs. cbn. split_and!; done.
  - intros t Ht. destruct t as (?&?&?&?&?&?&?&?&?&?&?&?&[]). cbn in *. naive_solver.
Qed.

Lemma decodes_dagger_Config : decodes decoded dec_Config.
Proof.
  eapply decodes_record.
  - apply fields_ok_cons; [apply decodes_True|].
    apply fields_ok_cons; [apply decodes_slice; [apply decodes_Source|done]|].
    do 2 (apply fields_ok_cons; [apply decodes_True|]).
    apply fields_ok_cons; [apply decodes_int|].
    do 4 (apply fields_ok_cons; [apply decodes_True|]).
    apply fields_ok_cons; [apply decodes_any|].
    do 14 (apply fields_ok_cons; [apply decodes_True|]). apply fields_ok_nil.
  - intros c (H1 & H2 & H3). cbn. split_and!; done.
  - intros t Ht. unfold decoded.
    destruct t as (?&?&?&?&?&?&?&?&?&?&?&?&?&?&?&?&?&?&?&?&?&?&?&?&[]). cbn in *. tauto.
Qed.

Lemma dagger_read_DeploymentID_Ok r id id' :
  read_DeploymentID r id = Ok id' → id' ≠ "" ∧ Z.of_nat (String.length id') ≤ 45.
Proof.
  unfold read_DeploymentID. destruct (Nat.eqb_spec (String.length id) 0) as [Hz|Hz].
  - intros H. by apply BuildResourceName_len in H.
  - destruct (Z.ltb_spec helmReleaseNameMaxLength (Z.of_nat (String.length id))); [done|].
    intros [= <-]. split; [by intros ->|done].
Qed.

Lemma read_DeploymentID_settled r id :
  id ≠ "" → Z.of_nat (String.length id) ≤ 45 → read_DeploymentID r id = Ok id.
Proof.
  intros Hne Hl. unfold read_DeploymentID. destruct (Nat.eqb_spec (String.length id) 0).
  - by destruct id.
  - destruct (Z.ltb_spec helmReleaseNameMaxLength (Z.of_nat (String.length id))); [|done].
    unfold helmReleaseNameMaxLength in *. lia.
Qed.

Lemma fill_sources_ranges dc base off l (P : any → Prop) :
  Forall (λ s, P (SourceParquetFileDateRange (src_Parquet s))) l →
  Forall (λ s, P (SourceParquetFileDateRange (src_Parquet s))) (fill_sources dc base off l).
Proof.
  intros H. revert off. induction H as [|s l Hs _ IH]; intros off; [constructor|]. cbn [fill_sources].
  destruct (fill_kafka _ _ _ _). by constructor.
Qed.

Lemma readConfig_settled exr confJSON dc c :
  readConfig configSchemaRaw exr confJSON dc = Ok c →
  ∃ flinkOut, read_flinkOut "invalid flink state" exr = Ok flinkOut ∧
    settled dc (exr_Resource exr) (fo_Config flinkOut) c.
Proof.
  unfold readConfig. intros H. apply res_bind_ok_inv in H as (cfg & Hcfg & H).
  rewrite res_on_err_ok in Hcfg.
  assert (decoded cfg) as (Hr & Hsp & Hran).
  { eapply decodes_Unmarshal; [apply decodes_dagger_Config| |exact Hcfg]. split_and!; done. }
  apply res_bind_ok_inv in H as (id & Hid & H). apply res_bind_ok_inv in H as (source & Hs & H).
  apply res_bind_ok_inv in H as (flinkOut & Hf & H). apply res_bind_ok_inv in H as (env & He & H).
  apply res_bind_ok_inv in H as ([] & _ & [= <-]). exists flinkOut. split; [done|].
  apply dagger_read_DeploymentID_Ok in Hid. apply read_env_Ok in He.
  apply read_sources_Ok in Hs as (l & l' & Hl & -> & Hset & Hl'). rewrite Hl in Hran.
  split; cbn [completed DeploymentID cfg_Source cfg_Sink EnvVariables SinkType Replicas cfg_Resources FlinkName
    Namespace PrometheusURL DaggerCheckpointURL DaggerSavepointURL DaggerK8sHAURL CloudProvider
    FSOSSEndpoint Savepoint]; try done.
  - exists l'. split_and!; [done..|]. destruct Hl' as [->| ->]; [done|by apply fill_sources_ranges].
  - apply fill_sink_idemp.
  - unfold in_bits in Hr. apply andb_true_iff in Hr as [_ Hr%Z.ltb_lt].
    destruct (Z.leb_spec (Replicas cfg) 0); cbn in Hr; lia.
  - apply mergeResources_filled.
Qed.
End read.

(** ** What is filled in *)

(** What was given, or else the default. *)
Definition given (s d : string) : string := if decide (s = "") then d else s.

Record source_filled (dc : driverConf) (id : string) (s s' : Source) : Prop := mkSourceFilled {
  sf_group : if decide (group_of s = "") then ∃ n, group_of s' = numbered id n
             else group_of s' = group_of s;
  sf_commit : SourceKafkaConsumerConfigAutoCommitEnable (src_Kafka s') =
    given (SourceKafkaConsumerConfigAutoCommitEnable (src_Kafka s))
      (gm_get (dc_EnvVariables dc) "SOURCE_KAFKA_CONSUMER_CONFIG_AUTO_COMMIT_ENABLE");
  sf_offset : SourceKafkaConsumerConfigAutoOffsetReset (src_Kafka s') =
    given (SourceKafkaConsumerConfigAutoOffsetReset (src_Kafka s))
      (gm_get (dc_EnvVariables dc) "SOURCE_KAFKA_CONSUMER_CONFIG_AUTO_OFFSET_RESET");
  sf_servers : SourceKafkaConsumerConfigBootstrapServers (src_Kafka s') =
    given (SourceKafkaConsumerConfigBootstrapServers (src_Kafka s))
      (gm_get (dc_EnvVariables dc) "SOURCE_KAFKA_CONSUMER_CONFIG_BOOTSTRAP_SERVERS");
  sf_kept : SourceKafkaTopicNames (src_Kafka s') = SourceKafkaTopicNames (src_Kafka s) ∧
    SourceKafkaName (src_Kafka s') = SourceKafkaName (src_Kafka s) ∧ s' = set_Kafka (src_Kafka s') s;
}.

(** The sources are taken over when the first is a Parquet source, and filled in
    when it is not. *)
Definition sources_filled (dc : driverConf) (id : string) (l l' : list Source) : Prop :=
  if is_parquet (hd Source_zero l) then l' = l else Forall2 (source_filled dc id) l l'.

Definition sink_filled (dc : driverConf) (inf : Influx) (type : string) (s s' : Sink) : Prop :=
  let env := gm_get (dc_EnvVariables dc) in
  let k := snk_Kafka s in let i := snk_Influx s in let q := snk_Bigquery s in
  s' = mkSink
    (if decide (type = "KAFKA") then
       mkSinkKafka (SinkKafkaBrokers k) (SinkKafkaStream k) (SinkKafkaTopic k) (SinkKafkaProtoMsg k)
         (SinkKafkaLingerMs k) (SinkKafkaProtoKey k)
         (given (SinkKafkaProduceLargeMessageEnable k) (env "SINK_KAFKA_PRODUCE_LARGE_MESSAGE_ENABLE"))
     else k)
    (if decide (type = "INFLUX") then
       mkSinkInflux (given (SinkInfluxBatchSize i) (env "SINK_INFLUX_BATCH_SIZE"))
         (given (SinkInfluxDBName i) (inf_DatabaseName inf))
         (given (SinkInfluxFlushDurationMs i) (env "SINK_INFLUX_FLUSH_DURATION_MS"))
         (given (SinkInfluxPassword i) (inf_Password inf))
         (given (SinkInfluxRetentionPolicy i) (env "SINK_INFLUX_RETENTION_POLICY"))
         (given (SinkInfluxURL i) (inf_URL inf)) (given (SinkInfluxUsername i) (inf_Username inf))
         (SinkInfluxMeasurementName i)
     else i)
    (if decide (type = "BIGQUERY") then
       mkSinkBigquery
         (given (SinkBigqueryTablePartitionExpiryMs q) (env "SINK_BIGQUERY_TABLE_PARTITION_EXPIRY_MS"))
         (given (SinkBigqueryRowInsertIDEnable q) (env "SINK_BIGQUERY_ROW_INSERT_ID_ENABLE"))
         (given (SinkBigqueryClientReadTimeoutMs q) (env "SINK_BIGQUERY_CLIENT_READ_TIMEOUT_MS"))
         (given (SinkBigqueryClientConnectTimeoutMs q) (env "SINK_BIGQUERY_CLIENT_CONNECT_TIMEOUT_MS"))
         (given (SinkBigqueryCredentialPath q) (env "SINK_BIGQUERY_CREDENTIAL_PATH"))
         (SinkBigqueryGoogleCloudProjectID q) (SinkBigqueryTableName q) (SinkBigqueryDatasetLabels q)
         (SinkBigqueryTableLabels q) (SinkBigqueryDatasetName q) (SinkBigqueryTablePartitioningEnable q)
         (SinkBigqueryTablePartitionKey q) (SinkBigqueryDatasetLocation q) (SinkBigqueryBatchSize q)
         (SinkBigqueryTableClusteringEnable q) (SinkBigqueryTableClusteringKeys q)
         (SinkErrorTypesForFailure q) (SinkConnectorSchemaProtoMessageClass q)
     else q).

(** Every variable: the sink's settings, over the request's, over the module's;
    the job's id is made, and two of the settings of sources are left out. *)
Definition env_filled `{MapRange} `{Digests} (dc : driverConf) (r : Resource) (type : string) (s : Sink)
    (m0 m : gmap string string) : Prop :=
  ∃ job, BuildResourceName "dagger" (Resource.Name r) (Project r) MaxInt = Ok job ∧
  ∀ k, m !! k =
    if decide (k ∈ ["SOURCE_KAFKA_CONSUMER_CONFIG_AUTO_COMMIT_ENABLE";
                    "SOURCE_KAFKA_CONSUMER_CONFIG_AUTO_OFFSET_RESET"]) then None
    else if decide (k = "FLINK_JOB_ID") then Some job
    else (list_to_map (sink_env type s) ∪ m0 ∪ gm (dc_EnvVariables dc)) !! k.

Definition usage_given (d u u' : UsageSpec) : Prop :=
  CPU u' = given (CPU u) (CPU d) ∧ Memory u' = given (Memory u) (Memory d).

(** The config [c] that a document [c0] asks for, for a resource on a cluster. *)
Record filled `{MapRange} `{Digests} (dc : driverConf) (r : Resource) (flink : Flink.Config) (c0 c : Config) :
    Prop := mkFilled {
  fl_id : if decide (DeploymentID c0 = "")
          then BuildResourceName "dagger" (Resource.Name r) (Project r) 45 = Ok (DeploymentID c)
          else DeploymentID c = DeploymentID c0;
  fl_sources : ∃ l l', cfg_Source c0 = Some l ∧ cfg_Source c = Some l' ∧
    sources_filled dc (DeploymentID c) l l';
  fl_sink : sink_filled dc (cfg_Influx flink) (SinkType c0) (cfg_Sink c0) (cfg_Sink c);
  fl_env : ∃ m0 m, EnvVariables c0 = Some m0 ∧ EnvVariables c = Some m ∧
    env_filled dc r (SinkType c0) (cfg_Sink c) m0 m;
  fl_replicas : Replicas c = if decide (Replicas c0 ≤ 0) then 1 else Replicas c0;
  fl_resources : usage_given (TaskManager (dc_Resources dc)) (TaskManager (cfg_Resources c0))
                   (TaskManager (cfg_Resources c)) ∧
                 usage_given (JobManager (dc_Resources dc)) (JobManager (cfg_Resources c0))
                   (JobManager (cfg_Resources c));
  fl_kept : SinkType c = SinkType c0 ∧ Team c = Team c0 ∧ Savepoint c = Savepoint c0 ∧
    cfg_ChartValues c = cfg_ChartValues c0 ∧ Deleted c = Deleted c0 ∧ JarURI c = JarURI c0 ∧
    cfg_State c = cfg_State c0 ∧ JobState c = JobState c0 ∧ ResetOffset c = ResetOffset c0 ∧
    StopTime c = StopTime c0;
}.

Lemma split_list_parts c l p : p ∈ split_list c l → c ∉ p.
Proof.
  revert p. induction l as [|x l IH]; intros p; cbn; [intros ->%list_elem_of_singleton; apply not_elem_of_nil|].
  case_decide as Hx; [intros [->|Hp]%elem_of_cons; [apply not_elem_of_nil|by apply IH]|].
  destruct (split_list c l) as [|q qs] eqn:E; [by apply split_list_nonempty in E|].
  intros [->|Hp]%elem_of_cons; [|by apply IH; right].
  apply not_elem_of_cons. split; [done|]. apply IH. by left.
Qed.

Lemma suffix_no_hyphen g : "-"%char ∉ chars (splitNameAndNumber g).2.
Proof.
  cbn [splitNameAndNumber snd]. destruct (last (Split g "-")) as [p|] eqn:E; [|apply not_elem_of_nil].
  apply last_Some_elem_of in E. apply list_elem_of_fmap in E as (q & -> & Hq).
  change (default "" (Some (str q))) with (str q). rewrite chars_str. by eapply split_list_parts.
Qed.

Lemma max_suffix_no_hyphen l : "-"%char ∉ chars (max_suffix l).
Proof.
  unfold max_suffix. assert ("-"%char ∉ chars "0000") as H0 by by apply (bool_decide_unpack _); vm_compute.
  revert H0. generalize "0000" as acc. induction l as [|s l IH]; intros acc Ha; [done|]. cbn [foldl].
  apply IH. destruct (string_gt _ _); [apply suffix_no_hyphen|done].
Qed.

Lemma increment_suffix p q k :
  "-"%char ∉ chars q → incrementGroupId (p +:+ "-" +:+ q) k = numbered p (wrap64 (atoi_value q + k)).
Proof.
  intros Hq. unfold incrementGroupId, splitNameAndNumber, Split.
  change ("-" +:+ q) with (String "-" q). rewrite chars_app.
  change (chars (String "-" q)) with ("-"%char :: chars q). rewrite split_list_snoc by done.
  rewrite fmap_app. cbn [fmap list_fmap].
  rewrite length_app, Nat.add_sub, take_app_length, last_snoc. cbn [default]. rewrite str_chars.
  fold (Split p "-"). rewrite Join_snoc by (unfold Split; intros E%fmap_nil_inv; by apply split_list_nonempty in E).
  change ("-" : string) with (String "-" "") at 1. by rewrite Join_Split.
Qed.

Lemma fill_sources_filled dc id q off l :
  "-"%char ∉ chars q → Forall2 (source_filled dc id) l (fill_sources dc (id +:+ "-" +:+ q) off l).
Proof.
  intros Hq. revert off. induction l as [|s l IH]; intros off; [constructor|]. cbn [fill_sources].
  destruct (fill_kafka dc (id +:+ "-" +:+ q) off (src_Kafka s)) as [off' k] eqn:E. constructor; [|apply IH].
  unfold fill_kafka in E. injection E as _ <-. split; try done.
  unfold group_of. cbn [set_Kafka src_Kafka SourceKafkaConsumerConfigGroupID]. case_bool_decide as Eg.
  - rewrite decide_True by done. rewrite increment_suffix by done. by eexists.
  - by rewrite decide_False.
Qed.

Section filled.
Context {GJ : GoJSON} {JS : JSONSchema} {MR : MapRange} {DG : Digests} {W : Type} {VA : VersionAPI W}.
Variable configSchemaRaw : string.

Lemma fill_sink_filled dc inf type s : sink_filled dc inf type s (fill_sink dc inf type s).
Proof.
  unfold sink_filled, fill_sink, SinkTypeKafka, SinkTypeInflux, SinkTypeBigquery.
  repeat case_decide; subst; try done. by destruct s.
Qed.

Lemma read_env_filled dc r type s env env' :
  read_env dc r type s env = Ok env' →
  ∃ m0 m, env = Some m0 ∧ env' = Some m ∧ env_filled dc r type s m0 m.
Proof.
  destruct env as [m0|]; [|unfold read_env; by rewrite put_all_nil]. intros H.
  assert (∃ job, BuildResourceName "dagger" (Resource.Name r) (Project r) MaxInt = Ok job)
    as [job Hj].
  { unfold read_env in H. rewrite put_all_Some in H. cbn [mbind result_bind] in H.
    destruct (BuildResourceName _ _ _ _) as [job|e|p]; [by exists job|done..]. }
  rewrite (read_env_eq _ _ _ _ _ _ Hj) in H. injection H as <-. eexists m0, _. split_and!; [done..|].
  exists job. split; [done|]. intros k. destruct (decide (k ∈ _)) as [Hk|Hk].
  - rewrite !elem_of_cons, elem_of_nil in Hk. destruct Hk as [->|[->|[]]]; [apply lookup_delete_eq|].
    rewrite lookup_delete_ne by done. apply lookup_delete_eq.
  - rewrite !not_elem_of_cons in Hk. rewrite !lookup_delete_ne by (intros <-; by destruct Hk as (? & ? & _)).
    destruct (decide (k = "FLINK_JOB_ID")) as [->|E]; [apply lookup_insert_eq|by apply lookup_insert_ne].
Qed.

Lemma readConfig_filled exr confJSON dc c :
  readConfig configSchemaRaw exr confJSON dc = Ok c →
  ∃ flinkOut c0, read_flinkOut "invalid flink state" exr = Ok flinkOut ∧
    Unmarshal dec_Config confJSON Config_zero = Ok c0 ∧ passes configSchemaRaw confJSON ∧
    filled dc (exr_Resource exr) (fo_Config flinkOut) c0 c.
Proof.
  unfold readConfig. intros H. apply res_bind_ok_inv in H as (c0 & Hc0 & H).
  rewrite res_on_err_ok in Hc0. apply res_bind_ok_inv in H as (id & Hid & H).
  apply res_bind_ok_inv in H as (source & Hs & H). apply res_bind_ok_inv in H as (flinkOut & Hf & H).
  apply res_bind_ok_inv in H as (env & He & H). apply res_bind_ok_inv in H as ([] & Hp & [= <-]).
  exists flinkOut, c0. split_and!; [done..|by apply FromJSONSchema_Ok|].
  split; cbn [completed DeploymentID cfg_Source cfg_Sink EnvVariables SinkType Replicas cfg_Resources];
    [| |apply fill_sink_filled|by apply read_env_filled in He as (m0 & m & ? & -> & ?); exists m0, m| |done|done].
  - unfold read_DeploymentID in Hid. destruct (DeploymentID c0); cbn [String.length Nat.eqb] in Hid; [done|].
    rewrite decide_False by done. by destruct (_ <? _); simplify_eq.
  - unfold read_sources in Hs. unfold sources_filled. destruct (cfg_Source c0) as [l|]; [|done]. cbn in Hs.
    destruct l as [|s l]; [done|]. exists (s :: l). cbn [hd].
    destruct (is_parquet s); injection Hs as Hs; subst source.
    + by exists (s :: l).
    + eexists. split_and!; [done..|].
      exact (fill_sources_filled dc id _ 0 (s :: l) (max_suffix_no_hyphen (s :: l))).
  - destruct (Z.leb_spec (Replicas c0) 0); case_decide; lia.
Qed.
End filled.
