(* ===== verification/DaggerStored.v ===== *)
(** * DaggerStored: the document that a dagger's config is stored as

    Encoding a config and decoding the document gives the config back, and a
    settled config is read back as itself. *)

From S2P Require Import Prelude GoLib Errors Resource Module Json Names Validator Kube Kubernetes Flink Helm ConsumerReset Charts GoText KubeCRD DaggerTypes DaggerConfig Dagger DaggerProps DaggerRead.

#[local] Open Scope Z_scope.

Section readback.
Context {GJ : GoJSON}.

Lemma dec_enc_dagger_Usage u : dec_UsageSpec (enc_UsageSpec u) Usage_zero = Ok u.
Proof. dec_object (CPU u, (Memory u, tt)). by destruct u. Qed.

Lemma dec_enc_Resources r : dec_Resources (enc_Resources r) Resources_zero = Ok r.
Proof.
  dec_object (TaskManager r, (JobManager r, tt)); [apply dec_enc_dagger_Usage..|]. by destruct r.
Qed.

Lemma dec_enc_SourceDetail d : dec_SourceDetail (enc_SourceDetail d) SourceDetail_zero = Ok d.
Proof. dec_object (SourceDetail_tup d tt). by destruct d. Qed.

Lemma dec_enc_Source s :
  born (SourceParquetFileDateRange (src_Parquet s)) → dec_Source (enc_Source s) Source_zero = Ok s.
Proof.
  intros Hb. dec_object (Source_tup s).
  - apply dec_slice_enc, Forall_true. apply dec_enc_SourceDetail.
  - exact Hb.
  - apply dec_slice_enc. by apply Forall_true.
  - by destruct s as [? ? ? ? [] []].
Qed.

Lemma dec_enc_Sink s : dec_Sink (enc_Sink s) Sink_zero = Ok s.
Proof. dec_object (Sink_tup s). by destruct s as [[] [] []]. Qed.

Lemma dec_enc_Chart v : dec_ChartValues (enc_ChartValues v) ChartValues_zero = Ok v.
Proof.
  dec_object (ImageRepository v, (ImageTag v, (ChartVersion v, (ImagePullPolicy v, tt)))).
  by destruct v.
Qed.

(** A config that the encoding keeps. *)
Record kept (c : Config) : Prop := mkKept {
  kp_sources : ∃ l, cfg_Source c = Some l ∧ l ≠ [] ∧
                 Forall (λ s, born (SourceParquetFileDateRange (src_Parquet s))) l;
  kp_env : ∃ m, EnvVariables c = Some m ∧ m ≠ ∅;
  kp_replicas : in_bits 64 (Replicas c) = true;
  kp_savepoint : born (Savepoint c);
  kp_stop : ∀ t, StopTime c = Some t → time_wf t = true;
}.

Lemma dec_enc_Sources l :
  Forall (λ s, born (SourceParquetFileDateRange (src_Parquet s))) l →
  dec_slice Source_zero dec_Source (enc_slice enc_Source (Some l)) None = Ok (Some l).
Proof.
  intros H. apply dec_slice_enc. apply (Forall_impl _ _ _ H), dec_enc_Source.
Qed.

Lemma kept_sources c :
  kept c → if no_list (cfg_Source c) then cfg_Source c = None
           else dec_slice Source_zero dec_Source (enc_slice enc_Source (cfg_Source c)) None =
                  Ok (cfg_Source c).
Proof.
  intros [(l & -> & Hl & Hb) _ _ _ _]. rewrite dec_enc_Sources by done. by destruct l.
Qed.

Lemma kept_env c :
  kept c → if no_map (EnvVariables c) then EnvVariables c = None
           else dec_str_map (enc_map JStr (EnvVariables c)) None = Ok (EnvVariables c).
Proof.
  intros [_ (m & -> & Hm) _ _ _]. pose proof (leaf_str_map (Some m)) as H.
  assert (no_map (Some m) = false) as E by by apply bool_decide_eq_false.
  unfold norm_map in H. rewrite E in H |- *. refine (eq_trans H _). cbn. by rewrite map_fmap_id.
Qed.

Lemma dec_enc_dagger_Config c : kept c → dec_Config (enc_Config c) Config_zero = Ok c.
Proof.
  intros K. dec_object (Config_tup c).
  - apply dec_enc_Resources.
  - by apply kept_sources.
  - apply dec_enc_Sink.
  - by apply kept_env.
  - apply dec_int_enc, K.
  - destruct K as [_ _ _ Hb _]. by destruct (Savepoint c).
  - pose proof (leaf_ptr ChartValues_zero dec_ChartValues enc_ChartValues id (cfg_ChartValues c)) as H.
    destruct (cfg_ChartValues c) as [v|]; [|done]. apply H. intros v' _. split; [done|apply dec_enc_Chart].
  - pose proof (leaf_ptr zero_time dec_time enc_time id (StopTime c)) as H. destruct K as [_ _ _ _ Ht].
    destruct (StopTime c) as [t|]; [|done]. apply H. intros t' [= <-]. split; [done|].
    by apply time_parse_print, Ht.
  - by destruct c.
Qed.
End readback.

Section stored.
Context {GJ : GoJSON} {JS : JSONSchema} {MR : MapRange} {DG : Digests} {W : Type} {VA : VersionAPI W}.
Variable configSchemaRaw : string.

Lemma settled_kept dc r flink c :
  settled dc r flink c → (∀ t, StopTime c = Some t → time_wf t = true) → kept c.
Proof.
  intros S Ht. split; [| | |by apply S|done].
  - destruct (st_sources _ _ _ _ S) as (l & Hl & [Hne _] & Hb). by exists l.
  - destruct (st_env _ _ _ _ S) as (m & Hm & He). exists m. split; [done|].
    destruct (es_job _ _ _ _ _ He) as (job & _ & Hj). intros ->. by rewrite lookup_empty in Hj.
  - pose proof (st_replicas _ _ _ _ S). unfold in_bits. apply andb_true_iff.
    rewrite Z.leb_le, Z.ltb_lt. cbn. lia.
Qed.

(** Reading again what a settled config is stored as. *)
Lemma settled_reads dc exr flinkOut c :
  read_flinkOut "invalid flink state" exr = Ok flinkOut →
  settled dc (exr_Resource exr) (fo_Config flinkOut) c →
  (∀ t, StopTime c = Some t → time_wf t = true) →
  json_wf (enc_Config c) = true → passes configSchemaRaw (MustJSON (enc_Config c)) →
  readConfig configSchemaRaw exr (MustJSON (enc_Config c)) dc = Ok c.
Proof.
  intros Hf S Ht Hw Hp%FromJSONSchema_Ok. unfold readConfig, MustJSON in *.
  rewrite Unmarshal_print by done. rewrite dec_enc_dagger_Config by by eapply settled_kept.
  cbn [on_err mbind result_bind].
  destruct S as [[Hid Hlen] (l & Hl & Hsrc & _) Hsink (m & Hm & Henv) Hrep Hres (F1 & F2 & F3)
    (M1 & M2 & M3 & M4 & M5) _].
  rewrite read_DeploymentID_settled by done. cbn [mbind result_bind].
  rewrite Hl, read_sources_settled by done. cbn [mbind result_bind]. rewrite Hf.
  cbn [mbind result_bind]. rewrite Hsink, Hm, read_env_settled by done. cbn [mbind result_bind].
  rewrite Hp. cbn [mbind result_bind]. unfold completed. rewrite mergeResources_eq by done.
  destruct (Z.leb_spec (Replicas c) 0); [lia|]. rewrite <- Hl, <- Hm, <- F1, <- F2, <- F3, <- M1, <- M2,
    <- M3, <- M4, <- M5. by destruct c.
Qed.
(** A config that the database keeps and the schema lets through. *)
Definition storable (c : Config) : Prop :=
  json_wf (enc_Config c) = true ∧ passes configSchemaRaw (MustJSON (enc_Config c)) ∧
  (∀ t, StopTime c = Some t → time_wf t = true).

(** C17. Reading a dagger's config settles it.  The document, which has to pass
    the schema, is completed.  The deployment's name is made from the resource's
    when none is given, and has at most 45 characters.  When the first source is
    not a Parquet source, each source gets the settings that it leaves out, and a
    consumer group named after the deployment if it has none; when it is, all the
    sources stay as they are given, Kafka sources after it too.  The settings of
    the sink come from the module or the Flink cluster; the environment has those
    before the request's variables, and these before the module's; resources that
    are left out are the module's, and there is at least one replica.  What was
    given is kept, and the names of the Flink cluster and of the module's places
    are taken over.  When the config can be stored - its texts are UTF-8, its stop
    time can be written and its document passes the schema - that document is read
    back, for the same resource and cluster, as the same config. *)
Theorem dagger_config_settles exr confJSON dc c :
  readConfig configSchemaRaw exr confJSON dc = Ok c →
  ∃ flinkOut c0, read_flinkOut "invalid flink state" exr = Ok flinkOut ∧
    Unmarshal dec_Config confJSON Config_zero = Ok c0 ∧ passes configSchemaRaw confJSON ∧
    filled dc (exr_Resource exr) (fo_Config flinkOut) c0 c ∧
    settled dc (exr_Resource exr) (fo_Config flinkOut) c ∧
    (storable c → readConfig configSchemaRaw exr (MustJSON (enc_Config c)) dc = Ok c).
Proof.
  intros H. pose proof (readConfig_settled _ _ _ _ _ H) as (flinkOut & Hf & S).
  apply readConfig_filled in H as (fl & c0 & Hf' & H0 & Hp0 & F). rewrite Hf in Hf'. injection Hf' as <-.
  exists flinkOut, c0. split_and!; [done..|].
  intros (Hw & Hp & Ht). by apply settled_reads with (flinkOut := flinkOut).
Qed.
End stored.
