(* ===== verification/DaggerRun.v ===== *)
(** * DaggerRun: from an action on a dagger to the cluster

    Every action leaves a settled config and one step; the syncs that follow
    make one release of it. *)

From S2P Require Import Prelude GoLib Errors Resource Module StepMachine Json Names Validator Kube Kubernetes Flink Helm ConsumerReset Charts GoText KubeCRD DaggerTypes DaggerConfig Dagger DaggerProps DaggerRead DaggerStored PendingSteps.

#[local] Open Scope Z_scope.

Section settled.
Context {GJ : GoJSON} {JS : JSONSchema} {MR : MapRange} {DG : Digests} {W : Type} {VA : VersionAPI W}.
Implicit Types (dc : driverConf) (r : Resource) (c : Config).

Lemma settled_resource dc r r' fl c :
  Resource.Name r' = Resource.Name r → Project r' = Project r → settled dc r fl c → settled dc r' fl c.
Proof.
  intros Hn Hp [? ? ? (m & Hm & [? ? ? ?]) ? ? ? ? ?]. split; try done. exists m. split; [done|].
  split; rewrite ?Hn, ?Hp; done.
Qed.

Lemma settled_set_chart dc r fl c cv jar : settled dc r fl c → settled dc r fl (set_chart cv jar c).
Proof. by intros []. Qed.
Lemma settled_set_states dc r fl c s j : settled dc r fl c → settled dc r fl (set_states s j c).
Proof. by intros []. Qed.
Lemma settled_set_ResetOffset dc r fl c o : settled dc r fl c → settled dc r fl (set_ResetOffset o c).
Proof. by intros []. Qed.

Lemma settled_put dc r fl c k v env :
  settled dc r fl c → k ∈ [keyStreams; keyFlinkParallelism; KeySchemaRegistryStencilURLs] →
  map_put k v (EnvVariables c) = Ok env → settled dc r fl (set_EnvVariables env c).
Proof.
  intros [? ? ? (m & Hm & He) ? ? ? ? ?] Hk. rewrite Hm. intros [= <-]. split; try done.
  exists (<[k := v]> m). split; [done|by apply env_settled_put].
Qed.

Lemma settled_put_streams dc r fl c c' :
  settled dc r fl c → put_streams c = Ok c' → settled dc r fl c'.
Proof.
  intros S. unfold put_streams, put_all. cbn [res_fold fst snd]. intros H.
  apply res_bind_ok_inv in H as (env & H & [= <-]). apply res_bind_ok_inv in H as (e1 & H1 & H).
  apply res_bind_ok_inv in H as (e2 & H2 & [= <-]).
  pose proof (settled_put _ _ _ _ _ _ _ S ltac:(left) H1) as S1.
  by pose proof (settled_put _ _ _ (set_EnvVariables e1 c) _ _ _ S1 ltac:(right; left) H2).
Qed.

Lemma settled_stencil dc r fl c c' params :
  settled dc r fl c → updateStencilSchemaRegistryURLsParams c params = Ok c' → settled dc r fl c'.
Proof.
  intros S. unfold updateStencilSchemaRegistryURLsParams.
  case_decide as E; [|by intros [= <-]]. intros H. apply res_bind_ok_inv in H as (urls & _ & H).
  case_decide; [by injection H as <-|]. apply res_bind_ok_inv in H as (env & He & [= <-]).
  eapply settled_put; [done| |exact He]. right. right. left.
Qed.

Definition ranges_born (l : list Source) : Prop :=
  Forall (λ s, born (SourceParquetFileDateRange (src_Parquet s))) l.

Lemma settled_set_Source dc r fl c l :
  settled dc r fl c → sources_settled dc l → ranges_born l → settled dc r fl (set_Source (Some l) c).
Proof. intros [] Hs Hb. split; try done. by exists l. Qed.

Lemma settled_restored dc r fl c cur :
  settled dc r fl c → settled dc r fl cur →
  settled dc r fl (set_restored (DeploymentID cur) (mergeResources (cfg_Resources cur) (cfg_Resources c)) c).
Proof. intros [] []. split; try done. by apply mergeResources_full. Qed.

(** Every Kafka source has a consumer group. *)
Definition grouped (l : list Source) : Prop := Forall (λ s, is_parquet s = true ∨ group_of s ≠ "") l.

Lemma keep_groups_sources dc cur new :
  grouped cur → sources_settled dc new → ranges_born new →
  sources_settled dc (keep_groups cur new) ∧ ranges_born (keep_groups cur new).
Proof.
  intros Hg [Hne Hs] Hb. revert cur Hg.
  assert (∀ cur, grouped cur → Forall (kafka_full dc) new → Forall (kafka_full dc) (keep_groups cur new)) as H1.
  { clear Hs Hb Hne. induction new as [|n new IH]; intros [|c cur] Hg Hf; try done.
    inversion Hg as [|? ? Hc Hg']; subst. inversion Hf as [|? ? Hn Hf']; subst. cbn [keep_groups].
    constructor; [|by apply IH]. destruct (is_parquet c); [done|]. case_decide; [|done].
    destruct Hc as [Hc|Hc]; [done|]. destruct Hn as (_ & H2 & H3 & H4). by split_and!. }
  assert (∀ cur, ranges_born (keep_groups cur new)) as H2.
  { clear Hs H1 Hne. induction Hb as [|n new Hn Hb IH]; intros [|c cur]; cbn [keep_groups]; try by constructor.
    constructor; [|apply IH]. destruct (is_parquet c); [done|]. by case_decide. }
  intros cur Hg. split; [|done]. split.
  - by destruct new, cur.
  - destruct Hs as [Hs|Hs]; [left|right; by apply H1]. destruct new as [|n new]; [done|].
    destruct cur as [|c cur]; [done|]. cbn [keep_groups hd]. destruct (is_parquet c); [done|]. by case_decide.
Qed.

Lemma settled_mergeConsumerGroupId dc r fl c cur :
  settled dc r fl c → grouped (default [] cur) →
  settled dc r fl (set_Source (mergeConsumerGroupId cur (cfg_Source c)) c).
Proof.
  intros S Hg. destruct (st_sources _ _ _ _ S) as (l & Hl & Hs & Hb). rewrite Hl.
  unfold mergeConsumerGroupId. destruct (_ =? _)%nat; [|by apply settled_set_Source].
  destruct (keep_groups_sources dc _ _ Hg Hs Hb) as [H1 H2].
  exact (settled_set_Source _ _ _ _ _ S H1 H2).
Qed.

Lemma reset_sources_full dc base to off l :
  to ≠ "" → Forall (kafka_full dc) l → Forall (kafka_full dc) (reset_sources base to off l).
Proof.
  intros Ht H. revert off. induction H as [|s l (_ & H1 & H2 & H3) _ IH]; intros off; [constructor|].
  cbn [reset_sources]. constructor; [|apply IH]. split_and!; try done. apply incrementGroupId_nonempty.
Qed.

Lemma reset_ranges base to off l : ranges_born l → ranges_born (reset_sources base to off l).
Proof.
  intros H. revert off. induction H as [|s l Hs _ IH]; intros off; [constructor|].
  cbn [reset_sources]. constructor; [exact Hs|apply IH].
Qed.

Lemma settled_consumer_reset dc r fl c to source :
  settled dc r fl c → to ≠ "" → consumer_reset c to = Ok source →
  settled dc r fl (set_Source source c).
Proof.
  intros S Ht. destruct (st_sources _ _ _ _ S) as (l & Hl & [Hne Hs] & Hb). unfold consumer_reset.
  rewrite Hl. cbn [from_option Datatypes.id fmap option_fmap option_map].
  destruct l as [|s l]; [done|]. cbn [hd] in Hs. destruct (is_parquet s) eqn:Hp; intros [= <-].
  - apply settled_set_Source; [done| |done]. split; [done|by left].
  - destruct Hs as [|Hs]; [done|].
    apply (settled_set_Source _ _ _ _ (reset_sources _ to 0 (s :: l))); [done| |by apply reset_ranges].
    split; [done|]. right. by apply reset_sources_full.
Qed.
End settled.

(** ** What an action is planned as *)

Definition step_of (action : string) : string :=
  if decide (action = CreateAction) then stepReleaseCreate
  else if decide (action = ResetAction) then stepKafkaReset
  else stepReleaseUpdate.

Section plan.
Context {GJ : GoJSON} {JS : JSONSchema} {MR : MapRange} {DG : Digests} {TP : Template}
  {UC : Unicode} {W : Type} {VA : VersionAPI W}.
Variable configSchemaRaw : string.
Implicit Types (dd : daggerDriver W) (dc : driverConf) (exr : ExpandedResource) (c : Config).

Abbreviation readConfig := (readConfig configSchemaRaw) (only parsing).

(** The output of a dagger that was just planned. *)
Definition planned_output (c : Config) : Output :=
  mkOutput "" "" "" "" None (Namespace c) "" "" Exception_zero.

(** The output that a plan leaves. *)
Definition left_output (action : string) (exr : ExpandedResource) (c : Config) : RawMessage :=
  if decide (action = CreateAction) then MustJSON (enc_Output (planned_output c))
  else Resource.Output (res_State (exr_Resource exr)).

(** The resource as it is planned, but for its state. *)
Definition with_config (c : Config) (labels : gomap string) (exr : ExpandedResource) : Resource :=
  set_Configs (MustJSON (enc_Config c)) (set_Labels labels (exr_Resource exr)).

(** What the action relies on: an update, that the sources it may take consumer
    groups from have some; a reset, that it says what to reset to. *)
Definition well_asked (dd : daggerDriver W) (exr : ExpandedResource) (act : ActionRequest) : Prop :=
  (act_Name act = UpdateAction → ∀ cur,
     readConfig exr (Configs (res_Spec (exr_Resource exr))) (conf dd) = Ok cur →
     grouped (default [] (cfg_Source cur))) ∧
  (act_Name act = ResetAction →
     consumerReset dd = consumer_reset ∧ ∀ v, ParseResetV2Params (Params act) = Ok v → v ≠ "").

(** ** The config that an action asks for *)

(** The variables that are made from the config. *)
Definition streams_env (c : Config) (m : gmap string string) : gmap string string :=
  <["FLINK_PARALLELISM" := Sprint (Replicas c)]>
    (<["STREAMS" := json_print (enc_slice enc_Source (cfg_Source c))]> m).

(** The schema registries of the request, when they are not refreshed. *)
Definition stencil_env (params : RawMessage) (m m' : gmap string string) : Prop :=
  if decide (gm_get (Some m) "SCHEMA_REGISTRY_STENCIL_CACHE_AUTO_REFRESH" = "false") then
    ∃ urls, Unmarshal dec_StencilURLs params "" = Ok urls ∧
      m' = if decide (urls = "") then m else <["SCHEMA_REGISTRY_STENCIL_URLS" := urls]> m
  else m' = m.

Inductive asked_config (dc : driverConf) (exr : ExpandedResource) (act : ActionRequest) : Config → Prop :=
  (** a create runs the config of the request *)
  | ac_create c0 m cv :
      act_Name act = CreateAction →
      readConfig exr (Params act) dc = Ok c0 → EnvVariables c0 = Some m →
      mergeChartValues (Some (dc_ChartValues dc)) (cfg_ChartValues c0) = Ok cv →
      asked_config dc exr act
        (set_states (given (cfg_State c0) "DEPLOYED") (given (JobState c0) "running")
           (set_chart cv (dc_JarURI dc) (set_EnvVariables (Some (streams_env c0 m)) c0)))
  (** an update that of the request, in the same deployment; sources keep their
      consumer groups, and what is left out of resources and states is as it was *)
  | ac_update cur c0 m cv :
      act_Name act = UpdateAction →
      readConfig exr (Configs (res_Spec (exr_Resource exr))) dc = Ok cur →
      readConfig exr (Params act) dc = Ok c0 → EnvVariables c0 = Some m →
      mergeChartValues (cfg_ChartValues cur) (Some (dc_ChartValues dc)) = Ok cv →
      let c1 := set_Source (mergeConsumerGroupId (cfg_Source cur) (cfg_Source c0)) c0 in
      asked_config dc exr act
        (set_restored (DeploymentID cur)
           (mkResources (mkUsage (given (CPU (TaskManager (cfg_Resources c0))) (CPU (TaskManager (cfg_Resources cur))))
                                 (given (Memory (TaskManager (cfg_Resources c0))) (Memory (TaskManager (cfg_Resources cur)))))
                        (mkUsage (given (CPU (JobManager (cfg_Resources c0))) (CPU (JobManager (cfg_Resources cur))))
                                 (given (Memory (JobManager (cfg_Resources c0))) (Memory (JobManager (cfg_Resources cur))))))
           (set_states (given (cfg_State c0) (cfg_State cur)) (given (JobState c0) (JobState cur))
              (set_chart cv (dc_JarURI dc) (set_EnvVariables (Some (streams_env c1 m)) c1))))
  (** a stop suspends the stored one *)
  | ac_stop cur :
      act_Name act = StopAction → readConfig exr (Configs (res_Spec (exr_Resource exr))) dc = Ok cur →
      asked_config dc exr act (set_states "USER_STOPPED" "suspended" cur)
  (** a start runs it, with the module's chart and jar *)
  | ac_start cur m m' :
      act_Name act = StartAction → readConfig exr (Configs (res_Spec (exr_Resource exr))) dc = Ok cur →
      EnvVariables cur = Some m → stencil_env (Params act) m m' →
      asked_config dc exr act
        (set_EnvVariables (Some m')
           (set_chart (Some (dc_ChartValues dc)) (dc_JarURI dc) (set_states "DEPLOYED" "running" cur)))
  (** a reset moves its sources to new consumer groups *)
  | ac_reset cur m m' v source :
      act_Name act = ResetAction → readConfig exr (Configs (res_Spec (exr_Resource exr))) dc = Ok cur →
      ParseResetV2Params (Params act) = Ok v → EnvVariables cur = Some m → stencil_env (Params act) m m' →
      consumer_reset cur v = Ok source →
      asked_config dc exr act
        (set_chart (Some (dc_ChartValues dc)) (dc_JarURI dc)
           (set_EnvVariables (Some (<["STREAMS" := json_print (enc_slice enc_Source source)]> m'))
              (set_Source source (set_ResetOffset v cur))))
  (** any other action releases the stored one again *)
  | ac_other cur :
      act_Name act ∉ [CreateAction; UpdateAction; StopAction; StartAction; ResetAction] →
      readConfig exr (Configs (res_Spec (exr_Resource exr))) dc = Ok cur →
      asked_config dc exr act cur.

Lemma readConfig_env exr doc dc c :
  readConfig exr doc dc = Ok c → ∃ m, EnvVariables c = Some m.
Proof. intros (fl & _ & S)%readConfig_settled. destruct (st_env _ _ _ _ S) as (m & Hm & _). eauto. Qed.

Lemma put_streams_Some c c' m :
  EnvVariables c = Some m → put_streams c = Ok c' → c' = set_EnvVariables (Some (streams_env c m)) c.
Proof. unfold put_streams. intros ->. by intros [= <-]. Qed.

Lemma stencil_asked c params c' m :
  EnvVariables c = Some m → updateStencilSchemaRegistryURLsParams c params = Ok c' →
  ∃ m', stencil_env params m m' ∧ c' = set_EnvVariables (Some m') c.
Proof.
  unfold updateStencilSchemaRegistryURLsParams, stencil_env. intros Hm. rewrite Hm.
  change KeySchemaRegistryStencilCacheAutoRefresh with "SCHEMA_REGISTRY_STENCIL_CACHE_AUTO_REFRESH".
  destruct (decide (gm_get (Some m) _ = "false")).
  - intros H. apply res_bind_ok_inv in H as (urls & Hu & H). exists (if decide (urls = "") then m
      else <["SCHEMA_REGISTRY_STENCIL_URLS" := urls]> m). split; [by exists urls|].
    destruct (decide (urls = "")); [injection H as <-; rewrite <- Hm; by destruct c|by injection H as <-].
  - intros [= <-]. exists m. split; [done|]. rewrite <- Hm. by destruct c.
Qed.

Lemma dagger_planCreate_Ok dc exr act now r :
  planCreate configSchemaRaw dc exr act now = Ok r →
  ∃ flinkOut c labels, read_flinkOut "invalid flink state" exr = Ok flinkOut ∧
    settled dc (exr_Resource exr) (fo_Config flinkOut) c ∧
    (act_Name act = CreateAction → asked_config dc exr act c) ∧
    r = Resource.set_State
          (pending (MustJSON (enc_Output (planned_output c))) [stepReleaseCreate] "" now)
          (with_config c labels exr).
Proof.
  unfold planCreate. intros H. apply res_bind_ok_inv in H as (c0 & Hc & H).
  apply res_bind_ok_inv in H as (c1 & Hs & H). apply res_bind_ok_inv in H as (cv & Hcv & H).
  apply res_bind_ok_inv in H as (labels & _ & H). apply res_bind_ok_inv in H as ([] & _ & [= <-]).
  destruct (readConfig_env _ _ _ _ Hc) as [m Hm].
  pose proof (put_streams_Some _ _ _ Hm Hs) as E.
  pose proof Hc as (fl & Hf & S)%readConfig_settled. exists fl. eexists (set_states _ _ (set_chart _ _ c1)), labels.
  split; [exact Hf|]. split; [|split; [|reflexivity]].
  - apply settled_set_states, settled_set_chart. by eapply settled_put_streams.
  - intros Ha. subst c1. by eapply (ac_create _ _ _ c0).
Qed.

Lemma change_config_settled dc exr act cur c :
  (act_Name act = UpdateAction → grouped (default [] (cfg_Source cur))) →
  change_config configSchemaRaw dc exr act cur = Ok c → ∀ flinkOut,
  read_flinkOut "invalid flink state" exr = Ok flinkOut →
  settled dc (exr_Resource exr) (fo_Config flinkOut) cur →
  settled dc (exr_Resource exr) (fo_Config flinkOut) c.
Proof.
  intros Hg H fl Hf S. unfold change_config in H. case_decide as E1.
  { unfold change_update in H. apply res_bind_ok_inv in H as (n0 & Hn & H).
    apply res_bind_ok_inv in H as (n1 & Hs & H). apply res_bind_ok_inv in H as (cv & _ & [= <-]).
    apply readConfig_settled in Hn as (fl' & Hf' & Sn). rewrite Hf in Hf'. injection Hf' as <-.
    refine (settled_restored _ _ _ (set_states _ _ (set_chart _ _ n1)) cur _ S).
    apply settled_set_states, settled_set_chart. eapply settled_put_streams; [|exact Hs]. apply settled_mergeConsumerGroupId; [done|by apply Hg]. }
  case_decide; [injection H as <-; by apply settled_set_states|].
  case_decide; [|by injection H as <-].
  eapply settled_stencil; [|exact H]. by apply settled_set_chart, settled_set_states.
Qed.

Lemma change_config_asked dc exr act cur c :
  act_Name act ≠ CreateAction → act_Name act ≠ ResetAction →
  readConfig exr (Configs (res_Spec (exr_Resource exr))) dc = Ok cur →
  change_config configSchemaRaw dc exr act cur = Ok c → asked_config dc exr act c.
Proof.
  intros Hnc Hnr Hcur H. unfold change_config in H.
  destruct (readConfig_env _ _ _ _ Hcur) as [m Hm].
  destruct (decide (act_Name act = UpdateAction)) as [E|E1].
  { unfold change_update in H. apply res_bind_ok_inv in H as (n0 & Hn & H).
    apply res_bind_ok_inv in H as (n1 & Hs & H). apply res_bind_ok_inv in H as (cv & Hcv & [= <-]).
    destruct (readConfig_env _ _ _ _ Hn) as [m0 Hm0].
    apply (put_streams_Some _ _ m0) in Hs as ->; [|done]. by eapply (ac_update _ _ _ cur n0 m0 cv). }
  destruct (decide (act_Name act = StopAction)); [injection H as <-; by apply ac_stop|].
  destruct (decide (act_Name act = StartAction)).
  - destruct (stencil_asked (set_chart (Some (dc_ChartValues dc)) (dc_JarURI dc)
      (set_states StateDeployed JobStateRunning cur)) _ _ m Hm H) as (m' & Hm' & ->). by eapply (ac_start _ _ _ cur m m').
  - injection H as <-. apply ac_other; [|done]. rewrite !not_elem_of_cons. split_and!; [done..|apply not_elem_of_nil].
Qed.

Lemma dagger_planChange_Ok dc exr act now r :
  act_Name act ≠ CreateAction → act_Name act ≠ ResetAction →
  (act_Name act = UpdateAction → ∀ cur, readConfig exr (Configs (res_Spec (exr_Resource exr))) dc = Ok cur →
     grouped (default [] (cfg_Source cur))) →
  planChange configSchemaRaw dc exr act now = Ok r →
  ∃ flinkOut c labels, read_flinkOut "invalid flink state" exr = Ok flinkOut ∧
    settled dc (exr_Resource exr) (fo_Config flinkOut) c ∧ asked_config dc exr act c ∧
    r = Resource.set_State
          (pending (Resource.Output (res_State (exr_Resource exr))) [stepReleaseUpdate] "" now)
          (with_config c labels exr).
Proof.
  intros Hnc Hnr Hg. unfold planChange. intros H. apply res_bind_ok_inv in H as (cur & Hc & H).
  apply res_bind_ok_inv in H as (c & Hch & H). apply res_bind_ok_inv in H as (labels & _ & H).
  apply res_bind_ok_inv in H as ([] & _ & [= <-]).
  pose proof Hc as (fl & Hf & S)%readConfig_settled. exists fl, c, labels. split; [done|].
  split_and!; [|by eapply change_config_asked|done].
  eapply (change_config_settled _ _ _ cur); try done. intros Hu. by apply Hg.
Qed.

Lemma dagger_planReset_Ok dc exr act now r :
  (∀ v, ParseResetV2Params (Params act) = Ok v → v ≠ "") →
  planReset configSchemaRaw consumer_reset dc exr act now = Ok r →
  ∃ flinkOut c v, read_flinkOut "invalid flink state" exr = Ok flinkOut ∧
    settled dc (exr_Resource exr) (fo_Config flinkOut) c ∧
    (act_Name act = ResetAction → asked_config dc exr act c) ∧
    ParseResetV2Params (Params act) = Ok v ∧
    r = Resource.set_State
          (pending (Resource.Output (res_State (exr_Resource exr))) [stepKafkaReset] v now)
          (with_config c (Labels (exr_Resource exr)) exr).
Proof.
  intros Hv. unfold planReset. intros H. apply res_bind_ok_inv in H as (v & Hp & H).
  apply res_bind_ok_inv in H as (cur & Hc & H). apply res_bind_ok_inv in H as (c1 & Hst & H).
  apply res_bind_ok_inv in H as (source & Hs & H). apply res_bind_ok_inv in H as (env & He & [= <-]).
  destruct (readConfig_env _ _ _ _ Hc) as [m Hm].
  destruct (stencil_asked _ _ _ _ Hm Hst) as (m' & Hm' & E).
  pose proof Hc as (fl & Hf & S)%readConfig_settled. exists fl.
  exists (set_chart (Some (dc_ChartValues dc)) (dc_JarURI dc)
    (set_EnvVariables env (set_Source source (set_ResetOffset v c1)))), v.
  split; [exact Hf|]. split; [|split; [|split; [exact Hp|unfold with_config; by destruct (exr_Resource exr)]]].
  2:{ intros Ha. subst c1. injection He as <-. by eapply (ac_reset _ _ _ cur m m'). }
  eapply settled_stencil in S; [|exact Hst]. apply (settled_set_ResetOffset _ _ _ _ v) in S.
  eapply settled_consumer_reset in S; [|by apply Hv|exact Hs].
  apply settled_set_chart. refine (settled_put _ _ _ _ keyStreams _ _ S _ He). left.
Qed.

Lemma dagger_Plan_Ok {TJ : TextJSON} dd exr act w r w' :
  well_asked dd exr act →
  dagger_Plan configSchemaRaw dd exr act w = (Ok r, w') →
  w' = w ∧ ∃ flinkOut c labels v,
    read_flinkOut "invalid flink state" exr = Ok flinkOut ∧ valid_utf8 v = true ∧
    settled (conf dd) (exr_Resource exr) (fo_Config flinkOut) c ∧ asked_config (conf dd) exr act c ∧
    r = Resource.set_State
          (pending (left_output (act_Name act) exr c) [step_of (act_Name act)] v (timeNow dd w))
          (with_config c labels exr).
Proof.
  intros [Hu Hr]. unfold dagger_Plan, left_output, step_of. intros H.
  destruct (decide (act_Name act = CreateAction)) as [E|E].
  { injection H as H <-. split; [done|].
    apply dagger_planCreate_Ok in H as (fl & c & labels & Hf & S & Ha & ->).
    exists fl, c, labels, "". split_and!; [done..|by apply Ha|done]. }
  destruct (decide (act_Name act = ResetAction)) as [E'|E'].
  { injection H as H <-. split; [done|]. destruct (Hr E') as [Hc Hv]. rewrite Hc in H.
    apply dagger_planReset_Ok in H as (fl & c & v & Hf & S & Ha & Hp & ->); [|done].
    exists fl, c, (Labels (exr_Resource exr)), v. split_and!; [done| |done|by apply Ha|done].
    by eapply ParseResetV2Params_utf8. }
  injection H as H <-. split; [done|].
  apply dagger_planChange_Ok in H as (fl & c & labels & Hf & S & Ha & ->); [|done..].
  by exists fl, c, labels, "".
Qed.
End plan.

(** ** The syncs that follow *)

Section run.
Context {GJ : GoJSON} {JS : JSONSchema} {MR : MapRange} {DG : Digests} {TP : Template}
  {UC : Unicode} {W : Type} {VA : VersionAPI W}.
Variable configSchemaRaw : string.
Implicit Types (dd : daggerDriver W) (dc : driverConf) (exr : ExpandedResource) (c : Config).

Lemma transient_read deps r out steps v t :
  Forall (λ s, valid_utf8 s = true) steps → valid_utf8 v = true →
  readTransientData (mkExpanded (Resource.set_State (pending out steps v t) r) deps) =
    Ok (mkTransient (Some steps) v).
Proof.
  intros Hs Hv. set (data := mkTransient (Some steps) v).
  assert (json_wf (enc_transient data) = true) as Hw by by apply (transient_doc_wf steps).
  unfold readTransientData. cbn [exr_Resource res_State Resource.set_State ModuleData pending].
  fold data. unfold MustJSON. rewrite (proj2 (Nat.eqb_neq _ _)) by by apply json_print_nonempty.
  rewrite Unmarshal_print by done.
  assert (dec_transient (enc_transient data) transient_zero = Ok data) as ->; [|done].
  dec_object ((Some steps, (v, tt)) : option (list string) * (string * ())). apply dec_enc_strings.
Qed.

Lemma dec_enc_planned c :
  dec_Output (enc_Output (planned_output c)) Output_zero = Ok (planned_output c).
Proof.
  dec_object ("", ("", ("", ("", (None : option (list Pod), (Namespace c, ("", ("", (Exception_zero, tt))))))))).
Qed.

Lemma planned_output_wf c :
  valid_utf8 (Namespace c) = true → json_wf (enc_Output (planned_output c)) = true.
Proof.
  intros Hn. unfold json_wf, enc_Output, obj, planned_output.
  cbn [out_JMDeployStatus out_JobStatus out_State Reconcilation out_Pods out_Namespace JobID out_Error
    Exceptions no_list].
  change (no_str "") with true. destruct (no_str (Namespace c));
    cbn [concat app mem omit json_texts json_depth forallb foldr fst snd enc_Exception];
    rewrite ?Hn; reflexivity.
Qed.

Lemma planned_output_read c st r deps :
  valid_utf8 (Namespace c) = true → Resource.Output st = MustJSON (enc_Output (planned_output c)) →
  readOutputData (mkExpanded (Resource.set_State st r) deps) = Ok (planned_output c).
Proof.
  intros Hw%planned_output_wf Ho. unfold readOutputData.
  cbn [exr_Resource res_State Resource.set_State]. rewrite Ho. unfold MustJSON.
  rewrite (proj2 (Nat.eqb_neq _ _)) by by apply json_print_nonempty.
  by rewrite Unmarshal_print, dec_enc_planned by done.
Qed.

Lemma config_Namespace c : json_wf (enc_Config c) = true → valid_utf8 (Namespace c) = true.
Proof.
  intros Hw. destruct (decide (Namespace c = "")) as [->|Hn]; [done|].
  eapply (json_wf_member _ "namespace"); [exact Hw|].
  assert (no_str (Namespace c) = false) as -> by by apply bool_decide_eq_false.
  cbn [omit]. do 12 right. left.
Qed.

(** One sync of a planned dagger, whatever steps are left. *)
Lemma dagger_sync_pending dd res deps c flinkOut old out steps v t w :
  let exr := mkExpanded (Resource.set_State (pending old steps v t) res) deps in
  readOutputData exr = Ok out →
  readConfig configSchemaRaw exr (Configs (res_Spec res)) (conf dd) = Ok c →
  read_flinkOut "invalid flink state" exr = Ok flinkOut →
  Forall (λ s, s ∈ known_steps) steps → valid_utf8 v = true →
  dagger_Sync configSchemaRaw dd exr w =
  match steps with
  | s :: steps =>
      (_ ← releaseSync dd res (bool_decide (s = stepReleaseCreate)) c (fo_KubeCluster flinkOut);
       leave (timeNow dd) (pending old steps v)) w
  | [] => finish_sync dd res c out (fo_KubeCluster flinkOut) w
  end.
Proof.
  cbv zeta. intros Ho Hc Hf Hs Hv. unfold dagger_Sync. rewrite transient_read; [|..|done].
  2:{ eapply Forall_impl; [exact Hs|]. intros s Hs'. unfold known_steps in Hs'.
      rewrite !elem_of_cons, elem_of_nil in Hs'. by destruct Hs' as [->|[->|[->|[->|[]]]]]. }
  rewrite Ho. cbn [exr_Resource res_Spec Resource.set_State]. rewrite Hc, Hf.
  destruct steps as [|s steps]; [done|]. inversion Hs as [|? ? Hs1 _]; subst.
  unfold lift, mbind, M_bind, on_err. cbn. unfold sync_step. rewrite bool_decide_true by done.
  unfold mbind, M_bind, mret, M_ret, read_clock, leave.
  by destruct (releaseSync _ _ _ _ _ w) as [[c'|e|s'] w2].
Qed.

(** The sync with no step left: a stop time that has passed suspends the dagger
    with one more release, and asks for no further sync; otherwise nothing is
    released, and a stop time to come is when to sync again. *)
Definition completes dd (res : Resource) c (out : Output) (kubeOut : Kubernetes.Output) : io W State := λ w,
  if match StopTime c with Some t => t <? timeNow dd w | None => false end then
    (c' ← releaseSync dd res false (set_states "SYSTEM_STOPPED" "suspended" c) kubeOut;
     o ← refreshOutput dd res c' out kubeOut;
     mret (mkState StatusCompleted o None None SyncResult_zero)) w
  else
    (o ← refreshOutput dd res c out kubeOut;
     mret (mkState StatusCompleted o None (StopTime c) SyncResult_zero)) w.

Lemma finish_completes dd res c out kubeOut w :
  finish_sync dd res c out kubeOut w = completes dd res c out kubeOut w.
Proof.
  unfold finish_sync, completes. destruct (StopTime c) as [t|] eqn:Ht; rewrite run_bind;
    [unfold read_clock|unfold mret at 1, M_ret at 1]; cbv iota zeta; cbn [is_due].
  - destruct (t <? timeNow dd w); [done|]. by rewrite run_bind.
  - by rewrite run_bind.
Qed.

(** C13. An action on a dagger reaches the cluster in two syncs.  Planning it
    leaves the config that the action asks for - a create that of the request, an
    update that of the request in the same deployment, a stop the stored one
    suspended, a start the stored one running, a reset the stored one with new
    consumer groups - in which nothing that has a default is missing, and one
    step, due at once.  When the config can be stored (its texts are UTF-8, its
    stop time can be written, its document passes the schema), it is read back as
    itself; so the first sync makes one release of it, by a create only for a
    create, and the second reports what the cluster says and completes the
    resource - unless the config's stop time has passed, when it first releases
    the dagger once more, suspended; one that is still to come is when to sync
    again.  Unless it is a create, the resource must have an output that can be
    read; an update must find a consumer group in each stored Kafka source that
    it may take one from, and a reset must say what to reset to. *)
Theorem dagger_action_deploys {TJ : TextJSON} dd exr act w r w' :
  well_asked configSchemaRaw dd exr act →
  dagger_Plan configSchemaRaw dd exr act w = (Ok r, w') →
  act_Name act = CreateAction ∨ (∃ o, readOutputData exr = Ok o) →
  w' = w ∧ ∃ flinkOut c,
    let planned := mkExpanded r (exr_Dependencies exr) in
    let kubeOut := fo_KubeCluster flinkOut in
    read_flinkOut "invalid flink state" exr = Ok flinkOut ∧
    asked_config configSchemaRaw (conf dd) exr act c ∧
    settled (conf dd) r (fo_Config flinkOut) c ∧
    Configs (res_Spec r) = MustJSON (enc_Config c) ∧
    Status (res_State r) = StatusPending ∧ NextSyncAt (res_State r) = Some (timeNow dd w) ∧
    (storable configSchemaRaw c → ∃ out,
     (if decide (act_Name act = CreateAction) then out = planned_output c else readOutputData exr = Ok out) ∧
     ∀ w1,
     syncs (dagger_Sync configSchemaRaw dd) 2 planned w1 =
     (_ ← releaseSync dd r (bool_decide (act_Name act = CreateAction)) c kubeOut;
      st ← completes dd r c out kubeOut;
      mret (after st planned)) w1).
Proof.
  intros Hask H Hold. destruct (dagger_Plan_Ok _ _ _ _ _ _ _ Hask H)
    as (-> & flinkOut & c & labels & v & Hf & Hv & S & Hac & ->).
  split; [done|]. exists flinkOut, c. cbv zeta. set (old := left_output (act_Name act) exr c).
  set (step := step_of (act_Name act)). set (res := with_config c labels exr).
  set (deps := exr_Dependencies exr).
  split_and!; try done; [by apply (settled_resource _ (exr_Resource exr))|].
  intros (Hw & Hp & Ht).
  assert (∃ out,
    (if decide (act_Name act = CreateAction) then out = planned_output c else readOutputData exr = Ok out) ∧
    ∀ st, Resource.Output st = old →
    readOutputData (mkExpanded (Resource.set_State st res) deps) = Ok out) as (out & Hprev & Hout).
  { unfold old, left_output. destruct (decide (act_Name act = CreateAction)) as [E|E].
    - exists (planned_output c). split; [done|]. intros st Ho.
      apply planned_output_read; [by apply config_Namespace|done].
    - destruct Hold as [|[o Ho]]; [done|]. exists o. split; [done|]. intros st Hst. rewrite <- Ho.
      unfold readOutputData. cbn [exr_Resource res_State Resource.set_State]. by rewrite Hst. }
  exists out. split; [done|]. intros w1.
  pose (inv := λ exr', ∃ st, exr' = mkExpanded (Resource.set_State st res) deps).
  assert (∀ exr' steps t w2, inv exr' → Forall (λ s, s ∈ known_steps) steps →
    state_of exr' = pending old steps v t →
    dagger_Sync configSchemaRaw dd exr' w2 =
    match steps with
    | s :: steps =>
        (_ ← releaseSync dd res (bool_decide (s = stepReleaseCreate)) c (fo_KubeCluster flinkOut);
         leave (timeNow dd) (pending old steps v)) w2
    | [] => finish_sync dd res c out (fo_KubeCluster flinkOut) w2
    end) as Hsync.
  { intros exr' steps t w2 [st ->] Hs Hst. unfold state_of in Hst. cbn in Hst. subst st.
    apply dagger_sync_pending; try done; [by apply Hout|]. apply settled_reads with (flinkOut := flinkOut); try done.
    by apply (settled_resource _ (exr_Resource exr)). }
  set (planned := mkExpanded _ deps).
  assert (inv planned) as Hi by by eexists.
  assert (Forall (λ s, s ∈ known_steps) [step]) as Hstep.
  { constructor; [|done]. unfold step, step_of, known_steps. rewrite !elem_of_cons. repeat case_decide; tauto. }
  assert (∀ exr' steps t, inv exr' → inv (after (pending old steps v t) exr')) as Ha
    by (intros exr' steps t [st ->]; by eexists).
  etransitivity.
  - refine (machine_runs _ (timeNow dd) inv _ (λ steps, pending old steps v)
      (λ s, _ ← releaseSync dd res (bool_decide (s = stepReleaseCreate)) c (fo_KubeCluster flinkOut); mret tt)
      (finish_sync dd res c out (fo_KubeCluster flinkOut))
      Ha _ _ [step] planned (timeNow dd w) w1 Hi Hstep eq_refl).
    + intros exr' s steps t w2 Hi' Hs Hst. rewrite (Hsync exr' (s :: steps) t w2 Hi' Hs Hst).
      rewrite !run_bind. by destruct (releaseSync _ _ _ _ _ w2) as [[]].
    + intros exr' t w2 Hi' Hst. exact (Hsync exr' [] t w2 Hi' (Forall_nil_2 _) Hst).
  - cbn [for_each]. rewrite !run_bind.
    assert (bool_decide (step = stepReleaseCreate) = bool_decide (act_Name act = CreateAction)) as ->.
    { unfold step, step_of. apply bool_decide_ext. by repeat case_decide. }
    change (releaseSync dd (Resource.set_State (pending old [step] v (timeNow dd w)) res)) with
      (releaseSync dd res).
    destruct (releaseSync dd res _ c _ w1) as [[c'|e|s] w2]; [|done..].
    change (completes dd (Resource.set_State (pending old [step] v (timeNow dd w)) res)) with
      (completes dd res).
    cbv iota. rewrite !run_bind, <- finish_completes. reflexivity.
Qed.
End run.
