(* ===== verification/DaggerRelease.v ===== *)
(** * DaggerRelease: the release that a dagger becomes, and what is reported of it *)

From S2P Require Import Prelude GoLib Errors Resource Module Json Names Kube Kubernetes Flink Helm ConsumerReset Charts GoText KubeCRD DaggerTypes DaggerConfig Dagger.

#[local] Open Scope Z_scope.

Section release.
Context {GJ : GoJSON} {JS : JSONSchema} {MR : MapRange} {DG : Digests} {TP : Template}
  {UC : Unicode} {W : Type} {KA : KubeAPI W} {VA : VersionAPI W} {HA : HelmAPI W}.
Implicit Types (dd : daggerDriver W) (dc : driverConf) (c : Config) (rc : ReleaseConfig).

(** The flags that the job is started with: the environment, with the type of
    the sink in lower case. *)
Definition job_env (c : Config) : gmap string string :=
  <[keySinkType := ToLower (gm_get (EnvVariables c) keySinkType)]> (gm (EnvVariables c)).

(** A release that runs what the config says. *)
Record runs (c : Config) (rc : ReleaseConfig) : Prop := mkRuns {
  run_labels : ∃ ls, Values rc !! labelsConfKey = Some (AStrMap ls) ∧
    gm_get ls labelDeployment = DeploymentID c ∧
    gm_get ls labelOrchestrator = orchestratorLabelValue;
  run_args : ∃ args env, Values rc !! "programArgs" = Some (AStrs (Some ["--encodedArgs"; args])) ∧
    env ≡ₚ map_to_list (job_env c) ∧
    DecodeString args =
      Some ("[" +:+ Join (concat (map (λ kv, [Quote ("--" +:+ kv.1); Quote kv.2]) env)) "," +:+ "]");
  run_state : Values rc !! "state" = Some (AStr (JobState c));
  run_replicas : Values rc !! "configuration" = Some (vmap [("FLINK_PARALLELISM", AInt (Replicas c))]);
  run_jar : Values rc !! "jarURI" = Some (AStr (JarURI c));
  run_flink : Values rc !! "flink_name" = Some (AStr (FlinkName c));
}.

Lemma bind_concat_map {A B} (g : A → list B) (l : list A) : (l ≫= g) = concat (map g l).
Proof. by induction l as [|x l IH]; cbn; [|rewrite <- IH]. Qed.

Lemma dagger_getHelmRelease_Ok dc r c kubeOut rc env :
  getHelmRelease dc r c kubeOut = Ok (rc, env) →
  rel_Name rc = DeploymentID c ∧ rel_Namespace rc = Namespace c ∧ runs c rc ∧ env = Some (job_env c).
Proof.
  unfold getHelmRelease. intros H. apply res_bind_ok_inv in H as (labels & _ & H).
  apply res_bind_ok_inv in H as (cv & _ & H). apply res_bind_ok_inv in H as (env' & He & H).
  apply res_bind_ok_inv in H as (name & _ & [= <- <-]). apply map_put_Ok in He as ->.
  split_and!; [done..| |done]. split; cbn [Values]; try reflexivity.
  - eexists. split; [reflexivity|]. unfold gm_get, CloneAndMergeMaps, entropyLabels.
    rewrite !copy_range_spec. unfold gm at 1.
    assert (∀ (m1 m2 : gmap string string) k v, m1 !! k = Some v →
      default "" ((m1 ∪ m2) !! k) = v) as Hk.
    { intros m1 m2 k v Hv. by erewrite lookup_union_Some_l. }
    split; apply Hk; reflexivity.
  - eexists _, (range (job_env c)). split; [reflexivity|]. split; [apply range_perm|].
    etransitivity; [apply DecodeString_Encode|]. unfold program_args. cbn [gm default].
    by rewrite bind_concat_map.
Qed.

(** What the labels of a release in the cluster must say. *)
Definition owned (c : Config) (rel : release) : Prop :=
  ∃ labels, release_Config rel !! labelsConfKey = Some (AMap labels) ∧
    labels !! labelOrchestrator = Some (AStr orchestratorLabelValue) ∧
    labels !! labelDeployment = Some (AStr (DeploymentID c)).

Lemma dagger_canUpdate_owned c rc rel : runs c rc → canUpdate rc rel = true ↔ owned c rel.
Proof.
  intros [(ls & Hls & Hd & _) _ _ _ _ _]. unfold canUpdate, owned.
  destruct (release_Config rel !! labelsConfKey) as [[| | | | | | | |m]|]; try naive_solver.
  rewrite Hls, Hd, andb_true_iff. split.
  - intros [H1 H2]. exists m. split; [done|]. revert H1 H2.
    destruct (m !! labelOrchestrator) as [[| | | |s| | | |]|]; try done.
    destruct (m !! labelDeployment) as [[| | | |s'| | | |]|]; try done.
    rewrite !bool_decide_eq_true. by intros -> ->.
  - intros (m' & [= <-] & -> & ->). by rewrite !bool_decide_true.
Qed.

(** The cluster after a release that succeeded. *)
Definition deployed (c : Config) (kubeOut : Kubernetes.Output) (w w' : W) : Prop :=
  ∃ rc, rel_Name rc = DeploymentID c ∧ rel_Namespace rc = Namespace c ∧ runs c rc ∧
    upserted (out_Configs kubeOut) rc (owned c) w true w'.

Lemma dagger_deploy_upserted c rc kubeConf create w out w' :
  runs c rc → kube_deploy create kubeConf rc w = (out, w') →
  upserted kubeConf rc (owned c) w (is_ok out) w'.
Proof.
  intros Hr H. unfold kube_deploy in H. rewrite run_bind in H.
  destruct (Upsert kubeConf rc (canUpdate rc) w) as [o w1] eqn:Hu.
  apply (Upsert_upserted _ _ _ (owned c)) in Hu; [|intros rel; by apply dagger_canUpdate_owned].
  by destruct o; injection H as <- <-.
Qed.

Lemma dagger_releaseSync_run dd r isCreate c kubeOut w out w' :
  kubeDeploy dd = kube_deploy →
  releaseSync dd r isCreate c kubeOut w = (out, w') →
  (is_ok (getHelmRelease (conf dd) r c kubeOut) = false ∧ is_ok out = false ∧ w' = w) ∨
  ∃ rc, rel_Name rc = DeploymentID c ∧ rel_Namespace rc = Namespace c ∧ runs c rc ∧
    upserted (out_Configs kubeOut) rc (owned c) w (is_ok out) w' ∧
    ∀ c', out = Ok c' → c' = set_EnvVariables (Some (job_env c)) c.
Proof.
  intros Hdd H. unfold releaseSync in H. rewrite run_bind, run_lift in H.
  destruct (getHelmRelease (conf dd) r c kubeOut) as [[rc env]|e|s] eqn:Hrel;
    [right|by injection H as <- <-; left..].
  apply dagger_getHelmRelease_Ok in Hrel as (Hn & Hns & Hr & ->). exists rc. split_and!; [done..| |].
  - rewrite run_bind in H. unfold catch in H. rewrite Hdd in H. cbn [fst snd] in H.
    destruct (kube_deploy isCreate (out_Configs kubeOut) rc w) as [o w1] eqn:Hd.
    apply (dagger_deploy_upserted c) in Hd; [|done]. by destruct o; injection H as <- <-.
  - rewrite run_bind in H. intros c' ->. destruct (catch _ _ w) as [[] w1]; [|done..].
    by injection H as <- <-.
Qed.

Lemma dagger_releaseSync_Ok dd r isCreate c kubeOut w c' w' :
  kubeDeploy dd = kube_deploy →
  releaseSync dd r isCreate c kubeOut w = (Ok c', w') →
  c' = set_EnvVariables (Some (job_env c)) c ∧ deployed c kubeOut w w'.
Proof.
  intros Hdd H. apply dagger_releaseSync_run in H as [(_ & [=] & _)|(rc & Hn & Hns & Hr & Hu & Hc)]; [|done].
  split; [by apply Hc|]. by exists rc.
Qed.

(** C16. A release of a dagger runs what its config says, in the deployment that
    is its own.  When its values cannot be rendered it fails with nothing called.
    Otherwise it makes one upsert of a release that carries the config's name,
    namespace, labels, parallelism and job state, and starts the job with the
    whole environment, as a list of quoted flags and values that the job gets
    back by decoding its one argument.  The release is installed when the lookup
    says that there is none of its name, and upgraded when the one that is there
    is labelled as made by entropy for this deployment; someone else's is left as
    it is, and the call fails, as it does with nothing called when the lookup
    fails for another reason.  The call succeeds when the install or the upgrade
    does, and leaves the type of the sink in lower case in the environment. *)
Theorem dagger_release_correct dd r isCreate c kubeOut w out w' :
  kubeDeploy dd = kube_deploy →
  releaseSync dd r isCreate c kubeOut w = (out, w') →
  (is_ok (getHelmRelease (conf dd) r c kubeOut) = false ∧ is_ok out = false ∧ w' = w) ∨
  ∃ rc, rel_Name rc = DeploymentID c ∧ rel_Namespace rc = Namespace c ∧ runs c rc ∧
    upserted (out_Configs kubeOut) rc (owned c) w (is_ok out) w' ∧
    ∀ c', out = Ok c' → c' = set_EnvVariables (Some (job_env c)) c.
Proof. apply dagger_releaseSync_run. Qed.

(** A dagger stops at its stop time.  The sync that finds no step left
    releases it as suspended when the time has passed, then asks for no further
    sync; before that it releases nothing and asks to be run again at that
    time. *)
Theorem dagger_stops_on_time dd r c out kubeOut t w st w' :
  kubeDeploy dd = kube_deploy → StopTime c = Some t →
  finish_sync dd r c out kubeOut w = (Ok st, w') →
  Status st = StatusCompleted ∧
  let c' := set_states StateSystemStopped JobStateSuspended c in
  if t <? timeNow dd w
  then NextSyncAt st = None ∧ ∃ w1, deployed c' kubeOut w w1 ∧
    refreshOutput dd r (set_EnvVariables (Some (job_env c')) c') out kubeOut w1 =
      (Ok (Resource.Output st), w')
  else NextSyncAt st = Some t ∧ refreshOutput dd r c out kubeOut w = (Ok (Resource.Output st), w').
Proof.
  intros Hdd Ht H. unfold finish_sync in H. rewrite Ht in H. cbv zeta in *.
  apply bind_ok_inv in H as (now & w0 & [= <- <-] & H). cbn [is_due] in H.
  destruct (t <? timeNow dd w).
  - apply bind_ok_inv in H as (c' & w1 & Hc & H). apply dagger_releaseSync_Ok in Hc as [-> Hd]; [|done].
    apply bind_ok_inv in H as (o & w2 & Ho & [= <- <-]). split; [done|]. split; [done|]. by exists w1.
  - apply bind_ok_inv in H as (c' & w1 & [= <- <-] & H).
    by apply bind_ok_inv in H as (o & w2 & Ho & [= <- <-]).
Qed.

(** ** What is reported *)

(** A dagger that is meant to run. *)
Definition meant_to_run (c : Config) : bool :=
  bool_decide (cfg_State c = StateDeployed) && negb (bool_decide (JobState c = JobStateSuspended)).

(** The output when the cluster could not be asked. *)
Definition failed_output (err : error) : Output :=
  mkOutput "" "" "" "" None "" "" (error_string err) Exception_zero.

(** The output says what the cluster said. *)
Record reports (c : Config) (pods : option (list Pod)) (crd : FlinkDeploymentStatus) (out : Output) :
    Prop := mkReports {
  rp_pods : out_Pods out = pods;
  rp_names : JobID out = DeploymentID c ∧ out_Namespace out = Namespace c ∧ out_Error out = "";
  rp_status : out_JobStatus out = JobStatus crd ∧ out_JMDeployStatus out = JMDeployStatus crd ∧
              Reconcilation out = Reconciliation crd;
  rp_running : out_State out = "RUNNING" ↔ JobStatus crd = "RUNNING";
  rp_canceled : out_State out = "CANCELED" ↔ JobStatus crd = "FINISHED";
}.

Lemma shown_state_cases s :
  (shown_state s = "RUNNING" ↔ s = "RUNNING") ∧ (shown_state s = "CANCELED" ↔ s = "FINISHED").
Proof. unfold shown_state. repeat case_decide; subst; naive_solver. Qed.

(** What is asked of the job manager, answer by answer: the jobs, then the
    exceptions of the first. *)
Inductive asked_flink (dd : daggerDriver W) (kc : Kube.Config) (ns name : string) (w : W) :
    error + Exception → W → Prop :=
  | af_no_jobs_read e w' :
      kubeProxyService dd kc ns "http" (name +:+ "-rest") "8081" "jobs/overview" w = (Err e, w') →
      asked_flink dd kc ns name w (inl e) w'
  | af_bad_jobs raw err w' :
      kubeProxyService dd kc ns "http" (name +:+ "-rest") "8081" "jobs/overview" w = (Ok raw, w') →
      Unmarshal dec_JobsOverview raw None = Err err →
      asked_flink dd kc ns name w
        (inl (caused (WithMsgf ErrInternal "failed to unmarshal jobs overview response") err)) w'
  | af_no_job raw jobs w' :
      kubeProxyService dd kc ns "http" (name +:+ "-rest") "8081" "jobs/overview" w = (Ok raw, w') →
      Unmarshal dec_JobsOverview raw None = Ok jobs → default [] jobs = [] →
      asked_flink dd kc ns name w (inr Exception_zero) w'
  | af_not_read raw jobs id ids w1 e w' :
      kubeProxyService dd kc ns "http" (name +:+ "-rest") "8081" "jobs/overview" w = (Ok raw, w1) →
      Unmarshal dec_JobsOverview raw None = Ok jobs → default [] jobs = id :: ids →
      kubeProxyService dd kc ns "http" (name +:+ "-rest") "8081" ("jobs/" +:+ id +:+ "/exceptions") w1 =
        (Err e, w') →
      asked_flink dd kc ns name w (inl e) w'
  | af_bad raw jobs id ids w1 raw2 err w' :
      kubeProxyService dd kc ns "http" (name +:+ "-rest") "8081" "jobs/overview" w = (Ok raw, w1) →
      Unmarshal dec_JobsOverview raw None = Ok jobs → default [] jobs = id :: ids →
      kubeProxyService dd kc ns "http" (name +:+ "-rest") "8081" ("jobs/" +:+ id +:+ "/exceptions") w1 =
        (Ok raw2, w') →
      Unmarshal dec_JobsException raw2 (mkJobsException "" 0) = Err err →
      asked_flink dd kc ns name w
        (inl (caused (WithMsgf ErrInternal
           ("failed to unmarshal jobs exception response for job " +:+ id)) err)) w'
  | af_exception raw jobs id ids w1 raw2 e w' :
      kubeProxyService dd kc ns "http" (name +:+ "-rest") "8081" "jobs/overview" w = (Ok raw, w1) →
      Unmarshal dec_JobsOverview raw None = Ok jobs → default [] jobs = id :: ids →
      kubeProxyService dd kc ns "http" (name +:+ "-rest") "8081" ("jobs/" +:+ id +:+ "/exceptions") w1 =
        (Ok raw2, w') →
      Unmarshal dec_JobsException raw2 (mkJobsException "" 0) = Ok e →
      asked_flink dd kc ns name w
        (inr (mkException (jer_RootException e) (Some (of_unix_ms (jer_Timestamp e))))) w'.

Lemma getFlinkExceptions_asked dd kc ns name w o w' :
  getFlinkExceptions dd kc ns name w = (o, w') →
  match o with
  | Ok e => asked_flink dd kc ns name w (inr e) w'
  | Err e => asked_flink dd kc ns name w (inl e) w'
  | Panic _ => True
  end.
Proof.
  unfold getFlinkExceptions. cbv zeta. rewrite run_bind.
  destruct (kubeProxyService dd kc ns _ _ _ "jobs/overview" w) as [[raw|e|s] w1] eqn:Hj;
    [|intros [= <- <-]; by apply af_no_jobs_read|by intros [= <- <-]].
  rewrite run_bind, run_lift. destruct (Unmarshal dec_JobsOverview raw None) as [jobs|e|s] eqn:Hu; cbn [on_err];
    [|intros [= <- <-]; by eapply af_bad_jobs|by intros [= <- <-]].
  destruct (default [] jobs) as [|id ids] eqn:Hd; [intros [= <- <-]; by eapply af_no_job|].
  rewrite run_bind.
  destruct (kubeProxyService dd kc ns _ _ _ ("jobs/" +:+ id +:+ "/exceptions") w1)
    as [[raw2|e|s] w2] eqn:He; [|intros [= <- <-]; by eapply af_not_read|by intros [= <- <-]].
  rewrite run_bind, run_lift. destruct (Unmarshal dec_JobsException raw2 _) as [e|err|s] eqn:Hu2; cbn [on_err];
    intros [= <- <-]; [by eapply af_exception|by eapply af_bad|done].
Qed.

(** What the output shows of the answer. *)
Definition shown_exception (answer : error + Exception) : Exception :=
  match answer with
  | inl err => mkException ("Failed to fetch exceptions: " +:+ error_string err) None
  | inr e => if decide (RootException e = "") then Exception_zero else e
  end.

(** A time that cannot be written. *)
Definition unwritable (e : Exception) : Prop :=
  ∃ t, Timestamp e = Some t ∧ t ≠ zero_time ∧ time_wf t = false.

Lemma marshal_Output_cases o :
  (marshal_Output o = Ok (MustJSON (enc_Output o)) ∧ ¬ unwritable (Exceptions o)) ∨
  (∃ s, marshal_Output o = Panic s) ∧ unwritable (Exceptions o).
Proof.
  unfold marshal_Output, unwritable.
  destruct (Timestamp (Exceptions o)) as [t|]; [|left; split; [done|by intros (? & [=] & _)]].
  destruct (decide (t = zero_time)) as [->|Ht]; [left; split; [done|by intros (? & [= <-] & ? & _)]|].
  rewrite bool_decide_false by done. cbn [orb].
  destruct (time_wf t) eqn:Hw; [left|right].
  - split; [done|]. intros (? & [= <-] & _ & ?). congruence.
  - split; [by eexists|by exists t].
Qed.

(** The exceptions of a dagger that was found. *)
Definition found_exception dd c kc (w1 : W) (exc : Exception) (w2 : W) : Prop :=
  if meant_to_run c
  then ∃ answer, asked_flink dd kc (Namespace c) (DeploymentID c) w1 answer w2 ∧ exc = shown_exception answer
  else exc = Exception_zero ∧ w2 = w1.

Lemma output_exceptions_found dd c kc w :
  (∃ exc w', output_exceptions dd c kc (Namespace c) (DeploymentID c) w = (Ok exc, w') ∧
     found_exception dd c kc w exc w') ∨
  ∃ s w', output_exceptions dd c kc (Namespace c) (DeploymentID c) w = (Panic s, w') ∧
    meant_to_run c = true ∧
    getFlinkExceptions dd kc (Namespace c) (DeploymentID c) w = (Panic s, w').
Proof.
  unfold output_exceptions, found_exception. fold (meant_to_run c).
  destruct (meant_to_run c); [|left; by exists Exception_zero, w].
  rewrite run_bind. unfold attempt.
  destruct (getFlinkExceptions _ _ _ _ w) as [[exc|err|s] w1] eqn:Hg; [left|left|right; by exists s, w1].
  - eexists _, w1. split; [reflexivity|]. exists (inr exc). split; [|done].
    by apply getFlinkExceptions_asked in Hg.
  - eexists _, w1. split; [reflexivity|]. exists (inl err). split; [|done].
    by apply getFlinkExceptions_asked in Hg.
Qed.

(** C40. Asking for the output of a dagger whose release can be rendered does not
    fail because of the cluster.  When its pods or its Flink deployment cannot be
    read, the output says so in its error; otherwise it says what they are -
    running only if the operator says so - and, for a dagger that is meant to run,
    the exception of the first of its jobs when that has one, or why it could not
    be fetched.  Nothing else is asked of a dagger that is not meant to run.  The
    call panics only when a call to the cluster does, or when the time that Flink
    gives for the exception is one that cannot be written as JSON. *)
Theorem dagger_output_correct dd r c o kubeOut w :
  is_ok (getHelmRelease (conf dd) r c kubeOut) = true →
  let kc := out_Configs kubeOut in
  let asked := getKubeResources dd kc (Namespace c) (DeploymentID c) (DeploymentID c) w in
  (∃ out w', refreshOutput dd r c o kubeOut w = (Ok (MustJSON (enc_Output out)), w') ∧
     ((∃ err, asked = (Err err, w') ∧ out = failed_output err) ∨
      (∃ pods crd w1, asked = (Ok (pods, crd), w1) ∧ reports c pods crd out ∧
         found_exception dd c kc w1 (Exceptions out) w'))) ∨
  (∃ s w', refreshOutput dd r c o kubeOut w = (Panic s, w') ∧
     (asked = (Panic s, w') ∨
      ∃ pods crd w1, asked = (Ok (pods, crd), w1) ∧ meant_to_run c = true ∧
        (getFlinkExceptions dd kc (Namespace c) (DeploymentID c) w1 = (Panic s, w') ∨
         ∃ exc, found_exception dd c kc w1 exc w' ∧ unwritable exc))).
Proof.
  intros [[rc env] Hrel]%ok_res. cbv zeta.
  pose proof Hrel as (Hn & Hns & _)%dagger_getHelmRelease_Ok.
  unfold refreshOutput. rewrite run_bind, run_lift, Hrel. cbn [fst]. rewrite Hn, Hns, run_bind.
  unfold attempt at 1 2.
  destruct (getKubeResources _ _ _ _ _ w) as [[[pods crd]|err|s] w1];
    [|left|right; exists s, w1; split; [done|by left]].
  2:{ eexists _, w1. split; [reflexivity|]. left. by exists err. }
  rewrite run_bind.
  destruct (output_exceptions_found dd c (out_Configs kubeOut) w1) as [(exc & w2 & -> & Hf)|(s & w2 & -> & Hm & Hg)].
  2:{ right. exists s, w2. split; [done|]. right. exists pods, crd, w1. split_and!; [done..|by left]. }
  cbv beta iota. rewrite run_lift. destruct (marshal_Output_cases
    (mkOutput (JMDeployStatus crd) (JobStatus crd) (shown_state (JobStatus crd)) (Reconciliation crd)
       pods (Namespace c) (DeploymentID c) "" exc)) as [[-> _]|[[s ->] Hu]]; [left|right].
  - eexists _, w2. split; [reflexivity|]. right. exists pods, crd, w1. split_and!; [done| |done].
    split; try done; apply shown_state_cases.
  - exists s, w2. split; [done|]. right. exists pods, crd, w1. split_and!; [done| |].
    + unfold found_exception in Hf. destruct (meant_to_run c); [done|]. destruct Hf as [-> _].
      by destruct Hu as (t & [=] & _).
    + right. by exists exc.
Qed.
End release.
