(* ===== verification/Calm.v ===== *)
(** * Calm: calls without a stack overflow

    [GetResource] (Service.v) runs out of stack when it recurses too deep; to
    show that it never does, the calls it makes must not end that way either.
    [calm] says so of a pure outcome, and [steady] of a call that also leaves a
    part of the world alone.  Both are closed under the combinators; the
    lemmas here carry them through decoders, schemas, templates and names. *)

From S2P Require Import Prelude GoLib Errors Resource Module Json Kube Names Validator Charts.

#[local] Open Scope Z_scope.

Create HintDb calm discriminated.

Definition calm {A} (r : go A) : Prop := r ≠ Panic "stack overflow".

Section calm.
Context {A B : Type}.
Implicit Types (r : go A).

Lemma calm_Ok (a : A) : calm (Ok a).
Proof. done. Qed.

Lemma calm_Err e : calm (A := A) (Err e).
Proof. done. Qed.

Lemma calm_bind r (f : A → go B) : calm r → (∀ a, calm (f a)) → calm (r ≫= f).
Proof. unfold calm. destruct r as [a|e|s]; cbn; [naive_solver|done|congruence]. Qed.

Lemma calm_on_err r h : calm r → calm (on_err r h).
Proof. unfold calm. by destruct r. Qed.

(** A [match] on an outcome that passes a panic on. *)
Lemma calm_panic r s : calm r → r = Panic s → calm (A := B) (Panic s).
Proof. unfold calm. congruence. Qed.

Lemma calm_res_fold (f : B → A → go B) b l :
  (∀ b a, calm (f b a)) → calm (res_fold f b l).
Proof.
  intros Hf. revert b. induction l as [|a l IH]; intros b; cbn; [done|].
  unfold calm in *. specialize (Hf b a). destruct (f b a) as [b'|e|s]; cbn; [apply IH|done|congruence].
Qed.
End calm.

#[export] Hint Resolve calm_Ok calm_Err : calm.
#[export] Hint Extern 1 (calm (Panic _)) => solve [discriminate | eapply calm_panic; [|eassumption]; auto with calm] : calm.

(** One step: the combinator at the head of the call, or its case analysis. *)
Ltac calm_step :=
  lazymatch goal with
  | |- calm (mbind _ _) => apply calm_bind; [|intros ?]
  | |- calm (on_err _ _) => apply calm_on_err
  | |- calm (res_fold _ _ _) => apply calm_res_fold; intros ? ?
  | _ => first [solve [auto with calm] | case_match]
  end.
Ltac calm_tac := repeat calm_step.

(** ** What the libraries promise *)

Class CalmJSON {GJ : GoJSON} : Prop := {
  calm_json_parse : ∀ s, calm (json_parse s);
  calm_time_parse : ∀ s, calm (time_parse s);
}.

Class CalmSchema {JS : JSONSchema} : Prop := {
  calm_NewSchema : ∀ s, calm (NewSchema s);
  calm_schema_Validate : ∀ s p, calm (schema_Validate s p);
}.

Class CalmTemplate {TP : Template} : Prop := {
  calm_template_Parse : ∀ s, calm (template_Parse s);
  calm_template_Execute : ∀ t m, calm (template_Execute t m);
}.

#[export] Hint Resolve calm_json_parse calm_time_parse calm_NewSchema calm_schema_Validate
  calm_template_Parse calm_template_Execute : calm.

(** ** Decoders *)

Section decoders.
Context {GJ : GoJSON} {CJ : CalmJSON}.

Definition calm_dec {A} (d : dec A) : Prop := ∀ j old, calm (d j old).

Lemma calm_Unmarshal {A} (d : dec A) data old : calm_dec d → calm (Unmarshal d data old).
Proof using CJ. intros H. unfold Unmarshal. calm_tac. Qed.

Lemma calm_dec_string : calm_dec dec_string.
Proof. intros j old. unfold dec_string. calm_tac. Qed.

Lemma calm_dec_bool : calm_dec dec_bool.
Proof. intros j old. unfold dec_bool. calm_tac. Qed.

Lemma calm_dec_int_of bits ty : calm_dec (dec_int_of bits ty).
Proof. intros j old. unfold dec_int_of. calm_tac. Qed.

Lemma calm_dec_float bits : calm_dec (dec_float bits).
Proof. intros j old. unfold dec_float. calm_tac. Qed.

Lemma calm_dec_time : calm_dec dec_time.
Proof using CJ. intros j old. unfold dec_time. calm_tac. Qed.

Lemma calm_dec_ptr {A} (zero : A) d : calm_dec d → calm_dec (dec_ptr zero d).
Proof. intros H j old. unfold dec_ptr. calm_tac. Qed.

Lemma calm_dec_elems {A} (zero : A) d l old : calm_dec d → calm (dec_elems zero d l old).
Proof.
  intros H. revert old. induction l as [|j l IH]; intros old; cbn; [done|].
  apply calm_bind; [apply H|]. intros x. apply calm_bind; [apply IH|done].
Qed.

Lemma calm_dec_slice {A} (zero : A) d : calm_dec d → calm_dec (dec_slice zero d).
Proof. intros H j old. unfold dec_slice. calm_tac. by apply calm_dec_elems. Qed.

Lemma calm_dec_map {A} (zero : A) d : calm_dec d → calm_dec (dec_map zero d).
Proof. intros H j old. unfold dec_map. calm_tac. Qed.

(** The fields of a struct. *)
Definition calm_fields {A} (fs : fields A) : Prop := Forall (λ nd, calm_dec nd.2) fs.

Lemma calm_fnil : calm_fields fnil.
Proof. constructor. Qed.

Lemma calm_fcons {A B} name (d : dec A) (rest : fields B) :
  calm_dec d → calm_fields rest → calm_fields (fcons (name, d) rest).
Proof.
  intros Hd Hr. unfold fcons. constructor.
  - intros j ab. apply calm_bind; [apply Hd|done].
  - apply Forall_fmap. eapply Forall_impl; [exact Hr|]. intros [k d'] H j ab.
    apply calm_bind; [apply H|done].
Qed.

Lemma calm_find_by {A} p (fs : fields A) d : calm_fields fs → find_by p fs = Some d → calm_dec d.
Proof.
  induction fs as [|[k d'] fs IH]; cbn; [done|]. intros [Hd Hfs]%Forall_cons H.
  destruct (p k); [by simplify_eq|by apply IH].
Qed.

Lemma calm_dec_members {A} (fs : fields A) l old : calm_fields fs → calm (dec_members fs l old).
Proof.
  intros H. unfold dec_members. apply calm_res_fold. intros a kv.
  destruct (find_field fs kv.1) as [d|] eqn:E; [|done]. unfold find_field in E.
  destruct (find_by _ fs) as [d'|] eqn:E1; simplify_eq; eapply calm_find_by; eauto.
Qed.

Lemma calm_dec_struct {A} ty (fs : fields A) : calm_fields fs → calm_dec (dec_struct ty fs).
Proof. intros H j old. unfold dec_struct. destruct j; try done. by apply calm_dec_members. Qed.

Lemma calm_dec_record {A T} ty (tup : A → T) untup (fs : fields T) :
  calm_fields fs → calm_dec (dec_record ty tup untup fs).
Proof.
  intros H j old. unfold dec_record. apply calm_bind; [by apply calm_dec_struct|done].
Qed.

Lemma calm_dec_any : calm_dec dec_any.
Proof.
  intros j old. unfold dec_any. clear old. revert j. fix IH 1. intros [| | | |l|l]; cbn; try done.
  - by destruct (float_text _ _).
  - apply calm_bind; [|done]. induction l as [|j l IHl]; [done|].
    apply calm_bind; [apply IH|]. intros x. by apply calm_bind; [apply IHl|].
  - apply calm_bind; [|done]. generalize (∅ : gmap string any).
    induction l as [|[k j] l IHl]; intros m; [done|].
    apply calm_bind; [apply IH|]. intros x. apply IHl.
Qed.
End decoders.

#[export] Hint Resolve calm_dec_string calm_dec_bool calm_dec_int_of calm_dec_float
  calm_dec_time calm_dec_ptr calm_dec_slice calm_dec_map calm_dec_any calm_fnil calm_fcons
  calm_dec_struct calm_dec_record : calm.

(** A decoder is taken apart down to those above. *)
Ltac head_of t := lazymatch t with ?f _ => head_of f | _ => t end.
Ltac calm_dec_step :=
  lazymatch goal with
  | |- calm_fields (fcons _ _) => apply calm_fcons
  | |- calm_fields [] => constructor
  | |- calm_fields ?fs => let h := head_of fs in unfold h
  | |- calm_dec (dec_record _ _ _ _) => apply calm_dec_record
  | |- calm_dec (dec_struct _ _) => apply calm_dec_struct
  | |- calm_dec (dec_ptr _ _) => apply calm_dec_ptr
  | |- calm_dec (dec_slice _ _) => apply calm_dec_slice
  | |- calm_dec (dec_map _ _) => apply calm_dec_map
  | |- calm_dec ?d => first [solve [auto with calm] | let h := head_of d in unfold h]
  end.
Ltac calm_dec := repeat calm_dec_step.
#[export] Hint Extern 1 (calm (Unmarshal _ _ _)) =>
  apply calm_Unmarshal; solve [calm_dec] : calm.

(** ** Schemas, templates, names *)

Lemma calm_FromJSONSchema {JS : JSONSchema} {CS : CalmSchema} s p : calm (FromJSONSchema s p).
Proof. unfold FromJSONSchema. calm_tac. Qed.

Lemma calm_TaggedStruct {A} {TV : TagValidator A} (v : A) : calm (TaggedStruct v).
Proof. unfold TaggedStruct. calm_tac. Qed.

Lemma calm_renderTpl {MR : MapRange} {TP : Template} {CT : CalmTemplate} tpl vals :
  calm (renderTpl tpl vals).
Proof. unfold renderTpl. calm_tac. Qed.

Lemma calm_map_put {A} k (v : A) m : calm (map_put k v m).
Proof. unfold map_put. calm_tac. Qed.

Lemma calm_nil_deref {A} : calm (nil_deref (A := A)).
Proof. done. Qed.

Lemma calm_slice_to s n : calm (slice_to s n).
Proof. unfold slice_to. calm_tac. Qed.
#[export] Hint Resolve calm_FromJSONSchema calm_TaggedStruct calm_renderTpl calm_map_put
  calm_nil_deref calm_slice_to : calm.

Section names.
Context {DG : Digests}.

Lemma calm_SafeName name suffix n : calm (SafeName name suffix n).
Proof. unfold SafeName. calm_tac. Qed.

Lemma calm_BuildResourceName kind name project n : calm (BuildResourceName kind name project n).
Proof. unfold BuildResourceName. calm_tac. Qed.
End names.
#[export] Hint Resolve calm_SafeName calm_BuildResourceName : calm.

(** ** Calls *)

Create HintDb steady discriminated.

Section steady.
Context {W : Type} (R : relation W) {PO : PreOrder R}.

Definition steady {A} (m : io W A) : Prop := ∀ w, R w (m w).2 ∧ calm (m w).1.

Context {A B : Type}.
Implicit Types (m : io W A).

Lemma steady_effects m : steady m → effects R m.
Proof. intros H w. apply H. Qed.

Lemma steady_ret (a : A) : steady (mret a).
Proof using PO. by intros w. Qed.

Lemma steady_throw e : steady (throw (A := A) e).
Proof using PO. by intros w. Qed.

Lemma steady_lift (r : go A) : calm r → steady (lift r).
Proof using PO. by intros H w. Qed.

Lemma steady_panic s : calm (A := A) (Panic s) → steady (panic (A := A) s).
Proof using PO. by intros H w. Qed.

Lemma steady_bind m (f : A → io W B) : steady m → (∀ a, steady (f a)) → steady (m ≫= f).
Proof using PO.
  intros Hm Hf w. rewrite run_bind. specialize (Hm w).
  destruct (m w) as [[a|e|s] w1]; destruct Hm as [Hr Hc]; cbn in *.
  - destruct (Hf a w1) as [Hr1 Hc1]. split; [by transitivity w1|done].
  - done.
  - split; [done|]. unfold calm in *. congruence.
Qed.

Lemma steady_catch m h : steady m → steady (catch m h).
Proof using PO.
  intros Hm w. specialize (Hm w). unfold catch.
  destruct (m w) as [[a|e|s] w1]; cbn in *; destruct Hm as [??]; split; done.
Qed.

Lemma steady_attempt m : steady m → steady (attempt m).
Proof using PO.
  intros Hm w. specialize (Hm w). unfold attempt, calm in *.
  destruct (m w) as [[a|e|s] w1]; cbn in *; destruct Hm; split; congruence.
Qed.
End steady.

#[export] Hint Resolve steady_ret steady_throw : steady.
#[export] Hint Extern 1 (calm _) => solve [auto with calm] : steady.
#[export] Hint Extern 0 (PreOrder _) => eassumption : steady.

Ltac steady_step :=
  lazymatch goal with
  | |- calm _ => calm_step
  | |- steady _ (mbind _ _) => apply steady_bind; [exact _| |intros ?]
  | |- steady _ (catch _ _) => apply steady_catch; [exact _|]
  | |- steady _ (attempt _) => apply steady_attempt; [exact _|]
  | |- steady _ (lift _) => apply steady_lift; [exact _|]
  | |- steady _ (panic _) => apply steady_panic; [exact _|]
  | _ => first [solve [auto with steady] | case_match]
  end.
Ltac steady_tac := repeat steady_step.
