(* ===== verification/ClusterFrame.v ===== *)
(** * ClusterFrame: what the calls to a cluster leave alone

    The clients of Kubernetes and Helm act on clusters.  [KubeFrame] and its
    companions say of their libraries that a call leaves a part [R] of the world
    alone - entropy's own database - and does not overflow the stack.  The
    lemmas carry this through the clients of [pkg/kube], [pkg/helm] and
    [pkg/kafka]. *)

From S2P Require Import Prelude GoLib Errors Json Kube KubeJob KubeCRD Helm Kubernetes ConsumerReset Calm.

#[local] Open Scope Z_scope.

Class CalmKube {W} {KA : KubeAPI W} : Prop := {
  calm_NewForConfig : ∀ rc, calm (NewForConfig rc);
}.

Class CalmVersion {W} {VA : VersionAPI W} : Prop := {
  calm_dec_Info : calm_dec dec_Info;
}.

Class CalmCRD {W} {CA : CRDAPI W} : Prop := {
  calm_dynamic_NewForConfig : ∀ rc, calm (dynamic_NewForConfig rc);
}.

Class KubeFrame {W} (R : relation W) {KA : KubeAPI W} : Prop := {
  frame_DefaultTokenSource : steady R DefaultTokenSource;
  frame_TokenSource_Token : steady R TokenSource_Token;
  frame_jobs_Create : ∀ rc js, steady R (jobs_Create rc js);
  frame_jobs_Get : ∀ rc ns name, steady R (jobs_Get rc ns name);
  frame_pods_List : ∀ rc ns ls fs, steady R (pods_List rc ns ls fs);
  frame_pods_Logs : ∀ rc ns name opts, steady R (pods_Logs rc ns name opts);
  frame_deployments_Get : ∀ rc ns name, steady R (deployments_Get rc ns name);
}.

Class VersionFrame {W} (R : relation W) {VA : VersionAPI W} : Prop := {
  frame_ServerVersion : ∀ rc, steady R (ServerVersion rc);
}.

Class BatchFrame {W} (R : relation W) {BA : BatchAPI W} : Prop := {
  frame_batch_Create : ∀ rc ns j, steady R (batch_Create rc ns j);
  frame_batch_Get : ∀ rc ns name, steady R (batch_Get rc ns name);
  frame_batch_Update : ∀ rc ns j, steady R (batch_Update rc ns j);
  frame_batch_Delete : ∀ rc ns name policy, steady R (batch_Delete rc ns name policy);
}.

Class CRDFrame {W} (R : relation W) {CA : CRDAPI W} : Prop := {
  frame_dynamic_Get : ∀ rc gvr ns name, steady R (dynamic_Get rc gvr ns name);
  frame_services_ProxyGet : ∀ rc ns scheme svc port path,
    steady R (services_ProxyGet rc ns scheme svc port path);
}.

Class HelmFrame {W} (R : relation W) {HA : HelmAPI W} : Prop := {
  frame_action_Init : ∀ host k ns, steady R (action_Init host k ns);
  frame_action_Get : ∀ cfg name, steady R (action_Get cfg name);
  frame_action_Install : ∀ cfg o c v, steady R (action_Install cfg o c v);
  frame_action_Upgrade : ∀ cfg o c v, steady R (action_Upgrade cfg o c v);
  frame_LocateChart : ∀ repo v name, steady R (LocateChart repo v name);
  frame_loader_Load : ∀ path, steady R (loader_Load path);
}.

#[export] Hint Resolve frame_DefaultTokenSource frame_TokenSource_Token frame_jobs_Create
  frame_jobs_Get frame_pods_List frame_pods_Logs frame_deployments_Get frame_ServerVersion
  frame_batch_Create frame_batch_Get frame_batch_Update frame_batch_Delete frame_dynamic_Get
  frame_services_ProxyGet frame_action_Init frame_action_Get frame_action_Install
  frame_action_Upgrade frame_LocateChart frame_loader_Load : steady.
#[export] Hint Resolve calm_NewForConfig calm_dynamic_NewForConfig calm_dec_Info : calm.

(** A steady call has an effect on nothing in [R]. *)
#[export] Hint Extern 2 (effects _ _) => solve [apply steady_effects; auto with steady] : effects.

(** ** Clients *)

Section clients.
Context {W : Type} (R : relation W) {PO : PreOrder R} {KA : KubeAPI W} {KF : KubeFrame R}.

Lemma steady_RESTConfig conf : steady R (RESTConfig conf).
Proof using All. unfold RESTConfig. steady_tac. Qed.
#[local] Hint Resolve steady_RESTConfig : steady.

Lemma steady_StreamingConfig conf : steady R (StreamingConfig conf).
Proof using All. unfold StreamingConfig. steady_tac. Qed.
#[local] Hint Resolve steady_StreamingConfig : steady.

Lemma steady_NewClient conf : steady R (NewClient conf).
Proof using All. unfold NewClient. steady_tac. Qed.
#[local] Hint Resolve steady_NewClient : steady.

Context {CK : CalmKube}.

Lemma steady_GetPodDetails {MR : MapRange} c ns sel allow : steady R (GetPodDetails c ns sel allow).
Proof using All. unfold GetPodDetails. steady_tac. Qed.

Lemma steady_GetDeploymentDetails c ns name : steady R (GetDeploymentDetails c ns name).
Proof using All. unfold GetDeploymentDetails. steady_tac. Qed.

Lemma steady_GetCRDDetails {CA : CRDAPI W} {CF : CRDFrame R}
    {CC : CalmCRD} c ns name :
  steady R (GetCRDDetails c ns name).
Proof using PO. unfold GetCRDDetails. steady_tac. Qed.

Lemma steady_ProxyService {CA : CRDAPI W} {CF : CRDFrame R}
    {CC : CalmCRD} c ns scheme svc port path :
  steady R (ProxyService c ns scheme svc port path).
Proof using All. unfold ProxyService. steady_tac. Qed.

Lemma effects_StreamLogs {MR : MapRange} c ns filter : effects R (client_StreamLogs c ns filter).
Proof using All.
  unfold client_StreamLogs. effects_tac. unfold streamFromPods.
  repeat (apply effects_bind; [exact _|solve [auto with effects]|intros ?]).
  apply effects_fold_each; [exact _|]. intros acc t. unfold streamContainerLogs. effects_tac.
Qed.

Lemma effects_waitForJob polls rc ns name : effects R (waitForJob polls rc ns name).
Proof using All.
  induction polls as [|polls IH]; cbn [waitForJob]; [auto with effects|]. effects_tac.
Qed.
#[local] Hint Resolve effects_waitForJob : effects.

Lemma effects_RunJob polls c ns name image cmd retries wait :
  effects R (RunJob polls c ns name image cmd retries wait).
Proof using All. unfold RunJob. effects_tac. Qed.
#[local] Hint Resolve effects_RunJob : effects.

Lemma effects_DoReset {GJ : GoJSON} polls c ns broker consumer to deployment :
  effects R (DoReset polls c ns broker consumer to deployment).
Proof using All. unfold DoReset. effects_tac. Qed.
End clients.

#[export] Hint Resolve steady_RESTConfig steady_NewClient steady_GetPodDetails
  steady_GetDeploymentDetails steady_GetCRDDetails steady_ProxyService : steady.
#[export] Hint Resolve effects_StreamLogs effects_RunJob effects_DoReset : effects.

Section processor.
Context {W : Type} (R : relation W) {PO : PreOrder R} {BA : BatchAPI W} {BF : BatchFrame R}.
Context {MR : MapRange}.

Lemma effects_SubmitJob jp : effects R (SubmitJob jp).
Proof using All. unfold SubmitJob. effects_tac. Qed.

Lemma effects_UpdateJob jp suspend : effects R (UpdateJob jp suspend).
Proof using All. unfold UpdateJob. effects_tac. Qed.

Lemma effects_DeleteJob jp : effects R (DeleteJob jp).
Proof using All. unfold DeleteJob. effects_tac. Qed.
End processor.
#[export] Hint Resolve effects_SubmitJob effects_UpdateJob effects_DeleteJob : effects.

Section helm.
Context {W : Type} (R : relation W) {PO : PreOrder R} {HA : HelmAPI W} {HF : HelmFrame R}.

Lemma effects_getChart config : effects R (getChart config).
Proof using All. unfold getChart. effects_tac. Qed.
#[local] Hint Resolve effects_getChart : effects.

Lemma effects_doCreate cfg config : effects R (doCreate cfg config).
Proof using All. unfold doCreate. effects_tac. Qed.

Lemma effects_doUpdate k cfg config : effects R (doUpdate k cfg config).
Proof using All. unfold doUpdate. effects_tac. Qed.
#[local] Hint Resolve effects_doCreate effects_doUpdate : effects.

Lemma effects_Upsert k config check : effects R (Upsert k config check).
Proof using All. unfold Upsert, getActionConfiguration, fetchRelease. effects_tac. Qed.
End helm.
#[export] Hint Resolve effects_Upsert : effects.
