(* ===== verification/DriverLaws.v ===== *)
(** * DriverLaws: what the module service relies on in a driver

    The resource service trusts a driver to plan a change of the resource it is
    given and not another's, and to leave entropy's database alone.
    [lawful_driver] states this, [lawful_desc] of all drivers that a descriptor
    makes.  Here it is proved of the modules that deploy nothing. *)

From S2P Require Import Prelude GoLib Errors Resource Module Json Kube Names Validator Charts Kubernetes KafkaModule Flink Calm ClusterFrame.

#[local] Open Scope Z_scope.

(** A planned resource is the one that was to be planned, with no dependency
    added; a driver that does not know the action may answer with none. *)
Definition plans_itself (res r : Resource) : Prop :=
  gm (Dependencies (res_Spec r)) ⊆ gm (Dependencies (res_Spec res)) ∧
  (Kind r = "" ∨
   URN r = URN res ∧ Kind r = Kind res ∧ Name r = Name res ∧ Project r = Project res).

Record lawful_driver {W} (R : relation W) (d : Driver W) : Prop := {
  law_plan : ∀ e act, effects R (Plan d e act);
  law_plans_itself : ∀ e act w r w', Plan d e act w = (Ok r, w') → plans_itself (exr_Resource e) r;
  law_sync : ∀ e, effects R (Sync d e);
  law_output : ∀ e, steady R (drv_Output d e);
  law_log : ∀ log e filter, Log d = Some log → effects R (log e filter);
}.

Definition lawful_desc {JS : JSONSchema} {W} (R : relation W) (desc : Descriptor W) : Prop :=
  ∀ configs, calm (DriverFactory desc configs) ∧
    ∀ d, DriverFactory desc configs = Ok d → lawful_driver R d.

Lemma plans_itself_refl res r :
  gm (Dependencies (res_Spec r)) ⊆ gm (Dependencies (res_Spec res)) →
  (URN r, Kind r, Name r, Project r) = (URN res, Kind res, Name res, Project res) →
  plans_itself res r.
Proof. intros Hd H. simplify_eq. split; [done|by right]. Qed.

Ltac plans_itself_tac :=
  apply plans_itself_refl; cbn; [first [apply map_empty_subseteq | reflexivity] | reflexivity].

(** ** Kubernetes clusters *)

Section kubernetes.
Context {GJ : GoJSON} {CJ : CalmJSON} {JS : JSONSchema} {W : Type} (R : relation W) {PO : PreOrder R}.
Context {KA : KubeAPI W} {KF : KubeFrame R} {CK : CalmKube} {VA : VersionAPI W} {VF : VersionFrame R}.
Context {CV : CalmVersion}.

Lemma calm_kube_Sanitise conf : calm (Kube.Sanitise conf).
Proof. unfold Kube.Sanitise. calm_tac. Qed.
#[local] Hint Resolve calm_kube_Sanitise : calm.

Lemma steady_kube_Output m res : steady R (kube_Output m res).
Proof using All. unfold kube_Output. steady_tac. Qed.

Lemma kube_lawful : lawful_desc R kubernetes_Module.
Proof using All.
  intros configs. cbn [DriverFactory kubernetes_Module]. split; [unfold kube_factory; calm_tac|].
  intros d H. apply res_bind_ok_inv in H as (m & _ & [= <-]).
  split; cbn [Plan Sync drv_Output Log kube_driver].
  - intros e act. unfold kube_Plan. apply effects_bind; [exact _| |auto with effects].
    intros out. apply steady_kube_Output.
  - intros e act w r w' H. unfold kube_Plan in H. go_inv. plans_itself_tac.
  - intros e. unfold kube_Sync. auto with effects.
  - apply steady_kube_Output.
  - done.
Qed.
End kubernetes.

(** ** Kafka clusters *)

Section kafka.
Context {GJ : GoJSON} {CJ : CalmJSON} {JS : JSONSchema} {CS : CalmSchema}.
Context {W : Type} (R : relation W) {PO : PreOrder R} (schema : string).

Lemma calm_kafka_readConfig res confJSON dc : calm (KafkaModule.readConfig schema res confJSON dc).
Proof using All. unfold KafkaModule.readConfig. calm_tac. Qed.
#[local] Hint Resolve calm_kafka_readConfig : calm.

Lemma kafka_lawful : lawful_desc R (kafka_Module schema).
Proof using All.
  intros configs. cbn [DriverFactory kafka_Module]. split; [calm_tac|].
  intros d H. apply res_bind_ok_inv in H as (m & _ & [= <-]).
  split; cbn [Plan Sync drv_Output Log kafka_driver].
  - intros e act. unfold kafka_Plan. effects_tac.
  - intros e act w r w' H. unfold kafka_Plan in H. go_inv. plans_itself_tac.
  - intros e. unfold kafka_Sync. auto with effects.
  - intros e. unfold kafka_Output. steady_tac.
  - done.
Qed.
End kafka.

(** ** Flink clusters *)

Section flink.
Context {GJ : GoJSON} {CJ : CalmJSON} {JS : JSONSchema} {W : Type} (R : relation W) {PO : PreOrder R}.
Context {VA : VersionAPI W} {CV : CalmVersion}.

Lemma calm_flink_readConfig confJSON dc : calm (Flink.readConfig confJSON dc).
Proof using CJ. unfold Flink.readConfig. calm_tac. Qed.
#[local] Hint Resolve calm_flink_readConfig : calm.

Lemma calm_refresh_output fd exr : calm (refresh_output fd exr).
Proof using CJ CV. unfold refresh_output, Flink.readOutputData, receiver. calm_tac. Qed.
#[local] Hint Resolve calm_refresh_output : calm.

Lemma flink_lawful : lawful_desc R flink_Module.
Proof using All.
  intros configs. cbn [DriverFactory flink_Module]. split; [unfold flink_factory; calm_tac|].
  intros d H. apply res_bind_ok_inv in H as (m & _ & [= <-]).
  split; cbn [Plan Sync drv_Output Log flink_driver].
  - intros e act. unfold flink_Plan, flink_drv_Output. effects_tac.
  - intros e act w r w' H. unfold flink_Plan in H. go_inv. plans_itself_tac.
  - intros e. unfold flink_Sync. auto with effects.
  - intros e. unfold flink_drv_Output. steady_tac.
  - done.
Qed.
End flink.
