(* ===== verification/FirehoseLaws.v ===== *)
(** * FirehoseLaws: the firehose driver keeps the laws of a driver *)

From S2P Require Import Prelude GoLib Errors Resource Module Json Names Validator Worker Kube Kubernetes Helm ConsumerReset Charts FirehoseTypes FirehoseConfig Firehose Calm ClusterFrame DriverLaws.

#[local] Open Scope Z_scope.

(** ** Outcomes *)

Section calm.
Context {GJ : GoJSON} {CJ : CalmJSON} {JS : JSONSchema} {CS : CalmSchema} {MR : MapRange}
  {DG : Digests} {TP : Template} {CT : CalmTemplate} {W : Type} {VA : VersionAPI W} {CV : CalmVersion}.

Lemma calm_dec_raw : calm_dec dec_raw.
Proof. done. Qed.
#[local] Hint Resolve calm_dec_raw : calm.

Lemma calm_Autoscaler_UnmarshalJSON : calm_dec UnmarshalJSON.
Proof using CJ.
  intros j old. unfold UnmarshalJSON. apply calm_bind.
  - apply calm_on_err. by apply calm_dec_struct; calm_dec.
  - intros [spec [enabled [ty ?]]]. case_decide; [|done]. apply calm_bind; [|done].
    apply calm_on_err. destruct spec as [j'|]; [|done].
    assert (calm_dec (dec_ptr Keda_zero dec_Keda)) as Hk by calm_dec. apply Hk.
Qed.
#[local] Hint Resolve calm_Autoscaler_UnmarshalJSON : calm.

Lemma calm_updateTriggersMetadata k cfg : calm (updateTriggersMetadata k cfg).
Proof. unfold updateTriggersMetadata, kafka_metadata. calm_tac. Qed.
#[local] Hint Resolve calm_updateTriggersMetadata : calm.

Lemma calm_read_autoscaler cfg dc : calm (read_autoscaler cfg dc).
Proof.
  unfold read_autoscaler, keda_ReadConfig, autoscaler_Validate, keda_Validate. calm_tac.
Qed.

Lemma calm_read_DeploymentID r id : calm (read_DeploymentID r id).
Proof. unfold read_DeploymentID. calm_tac. Qed.
#[local] Hint Resolve calm_read_autoscaler calm_read_DeploymentID : calm.

Lemma calm_readConfig schema r confJSON dc : calm (readConfig schema r confJSON dc).
Proof using CJ CS. unfold readConfig, validateConfig. calm_tac. Qed.

Lemma calm_keda_GetHelmValues k cfg : calm (keda_GetHelmValues k cfg).
Proof using CT. unfold keda_GetHelmValues. calm_tac. Qed.
#[local] Hint Resolve calm_keda_GetHelmValues : calm.

Lemma calm_render_telegraf t env labels : calm (render_telegraf t env labels).
Proof using CT. unfold render_telegraf, render_outputs, renderTplOfMapStringAny. calm_tac. Qed.

Lemma calm_mounts dc env : calm (mounts dc env).
Proof. unfold mounts, mount. calm_tac. Qed.
#[local] Hint Resolve calm_render_telegraf calm_mounts : calm.

Lemma calm_getHelmRelease dc res c kubeOut : calm (getHelmRelease dc res c kubeOut).
Proof using CT. unfold getHelmRelease, autoscaler_GetHelmValues. calm_tac. Qed.

Lemma calm_readOutputData exr : calm (readOutputData exr).
Proof using CJ. unfold readOutputData. calm_tac. Qed.

Lemma calm_read_kubeOut exr : calm (read_kubeOut exr).
Proof using CJ CV. unfold read_kubeOut. calm_tac. Qed.
End calm.
#[export] Hint Resolve calm_readConfig calm_getHelmRelease calm_readOutputData calm_read_kubeOut : calm.

(** ** The driver *)

Section laws.
Context {GJ : GoJSON} {CJ : CalmJSON} {JS : JSONSchema} {CS : CalmSchema} {MR : MapRange}
  {DG : Digests} {TP : Template} {CT : CalmTemplate} {W : Type} (R : relation W) {PO : PreOrder R}
  {KA : KubeAPI W} {KF : KubeFrame R} {CK : CalmKube} {VA : VersionAPI W} {CV : CalmVersion}
  {HA : HelmAPI W} {HF : HelmFrame R} {TV : TagValidator driverConf}.
Variable configSchemaRaw : string.
Variables (time_Now : W → Time) (polls : nat) (ctx_ends_within : Duration → io W bool).
Hypothesis frame_ctx : ∀ d, effects R (ctx_ends_within d).

Lemma firehose_factory_driver g confJSON fd :
  (firehose_factory time_Now polls ctx_ends_within g confJSON).1 = Ok fd →
  ∃ c, fd = mkDriver W VA time_Now c kube_deploy kube_get_pod kube_get_deployment
              (consumer_reset polls ctx_ends_within).
Proof.
  unfold firehose_factory. destruct (Unmarshal _ _ _) as [c|e|s]; cbn [fst]; [|done..].
  intros H. apply res_bind_ok_inv in H as (_ & _ & [= <-]). by exists c.
Qed.

Lemma calm_firehose_factory g confJSON :
  calm (firehose_factory time_Now polls ctx_ends_within g confJSON).1.
Proof using CJ.
  unfold firehose_factory. pose proof (Hc := calm_Unmarshal dec_driverConf confJSON (default_conf g)).
  destruct (Unmarshal _ _ _) as [c|e|s]; cbn [fst]; [calm_tac|done|].
  eapply calm_panic; [|done]. apply Hc. calm_dec.
Qed.

Section driver.
Variable conf : driverConf.

Definition made : firehoseDriver W :=
  mkDriver W VA time_Now conf kube_deploy kube_get_pod kube_get_deployment
    (consumer_reset polls ctx_ends_within).

Lemma effects_kube_deploy isCreate kc rc : effects R (kube_deploy isCreate kc rc).
Proof using All. unfold kube_deploy. effects_tac. Qed.

Lemma steady_kube_get_pod kc ns labels : steady R (kube_get_pod kc ns labels).
Proof using All. unfold kube_get_pod. steady_tac. Qed.

Lemma steady_kube_get_deployment kc ns name : steady R (kube_get_deployment kc ns name).
Proof using All. unfold kube_get_deployment. steady_tac. Qed.

Lemma effects_consumer_reset c out to delay :
  effects R (consumer_reset polls ctx_ends_within c out to delay).
Proof using All. unfold consumer_reset. effects_tac. Qed.
#[local] Hint Resolve effects_kube_deploy effects_consumer_reset : effects.
#[local] Hint Resolve steady_kube_get_pod steady_kube_get_deployment : steady.

Lemma steady_refreshOutput r c out kubeOut : steady R (refreshOutput made r c out kubeOut).
Proof using All. unfold refreshOutput. cbn [kubeGetPod kubeGetDeployment made Firehose.conf]. steady_tac. Qed.
#[local] Hint Resolve steady_refreshOutput : steady.

Lemma effects_releaseSync r isCreate c kubeOut : effects R (releaseSync made r isCreate c kubeOut).
Proof using All. unfold releaseSync. cbn [kubeDeploy made Firehose.conf]. effects_tac. Qed.
#[local] Hint Resolve effects_releaseSync : effects.

Lemma effects_read_clock : effects R (read_clock made).
Proof using PO. by intros w. Qed.
#[local] Hint Resolve effects_read_clock : effects.

Lemma effects_sync_step r c kubeOut to step : effects R (sync_step made r c kubeOut to step).
Proof using All. unfold sync_step. cbn [consumerReset made]. effects_tac. Qed.
#[local] Hint Resolve effects_sync_step : effects.

Lemma effects_firehose_Sync exr : effects R (firehose_Sync configSchemaRaw made exr).
Proof using All. unfold firehose_Sync. effects_tac. Qed.

Lemma firehose_plans_itself exr act w r w' :
  firehose_Plan configSchemaRaw made exr act w = (Ok r, w') → plans_itself (exr_Resource exr) r.
Proof.
  unfold firehose_Plan. intros [= Hp _]. revert Hp. repeat case_decide; intros Hp.
  1: unfold planCreate in Hp. 2: unfold planReset in Hp. 3: unfold planResetV2 in Hp.
  4: unfold planChange in Hp.
  all: repeat (apply res_bind_ok_inv in Hp as (? & _ & Hp)); simplify_eq; plans_itself_tac.
Qed.

Lemma effects_firehose_Log exr filter : effects R (firehose_Log configSchemaRaw made exr filter).
Proof using All. unfold firehose_Log. effects_tac. Qed.

Lemma made_lawful : lawful_driver R (firehose_driver configSchemaRaw made).
Proof using All.
  split; cbn [Plan Sync drv_Output Log firehose_driver].
  - intros e act w. unfold firehose_Plan. done.
  - intros *. apply firehose_plans_itself.
  - apply effects_firehose_Sync.
  - intros e. unfold firehose_Output. steady_tac.
  - intros log e filter [= <-]. apply effects_firehose_Log.
Qed.
End driver.

Lemma firehose_lawful g :
  lawful_desc R (firehose_Module configSchemaRaw time_Now polls ctx_ends_within g).
Proof using All.
  intros configs. cbn [DriverFactory firehose_Module]. split.
  - apply calm_bind; [apply calm_firehose_factory|done].
  - intros d H. apply res_bind_ok_inv in H as (fd & Hfd & [= <-]).
    apply firehose_factory_driver in Hfd as [c ->]. apply made_lawful.
Qed.
End laws.
