(* ===== verification/JobLaws.v ===== *)
(** * JobLaws: the job driver keeps the laws of a driver *)

From S2P Require Import Prelude GoLib Errors Resource Module Json Names Validator Kube Kubernetes KubeJob JobConfig Job Calm ClusterFrame DriverLaws.

#[local] Open Scope Z_scope.

Section laws.
Context {GJ : GoJSON} {CJ : CalmJSON} {JS : JSONSchema} {CS : CalmSchema} {MR : MapRange}
  {DG : Digests} {W : Type} (R : relation W) {PO : PreOrder R}
  {KA : KubeAPI W} {KF : KubeFrame R} {CK : CalmKube} {VA : VersionAPI W} {CV : CalmVersion}
  {BA : BatchAPI W} {BF : BatchFrame R} {TV : TagValidator DriverConf}.
Variable configSchemaRaw : string.
Variable time_Now : W → Time.

Lemma calm_job_ReadConfig r confJSON dc : calm (ReadConfig configSchemaRaw r confJSON dc).
Proof using CJ CS. unfold ReadConfig, read_Name. calm_tac. Qed.

Lemma calm_job_ReadOutputData exr : calm (ReadOutputData exr).
Proof using CJ. unfold ReadOutputData. calm_tac. Qed.

Lemma calm_job_read_kubeOut exr : calm (read_kubeOut exr).
Proof using CJ CV. unfold read_kubeOut. calm_tac. Qed.
#[local] Hint Resolve calm_job_ReadConfig calm_job_ReadOutputData calm_job_read_kubeOut : calm.

Lemma job_factory_driver limits confJSON d :
  (job_factory limits confJSON).1 = Ok d →
  ∃ c, d = mkJobDriver W VA c kube_create_job kube_suspend_job kube_delete_job kube_start_job
             kube_job_pods kube_job_logs.
Proof.
  unfold job_factory. destruct (Unmarshal _ _ _) as [c|e|s]; cbn [fst]; [|done..].
  intros H. apply res_bind_ok_inv in H as (_ & _ & [= <-]). by exists c.
Qed.

Lemma calm_job_factory limits confJSON : calm (job_factory limits confJSON).1.
Proof using CJ.
  unfold job_factory. pose proof (Hc := calm_Unmarshal dec_DriverConf confJSON (defaultDriverConf limits)).
  destruct (Unmarshal _ _ _) as [c|e|s]; cbn [fst]; [calm_tac|done|].
  eapply calm_panic; [|done]. apply Hc. calm_dec.
Qed.

Section driver.
Variable conf : DriverConf.

Definition made_job : jobDriver W :=
  mkJobDriver W VA conf kube_create_job kube_suspend_job kube_delete_job kube_start_job
    kube_job_pods kube_job_logs.

Lemma effects_with_processor failed call kc j :
  (∀ p, effects R (call p)) → effects R (with_processor failed call kc j).
Proof using All. intros H. unfold with_processor. effects_tac. Qed.

Lemma steady_kube_job_pods kc j labels : steady R (kube_job_pods kc j labels).
Proof using All. unfold kube_job_pods. steady_tac. Qed.
#[local] Hint Resolve steady_kube_job_pods : steady.

Lemma effects_kube_job_logs kc j filter : effects R (kube_job_logs kc j filter).
Proof using All. unfold kube_job_logs. effects_tac. Qed.
#[local] Hint Resolve effects_kube_job_logs : effects.

Lemma effects_take_step r c kubeOut step : effects R (take_step made_job r c kubeOut step).
Proof using All.
  unfold take_step. cbn [CreateJob SuspendJob Job.DeleteJob StartJob made_job].
  repeat case_decide; try apply effects_catch; auto with effects;
    apply effects_with_processor; auto with effects.
Qed.

Lemma steady_job_refreshOutput c out kubeOut : steady R (refreshOutput made_job c out kubeOut).
Proof using All. unfold refreshOutput. cbn [GetJobPods made_job]. steady_tac. Qed.
#[local] Hint Resolve effects_take_step : effects.
#[local] Hint Resolve steady_job_refreshOutput : steady.

Lemma effects_plan_with exr configs steps : effects R (plan_with configSchemaRaw time_Now made_job exr configs steps).
Proof using PO. intros w. unfold plan_with. by destruct (ReadConfig _ _ _ _). Qed.

Lemma plan_with_itself exr configs steps w r w' :
  plan_with configSchemaRaw time_Now made_job exr configs steps w = (Ok r, w') →
  plans_itself (exr_Resource exr) r.
Proof.
  unfold plan_with. destruct (ReadConfig _ _ _ _) as [c|e|s]; [|done..]. intros [= <- _].
  plans_itself_tac.
Qed.

Lemma effects_read_time : effects R (read_time time_Now).
Proof using PO. by intros w. Qed.
#[local] Hint Resolve effects_read_time : effects.

Lemma made_job_lawful : lawful_driver R (job_driver configSchemaRaw time_Now made_job).
Proof using All.
  split; cbn [Plan Sync drv_Output Log job_driver].
  - intros e act. unfold job_Plan, planCreate, planPendingWithExistingResource.
    repeat case_decide; try apply effects_plan_with. auto with effects.
  - intros e act w r w'. unfold job_Plan, planCreate, planPendingWithExistingResource.
    repeat case_decide; try apply plan_with_itself. intros [= <- _].
    split; [apply map_empty_subseteq|by left].
  - intros e. unfold job_Sync. effects_tac.
  - intros e. unfold job_Output. steady_tac.
  - intros log e filter [= <-]. unfold job_Log. cbn [StreamLogs made_job].
    effects_tac.
Qed.
End driver.

Lemma job_lawful limits : lawful_desc R (job_Module configSchemaRaw time_Now limits).
Proof using All.
  intros configs. cbn [DriverFactory job_Module]. split.
  - apply calm_bind; [apply calm_job_factory|done].
  - intros d H. apply res_bind_ok_inv in H as (jd & Hjd & [= <-]).
    apply job_factory_driver in Hjd as [c ->]. apply made_job_lawful.
Qed.
End laws.
