(* ===== verification/DaggerLaws.v ===== *)
(** * DaggerLaws: the dagger driver keeps the laws of a driver *)

From S2P Require Import Prelude GoLib Errors Resource Module Json Names Validator Kube Kubernetes Flink Helm ConsumerReset Charts GoText KubeCRD DaggerTypes DaggerConfig Dagger Calm ClusterFrame DriverLaws.

#[local] Open Scope Z_scope.

(** ** Outcomes *)

Section calm.
Context {GJ : GoJSON} {CJ : CalmJSON} {JS : JSONSchema} {CS : CalmSchema} {MR : MapRange}
  {DG : Digests} {TP : Template} {CT : CalmTemplate} {UC : Unicode} {W : Type} {VA : VersionAPI W}
  {CV : CalmVersion}.

Lemma calm_put_all l m : calm (put_all l m).
Proof. unfold put_all. calm_tac. Qed.
#[local] Hint Resolve calm_put_all : calm.

Lemma calm_read_sources dc id source : calm (read_sources dc id source).
Proof. unfold read_sources. calm_tac. Qed.

Lemma calm_read_flinkOut why exr : calm (read_flinkOut why exr).
Proof using CJ CV. unfold read_flinkOut. calm_tac. Qed.
#[local] Hint Resolve calm_read_sources calm_read_flinkOut : calm.

Lemma calm_dagger_readConfig schema exr confJSON dc : calm (readConfig schema exr confJSON dc).
Proof using CJ CS CV. unfold readConfig, read_DeploymentID, read_env. calm_tac. Qed.

Lemma calm_dagger_getHelmRelease dc res c kubeOut : calm (getHelmRelease dc res c kubeOut).
Proof using CT. unfold getHelmRelease. calm_tac. Qed.

Lemma calm_dagger_readOutputData exr : calm (readOutputData exr).
Proof using CJ. unfold readOutputData. calm_tac. Qed.

Lemma calm_marshal_Output o : calm (marshal_Output o).
Proof. unfold marshal_Output. calm_tac. Qed.

Lemma calm_parseFlinkCRDStatus m : calm (parseFlinkCRDStatus m).
Proof. unfold parseFlinkCRDStatus. calm_tac. Qed.
End calm.
#[export] Hint Resolve calm_read_flinkOut calm_dagger_readConfig calm_dagger_getHelmRelease
  calm_dagger_readOutputData calm_marshal_Output calm_parseFlinkCRDStatus : calm.

(** ** The driver *)

Section laws.
Context {GJ : GoJSON} {CJ : CalmJSON} {JS : JSONSchema} {CS : CalmSchema} {MR : MapRange}
  {DG : Digests} {TP : Template} {CT : CalmTemplate} {UC : Unicode} {W : Type} (R : relation W)
  {PO : PreOrder R} {KA : KubeAPI W} {KF : KubeFrame R} {CK : CalmKube} {VA : VersionAPI W}
  {CV : CalmVersion} {HA : HelmAPI W} {HF : HelmFrame R} {CA : CRDAPI W} {CF : CRDFrame R}
  {CC : CalmCRD} {TV : TagValidator driverConf}.
Variable configSchemaRaw : string.
Variable time_Now : W → Time.

Definition dagger_made (conf : driverConf) : daggerDriver W :=
  mkDriver W VA time_Now conf kube_deploy kube_get_pod kube_get_crd consumer_reset kube_proxy_service.

Lemma dagger_factory_driver namespaces confJSON dd :
  (dagger_factory time_Now namespaces confJSON).1 = Ok dd → ∃ c, dd = dagger_made c.
Proof.
  unfold dagger_factory. destruct (Unmarshal _ _ _) as [c|e|s]; cbn [fst]; [|done..].
  intros H. apply res_bind_ok_inv in H as (_ & _ & [= <-]). by exists c.
Qed.

Lemma calm_dagger_factory namespaces confJSON : calm (dagger_factory time_Now namespaces confJSON).1.
Proof using CJ.
  unfold dagger_factory. pose proof (Hc := calm_Unmarshal dec_driverConf confJSON (default_conf namespaces)).
  destruct (Unmarshal _ _ _) as [c|e|s]; cbn [fst]; [calm_tac|done|].
  eapply calm_panic; [|done]. apply Hc. calm_dec.
Qed.

Section driver.
Variable conf : driverConf.
Abbreviation dd := (dagger_made conf) (only parsing).

Lemma effects_dagger_kube_deploy isCreate kc rc : effects R (kube_deploy isCreate kc rc).
Proof using All. unfold kube_deploy. effects_tac. Qed.

Lemma steady_dagger_kube_get_pod kc ns labels : steady R (kube_get_pod kc ns labels).
Proof using All. unfold kube_get_pod. steady_tac. Qed.

Lemma steady_kube_get_crd kc ns name : steady R (kube_get_crd kc ns name).
Proof using All. unfold kube_get_crd. steady_tac. Qed.

Lemma steady_kube_proxy_service kc ns scheme svc port path :
  steady R (kube_proxy_service kc ns scheme svc port path).
Proof using All. unfold kube_proxy_service. steady_tac. Qed.
#[local] Hint Resolve effects_dagger_kube_deploy : effects.
#[local] Hint Resolve steady_dagger_kube_get_pod steady_kube_get_crd steady_kube_proxy_service : steady.

Lemma steady_getFlinkExceptions kc ns name : steady R (getFlinkExceptions dd kc ns name).
Proof using All. unfold getFlinkExceptions. cbn [kubeProxyService dagger_made]. steady_tac. Qed.
#[local] Hint Resolve steady_getFlinkExceptions : steady.

Lemma steady_dagger_refreshOutput r c out kubeOut : steady R (refreshOutput dd r c out kubeOut).
Proof using All.
  unfold refreshOutput, getKubeResources, output_exceptions.
  cbn [kubeGetPod kubeGetCRD dagger_made Dagger.conf]. steady_tac.
Qed.
#[local] Hint Resolve steady_dagger_refreshOutput : steady.

Lemma effects_dagger_releaseSync r isCreate c kubeOut : effects R (releaseSync dd r isCreate c kubeOut).
Proof using All. unfold releaseSync. cbn [kubeDeploy dagger_made Dagger.conf]. effects_tac. Qed.
#[local] Hint Resolve effects_dagger_releaseSync : effects.

Lemma effects_dagger_read_clock : effects R (read_clock dd).
Proof using PO. by intros w. Qed.
#[local] Hint Resolve effects_dagger_read_clock : effects.

Lemma effects_finish_sync r c out kubeOut : effects R (finish_sync dd r c out kubeOut).
Proof using All. unfold finish_sync. effects_tac. Qed.
#[local] Hint Resolve effects_finish_sync : effects.

Lemma effects_dagger_Sync exr : effects R (dagger_Sync configSchemaRaw dd exr).
Proof using All. unfold dagger_Sync, sync_step. effects_tac. Qed.

Lemma dagger_plans_itself exr act w r w' :
  dagger_Plan configSchemaRaw dd exr act w = (Ok r, w') → plans_itself (exr_Resource exr) r.
Proof.
  unfold dagger_Plan. intros [= Hp _]. revert Hp. repeat case_decide; intros Hp.
  1: unfold planCreate in Hp. 2: unfold planReset in Hp. 3: unfold planChange in Hp.
  all: repeat (apply res_bind_ok_inv in Hp as (? & _ & Hp)); simplify_eq; plans_itself_tac.
Qed.

Lemma dagger_made_lawful : lawful_driver R (dagger_driver configSchemaRaw dd).
Proof using All.
  split; cbn [Plan Sync drv_Output Log dagger_driver].
  - intros e act w. unfold dagger_Plan. done.
  - intros *. apply dagger_plans_itself.
  - apply effects_dagger_Sync.
  - intros e. unfold dagger_Output. steady_tac.
  - intros log e filter [= <-]. unfold dagger_Log. effects_tac.
Qed.
End driver.

Lemma dagger_lawful namespaces : lawful_desc R (dagger_Module configSchemaRaw time_Now namespaces).
Proof using All.
  intros configs. cbn [DriverFactory dagger_Module]. split.
  - apply calm_bind; [apply calm_dagger_factory|done].
  - intros d H. apply res_bind_ok_inv in H as (dd & Hdd & [= <-]).
    apply dagger_factory_driver in Hdd as [c ->]. apply dagger_made_lawful.
Qed.
End laws.
