(* ===== verification/System.v ===== *)
(** * System: the program as [cli/serve.go] puts it together

    [setupRegistry] registers the six modules, [module.NewService] serves them
    from the registry and the module table, [core.New] makes the resource
    service over that and the store.  The theorem here closes the gap between
    the layers: the assembled module service is what the theorems about the
    resource service ask of their surroundings. *)

From S2P Require Import Prelude GoLib Errors Resource Module Registry Json StoreSpec Service ServiceFacts ServiceProps Sql Postgres PostgresFacts PostgresRefine Names Validator Kube KubeJob KubeCRD Kubernetes KafkaModule Flink Helm Charts GoText Calm ClusterFrame DriverLaws FirehoseLaws JobLaws DaggerLaws.
From S2P Require Worker FirehoseTypes Firehose JobConfig Job DaggerTypes Dagger.

#[local] Open Scope Z_scope.

(** ** The module service over lawful drivers *)

Section service.
Context {JS : JSONSchema} {MR : MapRange} {W : Type} (R : relation W) {PO : PreOrder R}.
Variables (registry : Registry W) (mstore : ModStore W).
Hypothesis steady_GetModule : ∀ urn, steady R (store_GetModule mstore urn).
Hypothesis steady_GetDriver : ∀ md, steady R (GetDriver registry md).
Hypothesis lawful : ∀ md w d desc w',
  GetDriver registry md w = (Ok (d, desc), w') → lawful_driver R d.

(** Finding the driver of a resource, for any use of it. *)
Lemma steady_with_driver {A} kind project (k : Module → Driver W * Descriptor W → io W A) :
  (∀ md d desc, lawful_driver R d → steady R (k md (d, desc))) →
  steady R (md ← discoverModule mstore kind project; dd ← initDriver registry md; k md dd).
Proof using All.
  intros Hk. unfold discoverModule, initDriver.
  apply steady_bind; [exact _|by apply steady_catch, steady_GetModule|]. intros md w.
  rewrite run_bind. destruct (steady_GetDriver md w) as [HR Hc]. unfold catch.
  destruct (GetDriver registry md w) as [[[d desc]|e|s] w'] eqn:E; cbn in *;
    [|done|split; [done|by eapply calm_panic]].
  destruct (Hk md d desc (lawful _ _ _ _ _ E) w') as [HR' Hc']. split; [by transitivity w'|done].
Qed.

Lemma effects_with_driver {A} kind project (k : Module → Driver W * Descriptor W → io W A) :
  (∀ md d desc, lawful_driver R d → effects R (k md (d, desc))) →
  effects R (md ← discoverModule mstore kind project; dd ← initDriver registry md; k md dd).
Proof using All.
  intros Hk. unfold discoverModule, initDriver. apply effects_bind; [exact _| |].
  { apply effects_catch. intros w. by destruct (steady_GetModule (generateURN kind project) w). }
  intros md w. rewrite run_bind. destruct (steady_GetDriver md w) as [HR _]. unfold catch.
  destruct (GetDriver registry md w) as [[[d desc]|e|s] w'] eqn:E; cbn in *; [|done..].
  transitivity w'; [done|]. by apply Hk, (lawful _ _ _ _ _ E).
Qed.

Lemma effects_PlanAction e act : effects R (PlanAction registry mstore e act).
Proof using All.
  unfold PlanAction. apply effects_with_driver. intros md d desc Hd.
  repeat (apply effects_bind; [exact _|auto with effects|intros ?]). apply Hd.
Qed.

(** A plan comes from a driver, past the checks of its descriptor. *)
Lemma PlanAction_Ok_inv e act w r w' :
  PlanAction registry mstore e act w = (Ok r, w') →
  ∃ md w1 drv desc w2 w3,
    store_GetModule mstore (generateURN (Kind (exr_Resource e)) (Project (exr_Resource e))) w =
      (Ok md, w1) ∧
    GetDriver registry md w1 = (Ok (drv, desc), w2) ∧
    dependencies_ok desc (exr_Dependencies e) ∧ action_ok desc act ∧
    Plan drv e act w3 = (Ok r, w').
Proof.
  unfold PlanAction. intros H. apply bind_ok_inv in H as (md & w1 & Hm & H).
  apply bind_ok_inv in H as ([drv desc] & w2 & Hd & H). apply run_catch_ok in Hm, Hd.
  apply bind_ok_inv in H as ([] & w3 & Hv & H). apply bind_ok_inv in H as ([] & w4 & Ha & H).
  injection Hv as Hv _. injection Ha as Ha _.
  exists md, w1, drv, desc, w2, w4. split_and!; [done|done| |by apply validateActionReq_Ok in Ha|done].
  destruct (validateDependencies_spec desc (exr_Dependencies e)) as [[_ Hok]|(err & E & _)]; [done|].
  cbn in Hv. by rewrite E in Hv.
Qed.

Lemma PlanAction_itself e act w r w' :
  PlanAction registry mstore e act w = (Ok r, w') → plans_itself (exr_Resource e) r.
Proof using lawful.
  intros (md & w1 & drv & desc & w2 & w3 & _ & Hd & _ & _ & H)%PlanAction_Ok_inv.
  by eapply law_plans_itself; [eapply lawful|].
Qed.

Lemma effects_SyncState e : effects R (SyncState registry mstore e).
Proof using All.
  unfold SyncState. apply effects_with_driver. intros md d desc Hd.
  repeat (apply effects_bind; [exact _|auto with effects|intros ?]). apply Hd.
Qed.

Lemma effects_module_logs e filter : effects R (Module.StreamLogs registry mstore e filter).
Proof using All.
  unfold Module.StreamLogs. apply effects_with_driver. intros md d desc Hd. cbn [fst].
  destruct (Log d) as [log|] eqn:E; [by eapply law_log|auto with effects].
Qed.

Lemma steady_GetOutput e : steady R (GetOutput registry mstore e).
Proof using All. unfold GetOutput. apply steady_with_driver. intros md d desc Hd. apply Hd. Qed.
End service.

(** ** The process

    Decoding a module's configs writes into the default maps that the
    [defaultDriverConf] of a package holds, so that they are part of the state
    of the process. *)

Record default_maps := mkDefaults {
  firehose_defaults : Firehose.globals;
  job_defaults : gomap JobConfig.RequestsAndLimits;
  dagger_defaults : gomap string;
}.

(** The maps at the start of the process. *)
Definition initial_defaults : default_maps :=
  mkDefaults Firehose.initial_globals Job.initial_limits
    (DaggerTypes.dc_Namespace Dagger.defaultDriverConf).

Class Process (W : Type) : Type := {
  defaults : W → default_maps;
  set_defaults : default_maps → W → W;
  time_Now : W → Time;
  (** whether the context of a call ends within a duration *)
  ctx_ends_within : Duration → io W bool;
  process_meter : Meter W;
}.

(** The embedded [schema/config.json] of four modules. *)
Record schemas := mkSchemas {
  firehose_schema : string;
  job_schema : string;
  kafka_schema : string;
  dagger_schema : string;
}.

(** [SyncerConf]: what the service takes of it. *)
Record SyncerConf := mkSyncerConf { SyncBackoffInterval : Duration; MaxRetries : Z }.

Record WorkerConfig := mkWorkerConfig { Count : Z; Scope : gmap string (list string) }.

(** The syncers that the worker command starts, by their scopes; [RunSyncer]
    starts [workerCount] of them. *)
Definition RunSyncer (workerCount : Z) (scope : gmap string (list string)) :
    list (gmap string (list string)) := replicate (Z.to_nat workerCount) scope.

Definition spawnWorkers {MR : MapRange} (workerModules : gmap string WorkerConfig) :
    list (gmap string (list string)) :=
  if decide (size workerModules = 0%nat) then RunSyncer 1 ∅
  else kv ← range workerModules; RunSyncer (Count kv.2) (Scope kv.2).

Section program.
Context {GJ : GoJSON} {JS : JSONSchema} {MR : MapRange} {DG : Digests} {TP : Template}
  {UC : Unicode} {BD : Binding} {SJ : SyncJSON} {W : Type} {PR : Process W}
  {KA : KubeAPI W} {VA : VersionAPI W} {BA : BatchAPI W} {CA : CRDAPI W} {HA : HelmAPI W}
  {TF : TagValidator FirehoseTypes.driverConf} {TJ : TagValidator JobConfig.DriverConf}
  {TD : TagValidator DaggerTypes.driverConf}.
(** The schemas, and the polls that a wait for a job is given. *)
Variables (sch : schemas) (polls : nat).

(** [supported], with the default maps as they are when a driver is made. *)
Definition supported (d : default_maps) : list (Descriptor W) :=
  [kubernetes_Module;
   Firehose.firehose_Module (firehose_schema sch) time_Now polls ctx_ends_within (firehose_defaults d);
   Job.job_Module (job_schema sch) time_Now (job_defaults d);
   kafka_Module (kafka_schema sch);
   flink_Module;
   Dagger.dagger_Module (dagger_schema sch) time_Now (dagger_defaults d)].

(** The loop of [setupRegistry]; the process ends at the first failure. *)
Fixpoint register_all (descs : list (Descriptor W)) (mr : gomap (Descriptor W)) :
    go (gomap (Descriptor W)) :=
  match descs with
  | [] => Ok mr
  | desc :: descs =>
      match Register desc mr with
      | (Ok _, mr) => register_all descs mr
      | (Err err, _) => Err err
      | (Panic s, _) => Panic s
      end
  end.

Definition setupRegistry (d : default_maps) : go (gomap (Descriptor W)) :=
  register_all (supported d) None.

(** The default maps after a driver was made from a module's configs. *)
Definition left_by (md : Module) (d : default_maps) : default_maps :=
  if decide (mod_Name md = "firehose") then
    mkDefaults (Firehose.firehose_factory time_Now polls ctx_ends_within (firehose_defaults d)
                  (mod_Configs md)).2 (job_defaults d) (dagger_defaults d)
  else if decide (mod_Name md = "job") then
    mkDefaults (firehose_defaults d) (Job.job_factory (job_defaults d) (mod_Configs md)).2
      (dagger_defaults d)
  else if decide (mod_Name md = "dagger") then
    mkDefaults (firehose_defaults d) (job_defaults d)
      (Dagger.dagger_factory time_Now (dagger_defaults d) (mod_Configs md)).2
  else d.

(** The registry that the process serves from. *)
Definition entropy_registry : Registry W := {|
  GetDriver md w :=
    (mr ← setupRegistry (defaults w); registry_GetDriver mr md,
     set_defaults (left_by md (defaults w)) w);
|}.

(** [RunE] of the serve command: the services over one store. *)
Definition entropy_modules (st : pg_store W) : ModuleService W :=
  module_service entropy_registry (postgres_modules st).

Definition entropy_service (st : pg_store W) (beats : list heartbeat_event) (conf : SyncerConf) :
    Service W := {|
  clock w := (time_Now w, w);
  store := postgres_store st beats;
  moduleSvc := entropy_modules st;
  syncBackoff := SyncBackoffInterval conf;
  maxSyncRetries := MaxRetries conf;
  meter := process_meter;
|}.
End program.

(** ** Registration *)

Section registration.
Context {JS : JSONSchema} {W : Type}.
Implicit Types (desc : Descriptor W) (mr : gomap (Descriptor W)).

(** Actions without a parameter schema need no compiling. *)
Definition plain desc : Prop := Forall (λ a, ParamSchema a = "") (Actions desc).

Lemma sanitise_plain (l : list ActionDesc) :
  Forall (λ a, ParamSchema a = "") l → sanitise_actions l = Ok l.
Proof.
  induction 1 as [|a l Ha _ IH]; [done|]. cbn [sanitise_actions]. unfold Module.Sanitise at 1.
  case_decide; [|done]. cbn. by rewrite IH.
Qed.

Lemma Register_fresh desc mr :
  plain desc → gm mr !! desc_Kind desc = None →
  Register desc mr = (Ok tt, Some (<[desc_Kind desc := desc]> (gm mr))).
Proof.
  intros Hp Hk. unfold Register. rewrite Hk, (sanitise_plain _ Hp). by destruct desc.
Qed.

(** Registering kinds that differ adds exactly them. *)
Lemma register_all_Ok descs mr :
  Forall plain descs → NoDup (desc_Kind <$> descs) →
  (∀ desc, desc ∈ descs → gm mr !! desc_Kind desc = None) →
  ∃ mr', register_all descs mr = Ok mr' ∧
    ∀ kind desc, gm mr' !! kind = Some desc ↔
      gm mr !! kind = Some desc ∨ desc ∈ descs ∧ desc_Kind desc = kind.
Proof.
  intros Hp. revert mr. induction Hp as [|desc descs Hd _ IH]; intros mr.
  - intros _ _. exists mr. split; [done|]. set_solver.
  - rewrite fmap_cons. intros [Hn Hnd]%NoDup_cons Hf. cbn [register_all].
    rewrite Register_fresh by (try apply Hf; set_solver).
    destruct (IH (Some (<[desc_Kind desc := desc]> (gm mr)))) as (mr' & -> & Hmr'); [done| |].
    { intros d Hin. cbn. rewrite lookup_insert_ne; [apply Hf; set_solver|].
      intros E. apply Hn. rewrite E. by apply list_elem_of_fmap_2. }
    exists mr'. split; [done|]. intros kind d. rewrite Hmr'. cbn. rewrite lookup_insert_Some.
    pose proof (Hf desc ltac:(set_solver)) as Hfresh.
    split; [|intros [H|[[->|Hin]%elem_of_cons H]]]; [set_solver|..|by auto].
    + left. right. split; [|done]. intros E. rewrite E in *. congruence.
    + left. by left.
Qed.
End registration.

(** ** The assembled program *)

Class ProcessFrame {W} (R : relation W) {PR : Process W} : Prop := {
  frame_set_defaults : ∀ d w, R w (set_defaults d w);
  frame_ctx_ends_within : ∀ d, effects R (ctx_ends_within d);
  frame_Int64Counter : ∀ c, effects R (Int64Counter process_meter c);
  frame_counter_Add : ∀ c u w, R w (counter_Add process_meter c u w);
}.

Section registry.
Context {GJ : GoJSON} {CJ : CalmJSON} {JS : JSONSchema} {CS : CalmSchema} {MR : MapRange}
  {DG : Digests} {TP : Template} {CT : CalmTemplate} {UC : Unicode} {W : Type} (R : relation W)
  {PO : PreOrder R} {PR : Process W} {PF : ProcessFrame R}
  {KA : KubeAPI W} {CK : CalmKube} {KF : KubeFrame R} {VA : VersionAPI W} {CV : CalmVersion}
  {VF : VersionFrame R} {BA : BatchAPI W} {BF : BatchFrame R} {CA : CRDAPI W} {CC : CalmCRD}
  {CF : CRDFrame R} {HA : HelmAPI W} {HF : HelmFrame R}
  {TF : TagValidator FirehoseTypes.driverConf} {TJ : TagValidator JobConfig.DriverConf}
  {TD : TagValidator DaggerTypes.driverConf}.
Variables (sch : schemas) (polls : nat).

Lemma setupRegistry_Ok d :
  ∃ mr, setupRegistry sch polls d = Ok mr ∧
    ∀ kind desc, gm mr !! kind = Some desc ↔ desc ∈ supported sch polls d ∧ desc_Kind desc = kind.
Proof.
  destruct (register_all_Ok (supported sch polls d) None) as (mr & H & Hmr).
  - repeat constructor.
  - apply (bool_decide_unpack _). vm_compute. exact I.
  - intros desc _. apply lookup_empty.
  - exists mr. split; [exact H|]. intros kind desc. rewrite Hmr. cbn. rewrite lookup_empty. naive_solver.
Qed.

Lemma supported_lawful d : Forall (lawful_desc R) (supported sch polls d).
Proof using All.
  pose proof (@frame_ctx_ends_within W R PR PF) as Hctx. unfold supported.
  repeat (apply Forall_cons; split); [apply kube_lawful|by apply firehose_lawful|apply job_lawful|
    apply kafka_lawful|apply flink_lawful|apply dagger_lawful|constructor]; exact _.
Qed.

(** What a lookup of a driver gives: the driver that the factory of the
    module's kind makes. *)
Lemma entropy_GetDriver md w :
  match GetDriver (entropy_registry sch polls) md w with
  | (Ok (drv, desc), w') =>
      desc ∈ supported sch polls (defaults w) ∧ desc_Kind desc = mod_Name md ∧
      DriverFactory desc (mod_Configs md) = Ok drv
  | (Err err, _) => True
  | (Panic s, _) => ∃ desc, desc ∈ supported sch polls (defaults w) ∧
      DriverFactory desc (mod_Configs md) = Panic s
  end.
Proof.
  cbn [GetDriver entropy_registry]. destruct (setupRegistry_Ok (defaults w)) as (mr & -> & Hmr).
  cbn. unfold registry_GetDriver. destruct (gm mr !! mod_Name md) as [desc|] eqn:E; [|done].
  apply Hmr in E as [Hin Hk].
  destruct (DriverFactory desc (mod_Configs md)) as [drv|e|s] eqn:Hd; [done|done|by exists desc].
Qed.

Lemma steady_entropy_GetDriver md : steady R (GetDriver (entropy_registry sch polls) md).
Proof using All.
  intros w. pose proof (entropy_GetDriver md w) as H. split; [apply frame_set_defaults|].
  destruct (GetDriver _ _ _) as [[[drv desc]|e|s] w']; cbn; [done..|].
  destruct H as (desc & Hin & Hd). pose proof (supported_lawful (defaults w)) as Hl.
  eapply Forall_forall in Hl; [|exact Hin]. destruct (Hl (mod_Configs md)) as [Hc _].
  by eapply calm_panic.
Qed.

Lemma entropy_GetDriver_lawful md w drv desc w' :
  GetDriver (entropy_registry sch polls) md w = (Ok (drv, desc), w') → lawful_driver R drv.
Proof using All.
  intros E. pose proof (entropy_GetDriver md w) as H. rewrite E in H. destruct H as (Hin & _ & Hd).
  pose proof (supported_lawful (defaults w)) as Hl.
  eapply Forall_forall in Hl; [|exact Hin]. by apply (Hl (mod_Configs md)).
Qed.
End registry.

Section surroundings.
Context {GJ : GoJSON} {CJ : CalmJSON} {JS : JSONSchema} {CS : CalmSchema} {MR : MapRange}
  {DG : Digests} {TP : Template} {CT : CalmTemplate} {UC : Unicode} {BD : Binding} {SJ : SyncJSON}
  {W : Type} (st : pg_store W) {EN : Engine schema_sql (db st)}.
#[local] Notation R := (same_tables st).
Context {PR : Process W} {PF : ProcessFrame R}
  {KA : KubeAPI W} {CK : CalmKube} {KF : KubeFrame R} {VA : VersionAPI W} {CV : CalmVersion}
  {VF : VersionFrame R} {BA : BatchAPI W} {BF : BatchFrame R} {CA : CRDAPI W} {CC : CalmCRD}
  {CF : CRDFrame R} {HA : HelmAPI W} {HF : HelmFrame R}
  {TF : TagValidator FirehoseTypes.driverConf} {TJ : TagValidator JobConfig.DriverConf}
  {TD : TagValidator DaggerTypes.driverConf}.
Variables (sch : schemas) (polls : nat) (beats : list heartbeat_event) (conf : SyncerConf).

#[local] Instance same_tables_preorder : PreOrder R.
Proof. split; [done|]. unfold same_tables. intros w1 w2 w3 H1 H2. by rewrite H2. Qed.

(** A module is only read, and reading ends in a value or an error. *)
Lemma steady_pg_GetModule urn : steady R (pg_GetModule st urn).
Proof.
  unfold pg_GetModule, readModuleRecord, query_row. apply steady_catch; [exact _|].
  apply steady_bind; [exact _| |].
  - apply steady_bind; [exact _| |].
    + intros w. split; [by apply exec_read_effects|]. pose proof (exec_no_panic RDb
        (SSelect ["urn"; "project"; "name"; "created_at"; "updated_at"; "configs"] tableModules
           [CEq "urn" (VText urn)] NoSuffix) w) as Hp.
      destruct (exec _ _ _ _) as [[rows|e|s] w']; done.
    + intros rows. apply steady_lift; [exact _|]. by destruct rows.
  - intros r. apply steady_lift; [exact _|]. unfold scan_module, scan_text, scan_time, scan_bytes.
    calm_tac.
Qed.

#[local] Notation service := (entropy_service sch polls st beats conf).

#[export] Instance entropy_store_spec : StoreSpec (store service) := postgres_store_spec st beats.

Lemma view_kept {A} (m : io W A) : effects R m → ∀ w, view (m w).2 = view w.
Proof. intros H w. change (view_of (tabs (m w).2) = view_of (tabs w)). by rewrite H. Qed.

#[export] Instance entropy_surroundings : Surroundings service.
Proof using All.
  pose proof steady_pg_GetModule as Hm.
  pose proof (steady_entropy_GetDriver R sch polls) as Hs.
  pose proof (entropy_GetDriver_lawful R sch polls) as Hl.
  split.
  - intros e act. apply view_kept. exact (effects_PlanAction R _ (postgres_modules st) Hm Hs Hl e act).
  - intros e act w r w'. exact (PlanAction_itself R _ (postgres_modules st) Hl e act w r w').
  - intros e. apply view_kept. exact (effects_SyncState R _ (postgres_modules st) Hm Hs Hl e).
  - intros e filter. apply view_kept. exact (effects_module_logs R _ (postgres_modules st) Hm Hs Hl e filter).
  - intros e. apply view_kept, steady_effects. exact (steady_GetOutput R _ (postgres_modules st) Hm Hs Hl e).
  - intros e w. exact (proj2 (steady_GetOutput R _ (postgres_modules st) Hm Hs Hl e w)).
  - done.
  - intros c. apply view_kept, frame_Int64Counter.
  - intros c u w. change (view_of (tabs (counter_Add process_meter c u w)) = view_of (tabs w)).
    by rewrite (frame_counter_Add (R := R)).
Qed.

(** C2. The layers fit: over PostgreSQL and the six modules, the assembled service
    satisfies the contract that the theorems about the resource service assume,
    when the libraries leave entropy's tables alone.  So what they say holds of
    the tables: whatever was called from an empty database, the dependencies of
    the stored resources are closed and acyclic, and reading a resource ends, at
    the same answer for every stack deeper than their number. *)
Theorem entropy_meets_contract depth :
  Surroundings service ∧
  ∀ w, reachable service depth w →
    wf_deps (view_of (tabs w)) ∧
    ∀ u d1 d2, (size (view_of (tabs w)) < d1)%nat → (size (view_of (tabs w)) < d2)%nat →
      GetResource service d1 u w = GetResource service d2 u w ∧
      (GetResource service d1 u w).1 ≠ Panic "stack overflow".
Proof using All.
  split; [exact _|]. intros w Hw. apply reachable_wf_deps in Hw as Hwf; [|exact _].
  split; [exact Hwf|]. intros u d1 d2 H1 H2. destruct Hwf as (rank & Hr & Hb).
  assert (rank u < d1 ∧ rank u < d2)%nat as [? ?].
  { change (size (view (StoreSpec := entropy_store_spec) w) < d1)%nat in H1.
    change (size (view (StoreSpec := entropy_store_spec) w) < d2)%nat in H2.
    destruct (Hb u); lia. }
  split; [by eapply (get_at_depth service)|by eapply (get_at_no_overflow service)].
Qed.

(** *** What the program accepts *)

(** The kinds with their actions and the dependencies they need. *)
Definition catalogue : list (string * (list string * list (string * string))) :=
  [("kubernetes", (["create"; "update"], []));
   ("firehose", (["create"; "update"; "reset"; "reset-v2"; "stop"; "start"; "scale"; "upgrade"],
                 [("kube_cluster", "kubernetes")]));
   ("job", (["create"; "suspend"; "start"; "delete"], [("kube_cluster", "kubernetes")]));
   ("kafka", (["create"; "update"], []));
   ("flink", (["create"; "update"], []));
   ("dagger", (["create"; "update"; "stop"; "start"; "reset"], [("flink", "flink")]))].

Definition entry_of (desc : Descriptor W) : string * (list string * list (string * string)) :=
  (desc_Kind desc, (ad_Name <$> Actions desc, map_to_list (gm (desc_Dependencies desc)))).

Lemma supported_catalogue d : entry_of <$> supported sch polls d = catalogue.
Proof. vm_compute. reflexivity. Qed.

Lemma supported_kinds d : desc_Kind <$> supported sch polls d = catalogue.*1.
Proof. by rewrite <- (supported_catalogue d), <- list_fmap_compose. Qed.

(** C8. A plan comes from the driver of the module that the project has for the
    kind, and only for what the catalogue lists: one of the kind's actions, on a
    resource with the dependencies the kind needs.  A module of another name
    has no driver, and its resources are bad requests. *)
Theorem entropy_accepts e act w :
  let res := exr_Resource e in
  let found := pg_GetModule st (generateURN (Kind res) (Project res)) w in
  let out := PlanAction (entropy_registry sch polls) (postgres_modules st) e act w in
  (∀ r, out.1 = Ok r → ∃ md actions needs, found.1 = Ok md ∧
     (mod_Name md, (actions, needs)) ∈ catalogue ∧ act_Name act ∈ actions ∧
     ∀ key kind, (key, kind) ∈ needs →
       ∃ d, gm (exr_Dependencies e) !! key = Some d ∧ dep_Kind d = kind) ∧
  (∀ md, found.1 = Ok md → mod_Name md ∉ catalogue.*1 →
     ∃ err, out.1 = Err (EErr err) ∧ Code err = Code ErrInvalid).
Proof.
  intros res found out. subst found out. split.
  - intros r Hr. destruct (PlanAction _ _ e act w) as [o w'] eqn:H. cbn in Hr. subst o.
    apply PlanAction_Ok_inv in H as (md & w1 & drv & desc & w2 & w3 & Hm & Hd & Hdeps & Ha & _).
    pose proof (entropy_GetDriver sch polls md w1) as Hg. rewrite Hd in Hg.
    destruct Hg as (Hin & Hk & _). change (pg_GetModule st (generateURN (Kind res) (Project res)) w =
      (Ok md, w1)) in Hm. rewrite Hm.
    exists md, (ad_Name <$> Actions desc), (map_to_list (gm (desc_Dependencies desc))).
    split_and!; [done| | |].
    + rewrite <- (supported_catalogue (defaults w1)), <- Hk. by apply (list_elem_of_fmap_2 entry_of).
    + destruct Ha as (ad & Hf & _). apply findAction_Some in Hf as [Hf <-].
      by apply list_elem_of_fmap_2.
    + intros key kind Hkk. by apply Hdeps, elem_of_map_to_list.
  - intros md Hm Hn. unfold PlanAction, discoverModule, initDriver. rewrite run_bind. unfold catch at 1.
    change (store_GetModule (postgres_modules st)) with (pg_GetModule st). fold res.
    destruct (pg_GetModule st _ w) as [o w1]. cbn in Hm. subst o. rewrite run_bind. unfold catch.
    cbn [GetDriver entropy_registry].
    destruct (setupRegistry_Ok sch polls (defaults w1)) as (mr & -> & Hmr). cbn.
    unfold registry_GetDriver.
    destruct (gm mr !! mod_Name md) as [desc|] eqn:E; [|eexists; split; [reflexivity|reflexivity]].
    apply Hmr in E as [Hin Hk]. destruct Hn. rewrite <- Hk, <- (supported_kinds (defaults w1)).
    by apply list_elem_of_fmap_2.
Qed.
End surroundings.
