(* ===== verification/Progress.v ===== *)
(** * Progress: the assembled program leaves no resource behind

    The drivers answer plans and syncs with states that are final or ask for
    another sync ([tending]), so that the program of System.v keeps every stored
    resource terminal or scheduled (Scheduling.v), whatever is called, and a
    syncer finds the scheduled ones (SyncOne.v). *)

From S2P Require Import Prelude GoLib Errors Resource Module Registry Json StoreSpec Service ServiceFacts Scheduling Sql SqlLogic Postgres PostgresFacts PostgresRefine SyncOne Names Validator Kube KubeJob KubeCRD Kubernetes KafkaModule Flink Helm Charts GoText Calm ClusterFrame DriverLaws System.
From S2P Require Worker FirehoseTypes FirehoseConfig Firehose FirehoseLaws JobConfig Job JobLaws DaggerTypes DaggerConfig Dagger DaggerLaws.

#[local] Open Scope Z_scope.

(** ** The drivers *)

Record tending {W} (d : Driver W) : Prop := {
  tending_plan : ∀ e act w r w', Plan d e act w = (Ok r, w') → Kind r = "" ∨ tended (res_State r);
  tending_sync : ∀ e w s w', Sync d e w = (Ok s, w') → tended s;
}.

Definition tending_desc {JS : JSONSchema} {W} (desc : Descriptor W) : Prop :=
  ∀ configs d, DriverFactory desc configs = Ok d → tending d.

(** A state that was just written out. *)
Ltac tended_tac :=
  first [left; reflexivity | right; split; [reflexivity|eexists; reflexivity]].

Section drivers.
Context {GJ : GoJSON} {JS : JSONSchema} {MR : MapRange} {DG : Digests} {TP : Template}
  {UC : Unicode} {W : Type} {KA : KubeAPI W} {VA : VersionAPI W} {BA : BatchAPI W}
  {CA : CRDAPI W} {HA : HelmAPI W} {TF : TagValidator FirehoseTypes.driverConf}
  {TJ : TagValidator JobConfig.DriverConf} {TD : TagValidator DaggerTypes.driverConf}.

Lemma kube_tending : tending_desc (kubernetes_Module (W := W)).
Proof.
  intros configs d H. apply res_bind_ok_inv in H as (m & _ & [= <-]).
  split; cbn [Plan Sync kube_driver]; intros *.
  - unfold kube_Plan. intros H. go_inv. right. tended_tac.
  - intros [= <- _]. tended_tac.
Qed.

Lemma kafka_tending schema : tending_desc (kafka_Module (W := W) schema).
Proof.
  intros configs d H. apply res_bind_ok_inv in H as (m & _ & [= <-]).
  split; cbn [Plan Sync kafka_driver]; intros *.
  - unfold kafka_Plan. intros H. go_inv. right. tended_tac.
  - intros [= <- _]. tended_tac.
Qed.

Lemma flink_tending : tending_desc (flink_Module (W := W)).
Proof.
  intros configs d H. apply res_bind_ok_inv in H as (m & _ & [= <-]).
  split; cbn [Plan Sync flink_driver]; intros *.
  - unfold flink_Plan. intros H. go_inv. right. tended_tac.
  - intros [= <- _]. tended_tac.
Qed.

(** The plans of firehoses and daggers are computed beside the world. *)
Lemma firehose_Plan_tended schema (fd : Firehose.firehoseDriver W) e act w r w' :
  Firehose.firehose_Plan schema fd e act w = (Ok r, w') → tended (res_State r).
Proof.
  unfold Firehose.firehose_Plan. intros [= Hp _]. revert Hp. repeat case_decide; intros Hp.
  1: unfold Firehose.planCreate in Hp. 2: unfold Firehose.planReset in Hp.
  3: unfold Firehose.planResetV2 in Hp. 4: unfold Firehose.planChange in Hp.
  all: repeat (apply res_bind_ok_inv in Hp as (? & _ & Hp)); simplify_eq; tended_tac.
Qed.

Lemma firehose_Sync_tended schema (fd : Firehose.firehoseDriver W) e w s w' :
  Firehose.firehose_Sync schema fd e w = (Ok s, w') → tended s.
Proof.
  unfold Firehose.firehose_Sync. intros H. do 4 apply bind_ok_inv in H as (? & ? & _ & H).
  case_match; repeat (apply bind_ok_inv in H as (? & ? & _ & H)); injection H as <- _; tended_tac.
Qed.

Lemma firehose_tending schema now polls ctx g :
  tending_desc (Firehose.firehose_Module (W := W) schema now polls ctx g).
Proof.
  intros configs d H. apply res_bind_ok_inv in H as (fd & _ & [= <-]).
  split; cbn [Plan Sync Firehose.firehose_driver]; intros *;
    [intros H; right; by eapply firehose_Plan_tended|apply firehose_Sync_tended].
Qed.

Lemma job_plan_with_tended schema now (jd : Job.jobDriver W) e configs steps w r w' :
  Job.plan_with schema now jd e configs steps w = (Ok r, w') → tended (res_State r).
Proof.
  unfold Job.plan_with. destruct (JobConfig.ReadConfig _ _ _ _); [|done..]. intros [= <- _]. tended_tac.
Qed.

Lemma job_tending schema now limits : tending_desc (Job.job_Module (W := W) schema now limits).
Proof.
  intros configs d H. apply res_bind_ok_inv in H as (jd & _ & [= <-]).
  split; cbn [Plan Sync Job.job_driver]; intros *.
  - unfold Job.job_Plan, Job.planCreate, Job.planPendingWithExistingResource.
    repeat case_decide; intros Hp; [right; by eapply job_plan_with_tended..|].
    injection Hp as <- _. by left.
  - unfold Job.job_Sync. intros H. do 4 apply bind_ok_inv in H as (? & ? & _ & H).
    case_match; repeat (apply bind_ok_inv in H as (? & ? & _ & H)); injection H as <- _; tended_tac.
Qed.

Lemma dagger_Plan_tended schema (dd : Dagger.daggerDriver W) e act w r w' :
  Dagger.dagger_Plan schema dd e act w = (Ok r, w') → tended (res_State r).
Proof.
  unfold Dagger.dagger_Plan. intros [= Hp _]. revert Hp. repeat case_decide; intros Hp.
  1: unfold Dagger.planCreate in Hp. 2: unfold Dagger.planReset in Hp.
  3: unfold Dagger.planChange in Hp.
  all: repeat (apply res_bind_ok_inv in Hp as (? & _ & Hp)); simplify_eq; tended_tac.
Qed.

Lemma dagger_tending schema now ns : tending_desc (Dagger.dagger_Module (W := W) schema now ns).
Proof.
  intros configs d H. apply res_bind_ok_inv in H as (dd & _ & [= <-]).
  split; cbn [Plan Sync Dagger.dagger_driver]; intros *.
  - intros H. right. by eapply dagger_Plan_tended.
  - unfold Dagger.dagger_Sync, Dagger.finish_sync. intros H.
    do 4 apply bind_ok_inv in H as (? & ? & _ & H).
    case_match; repeat (apply bind_ok_inv in H as (? & ? & _ & H)); injection H as <- _; tended_tac.
Qed.
End drivers.

(** ** The program *)

Section program.
Context {GJ : GoJSON} {CJ : CalmJSON} {JS : JSONSchema} {CS : CalmSchema} {MR : MapRange}
  {DG : Digests} {TP : Template} {CT : CalmTemplate} {UC : Unicode} {BD : Binding} {SJ : SyncJSON}
  {W : Type} (st : pg_store W) {EN : Engine schema_sql (db st)}.
#[local] Notation R := (same_tables st).
Context {PR : Process W} {PF : ProcessFrame R}
  {KA : KubeAPI W} {CK : CalmKube} {KF : KubeFrame R} {VA : VersionAPI W} {CV : CalmVersion}
  {VF : VersionFrame R} {BA : BatchAPI W} {BF : BatchFrame R} {CA : CRDAPI W} {CC : CalmCRD}
  {CF : CRDFrame R} {HA : HelmAPI W} {HF : HelmFrame R}
  {TF : TagValidator FirehoseTypes.driverConf} {TJ : TagValidator JobConfig.DriverConf}
  {TD : TagValidator DaggerTypes.driverConf}.
Variables (sch : schemas) (polls : nat) (beats : list heartbeat_event) (conf : SyncerConf).
Variable depth : nat.

#[local] Notation service := (entropy_service sch polls st beats conf).
#[local] Notation registry := (entropy_registry sch polls).

Lemma supported_tending (d : default_maps) : Forall tending_desc (supported (W := W) sch polls d).
Proof.
  unfold supported. repeat (apply Forall_cons; split);
    [apply kube_tending|apply firehose_tending|apply job_tending|apply kafka_tending|
     apply flink_tending|apply dagger_tending|constructor].
Qed.

Lemma entropy_GetDriver_tending md w drv desc w' :
  GetDriver registry md w = (Ok (drv, desc), w') → tending drv.
Proof.
  intros E. pose proof (entropy_GetDriver sch polls md w) as H. rewrite E in H.
  destruct H as (Hin & _ & Hd). pose proof (supported_tending (defaults w)) as Hl.
  eapply Forall_forall in Hl; [|exact Hin]. by apply (Hl (mod_Configs md)).
Qed.

#[export] Instance entropy_scheduling : Scheduling service.
Proof.
  split.
  - intros e act w r w' H. change (PlanAction registry (postgres_modules st) e act w = (Ok r, w')) in H.
    apply PlanAction_Ok_inv in H as (md & w1 & drv & desc & w2 & w3 & _ & Hd & _ & _ & H).
    apply entropy_GetDriver_tending in Hd. by eapply tending_plan.
  - intros e w s w' H. change (SyncState registry (postgres_modules st) e w = (Ok s, w')) in H.
    unfold SyncState in H. apply bind_ok_inv in H as (md & w1 & _ & H).
    apply bind_ok_inv in H as ([drv desc] & w2 & Hd & H). apply run_catch_ok in Hd.
    apply bind_ok_inv in H as (? & w3 & _ & H).
    apply entropy_GetDriver_tending in Hd. by eapply tending_sync.
Qed.

(** A step of the program: a call of the service, a syncer's [SyncOne], or
    another process that changes neither resources' states nor takes the time of
    a next sync away. *)
Inductive program_step : W → W → Prop :=
  | step_call o w : program_step w (run_op service depth o w).2
  | step_sync scope w :
      program_step w (SyncOne (store service) scope (handleSync service depth) w).2
  | step_other w w' : moves (view_of (tabs w)) (view_of (tabs w')) → program_step w w'.

Inductive program_reaches : W → Prop :=
  | reaches_init w : view_of (tabs w) = ∅ → program_reaches w
  | reaches_step w w' : program_reaches w → program_step w w' → program_reaches w'.

Lemma held_moves u m m' : held u m m' → moves m m'.
Proof.
  intros [->|[t ->]]; [done|]. intros v y Hy. rewrite lookup_alter in Hy. case_decide; [subst v|by exists y].
  apply fmap_Some in Hy as (x & Hx & ->). exists x. split; [done|]. split; [done|]. cbn. eauto.
Qed.

Lemma SyncOne_settles scope w :
  all_settled (view_of (tabs w)) →
  all_settled (view_of (tabs (SyncOne (store service) scope (handleSync service depth) w).2)).
Proof using All.
  intros Hw. destruct (SyncOne _ _ _ w) as [out w'] eqn:H. cbn [snd].
  change (pg_SyncOne st beats scope (handleSync service depth) w = (out, w')) in H.
  apply (sync_run st) in H as [[-> _]|(u & r & x & w1 & _ & Hr & Hh & H)]; [done|].
  apply held_moves in Hh. assert (all_settled (view_of (tabs w1))) as Hw1 by by eapply moves_settled.
  destruct H as [[[t ->] H]|[-> _]]; [|done].
  assert (Scheduling.settled (res_State (reschedule t (decode (tabs w) r)))) as Hx.
  { eapply (settled_rescheduled (decode (tabs w) r)); [split; [done|cbn; eauto]|].
    eapply (Hw u). apply view_of_Some; [apply tabs_ok|by exists r]. }
  pose proof (sync_and_store_settles service depth _ w1 Hx Hw1) as Hs. rewrite run_bind in Hs.
  destruct (handleSync service depth _ w1) as [[y|e|s] w2].
  - change (Update (store service) y false "sync" [] w2) with (pg_Update st y false "sync" [] w2) in Hs.
    by rewrite H in Hs.
  - by injection H as _ <-.
  - by injection H as _ <-.
Qed.

Lemma program_settled w : program_reaches w → all_settled (view_of (tabs w)).
Proof using All.
  induction 1 as [w ->|w w' _ IH Hstep]; [intros u x Hx; by rewrite lookup_empty in Hx|].
  destruct Hstep as [o w|scope w|w w' Hm].
  - exact (run_op_settles service depth o w IH).
  - by apply SyncOne_settles.
  - by eapply moves_settled.
Qed.

(** C6. No resource is left behind: whatever is called and however it ends, and
    however syncs are interleaved with the calls, a stored resource is completed,
    failed, or pending with a time for its next sync, from which on every syncer
    of its scope finds it due.  (A pending resource refuses every action, so a
    sync is the only way out of the state.) *)
Theorem no_resource_left_behind w :
  program_reaches w → ∀ r, r ∈ rows_of (tabs w) tableResources →
  let status := txt r "state_status" in
  (status = StatusCompleted ∨ status = StatusError ∨ status = StatusPending) ∧
  (status = StatusPending → ∃ t, ∀ now, t ≤ now → due now ∅ r).
Proof using All.
  intros Hw%program_settled r Hr. set (x := decode (tabs w) r).
  assert (Scheduling.settled (res_State x)) as Hx.
  { apply (Hw (txt r "urn")). apply view_of_Some; [apply tabs_ok|]. exists r. split; [|done].
    split; [done|]. by apply (urn_typed (tabs w)); [apply tabs_ok|]. }
  change (Resource.Status (res_State x)) with (txt r "state_status") in Hx.
  assert (NextSyncAt (res_State x) = tim_ptr r "state_next_sync") as Hn by done.
  unfold Scheduling.settled, tended in Hx. rewrite Hn in Hx. cbn zeta. split; [naive_solver|].
  intros Hp. change (Resource.Status (res_State x)) with (txt r "state_status") in Hx. rewrite Hp in Hx.
  destruct Hx as [[[=]|[_ [t Ht]]]|[=]]. exists t. intros now Hle.
  unfold due, scope_conds. unfold tim_ptr in Ht. cbn [where_ forallb eval_cond].
  destruct (col r "state_next_sync"); simplify_eq. apply andb_true_intro. split; [by apply Z.leb_le|].
  assert (range (∅ : gmap string (list string)) = []) as ->; [|done].
  apply Permutation_nil_r. rewrite range_perm. by rewrite map_to_list_empty.
Qed.
End program.

(** Which resources the started syncers serve: all of them when no worker is
    configured, else those in the scope of a worker with a positive count. *)
Lemma spawned_due {MR : MapRange} workers now r :
  (∃ scope, scope ∈ spawnWorkers workers ∧ due now scope r) ↔
  workers = ∅ ∧ due now ∅ r ∨
  ∃ name c, workers !! name = Some c ∧ 0 < Count c ∧ due now (Scope c) r.
Proof.
  unfold spawnWorkers, RunSyncer. case_decide as Hz.
  - apply map_size_empty_inv in Hz as ->. split.
    + intros (scope & ->%list_elem_of_singleton & Hd). by left.
    + intros [[_ Hd]|(name & c & Hc & _)]; [|by rewrite lookup_empty in Hc].
      exists ∅. split; [by apply list_elem_of_singleton|done].
  - split.
    + intros (scope & Hs & Hd). right. apply list_elem_of_bind in Hs as ([name c] & Hs & Hin).
      apply elem_of_range in Hin. cbn [fst snd] in Hs.
      destruct (Z.to_nat (Count c)) as [|n] eqn:Hn; [by apply not_elem_of_nil in Hs|].
      apply elem_of_replicate in Hs as [-> _]. exists name, c. split_and!; [done|lia|done].
    + intros [[-> _]|(name & c & Hc & Hp & Hd)]; [by rewrite map_size_empty in Hz|].
      exists (Scope c). split; [|done]. apply list_elem_of_bind. exists (name, c).
      split; [|by apply elem_of_range]. apply elem_of_replicate. cbn [snd]. split; [done|lia].
Qed.
