(* ===== verification/Completion.v ===== *)
(** * Completion: every pending resource comes to an end

    The drivers' plans have three steps at most, and each of their syncs takes
    the first step that the resource holds or completes it ([stepping]).  So the
    assembled program keeps the bound of PendingSteps.v on every resource, and a
    resource is completed or failed after a bounded number of syncs, whatever is
    called in between. *)

From S2P Require Import Prelude GoLib Errors Resource Module Registry Json StoreSpec Service ServiceFacts PendingSteps Sql SqlLogic Postgres PostgresFacts PostgresRefine SyncOne Names Validator Kube KubeJob KubeCRD Kubernetes KafkaModule Flink Helm Charts GoText ConsumerReset Calm ClusterFrame DriverLaws System.
From S2P Require Worker FirehoseTypes FirehoseConfig Firehose FirehoseLaws JobConfig Job JobLaws DaggerTypes DaggerConfig Dagger DaggerLaws.

#[local] Open Scope Z_scope.

(** ** The drivers *)

Record stepping {GJ : GoJSON} {W} (d : Driver W) : Prop := {
  stepping_plan : ∀ e act w r w', Plan d e act w = (Ok r, w') → Kind r = "" ∨ fresh 4 (res_State r);
  stepping_sync : ∀ e w s w' steps, Sync d e w = (Ok s, w') →
    holds_steps (ModuleData (res_State (exr_Resource e))) steps → fresh (length steps) s;
}.

Definition stepping_desc {GJ : GoJSON} {JS : JSONSchema} {W} (desc : Descriptor W) : Prop :=
  ∀ configs d, DriverFactory desc configs = Ok d → stepping d.

Section drivers.
Context {GJ : GoJSON} {TX : TextJSON} {JS : JSONSchema} {MR : MapRange} {DG : Digests} {TP : Template}
  {UC : Unicode} {W : Type} {KA : KubeAPI W} {VA : VersionAPI W} {BA : BatchAPI W}
  {CA : CRDAPI W} {HA : HelmAPI W} {TF : TagValidator FirehoseTypes.driverConf}
  {TJ : TagValidator JobConfig.DriverConf} {TD : TagValidator DaggerTypes.driverConf}.

Lemma lift_Ok {A} (r : go A) (w w' : W) a : lift r w = (Ok a, w') → r = Ok a.
Proof. unfold lift. by intros [= ->]. Qed.

Lemma completed_fresh n out next : fresh n (mkState StatusCompleted out None next SyncResult_zero).
Proof. exists []. split; [by left|]. by left. Qed.

Lemma pending_fresh n out steps reset next :
  valid_utf8 reset = true → Forall (λ s, valid_utf8 s = true) steps → (length steps < n)%nat →
  fresh n (mkState StatusPending out (MustJSON (transient_doc steps reset)) next SyncResult_zero).
Proof. intros Hr Hs Hl. exists steps. split; [by apply holds_steps_print|]. by right. Qed.

Lemma kube_stepping : stepping_desc (kubernetes_Module (W := W)).
Proof.
  intros configs d H. apply res_bind_ok_inv in H as (m & _ & [= <-]).
  split; cbn [Plan Sync kube_driver]; intros *.
  - unfold kube_Plan. intros H. go_inv. right. apply completed_fresh.
  - intros [= <- _] _. apply completed_fresh.
Qed.

Lemma kafka_stepping schema : stepping_desc (kafka_Module (W := W) schema).
Proof.
  intros configs d H. apply res_bind_ok_inv in H as (m & _ & [= <-]).
  split; cbn [Plan Sync kafka_driver]; intros *.
  - unfold kafka_Plan. intros H. go_inv. right. apply completed_fresh.
  - intros [= <- _] _. apply completed_fresh.
Qed.

Lemma flink_stepping : stepping_desc (flink_Module (W := W)).
Proof.
  intros configs d H. apply res_bind_ok_inv in H as (m & _ & [= <-]).
  split; cbn [Plan Sync flink_driver]; intros *.
  - unfold flink_Plan. intros H. go_inv. right. apply completed_fresh.
  - intros [= <- _] _. apply completed_fresh.
Qed.

(** *** Firehoses *)

Ltac plan_fresh_tac :=
  apply pending_fresh; [first [reflexivity|assumption]|repeat constructor|cbn; lia].

Lemma firehose_Plan_fresh schema (fd : Firehose.firehoseDriver W) e act w r w' :
  Firehose.firehose_Plan schema fd e act w = (Ok r, w') → fresh 4 (res_State r).
Proof using TX.
  unfold Firehose.firehose_Plan. intros [= Hp _]. revert Hp. repeat case_decide; intros Hp.
  1: unfold Firehose.planCreate in Hp. 2: unfold Firehose.planReset in Hp.
  3: unfold Firehose.planResetV2 in Hp; apply res_bind_ok_inv in Hp as (v & Hv%ParseResetV2Params_utf8 & Hp).
  4: unfold Firehose.planChange in Hp.
  all: repeat (apply res_bind_ok_inv in Hp as (? & _ & Hp)); simplify_eq; plan_fresh_tac.
Qed.

(** What the transient data are read as. *)
Definition reads {T} (steps_of : T → option (list string)) (reset_of : T → string) (read : go T)
    (steps : list string) : Prop :=
  ∀ t, read = Ok t → default [] (steps_of t) = steps ∧ valid_utf8 (reset_of t) = true ∧
    Forall (λ s, valid_utf8 s = true) steps.

Lemma firehose_reads e steps :
  holds_steps (ModuleData (res_State (exr_Resource e))) steps →
  reads FirehoseTypes.PendingSteps FirehoseTypes.ResetOffsetTo (Firehose.readTransientData e) steps.
Proof.
  intros [[Hz ->]|(reset & Hr & Hs & Hz & Hu)]%holds_steps_read t;
    unfold Firehose.readTransientData; rewrite Hz; [by intros [= <-]|].
  rewrite Hu.
  assert (FirehoseTypes.dec_transient (transient_doc steps reset) FirehoseTypes.transient_zero =
    Ok (FirehoseTypes.mkTransient (Some steps) reset)) as ->; [|by intros [= <-]].
  dec_object ((Some steps, (reset, tt)) : option (list string) * (string * ())).
  apply dec_enc_strings.
Qed.

(** With what is read, a sync answers with the steps that remain. *)
Lemma firehose_stepping schema now polls ctx g :
  stepping_desc (Firehose.firehose_Module (W := W) schema now polls ctx g).
Proof using TX.
  intros configs d H. apply res_bind_ok_inv in H as (fd & _ & [= <-]).
  split; cbn [Plan Sync Firehose.firehose_driver]; intros *.
  { intros H. right. by eapply firehose_Plan_fresh. }
  intros H Hh. unfold Firehose.firehose_Sync in H.
  apply bind_ok_inv in H as (t & ? & Ht & H). apply lift_Ok in Ht.
  destruct (firehose_reads _ _ Hh _ Ht) as (Hsteps & Hr & Hs).
  do 3 apply bind_ok_inv in H as (? & ? & _ & H). rewrite Hsteps in H.
  destruct steps as [|step rest];
    repeat (apply bind_ok_inv in H as (? & ? & _ & H)); injection H as <- _;
    [apply completed_fresh|apply Forall_cons in Hs as [_ Hs]; apply pending_fresh; [done|done|cbn; lia]].
Qed.

(** *** Jobs *)

Lemma job_plan_with_fresh schema now (jd : Job.jobDriver W) e configs steps w r w' :
  Forall (λ s, valid_utf8 s = true) steps → (length steps < 4)%nat →
  Job.plan_with schema now jd e configs steps w = (Ok r, w') → fresh 4 (res_State r).
Proof.
  intros Hs Hl. unfold Job.plan_with. destruct (JobConfig.ReadConfig _ _ _ _); [|done..].
  intros [= <- _]. by apply (pending_fresh 4 _ steps "").
Qed.

Lemma job_reads e steps :
  holds_steps (ModuleData (res_State (exr_Resource e))) steps →
  reads id (λ _, "") (Job.ReadTransientData e) steps.
Proof.
  intros [[Hz ->]|(reset & Hr & Hs & Hz & Hu)]%holds_steps_read t;
    unfold Job.ReadTransientData; rewrite Hz; [by intros [= <-]|].
  rewrite Hu.
  assert (Job.dec_TransientData (transient_doc steps reset) None = Ok (Some steps)) as ->;
    [|by intros [= <-]].
  pose proof (dec_enc_strings (Some steps)) as He.
  unfold Job.dec_TransientData, transient_doc. erewrite dec_record_obj; [|cbn [concat]].
  2:{ erewrite dec_members_mem; [|reflexivity|].
      - instantiate (1 := (Some steps, tt)). by destruct (no_str reset).
      - cbn [fst snd]. by rewrite He. }
  done.
Qed.

Lemma job_stepping schema now limits : stepping_desc (Job.job_Module (W := W) schema now limits).
Proof.
  intros configs d H. apply res_bind_ok_inv in H as (jd & _ & [= <-]).
  split; cbn [Plan Sync Job.job_driver]; intros *.
  - unfold Job.job_Plan, Job.planCreate, Job.planPendingWithExistingResource.
    repeat case_decide; intros Hp;
      [right; (eapply job_plan_with_fresh; [|..|exact Hp]; [repeat constructor|cbn; lia])..|].
    injection Hp as <- _. by left.
  - intros H Hh. unfold Job.job_Sync in H.
    apply bind_ok_inv in H as (t & ? & Ht & H). apply lift_Ok in Ht.
    destruct (job_reads _ _ Hh _ Ht) as (Hsteps & _ & Hs). change (default [] t = steps) in Hsteps.
    do 3 apply bind_ok_inv in H as (? & ? & _ & H). rewrite Hsteps in H.
    destruct steps as [|step rest];
      repeat (apply bind_ok_inv in H as (? & ? & _ & H)); injection H as <- _;
      [apply completed_fresh|apply Forall_cons in Hs as [_ Hs]; apply (pending_fresh _ _ _ ""); [done|done|cbn; lia]].
Qed.

(** *** Daggers *)

Lemma dagger_Plan_fresh schema (dd : Dagger.daggerDriver W) e act w r w' :
  Dagger.dagger_Plan schema dd e act w = (Ok r, w') → fresh 4 (res_State r).
Proof using TX.
  unfold Dagger.dagger_Plan. intros [= Hp _]. revert Hp. repeat case_decide; intros Hp.
  1: unfold Dagger.planCreate in Hp.
  2: unfold Dagger.planReset in Hp; apply res_bind_ok_inv in Hp as (v & Hv%ParseResetV2Params_utf8 & Hp).
  3: unfold Dagger.planChange in Hp.
  all: repeat (apply res_bind_ok_inv in Hp as (? & _ & Hp)); simplify_eq; plan_fresh_tac.
Qed.

Lemma dagger_reads e steps :
  holds_steps (ModuleData (res_State (exr_Resource e))) steps →
  reads DaggerTypes.PendingSteps DaggerTypes.ResetOffsetTo (Dagger.readTransientData e) steps.
Proof.
  intros [[Hz ->]|(reset & Hr & Hs & Hz & Hu)]%holds_steps_read t;
    unfold Dagger.readTransientData; rewrite Hz; [by intros [= <-]|].
  rewrite Hu.
  assert (DaggerTypes.dec_transient (transient_doc steps reset) DaggerTypes.transient_zero =
    Ok (DaggerTypes.mkTransient (Some steps) reset)) as ->; [|by intros [= <-]].
  dec_object ((Some steps, (reset, tt)) : option (list string) * (string * ())).
  apply dec_enc_strings.
Qed.

Lemma dagger_stepping schema now ns : stepping_desc (Dagger.dagger_Module (W := W) schema now ns).
Proof using TX.
  intros configs d H. apply res_bind_ok_inv in H as (dd & _ & [= <-]).
  split; cbn [Plan Sync Dagger.dagger_driver]; intros *.
  { intros H. right. by eapply dagger_Plan_fresh. }
  intros H Hh. unfold Dagger.dagger_Sync, Dagger.finish_sync in H.
  apply bind_ok_inv in H as (t & ? & Ht & H). apply lift_Ok in Ht.
  destruct (dagger_reads _ _ Hh _ Ht) as (Hsteps & Hr & Hs).
  do 3 apply bind_ok_inv in H as (? & ? & _ & H). rewrite Hsteps in H.
  destruct steps as [|step rest];
    repeat (apply bind_ok_inv in H as (? & ? & _ & H)); injection H as <- _;
    [apply completed_fresh|apply Forall_cons in Hs as [_ Hs]; apply pending_fresh; [done|done|cbn; lia]].
Qed.
End drivers.

(** ** The program *)

(** Only the times of the next syncs are other. *)
Definition retimes (m m' : gmap string Resource) : Prop :=
  ∀ u, match m !! u, m' !! u with
       | Some x, Some y => y = x ∨ ∃ t, y = reschedule t x
       | None, None => True
       | _, _ => False
       end.

Lemma held_retimes u m m' : held u m m' → retimes m m'.
Proof.
  intros [->|[t ->]] v; [destruct (m !! v); [by left|done]|]. rewrite lookup_alter.
  case_decide as Hv; [subst v; destruct (m !! u); [right; by exists t|done]|].
  destruct (m !! v); [by left|done].
Qed.

Section program.
Context {GJ : GoJSON} {CJ : CalmJSON} {TX : TextJSON} {JS : JSONSchema} {CS : CalmSchema} {MR : MapRange}
  {DG : Digests} {TP : Template} {CT : CalmTemplate} {UC : Unicode} {BD : Binding} {SJ : SyncJSON}
  {W : Type} (st : pg_store W) {EN : Engine schema_sql (db st)}.
#[local] Notation R := (same_tables st).
Context {PR : Process W} {PF : ProcessFrame R}
  {KA : KubeAPI W} {CK : CalmKube} {KF : KubeFrame R} {VA : VersionAPI W} {CV : CalmVersion}
  {VF : VersionFrame R} {BA : BatchAPI W} {BF : BatchFrame R} {CA : CRDAPI W} {CC : CalmCRD}
  {CF : CRDFrame R} {HA : HelmAPI W} {HF : HelmFrame R}
  {TF : TagValidator FirehoseTypes.driverConf} {TJ : TagValidator JobConfig.DriverConf}
  {TD : TagValidator DaggerTypes.driverConf}.
Variables (sch : schemas) (polls : nat) (beats : list heartbeat_event) (conf : SyncerConf).
Variable depth : nat.

#[local] Notation service := (entropy_service sch polls st beats conf).
#[local] Notation registry := (entropy_registry sch polls).
#[local] Notation M := (MaxRetries conf).
#[local] Notation vw w := (view_of (tabs w)).

Lemma supported_stepping (d : default_maps) : Forall stepping_desc (supported (W := W) sch polls d).
Proof using TX.
  unfold supported. repeat (apply Forall_cons; split);
    [apply kube_stepping|apply firehose_stepping|apply job_stepping|apply kafka_stepping|
     apply flink_stepping|apply dagger_stepping|constructor].
Qed.

Lemma entropy_GetDriver_stepping md w drv desc w' :
  GetDriver registry md w = (Ok (drv, desc), w') → stepping drv.
Proof using TX.
  intros E. pose proof (entropy_GetDriver sch polls md w) as H. rewrite E in H.
  destruct H as (Hin & _ & Hd). pose proof (supported_stepping (defaults w)) as Hl.
  eapply Forall_forall in Hl; [|exact Hin]. by apply (Hl (mod_Configs md)).
Qed.

#[export] Instance entropy_stepping : Stepping service.
Proof using TX.
  split.
  - intros e act w r w' H. change (PlanAction registry (postgres_modules st) e act w = (Ok r, w')) in H.
    apply PlanAction_Ok_inv in H as (md & w1 & drv & desc & w2 & w3 & _ & Hd & _ & _ & H).
    apply entropy_GetDriver_stepping in Hd. by eapply stepping_plan.
  - intros e w s w' steps H. change (SyncState registry (postgres_modules st) e w = (Ok s, w')) in H.
    unfold SyncState in H. apply bind_ok_inv in H as (md & w1 & _ & H).
    apply bind_ok_inv in H as ([drv desc] & w2 & Hd & H). apply run_catch_ok in Hd.
    apply bind_ok_inv in H as (? & w3 & _ & H).
    apply entropy_GetDriver_stepping in Hd. by eapply stepping_sync.
Qed.

(** A step of the program, with the resource of which it stored a sync: a call
    of the service, a syncer's [SyncOne], or another process moving the times of
    next syncs. *)
Inductive step : option string → W → W → Prop :=
  | step_call o w : is_call o → step None w (run_op service depth o w).2
  | step_sync scope w out w' :
      SyncOne (store service) scope (handleSync service depth) w = (out, w') →
      step (match out with Ok _ => next_up st scope w | _ => None end) w w'
  | step_retime w w' : retimes (vw w) (vw w') → step None w w'.

Inductive reaches : W → Prop :=
  | reaches_init w : vw w = ∅ → reaches w
  | reaches_step l w w' : reaches w → step l w w' → reaches w'.

Definition awaits (u : string) (w : W) : Prop := ∃ x, vw w !! u = Some x ∧ is_pending x.

(** An execution during which [u] is pending all the time, and [n] syncs of it
    are stored. *)
Inductive run (u : string) : nat → W → W → Prop :=
  | run_none w : awaits u w → run u 0 w w
  | run_more n l w w1 w2 : run u n w w1 → step l w1 w2 → awaits u w2 →
      run u (if decide (l = Some u) then S n else n) w w2.

Hypothesis HM : 0 < M < 2 ^ 63.

Lemma retimes_goes_on m m' :
  retimes m m' → waits m m' ∧ (all_within service m → all_within service m').
Proof.
  intros H. split.
  - intros u x Hx _. specialize (H u). rewrite Hx in H. destruct (m' !! u) as [y|]; [|done].
    exists y. split; [done|]. by destruct H as [->|[t ->]].
  - intros Hw u y Hy. specialize (H u). rewrite Hy in H. destruct (m !! u) as [x|] eqn:Hx; [|done].
    apply Hw in Hx. by destruct H as [->|[t ->]].
Qed.

(** What a stored sync of [u0] does to the resource [u]. *)
Definition synced_to (l : option string) (u : string) (x y : Resource) : Prop :=
  if decide (l = Some u)
  then ∀ k, k ≤ 4 * M → within M k (res_State x) → within M (k - 1) (res_State y)
  else same_work (res_State x) (res_State y).

Definition moves_on (l : option string) (m m' : gmap string Resource) : Prop :=
  (∀ u x, m !! u = Some x → is_pending x → ∃ y, m' !! u = Some y ∧ synced_to l u x y) ∧
  all_within service m'.

Lemma goes_on_moves_on m m' :
  all_within service m → waits m m' ∧ (all_within service m → all_within service m') →
  moves_on None m m'.
Proof. intros Hw [H1 H2]. split; [done|auto]. Qed.

Lemma handleSync_goes_on x w out w' :
  handleSync service depth x w = (out, w') → goes_on service w w'.
Proof using All.
  intros H. apply keeps_goes_on.
  exact (effects_run (keeps service) _ _ _ _ (keeps_handleSync service depth x) H).
Qed.

Lemma stored_moves_on u x t w w1 y w2 old x' :
  all_within service (vw w) → vw w !! u = Some x → held u (vw w) (vw w1) →
  handleSync service depth (reschedule t x) w1 = (Ok y, w2) →
  updated old y x' → moves_on (Some u) (vw w) (<[URN y := x']> (vw w2)).
Proof using All.
  intros Hw Hx Hh Hs Hx'.
  pose proof (retimes_goes_on _ _ (held_retimes _ _ _ Hh)) as [H1 H1'].
  pose proof (handleSync_goes_on _ _ _ _ Hs) as [H2 H2'].
  assert (URN y = u) as ->.
  { apply handleSync_same in Hs as [-> _]. change (URN x = u).
    eapply view_of_URN; [apply tabs_ok|exact Hx]. }
  pose proof (handleSync_within service depth HM _ _ _ _ (4 * M) Hs (Z.le_refl _) (Hw _ _ Hx)) as Hy.
  change (maxSyncRetries service) with M in Hy.
  split.
  - intros v z Hz Hp. unfold synced_to. destruct (decide (Some u = Some v)) as [[= ->]|Hv].
    + assert (z = x) as -> by congruence. exists x'.
      split; [apply lookup_insert_eq|]. intros k Hk Hwk.
      eapply (updated_within M); [lia|exact Hx'|].
      pose proof (handleSync_within service depth HM _ _ _ _ k Hs Hk Hwk) as Hyk.
      by rewrite decide_True in Hyk.
    + destruct (H1 v z Hz Hp) as (z1 & Hz1 & Hs1).
      destruct (H2 v z1 Hz1) as (z2 & Hz2 & Hs2); [unfold is_pending; by rewrite (proj1 Hs1)|].
      exists z2. split; [|by etrans]. rewrite lookup_insert_ne; [done|congruence].
  - apply all_within_insert; [by apply H2', H1'|]. eapply (updated_within M); [lia|exact Hx'|].
    eapply within_le; [|exact Hy]. change (maxSyncRetries service) with M; case_decide; lia.
Qed.

Lemma SyncOne_moves_on scope w out w' :
  SyncOne (store service) scope (handleSync service depth) w = (out, w') →
  all_within service (vw w) →
  moves_on (match out with Ok _ => next_up st scope w | _ => None end) (vw w) (vw w').
Proof using All.
  intros H Hw. change (pg_SyncOne st beats scope (handleSync service depth) w = (out, w')) in H.
  apply (sync_run st) in H as [(-> & _ & Hn)|(u & r & x & w1 & Hn & Hr & Hh & H)].
  { rewrite Hn. replace (match out with Ok _ => None | _ => None end) with (None (A := string))
      by by destruct out. by apply goes_on_moves_on. }
  pose proof (retimes_goes_on _ _ (held_retimes _ _ _ Hh)) as H1.
  destruct H as [[[t ->] H]|[-> Ho]].
  2:{ destruct out as [[]|e|s]; [done|by apply goes_on_moves_on..]. }
  destruct (handleSync service depth _ w1) as [[y|e|s] w2] eqn:Hs.
  2,3: injection H as <- <-; apply goes_on_moves_on; [done|];
    apply handleSync_goes_on in Hs as [H2 H2']; destruct H1; split; [by etrans|auto].
  pose proof (pg_Update_spec st y false "sync" w2) as Hu. rewrite H in Hu.
  destruct out as [[]|e|s]; [| |done].
  - destruct Hu as (old & x' & _ & Hx' & ->). rewrite Hn.
    eapply stored_moves_on; [done| |done|exact Hs|exact Hx'].
    apply view_of_Some; [apply tabs_ok|]. by exists r.
  - rewrite Hu. apply goes_on_moves_on; [done|].
    apply handleSync_goes_on in Hs as [H2 H2']; destruct H1; split; [by etrans|auto].
Qed.

Lemma step_moves_on l w w' :
  step l w w' → all_within service (vw w) → moves_on l (vw w) (vw w').
Proof using All.
  intros [o w0 Ho|scope w0 out w1 H|w0 w1 H] Hw.
  - apply goes_on_moves_on; [done|]. exact (run_op_goes_on service depth HM o w0 Ho).
  - by apply SyncOne_moves_on.
  - by apply goes_on_moves_on, retimes_goes_on.
Qed.

Lemma reaches_within w : reaches w → all_within service (vw w).
Proof using All.
  induction 1 as [w ->|l w w' _ IH Hs]; [intros u x Hx; by rewrite lookup_empty in Hx|].
  by apply step_moves_on in Hs as [_ Hs].
Qed.

Lemma run_within u n w w' : all_within service (vw w) → run u n w w' →
  all_within service (vw w') ∧
  ∃ x, vw w' !! u = Some x ∧ is_pending x ∧ within M (4 * M - Z.of_nat n) (res_State x).
Proof using All.
  intros Hw. induction 1 as [w (x & Hx & Hp)|n l w w1 w2 _ IH Hs (y & Hy & Hp)].
  - split; [done|]. exists x. rewrite Z.sub_0_r. split_and!; [done..|by eapply Hw].
  - destruct (IH Hw) as (Hw1 & x & Hx & Hpx & Hk). apply step_moves_on in Hs as [Hs Hw2]; [|done].
    split; [done|]. destruct (Hs u x Hx Hpx) as (y' & Hy' & Hxy). assert (y' = y) as -> by congruence.
    exists y. split_and!; [done..|]. unfold synced_to in Hxy. case_decide.
    + eapply within_le; [|apply Hxy; [|exact Hk]]; lia.
    + by eapply same_work_within.
Qed.

(** C7. Syncing ends: with a limit [M] on retries, [0 < M < 2^63], there are
    less than [4 * M] stored syncs of a resource while it stays pending, whatever
    is called in between and whatever the clusters answer to the drivers.  A step
    that is not a stored sync of the resource, among them a sync that fails as a
    whole, leaves its status, module data and retries as they are: a resource
    whose dependencies cannot be resolved waits with no count of its attempts.
    After every step it is pending, completed or failed.  What the program calls
    (JSON, templates, schemas and the clusters) is taken not to touch the tables
    of the store and not to panic with a stack overflow. *)
Theorem syncing_terminates u n w w' :
  reaches w → run u n w w' →
  Z.of_nat n < 4 * M ∧
  ∀ l w2, step l w' w2 → ∃ x y, vw w' !! u = Some x ∧ vw w2 !! u = Some y ∧
    (l ≠ Some u → Resource.Status (res_State y) = StatusPending ∧
       raw_bytes (ModuleData (res_State y)) = raw_bytes (ModuleData (res_State x)) ∧
       Retries (st_SyncResult (res_State y)) = Retries (st_SyncResult (res_State x))) ∧
    Resource.Status (res_State y) ∈ [StatusPending; StatusCompleted; StatusError].
Proof using All.
  intros Hr%reaches_within Hrun. destruct (run_within _ _ _ _ Hr Hrun) as (Hw & x & Hx & Hp & Hk).
  split; [apply within_pending in Hk; [lia|done]|]. intros l w2 Hs.
  apply step_moves_on in Hs as [Hs Hw2]; [|done]. destruct (Hs u x Hx Hp) as (y & Hy & Hxy).
  exists x, y. split_and!; [done..| |].
  - intros Hl. unfold synced_to in Hxy. rewrite decide_False in Hxy by done.
    destruct Hxy as (Hst & Hd & Hre). split_and!; [by rewrite Hst|done..].
  - destruct (Hw2 u y Hy) as (steps & _ & _ & [H|[H|[H _]]]); rewrite H; set_solver.
Qed.
End program.
