(* ===== verification/ClusterDemo.v ===== *)
(** * ClusterDemo: a cluster in memory, and the modules run against it

    Concrete instances of the interfaces of client-go, Helm, the templates and
    the digests, with which the properties of the modules are evaluated. *)

From S2P Require Import Prelude GoLib Errors Resource Module StepMachine Json Names Validator Worker Kube Kubernetes KafkaModule Flink Helm ConsumerReset Charts FirehoseTypes FirehoseConfig Firehose FirehoseProps FirehoseRun FirehoseSync FirehoseModule.
From Stdlib Require Import Ascii.

#[local] Open Scope Z_scope.

(** ** The cluster *)

(** The answers the next readings of a job get, the releases, the clock. *)
Record demo_cluster := mkCluster {
  cl_jobs : list job_status;
  cl_releases : gmap string release;
  cl_clock : Time;
}.

Definition demo_start : demo_cluster := mkCluster [] ∅ 1000.

Definition demo_kube : KubeAPI demo_cluster := {|
  DefaultTokenSource := mret tt;
  TokenSource_Token := mret "t0ken";
  NewForConfig _ := Ok tt;
  jobs_Create _ _ := mret tt;
  jobs_Get _ _ _ := λ w,
    match cl_jobs w with
    | s :: l => (Ok s, mkCluster l (cl_releases w) (cl_clock w))
    | [] => (Err (ENew "job not found"), w)
    end;
  pods_List _ _ _ _ := mret [];
  pods_Logs _ _ _ _ := mret [];
  deployments_Get _ _ name := throw (ENew "not found");
  IsNotFound _ := true;
  label_selector k v := Ok (k +:+ "=" +:+ v);
  field_selector k v := k +:+ "=" +:+ v;
  decode_LogOptions _ := Ok (mkLogOptions "" "" "" "" "" "" "" "");
|}.

Definition demo_version : VersionAPI demo_cluster := {|
  version_Info := string;
  Info_zero := "";
  dec_Info := λ j _, match j with JStr s => Ok s | _ => Err (ENew "not a version") end;
  enc_Info := JStr;
  ServerVersion _ := mret "v1.27";
  dec_enc_Info _ := eq_refl;
|}.

(** Releases keep their values as documents do. *)
Definition stored (v : any) : any :=
  match v with AStrMap m => AMap (AStr <$> gm m) | v => v end.

Definition demo_put (name : string) (values : gmap string any) : io demo_cluster release := λ w,
  let rel := mkRelease name (stored <$> values) in
  (Ok rel, mkCluster (cl_jobs w) (<[name := rel]> (cl_releases w)) (cl_clock w)).

Definition demo_helm : HelmAPI demo_cluster := {|
  action_config := string;
  chart := string;
  chart_Type _ := typeApplication;
  DefaultServerURL host _ := Ok ("https://" +:+ host);
  action_Init _ _ ns := mret ns;
  action_Get _ name := λ w,
    match cl_releases w !! name with
    | Some rel => (Ok rel, w)
    | None => (Err (ENew "release: not found"), w)
    end;
  action_Install _ o _ values := demo_put (opt_ReleaseName o) values;
  action_Upgrade _ o _ values := demo_put (opt_ReleaseName o) values;
  action_Uninstall _ _ := mret tt;
  ParseRequestURI _ := true;
  LocateChart _ _ name := mret name;
  loader_Load path := mret path;
|}.

Definition demo_template : Template := {|
  template := string;
  template_Parse := Ok;
  template_Execute t _ := Ok t;
|}.

Definition zeros (n : nat) : string := str (replicate n "0"%char).

Definition demo_digests : Digests.
Proof.
  refine {| sha256_hex _ := zeros 64; md5_hex _ := zeros 32 |}; intros s; [done..|].
  unfold zeros. rewrite chars_str. by apply Forall_replicate.
Defined.

Definition demo_tags : TagValidator driverConf := {| validate_tags _ := None |}.

#[local] Existing Instance demo_gojson.
#[local] Existing Instance demo_accept.
#[local] Existing Instance range_sorted.
#[local] Existing Instance demo_kube.
#[local] Existing Instance demo_version.
#[local] Existing Instance demo_helm.
#[local] Existing Instance demo_template.
#[local] Existing Instance demo_digests.
#[local] Existing Instance demo_tags.

(** ** Jobs *)

Lemma waitForJob_correct_witness :
  let rc := mkRest "h" 0 true "" "" "" "" 0 "0" in
  let w := mkCluster [mkJobStatus 0 0 0 ""; mkJobStatus 1 0 0 ""; mkJobStatus 0 0 1 "dead"] ∅ 0 in
  ∃ w', ∀ polls, (3 ≤ polls)%nat →
    waitForJob polls rc "ns" "job" w =
      (Err (EErr (WithCausef ErrJobExecutionFailed "dead")), w').
Proof.
  cbv zeta. eexists. intros polls Hp.
  refine (proj1 (waitForJob_correct _ "ns" "job" _
    (Err (EErr (WithCausef ErrJobExecutionFailed "dead"))) _ eq_refl) 3%nat _ polls Hp).
  eapply polled_again; [reflexivity|reflexivity|].
  eapply polled_again; [reflexivity|reflexivity|].
  apply (polled_settled _ _ _ _ (mkJobStatus 0 0 1 "dead")); reflexivity.
Defined.

(** ** Clusters *)

Definition demo_settings : Kube.Config :=
  Kube.mkConfig "10.0.0.1" 1000000 "secret" true "" "" "" "" "" (mkHelmConfig 5) 10 "5".

Definition demo_kube_act : ActionRequest :=
  mkActionRequest CreateAction (MustJSON (Kube.enc_Config demo_settings)) None "jane".

Definition demo_tolerations : kubeDriver :=
  mkKubeDriver None (Some {["firehose_LOG" := Some [mkToleration "k" "v" "NoSchedule" "Equal"]]})
    None None.

Lemma kube_Plan_correct_witness :
  ∃ m r, kube_factory (Some (demo_text_print (JObj []))) = Ok (Some m) ∧
    kube_Plan (Some m) (mkExpanded (demo_resource "kubernetes" "goto" "main") None) demo_kube_act
      demo_start = (Ok r, demo_start) ∧
    ∃ conf0 conf, Sanitise conf0 = Ok conf ∧ Host conf ≠ "".
Proof.
  assert (kube_factory (Some (demo_text_print (JObj []))) = Ok (Some kubeDriver_zero)) as Hm
    by (vm_compute; reflexivity).
  destruct (ok_run (kube_Plan (Some kubeDriver_zero)
    (mkExpanded (demo_resource "kubernetes" "goto" "main") None) demo_kube_act demo_start))
    as (r & w' & H); [vm_compute; reflexivity|].
  assert (w' = demo_start) as ->.
  { apply (f_equal snd) in H. vm_compute in H. symmetry. exact H. }
  exists kubeDriver_zero, r. split; [exact Hm|]. split; [exact H|].
  destruct (kube_Plan_correct _ _ _ _ _ _ _ Hm H) as (c0 & c & i & t & w1 & _ & Hs & Hh & _).
  exists c0, c. split; [exact Hs|exact Hh].
Defined.

Lemma flink_conf_ignored_witness :
  is_ok (flink_Plan (W := demo_cluster) (Some Flink.driverConf_zero)
    (mkExpanded (demo_resource "flink" "goto" "main") None) demo_kube_act demo_start).1 = false.
Proof.
  refine (proj2 (proj2 (flink_conf_ignored (W := demo_cluster) (Some (demo_text_print (JObj []))) _
    (mkExpanded (demo_resource "flink" "goto" "main") None) demo_kube_act demo_start _)) eq_refl).
  vm_compute. reflexivity.
Defined.

(** ** Firehoses *)

Definition demo_conf : driverConf := default_conf initial_globals.

Definition demo_fd : firehoseDriver demo_cluster :=
  mkDriver demo_cluster demo_version cl_clock demo_conf kube_deploy kube_get_pod kube_get_deployment
    (consumer_reset 3 (λ _, mret false)).

Definition demo_params : json :=
  obj [mem "replicas" (enc_int 2); mem "env_variables" (obj [mem "SINK_TYPE" (JStr "LOG")]);
       mem "chart_values" (obj [mem "image_tag" (JStr "0.2.1")])].

Definition demo_deps : gomap ResolvedDependency :=
  Some {["kube_cluster" := mkResolved "kubernetes"
           (MustJSON (Kubernetes.enc_Output (Kubernetes.mkOutput demo_settings "v1.27" demo_tolerations)))]}.

(** The same with a stop time that has passed when the demo starts. *)
Definition demo_stopping : json :=
  obj [mem "replicas" (enc_int 2); mem "stop_time" (enc_time 10);
       mem "env_variables" (obj [mem "SINK_TYPE" (JStr "LOG")]);
       mem "chart_values" (obj [mem "image_tag" (JStr "0.2.1")])].

(** A firehose with the given configs, and the state a plan leaves. *)
Definition demo_firehose (params : json) (steps : list string) : ExpandedResource :=
  mkExpanded (Resource.set_State (pending None steps "" 0)
                (set_Configs (MustJSON params) (demo_resource "firehose" "goto" "events")))
    demo_deps.

Definition demo_config (params : json) : Config :=
  match readConfig "accept" (demo_resource "firehose" "goto" "events") (MustJSON params) demo_conf with
  | Ok c => c
  | _ => Config_zero
  end.

Definition demo_kubeOut : Kubernetes.Output :=
  match read_kubeOut (demo_firehose demo_params []) with
  | Ok o => o
  | _ => Kubernetes.Output_zero
  end.

Lemma ok_is {A} (r : go A) d : is_ok r = true → r = Ok (match r with Ok a => a | _ => d end).
Proof. by destruct r. Qed.

Lemma demo_readable params steps :
  is_ok (readConfig "accept" (demo_resource "firehose" "goto" "events") (MustJSON params) demo_conf) = true →
  readable "accept" demo_fd (demo_firehose params steps) Output_zero (demo_config params) demo_kubeOut.
Proof.
  intros H. split; [reflexivity|exact (ok_is _ Config_zero H)|].
  apply (ok_is _ Kubernetes.Output_zero). vm_compute. reflexivity.
Qed.

Lemma readConfig_correct_witness :
  ∃ c, readConfig "accept" (demo_resource "firehose" "goto" "events") (MustJSON demo_params) demo_conf = Ok c ∧
    gm_get (EnvVariables c) confKeyConsumerID ≠ "" ∧ DeploymentID c ≠ "".
Proof.
  destruct (ok_res (readConfig "accept" (demo_resource "firehose" "goto" "events")
    (MustJSON demo_params) demo_conf)) as [c H]; [vm_compute; reflexivity|].
  exists c. split; [exact H|].
  destruct (readConfig_correct _ _ _ _ _ H) as (c0 & _ & _ & _ & _ & _ & Hn & _ & _ & Hg & _).
  split; [exact Hg|exact Hn].
Defined.

Definition demo_create : ActionRequest := mkActionRequest CreateAction (MustJSON demo_params) None "jane".



Lemma release_step_correct_witness :
  ∃ w', sync_step demo_fd (demo_resource "firehose" "goto" "events") (demo_config demo_params)
          demo_kubeOut "" stepReleaseStop demo_start = (Ok tt, w') ∧
    ∃ rc rel, Upsert (out_Configs demo_kubeOut) rc (canUpdate rc) demo_start = (Ok rel, w') ∧
      Values rc !! "replicaCount" = Some (AInt 0).
Proof.
  destruct (ok_run (sync_step demo_fd (demo_resource "firehose" "goto" "events")
    (demo_config demo_params) demo_kubeOut "" stepReleaseStop demo_start))
    as ([] & w' & H); [vm_compute; reflexivity|].
  exists w'. split; [exact H|].
  assert (stepReleaseStop ∈ [stepReleaseCreate; stepReleaseUpdate; stepReleaseStop]) as Hin
    by (rewrite !elem_of_cons; auto).
  destruct (release_step_correct demo_fd (demo_resource "firehose" "goto" "events")
    (demo_config demo_params) demo_kubeOut "" stepReleaseStop demo_start w' eq_refl Hin H)
    as (rc & rel & Hu & _ & _ & Hr & _).
  exists rc, rel. split; [exact Hu|exact Hr].
Defined.

Lemma deploys_only_its_own_witness :
  ∃ w', sync_step demo_fd (demo_resource "firehose" "goto" "events") (demo_config demo_params)
          demo_kubeOut "" stepReleaseCreate demo_start = (Ok tt, w') ∧
    ∃ rc, rel_Name rc = DeploymentID (demo_config demo_params) ∧
      upserted (out_Configs demo_kubeOut) rc (owned_by (demo_config demo_params)) demo_start true w'.
Proof.
  destruct (ok_run (sync_step demo_fd (demo_resource "firehose" "goto" "events")
    (demo_config demo_params) demo_kubeOut "" stepReleaseCreate demo_start))
    as ([] & w' & H); [vm_compute; reflexivity|].
  exists w'. split; [exact H|].
  assert (stepReleaseCreate ∈ [stepReleaseCreate; stepReleaseUpdate; stepReleaseStop]) as Hin
    by (rewrite !elem_of_cons; auto).
  destruct (deploys_only_its_own demo_fd (demo_resource "firehose" "goto" "events")
    (demo_config demo_params) demo_kubeOut "" stepReleaseCreate demo_start (Ok tt) w' eq_refl Hin H)
    as [[Hf _]|(rc & _ & Hn & _ & Hu)]; [discriminate Hf|].
  exists rc. split; [exact Hn|exact Hu].
Defined.

Lemma consumer_reset_correct_witness :
  ∃ r w', is_panic r = false ∧
    consumer_reset 3 (λ _, mret false) (demo_config demo_params) demo_kubeOut "latest" 5 demo_start = (r, w') ∧
    reset_run (λ _, mret false) (demo_config demo_params) demo_kubeOut "latest" 5 demo_start r w'.
Proof.
  destruct (consumer_reset 3 (λ _, mret false) (demo_config demo_params) demo_kubeOut "latest" 5 demo_start)
    as [r w'] eqn:H.
  assert (is_panic r = false) as Hr.
  { apply (f_equal (λ p, is_panic p.1)) in H. etransitivity; [symmetry; exact H|]. vm_compute. reflexivity. }
  exists r, w'. split; [exact Hr|]. split; [reflexivity|].
  exact (consumer_reset_correct 3 (λ _, mret false) (demo_config demo_params) demo_kubeOut "latest" 5
    demo_start r w' H Hr).
Defined.

Lemma sync_completes_witness :
  ∃ st w', firehose_Sync "accept" demo_fd (demo_firehose demo_stopping []) demo_start = (Ok st, w') ∧
    Status st = StatusCompleted ∧ NextSyncAt st = None.
Proof.
  destruct (ok_run (firehose_Sync "accept" demo_fd (demo_firehose demo_stopping []) demo_start))
    as (st & w' & H); [vm_compute; reflexivity|].
  exists st, w'. split; [exact H|].
  assert (readTransientData (demo_firehose demo_stopping []) = Ok (mkTransient (Some []) "")) as Ht
    by (vm_compute; reflexivity).
  assert (readable "accept" demo_fd (demo_firehose demo_stopping []) Output_zero
    (demo_config demo_stopping) demo_kubeOut) as Hr
    by (apply demo_readable; vm_compute; reflexivity).
  destruct (sync_completes "accept" demo_fd _ _ _ _ _ _ _ _ Hr Ht eq_refl H)
    as (Hs & _ & Hn & _).
  split; [exact Hs|]. etransitivity; [exact Hn|]. vm_compute. reflexivity.
Defined.

Definition demo_module_configs : json := obj [mem "namespace" (obj [mem "default" (JStr "alpha")])].

Lemma default_maps_are_shared_witness :
  ∃ fd2 g2, firehose_factory cl_clock 3 (λ _, mret false)
              (firehose_factory cl_clock 3 (λ _, mret false) initial_globals
                 (MustJSON demo_module_configs)).2 (MustJSON (JObj [])) = (Ok fd2, g2) ∧
    dc_Namespace (conf fd2) = Some {["default" := "alpha"]}.
Proof.
  destruct (ok_run (firehose_factory cl_clock 3 (λ _, mret false) initial_globals
    (MustJSON demo_module_configs))) as (fd1 & g1 & H1); [vm_compute; reflexivity|].
  destruct (ok_run (firehose_factory cl_clock 3 (λ _, mret false) g1 (MustJSON (JObj []))))
    as (fd2 & g2 & H2).
  { apply (f_equal snd) in H1. cbn [snd] in H1. rewrite <- H1. vm_compute. reflexivity. }
  exists fd2, g2. rewrite H1. split; [exact H2|].
  assert (json_parse (raw_bytes (MustJSON (JObj []))) = Ok (JObj [])) as Hp
    by (vm_compute; reflexivity).
  apply (proj1 (default_maps_are_shared _ _ _ _ _ _ _ _ _ _ H1 Hp H2)).
  assert (match (firehose_factory cl_clock 3 (λ _, mret false) initial_globals
    (MustJSON demo_module_configs)).1 with Ok fd => dc_Namespace (conf fd) | _ => None end =
    Some {["default" := "alpha"]}) as E by (vm_compute; reflexivity).
  rewrite H1 in E. exact E.
Defined.
