(* ===== verification/JobDemo.v ===== *)
(** * JobDemo: jobs run against the cluster in memory *)

From S2P Require Import Prelude GoLib Errors Resource Module StepMachine Json Names Validator Kube Kubernetes KafkaModule Helm Charts FirehoseConfig ClusterDemo KubeJob JobConfig Job JobProps.

#[local] Open Scope Z_scope.

#[local] Existing Instance demo_gojson.
#[local] Existing Instance demo_accept.
#[local] Existing Instance range_sorted.
#[local] Existing Instance demo_kube.
#[local] Existing Instance demo_version.
#[local] Existing Instance demo_digests.

Definition demo_batch : BatchAPI demo_cluster := {|
  Quantity := string;
  Quantity_zero := "0";
  ParseQuantity := inr;
  v1_Job := job_template string * option bool;
  job_of t := (t, None);
  set_Suspend b j := (j.1, Some b);
  v1_Status _ := mkV1JobStatus (Some 0) 0 1;
  watch_Interface := ();
  batch_Create _ _ _ := mret tt;
  batch_Get _ _ _ := throw (ENew "not found");
  batch_Update _ _ _ := mret tt;
  batch_Delete _ _ _ _ := mret tt;
  batch_Watch _ _ _ _ := mret tt;
  watch_drain _ := mret tt;
|}.
#[local] Existing Instance demo_batch.

Definition demo_job_driver : jobDriver demo_cluster :=
  mkJobDriver demo_cluster demo_version (Job.defaultDriverConf initial_limits) kube_create_job
    kube_suspend_job kube_delete_job kube_start_job kube_job_pods kube_job_logs.

Definition demo_job_params : json :=
  obj [mem "replicas" (enc_int 1); mem "namespace" (JStr "batch");
       mem "containers" (JArr [obj [mem "name" (JStr "main"); mem "image" (JStr "img:1");
                                    mem "command" (JArr [])]])].

Definition demo_job : ExpandedResource := mkExpanded (demo_resource "job" "goto" "report") demo_deps.

Definition demo_job_create : ActionRequest :=
  mkActionRequest CreateAction (MustJSON demo_job_params) None "jane".

Lemma stored_config_is_stable_witness :
  ∃ c, JobConfig.ReadConfig "accept" (demo_resource "job" "goto" "report") (MustJSON demo_job_params)
         (Conf demo_job_driver) = Ok c ∧
    ∀ r, json_wf (JobConfig.enc_Config c) = true →
      passes "accept" (MustJSON (JobConfig.enc_Config c)) →
      JobConfig.ReadConfig "accept" r (MustJSON (JobConfig.enc_Config c)) (Conf demo_job_driver) =
        Ok (tidy c).
Proof.
  destruct (ok_res (JobConfig.ReadConfig "accept" (demo_resource "job" "goto" "report")
    (MustJSON demo_job_params) (Conf demo_job_driver))) as [c H]; [vm_compute; reflexivity|].
  exists c. split; [exact H|]. intros r.
  exact (proj2 (stored_config_is_stable "accept" _ r _ _ _ H)).
Defined.

Lemma job_action_reaches_cluster_witness :
  ∃ r, job_Plan "accept" cl_clock demo_job_driver demo_job demo_job_create demo_start = (Ok r, demo_start) ∧
    ∃ c, config_ready (Conf demo_job_driver) c ∧
      r = planPendingWithConf c demo_job [Create] (cl_clock demo_start).
Proof.
  destruct (ok_run (job_Plan "accept" cl_clock demo_job_driver demo_job demo_job_create demo_start))
    as (r & w' & H); [vm_compute; reflexivity|].
  destruct (ok_res (Job.read_kubeOut demo_job)) as [ko Hk]; [vm_compute; reflexivity|].
  assert (step_of (act_Name demo_job_create) = Some Create) as Hs by reflexivity.
  destruct (job_action_reaches_cluster "accept" cl_clock demo_job_driver demo_job demo_job_create
    demo_start r w' Create ko Hs H Hk) as (Hw & c0 & c & _ & _ & _ & Hc & Hr & _).
  exists r. split; [rewrite H, Hw; reflexivity|]. exists c. split; [exact Hc|exact Hr].
Defined.
