(* ===== verification/DaggerDemo.v ===== *)
(** * DaggerDemo: daggers run against the cluster in memory *)

From S2P Require Import Prelude GoLib Errors Resource Module StepMachine Json Names Validator Kube Kubernetes KafkaModule Flink Helm ConsumerReset FirehoseConfig ClusterDemo Charts GoText KubeCRD DaggerTypes DaggerConfig Dagger DaggerProps DaggerRead DaggerStored DaggerRun DaggerRelease.

#[local] Open Scope Z_scope.

#[local] Existing Instance demo_gojson.
#[local] Existing Instance demo_accept.
#[local] Existing Instance range_sorted.
#[local] Existing Instance demo_kube.
#[local] Existing Instance demo_version.
#[local] Existing Instance demo_helm.
#[local] Existing Instance demo_template.
#[local] Existing Instance demo_digests.

Definition demo_unicode : Unicode := {| IsPrint_table r := 128 <=? r |}.
#[local] Existing Instance demo_unicode.

(** A Flink deployment that runs, and no service that answers. *)
Definition demo_crd : CRDAPI demo_cluster := {|
  dynamic_NewForConfig _ := Ok tt;
  dynamic_Get _ _ _ _ := mret {["status" := vmap [("jobManagerDeploymentStatus", AStr "READY");
    ("jobStatus", vmap [("state", AStr "RUNNING")])]]};
  services_ProxyGet _ _ _ _ _ _ := throw (ENew "connection refused");
  IsServiceUnavailable _ := true;
|}.
#[local] Existing Instance demo_crd.

Definition demo_dd : daggerDriver demo_cluster :=
  mkDriver demo_cluster demo_version cl_clock defaultDriverConf kube_deploy kube_get_pod kube_get_crd
    consumer_reset kube_proxy_service.

Definition demo_flink : Flink.Config := Flink.mkConfig "alpha" Influx_zero "" "http://prom" "flink-1" None.

Definition demo_flink_deps : gomap ResolvedDependency :=
  Some {["flink" := mkResolved "flink" (MustJSON (enc_flink_Output
    (mkFlinkOutput (Kubernetes.mkOutput demo_settings "v1.27" demo_tolerations) demo_flink)))]}.

Definition demo_dagger_params : json :=
  obj [mem "replicas" (enc_int 2); mem "sink_type" (JStr "KAFKA"); mem "team" (JStr "data");
       mem "env_variables" (obj [mem "SINK_TYPE" (JStr "KAFKA")]);
       mem "source" (JArr [obj [mem "SOURCE_KAFKA_NAME" (JStr "main")]])].

Definition demo_dagger : ExpandedResource :=
  mkExpanded (set_Labels (Some ∅) (demo_resource "dagger" "goto" "orders")) demo_flink_deps.

Definition demo_dagger_create : ActionRequest :=
  mkActionRequest CreateAction (MustJSON demo_dagger_params) None "jane".

Lemma dagger_config_settles_witness :
  ∃ c, readConfig "accept" demo_dagger (MustJSON demo_dagger_params) defaultDriverConf = Ok c ∧
    ∃ flink, settled defaultDriverConf (exr_Resource demo_dagger) flink c.
Proof.
  destruct (ok_res (readConfig "accept" demo_dagger (MustJSON demo_dagger_params) defaultDriverConf))
    as [c H]; [vm_compute; reflexivity|].
  exists c. split; [exact H|].
  destruct (dagger_config_settles "accept" _ _ _ _ H) as (fl & c0 & _ & _ & _ & _ & S & _).
  exists (fo_Config fl). exact S.
Defined.

Lemma dagger_action_deploys_witness :
  ∃ r, dagger_Plan "accept" demo_dd demo_dagger demo_dagger_create demo_start = (Ok r, demo_start) ∧
    Status (res_State r) = StatusPending ∧ NextSyncAt (res_State r) = Some 1000.
Proof.
  destruct (ok_run (dagger_Plan "accept" demo_dd demo_dagger demo_dagger_create demo_start))
    as (r & w' & H); [reflexivity|].
  assert (well_asked "accept" demo_dd demo_dagger demo_dagger_create) as Hask
    by (split; discriminate).
  destruct (dagger_action_deploys "accept" (TJ := demo_gojson_texts) demo_dd demo_dagger demo_dagger_create
    demo_start r w' Hask H (or_introl eq_refl)) as (Hw & fl & c & _ & _ & _ & _ & Hs & Hn & _).
  exists r. split; [rewrite H, Hw; reflexivity|]. split; [exact Hs|exact Hn].
Defined.

(** The config that is deployed, running until the given time. *)
Definition demo_dagger_config (stop : option Time) : Config :=
  mkConfig Resources_zero (Some [Source_zero]) Sink_zero (Some {[keySinkType := "KAFKA"]}) 2 "KAFKA" "data"
    "flink-1" "goto-orders-dagger" ANil (Some (dc_ChartValues defaultDriverConf)) false "alpha" "http://prom"
    "job.jar" StateDeployed JobStateRunning "" stop "" "" "" "gcp" "".

Definition demo_dagger_kube : Kubernetes.Output := Kubernetes.mkOutput demo_settings "v1.27" demo_tolerations.

Lemma dagger_release_correct_witness :
  ∃ c w', releaseSync demo_dd (exr_Resource demo_dagger) true (demo_dagger_config None) demo_dagger_kube
            demo_start = (Ok c, w') ∧
    gm_get (EnvVariables c) keySinkType = "kafka" ∧
    ∃ rc, runs (demo_dagger_config None) rc ∧ rel_Name rc = "goto-orders-dagger" ∧
      upserted (out_Configs demo_dagger_kube) rc (owned (demo_dagger_config None)) demo_start true w'.
Proof.
  destruct (ok_run (releaseSync demo_dd (exr_Resource demo_dagger) true (demo_dagger_config None)
    demo_dagger_kube demo_start)) as (c & w' & H); [reflexivity|].
  destruct (dagger_release_correct demo_dd _ _ _ _ _ _ _ eq_refl H)
    as [(_ & Hf & _)|(rc & Hn & _ & Hr & Hu & He)]; [discriminate Hf|].
  exists c, w'. split; [exact H|]. split; [rewrite (He c eq_refl); reflexivity|].
  exists rc. split; [exact Hr|]. split; [exact Hn|exact Hu].
Defined.

Lemma dagger_stops_on_time_witness :
  ∃ st w', finish_sync demo_dd (exr_Resource demo_dagger) (demo_dagger_config (Some 10)) Output_zero
             demo_dagger_kube demo_start = (Ok st, w') ∧ NextSyncAt st = None ∧
    ∃ w1, deployed (set_states StateSystemStopped JobStateSuspended (demo_dagger_config (Some 10)))
            demo_dagger_kube demo_start w1.
Proof.
  destruct (ok_run (finish_sync demo_dd (exr_Resource demo_dagger) (demo_dagger_config (Some 10))
    Output_zero demo_dagger_kube demo_start)) as (st & w' & H); [reflexivity|].
  exists st, w'. split; [exact H|].
  destruct (dagger_stops_on_time demo_dd (exr_Resource demo_dagger) (demo_dagger_config (Some 10))
    Output_zero demo_dagger_kube 10 demo_start st w' eq_refl eq_refl H) as (_ & Hn & w1 & Hd & _).
  split; [exact Hn|]. exists w1. exact Hd.
Defined.

Lemma dagger_output_correct_witness :
  ∃ out w', refreshOutput demo_dd (exr_Resource demo_dagger) (demo_dagger_config None) Output_zero
              demo_dagger_kube demo_start = (Ok (MustJSON (enc_Output out)), w').
Proof.
  assert (is_ok (getHelmRelease (conf demo_dd) (exr_Resource demo_dagger) (demo_dagger_config None)
    demo_dagger_kube) = true) as Hr by reflexivity.
  destruct (dagger_output_correct demo_dd (exr_Resource demo_dagger) (demo_dagger_config None) Output_zero
    demo_dagger_kube demo_start Hr) as [(out & w' & H & _)|(s & w' & H & _)].
  - exists out, w'. exact H.
  - exfalso. apply (f_equal (λ p, is_ok p.1)) in H. discriminate H.
Defined.

Definition demo_source (group : string) : Source :=
  set_Kafka (set_group group (mkSourceKafka "" "" "" "" "" "")) Source_zero.

Lemma consumer_reset_fresh_witness :
  let c := set_Source (Some [demo_source "orders-0001"; demo_source "orders-0007"]) Config_zero in
  ∃ source, consumer_reset c "latest" = Ok (Some source) ∧
    group_of <$> source = ["orders-0008"; "orders-0009"].
Proof.
  cbv zeta. set (l := [demo_source "orders-0001"; demo_source "orders-0007"]).
  assert (group_of <$> l = numbered "orders" <$> [1; 7]) as Hg by reflexivity.
  assert (Forall (λ n, 0 ≤ n ≤ 9999) [1; 7]) as Hn by (repeat constructor; lia).
  assert (Z.of_nat (length l) < 2 ^ 62) as Hl by reflexivity.
  assert (l ≠ []) as Hne by discriminate.
  destruct (consumer_reset_fresh (set_Source (Some l) Config_zero) "latest" "orders" [1; 7] l
    eq_refl eq_refl Hne Hg Hn Hl) as (source & m & H & _).
  exists source. split; [exact H|].
  assert (consumer_reset (set_Source (Some l) Config_zero) "latest" =
    Ok (Some (reset_sources "orders-0007" "latest" 0 l))) as E by reflexivity.
  rewrite E in H. injection H as <-. reflexivity.
Defined.
