(* ===== verification/SystemDemo.v ===== *)
(** * SystemDemo: the assembled program in memory

    The world is a database (SqlDemo.v), a cluster (ClusterDemo.v) and the
    memory of the process.  The program of System.v is assembled over it and
    run. *)

From S2P Require Import Prelude GoLib Errors Resource Module Registry Json StoreSpec Service ServiceFacts Scheduling Sql SqlLogic SqlDemo Postgres PostgresFacts PostgresRefine PostgresProps SyncOne Names Validator Kube KubeJob KubeCRD Kubernetes KafkaModule Flink Helm Charts GoText Calm ClusterFrame DriverLaws System Progress PendingSteps ClusterDemo JobDemo DaggerDemo.
From S2P Require FirehoseTypes JobConfig DaggerTypes Completion.

#[local] Open Scope Z_scope.

Definition demo_program : Type := demo_db * (demo_cluster * default_maps).

(** ** Calls on a part of the world *)

Section parts.
Context {V A B : Type}.

Definition on_fst (m : io A V) : io (A * B) V := λ w, let '(r, a) := m w.1 in (r, (a, w.2)).
Definition on_snd (m : io B V) : io (A * B) V := λ w, let '(r, b) := m w.2 in (r, (w.1, b)).
End parts.

(** A connection beside another part of the world keeps its laws. *)
Definition conn_beside {A} (B : Type) (c : Conn A) : Conn (A * B) := {|
  BeginTxx ro := on_fst (BeginTxx c ro);
  Commit := on_fst (Commit c);
  Rollback w := (Rollback c w.1, w.2);
  exec r s := on_fst (exec c r s);
|}.

Lemma on_fst_inv {V A B} (m : io A V) (w : A * B) r w' :
  on_fst m w = (r, w') → m w.1 = (r, w'.1) ∧ w'.2 = w.2.
Proof. unfold on_fst. destruct (m w.1) as [r1 a]. by intros [= <- <-]. Qed.

Lemma on_fst_run {V A B} (m : io A V) (w : A * B) : (on_fst m w).1 = (m w.1).1.
Proof. unfold on_fst. by destruct (m w.1). Qed.

Lemma on_fst_snd_fst {V A B} (m : io A V) (w : A * B) : (on_fst m w).2.1 = (m w.1).2.
Proof. unfold on_fst. by destruct (m w.1). Qed.

Definition engine_beside {A} (B : Type) sch (c : Conn A) (EN : Engine sch c) :
  Engine sch (conn_beside B c).
Proof.
  refine {| tabs := λ w, tabs w.1; saved := λ w, saved w.1; now_of := λ r w, now_of r w.1 |};
    cbn [exec BeginTxx Commit conn_beside].
  - intros w. apply tabs_ok.
  - intros r s w rows w' [H _]%on_fst_inv. by apply exec_meaning in H.
  - intros r s w e w' [H _]%on_fst_inv. by apply exec_Err in H.
  - intros r s w. rewrite on_fst_run. apply exec_no_panic.
  - intros ro w w' [H _]%on_fst_inv. by apply begin_Ok in H.
  - intros ro w e w' [H _]%on_fst_inv. by apply begin_Err in H.
  - intros ro w. rewrite on_fst_run. apply begin_no_panic.
  - intros w w' [H _]%on_fst_inv. by apply commit_Ok in H.
  - intros w e w' [H _]%on_fst_inv. by apply commit_Err in H.
  - intros w. rewrite on_fst_run. apply commit_no_panic.
  - intros w. apply rollback_spec.
  - intros r s w. rewrite on_fst_snd_fst. apply exec_clock.
  - intros ro w. rewrite on_fst_snd_fst. apply begin_clock.
  - intros ro w w' [H _]%on_fst_inv. by apply begin_now in H.
  - intros w. rewrite on_fst_snd_fst. apply commit_clock.
  - intros w. apply rollback_clock.
Defined.

Definition program_pg : pg_store demo_program :=
  mkPgStore _ (conn_beside _ (db demo_pg)) (30 * Second) (20 * Second) (Postgres.mkConfig 20 1).

#[local] Instance program_engine : Engine schema_sql (db program_pg) :=
  engine_beside _ _ _ demo_pg_engine.

#[local] Existing Instance demo_gojson.
#[local] Existing Instance demo_accept.
#[local] Existing Instance range_sorted.
#[local] Existing Instance demo_template.
#[local] Existing Instance demo_digests.
#[local] Existing Instance demo_unicode.
#[local] Existing Instance demo_binding.
#[local] Existing Instance demo_json.

(** ** The libraries, on the cluster of the world *)

Definition on_cluster {A} (m : io demo_cluster A) : io demo_program A := on_snd (on_fst m).

#[local] Instance program_kube : KubeAPI demo_program := {|
  DefaultTokenSource := on_cluster (DefaultTokenSource (KubeAPI := demo_kube));
  TokenSource_Token := on_cluster (TokenSource_Token (KubeAPI := demo_kube));
  NewForConfig := NewForConfig (KubeAPI := demo_kube);
  jobs_Create rc js := on_cluster (jobs_Create (KubeAPI := demo_kube) rc js);
  jobs_Get rc ns name := on_cluster (jobs_Get (KubeAPI := demo_kube) rc ns name);
  pods_List rc ns ls fs := on_cluster (pods_List (KubeAPI := demo_kube) rc ns ls fs);
  pods_Logs rc ns name o := on_cluster (pods_Logs (KubeAPI := demo_kube) rc ns name o);
  deployments_Get rc ns name := on_cluster (deployments_Get (KubeAPI := demo_kube) rc ns name);
  IsNotFound := IsNotFound (KubeAPI := demo_kube);
  label_selector := label_selector (KubeAPI := demo_kube);
  field_selector := field_selector (KubeAPI := demo_kube);
  decode_LogOptions := decode_LogOptions (KubeAPI := demo_kube);
|}.

#[local] Instance program_version : VersionAPI demo_program := {|
  version_Info := string;
  Info_zero := "";
  dec_Info := dec_Info (VersionAPI := demo_version);
  enc_Info := JStr;
  ServerVersion rc := on_cluster (ServerVersion (VersionAPI := demo_version) rc);
  dec_enc_Info _ := eq_refl;
|}.

#[local] Instance program_helm : HelmAPI demo_program := {|
  action_config := string;
  chart := string;
  chart_Type := chart_Type (HelmAPI := demo_helm);
  DefaultServerURL := DefaultServerURL (HelmAPI := demo_helm);
  action_Init h k ns := on_cluster (action_Init (HelmAPI := demo_helm) h k ns);
  action_Get c name := on_cluster (action_Get (HelmAPI := demo_helm) c name);
  action_Install c o ch v := on_cluster (action_Install (HelmAPI := demo_helm) c o ch v);
  action_Upgrade c o ch v := on_cluster (action_Upgrade (HelmAPI := demo_helm) c o ch v);
  action_Uninstall c name := on_cluster (action_Uninstall (HelmAPI := demo_helm) c name);
  ParseRequestURI := ParseRequestURI (HelmAPI := demo_helm);
  LocateChart r v name := on_cluster (LocateChart (HelmAPI := demo_helm) r v name);
  loader_Load p := on_cluster (loader_Load (HelmAPI := demo_helm) p);
|}.

#[local] Instance program_batch : BatchAPI demo_program := {|
  Quantity := string;
  Quantity_zero := "0";
  ParseQuantity := inr;
  v1_Job := job_template string * option bool;
  job_of t := (t, None);
  set_Suspend b j := (j.1, Some b);
  v1_Status := v1_Status (BatchAPI := demo_batch);
  watch_Interface := ();
  batch_Create rc ns j := on_cluster (batch_Create (BatchAPI := demo_batch) rc ns j);
  batch_Get rc ns name := on_cluster (batch_Get (BatchAPI := demo_batch) rc ns name);
  batch_Update rc ns j := on_cluster (batch_Update (BatchAPI := demo_batch) rc ns j);
  batch_Delete rc ns name p := on_cluster (batch_Delete (BatchAPI := demo_batch) rc ns name p);
  batch_Watch _ _ _ _ := mret tt;
  watch_drain _ := mret tt;
|}.

#[local] Instance program_crd : CRDAPI demo_program := {|
  dynamic_NewForConfig := dynamic_NewForConfig (CRDAPI := demo_crd);
  dynamic_Get rc g ns name := on_cluster (dynamic_Get (CRDAPI := demo_crd) rc g ns name);
  services_ProxyGet rc ns s svc port p :=
    on_cluster (services_ProxyGet (CRDAPI := demo_crd) rc ns s svc port p);
  IsServiceUnavailable := IsServiceUnavailable (CRDAPI := demo_crd);
|}.

#[local] Instance program_process : Process demo_program := {|
  defaults w := w.2.2;
  set_defaults d w := (w.1, (w.2.1, d));
  System.time_Now w := cl_clock w.2.1;
  System.ctx_ends_within _ := mret false;
  process_meter := {| Int64Counter _ := mret tt; counter_Add _ _ w := w |};
|}.

#[local] Instance program_tags_firehose : TagValidator FirehoseTypes.driverConf := demo_tags.
#[local] Instance program_tags_job : TagValidator JobConfig.DriverConf := {| validate_tags _ := None |}.
#[local] Instance program_tags_dagger : TagValidator DaggerTypes.driverConf := {| validate_tags _ := None |}.

(** ** Their promises *)

#[local] Notation R := (same_tables program_pg).

Lemma on_cluster_steady {A} (m : io demo_cluster A) : (∀ w, calm (m w).1) → steady R (on_cluster m).
Proof.
  intros H w. specialize (H w.2.1). unfold on_cluster, on_snd, on_fst.
  by destruct (m w.2.1) as [r c].
Qed.

Ltac program_tac := intros; apply on_cluster_steady; intros w; cbn; repeat case_match; done.

#[local] Instance program_calm_json : CalmJSON (GJ := demo_gojson).
Proof.
  split; intros s.
  - unfold json_parse, demo_gojson, demo_text_parse. calm_tac.
  - unfold time_parse, demo_gojson, ParseInt. calm_tac.
Qed.
#[local] Instance program_texts : TextJSON (GJ := demo_gojson) := demo_gojson_texts.
#[local] Instance program_calm_kube : CalmKube (KA := program_kube).
Proof. split. done. Qed.
#[local] Instance program_calm_crd : CalmCRD (CA := program_crd).
Proof. split. done. Qed.
#[local] Instance program_calm_version : CalmVersion (VA := program_version).
Proof. split. intros j old. cbn. by destruct j. Qed.
#[local] Instance program_calm_schema : CalmSchema (JS := demo_accept).
Proof. split; [done|]. intros s p. cbn. by case_decide. Qed.
#[local] Instance program_calm_template : CalmTemplate (TP := demo_template).
Proof. done. Qed.
#[local] Instance program_kube_frame : KubeFrame R.
Proof. split; program_tac. Qed.
#[local] Instance program_version_frame : VersionFrame R.
Proof. split; program_tac. Qed.
#[local] Instance program_batch_frame : BatchFrame R.
Proof. split; program_tac. Qed.
#[local] Instance program_crd_frame : CRDFrame R.
Proof. split; program_tac. Qed.
#[local] Instance program_helm_frame : HelmFrame R.
Proof. split; program_tac. Qed.
#[local] Instance program_process_frame : ProcessFrame R.
Proof. split; done. Qed.

(** ** The program, run *)

Definition program_schemas : schemas := mkSchemas "accept" "accept" "accept" "accept".

Definition program_service : Service demo_program :=
  entropy_service program_schemas 3 program_pg [] (mkSyncerConf 10 2).

Definition program_module (name : string) : Module :=
  mkModule (generateURN name "goto") name "goto" (MustJSON (obj [])) 0 0.

(** An empty database in which the project has the module. *)
Definition program_world (name : string) : demo_program :=
  (pg_CreateModule program_pg (program_module name) (demo_empty, (demo_start, initial_defaults))).2.

Definition program_kafka : Resource :=
  set_Spec (mkSpec (MustJSON demo_kafka_params) None) (demo_resource "kafka" "goto" "main").

(** The state after a Kafka cluster was created. *)
Definition program_created : demo_program :=
  (run_op program_service 2 (OpCreate program_kafka []) (program_world "kafka")).2.

Definition program_urn : string := "orn:entropy:kafka:goto:main".

Lemma entropy_meets_contract_witness :
  size (view_of (tabs program_created)) = 1%nat ∧
  wf_deps (view_of (tabs program_created)) ∧
  GetResource program_service 2 program_urn program_created =
    GetResource program_service 9 program_urn program_created ∧
  (GetResource program_service 2 program_urn program_created).1 ≠ Panic "stack overflow".
Proof.
  assert (size (view_of (tabs program_created)) = 1%nat) as Hs by (vm_compute; reflexivity).
  split; [exact Hs|].
  destruct (proj2 (entropy_meets_contract program_pg program_schemas 3 [] (mkSyncerConf 10 2) 2)
              program_created) as [Hwf Hget].
  - apply (reach_step program_service 2 (program_world "kafka")); [|apply step_op].
    apply reach_init. apply (bool_decide_unpack _). vm_compute. exact I.
  - split; [exact Hwf|]. apply Hget; rewrite Hs; apply Nat.ltb_lt; reflexivity.
Defined.

Definition program_request : ActionRequest :=
  mkActionRequest CreateAction (MustJSON demo_kafka_params) None "jane".

(** A Kafka cluster is planned; in a project whose module is called otherwise,
    a plan is refused. *)
Lemma entropy_accepts_witness :
  (∃ md actions needs,
     (pg_GetModule program_pg (generateURN "kafka" "goto") (program_world "kafka")).1 = Ok md ∧
     (mod_Name md, (actions, needs)) ∈ catalogue ∧ "create" ∈ actions) ∧
  (∃ err, (PlanAction (entropy_registry program_schemas 3) (postgres_modules program_pg)
     (mkExpanded (demo_resource "spark" "goto" "main") None) program_request (program_world "spark")).1 =
     Err (EErr err) ∧ Code err = Code ErrInvalid).
Proof.
  split.
  - pose (e := mkExpanded program_kafka None).
    destruct (ok_res (PlanAction (entropy_registry program_schemas 3) (postgres_modules program_pg)
      e program_request (program_world "kafka")).1) as [r H]; [vm_compute; reflexivity|].
    destruct (proj1 (entropy_accepts program_pg program_schemas 3 e program_request (program_world "kafka"))
      r H) as (md & actions & needs & Hm & Hin & Ha & _).
    exists md, actions, needs. split; [exact Hm|]. split; [exact Hin|exact Ha].
  - apply (proj2 (entropy_accepts program_pg program_schemas 3
      (mkExpanded (demo_resource "spark" "goto" "main") None) program_request (program_world "spark"))
      (program_module "spark")).
    + vm_compute. reflexivity.
    + apply (bool_decide_unpack _). vm_compute. exact I.
Defined.

(** ** The life of a job

    A Kubernetes cluster and a job on it are created; two syncs bring the job to
    its end. *)

(** An empty database, with the modules for clusters and jobs. *)
Definition job_world : demo_program :=
  (pg_CreateModule program_pg (program_module "job")
    (pg_CreateModule program_pg (program_module "kubernetes")
      (demo_empty, (mkCluster [] ∅ 0, initial_defaults))).2).2.

Definition program_cluster : Resource :=
  set_Spec (mkSpec (Params demo_kube_act) None) (demo_resource "kubernetes" "goto" "c1").

Definition program_job : Resource :=
  set_Spec (mkSpec (MustJSON demo_job_params) (Some {["kube_cluster" := "orn:entropy:kubernetes:goto:c1"]}))
    (demo_resource "job" "goto" "report").

Definition cluster_created : demo_program :=
  (run_op program_service 3 (OpCreate program_cluster []) job_world).2.

Definition job_created : demo_program :=
  (run_op program_service 3 (OpCreate program_job []) cluster_created).2.

Definition synced (w : demo_program) : demo_program :=
  (SyncOne (store program_service) ∅ (handleSync program_service 3) w).2.

(** The status and the next sync of every stored resource. *)
Definition overview (w : demo_program) : list (string * string * value) :=
  (λ r, (txt r "urn", txt r "state_status", col r "state_next_sync")) <$>
    rows_of (tabs w) tableResources.

Example job_lifecycle :
  let cluster := ("orn:entropy:kubernetes:goto:c1", StatusCompleted, VNull) in
  let job status next := ("orn:entropy:job:goto:report", status, next) in
  overview job_created = [cluster; job StatusPending (VTime 0)] ∧
  overview (synced job_created) = [cluster; job StatusPending (VTime 0)] ∧
  overview (synced (synced job_created)) = [cluster; job StatusCompleted VNull].
Proof. vm_compute. auto. Qed.

Lemma no_resource_left_behind_witness :
  length (rows_of (tabs (synced job_created)) tableResources) = 2%nat ∧
  ∀ r, r ∈ rows_of (tabs (synced job_created)) tableResources →
    txt r "state_status" = StatusPending → ∃ t, ∀ now, t ≤ now → due now ∅ r.
Proof.
  split; [vm_compute; reflexivity|]. intros r Hr.
  refine (proj2 (no_resource_left_behind program_pg program_schemas 3 [] (mkSyncerConf 10 2) 3
    (synced job_created) _ r Hr)).
  apply (reaches_step program_pg program_schemas 3 [] (mkSyncerConf 10 2) 3 job_created);
    [|apply step_sync].
  apply (reaches_step program_pg program_schemas 3 [] (mkSyncerConf 10 2) 3 cluster_created);
    [|apply step_call].
  apply (reaches_step program_pg program_schemas 3 [] (mkSyncerConf 10 2) 3 job_world);
    [|apply step_call].
  apply reaches_init. apply (bool_decide_unpack _). vm_compute. exact I.
Defined.

(** The job is what the syncer picks; it holds it for half a minute. *)
Lemma SyncOne_correct_witness :
  ∃ u r w1, row_of (tabs job_created) u r ∧ due 0 ∅ r ∧
    view_of (tabs w1) = alter (reschedule (30 * Second)) u (view_of (tabs job_created)).
Proof.
  destruct (pg_SyncOne program_pg [] ∅ (handleSync program_service 3) job_created) as [out w'] eqn:H.
  assert (out = Ok tt) as Ho by (apply (f_equal fst) in H; vm_compute in H; symmetry; exact H).
  destruct (SyncOne_correct program_pg [] ∅ (handleSync program_service 3) job_created out w' H)
    as [(e & He & _)|(u & r & w2 & Hr & Hd & _ & Hv & Hrest)].
  - assert (is_ok (fetchResourceForSync program_pg ∅ job_created).1 = true) as Hok
      by (vm_compute; reflexivity).
    rewrite He in Hok. discriminate Hok.
  - exists u, r. destruct Hrest as [[Hn _]|(_ & w1 & Hw1 & _)]; [by destruct Hn|].
    exists w1. split; [exact Hr|]. split; [exact Hd|]. exact Hw1.
Defined.

Definition job_urn : string := "orn:entropy:job:goto:report".

#[local] Notation program_run := (Completion.run program_pg program_schemas 3 [] (mkSyncerConf 10 2) 3).
#[local] Notation program_steps := (Completion.step program_pg program_schemas 3 [] (mkSyncerConf 10 2) 3).

(** The job is pending after its first sync; the limit is two retries. *)
Lemma syncing_terminates_witness :
  ∃ w, program_run job_urn 1 job_created w ∧ Z.of_nat 1 < 4 * 2 ∧
    ∀ l w2, program_steps l w w2 → l ≠ Some job_urn →
      ∃ x, view_of (tabs w2) !! job_urn = Some x ∧ is_pending x.
Proof.
  destruct (SyncOne (store program_service) ∅ (handleSync program_service 3) job_created)
    as [out w] eqn:H.
  assert (out = Ok tt) as Ho by (apply (f_equal fst) in H; vm_compute in H; symmetry; exact H).
  assert (∀ v : demo_program, bool_decide (Resource.Status ∘ res_State <$> view_of (tabs v) !! job_urn = Some StatusPending) = true →
    ∃ x, view_of (tabs v) !! job_urn = Some x ∧ is_pending x) as Hp.
  { intros v Hv%bool_decide_eq_true. destruct (view_of (tabs v) !! job_urn) as [x|]; [|discriminate Hv].
    exists x. split; [reflexivity|]. by injection Hv. }
  assert (program_run job_urn 1 job_created w) as Hrun.
  { assert (program_run job_urn 0 job_created job_created) as H0.
    { apply Completion.run_none, Hp. vm_compute. reflexivity. }
    assert (program_steps (Some job_urn) job_created w) as H1.
    { assert (next_up program_pg ∅ job_created = Some job_urn) as <- by (vm_compute; reflexivity).
      rewrite Ho in H.
      exact (Completion.step_sync program_pg program_schemas 3 [] (mkSyncerConf 10 2) 3 ∅ job_created (Ok tt) w H). }
    pose proof (Completion.run_more program_pg program_schemas 3 [] (mkSyncerConf 10 2) 3 job_urn 0
      (Some job_urn) job_created job_created w H0 H1) as Hr.
    rewrite decide_True in Hr by reflexivity. apply Hr, Hp.
    apply (f_equal snd) in H. cbn [snd] in H. rewrite <- H. vm_compute. reflexivity. }
  exists w. split; [exact Hrun|].
  destruct (Completion.syncing_terminates program_pg program_schemas 3 [] (mkSyncerConf 10 2) 3
    ltac:(cbn; lia) job_urn 1 job_created w) as [Hn Hs].
  - apply (Completion.reaches_step program_pg program_schemas 3 [] (mkSyncerConf 10 2) 3 None cluster_created);
      [|by apply Completion.step_call].
    apply (Completion.reaches_step program_pg program_schemas 3 [] (mkSyncerConf 10 2) 3 None job_world);
      [|by apply Completion.step_call].
    apply Completion.reaches_init. apply (bool_decide_unpack _). vm_compute. exact I.
  - exact Hrun.
  - split; [exact Hn|]. intros l w2 Hl Hne. destruct (Hs l w2 Hl) as (x & y & _ & Hy & Hw & _).
    exists y. split; [exact Hy|]. exact (proj1 (Hw Hne)).
Defined.
